(** * Si4703 FM receiver driver: register shadow protocol

    A shallow embedding of [src/si4703/Si4703.h] and [src/si4703/Si4703.cpp].

    - C [int] values are integers of [Z]; an arithmetic result outside the
      32-bit range of the ESP32 target, and a division by zero, are undefined
      behaviour and end a run as [Undefined].
    - [uint16_t] words are integers in [0, 2^16); bit fields are allocated
      from the least significant bit, in declaration order, as the GCC
      toolchains of the supported boards do.
    - The [Wire] transport, the pins and the clock are platform services:
      the device on the bus is a parameter (class [Device]); every bus
      transaction, pin operation and delay is recorded in a trace.
    - The busy-wait loops have no bound in the source; here they take a
      number of polls and end a run as [Timeout] when it is used up. *)

From Stdlib Require Import ZArith Lia List Bool.
From stdpp Require Import base list.
Import ListNotations.

Local Open Scope Z_scope.

(** ** Bit fields of a 16-bit word *)

Definition to_uint16 (z : Z) : Z := Z.land z 0xFFFF.

Definition is_uint16 (z : Z) : Prop := 0 <= z < 65536.

Definition get_bits (off width w : Z) : Z :=
  Z.land (Z.shiftr w off) (Z.ones width).

Definition set_bits (off width v w : Z) : Z :=
  Z.lor (Z.ldiff w (Z.shiftl (Z.ones width) off))
        (Z.shiftl (Z.land v (Z.ones width)) off).

(** ** The register file (Si4703.h, [shadow_t])

    [reg.t] lists the members of [struct reg] in declaration order, which is
    the order in which the chip delivers its registers on a block read. *)

Module reg.
Inductive t : Set :=
| STATUSRSSI | READCHAN | RDSA | RDSB | RDSC | RDSD
| DEVICEID | CHIPID
| POWERCFG | CHANNEL | SYSCONFIG1 | SYSCONFIG2 | SYSCONFIG3 | TEST1
| TEST2 | BOOTCONFIG.

Definition all : list t :=
  [STATUSRSSI; READCHAN; RDSA; RDSB; RDSC; RDSD; DEVICEID; CHIPID;
   POWERCFG; CHANNEL; SYSCONFIG1; SYSCONFIG2; SYSCONFIG3; TEST1;
   TEST2; BOOTCONFIG].

(** Position of the member in [shadow.word], the other view of the union. *)
Definition index (r : t) : nat :=
  match r with
  | STATUSRSSI => 0 | READCHAN => 1 | RDSA => 2 | RDSB => 3
  | RDSC => 4 | RDSD => 5 | DEVICEID => 6 | CHIPID => 7
  | POWERCFG => 8 | CHANNEL => 9 | SYSCONFIG1 => 10 | SYSCONFIG2 => 11
  | SYSCONFIG3 => 12 | TEST1 => 13 | TEST2 => 14 | BOOTCONFIG => 15
  end%nat.

(** Register number on the chip, from the comments of [struct reg]. *)
Definition addr (r : t) : Z :=
  match r with
  | STATUSRSSI => 0x0A | READCHAN => 0x0B | RDSA => 0x0C | RDSB => 0x0D
  | RDSC => 0x0E | RDSD => 0x0F | DEVICEID => 0x00 | CHIPID => 0x01
  | POWERCFG => 0x02 | CHANNEL => 0x03 | SYSCONFIG1 => 0x04
  | SYSCONFIG2 => 0x05 | SYSCONFIG3 => 0x06 | TEST1 => 0x07
  | TEST2 => 0x08 | BOOTCONFIG => 0x09
  end.

Definition eqb (a b : t) : bool := Nat.eqb (index a) (index b).
End reg.

(** A named bit field: the register it lives in, its first bit and width. *)
Record bitfield : Set := BF { bf_reg : reg.t; bf_off : Z; bf_width : Z }.

(** One entry of a [struct bits] declaration: a named field or padding. *)
Inductive member : Set :=
| Named (f : bitfield)
| Pad (width : Z).

Definition member_width (m : member) : Z :=
  match m with Named f => bf_width f | Pad n => n end.

(** A declaration is laid out correctly for register [r] when every named
    field sits in [r] right after the members declared before it. *)
Fixpoint laid_out (r : reg.t) (off : Z) (ms : list member) : bool :=
  match ms with
  | [] => Z.eqb off 16
  | m :: ms' =>
      match m with
      | Named f => reg.eqb (bf_reg f) r && Z.eqb (bf_off f) off
      | Pad _ => true
      end && laid_out r (off + member_width m) ms'
  end.

Module bits.
Import reg.
(* DEVICEID_t *)
Definition MFGID := BF DEVICEID 0 12.
Definition PN := BF DEVICEID 12 4.
(* CHIPID_t *)
Definition FIRMWARE := BF CHIPID 0 6.
Definition DEV := BF CHIPID 6 4.
Definition REV := BF CHIPID 10 6.
(* POWERCFG_t *)
Definition ENABLE := BF POWERCFG 0 1.
Definition DISABLE := BF POWERCFG 6 1.
Definition SEEK := BF POWERCFG 8 1.
Definition SEEKUP := BF POWERCFG 9 1.
Definition SKMODE := BF POWERCFG 10 1.
Definition RDSM := BF POWERCFG 11 1.
Definition MONO := BF POWERCFG 13 1.
Definition DMUTE := BF POWERCFG 14 1.
Definition DSMUTE := BF POWERCFG 15 1.
(* CHANNEL_t *)
Definition CHAN := BF CHANNEL 0 10.
Definition TUNE := BF CHANNEL 15 1.
(* SYSCONFIG1_t *)
Definition GPIO1 := BF SYSCONFIG1 0 2.
Definition GPIO2 := BF SYSCONFIG1 2 2.
Definition GPIO3 := BF SYSCONFIG1 4 2.
Definition BLNDADJ := BF SYSCONFIG1 6 2.
Definition AGCD := BF SYSCONFIG1 10 1.
Definition DE := BF SYSCONFIG1 11 1.
Definition RDS := BF SYSCONFIG1 12 1.
Definition STCIEN := BF SYSCONFIG1 14 1.
Definition RDSIEN := BF SYSCONFIG1 15 1.
(* SYSCONFIG2_t *)
Definition VOLUME := BF SYSCONFIG2 0 4.
Definition SPACE := BF SYSCONFIG2 4 2.
Definition BAND := BF SYSCONFIG2 6 2.
Definition SEEKTH := BF SYSCONFIG2 8 8.
(* SYSCONFIG3_t *)
Definition SKCNT := BF SYSCONFIG3 0 4.
Definition SKSNR := BF SYSCONFIG3 4 4.
Definition VOLEXT := BF SYSCONFIG3 8 1.
Definition SMUTEA := BF SYSCONFIG3 12 2.
Definition SMUTER := BF SYSCONFIG3 14 2.
(* TEST1_t *)
Definition AHIZEN := BF TEST1 14 1.
Definition XOSCEN := BF TEST1 15 1.
(* STATUSRSSI_t *)
Definition RSSI := BF STATUSRSSI 0 8.
Definition ST := BF STATUSRSSI 8 1.
Definition BLERA := BF STATUSRSSI 9 2.
Definition RDSS := BF STATUSRSSI 11 1.
Definition AFCRL := BF STATUSRSSI 12 1.
Definition SFBL := BF STATUSRSSI 13 1.
Definition STC := BF STATUSRSSI 14 1.
Definition RDSR := BF STATUSRSSI 15 1.
(* READCHAN_t *)
Definition READCHAN := BF reg.READCHAN 0 10.
Definition BLERD := BF reg.READCHAN 10 2.
Definition BLERC := BF reg.READCHAN 12 2.
Definition BLERB := BF reg.READCHAN 14 2.
End bits.

(** The [struct bits] declarations of the header, member by member. *)
Definition DEVICEID_t := [Named bits.MFGID; Named bits.PN].
Definition CHIPID_t := [Named bits.FIRMWARE; Named bits.DEV; Named bits.REV].
Definition POWERCFG_t :=
  [Named bits.ENABLE; Pad 5; Named bits.DISABLE; Pad 1; Named bits.SEEK;
   Named bits.SEEKUP; Named bits.SKMODE; Named bits.RDSM; Pad 1;
   Named bits.MONO; Named bits.DMUTE; Named bits.DSMUTE].
Definition CHANNEL_t := [Named bits.CHAN; Pad 5; Named bits.TUNE].
Definition SYSCONFIG1_t :=
  [Named bits.GPIO1; Named bits.GPIO2; Named bits.GPIO3; Named bits.BLNDADJ;
   Pad 2; Named bits.AGCD; Named bits.DE; Named bits.RDS; Pad 1;
   Named bits.STCIEN; Named bits.RDSIEN].
Definition SYSCONFIG2_t :=
  [Named bits.VOLUME; Named bits.SPACE; Named bits.BAND; Named bits.SEEKTH].
Definition SYSCONFIG3_t :=
  [Named bits.SKCNT; Named bits.SKSNR; Named bits.VOLEXT; Pad 3;
   Named bits.SMUTEA; Named bits.SMUTER].
Definition TEST1_t := [Pad 14; Named bits.AHIZEN; Named bits.XOSCEN].
Definition STATUSRSSI_t :=
  [Named bits.RSSI; Named bits.ST; Named bits.BLERA; Named bits.RDSS;
   Named bits.AFCRL; Named bits.SFBL; Named bits.STC; Named bits.RDSR].
Definition READCHAN_t :=
  [Named bits.READCHAN; Named bits.BLERD; Named bits.BLERC; Named bits.BLERB].

(** ** The shadow: [uint16_t word[16]] overlaid with [struct reg] *)

Abbreviation shadow_t := (list Z).

Definition word (sh : shadow_t) (i : nat) : Z := default 0 (sh !! i).

Definition set_word (sh : shadow_t) (i : nat) (v : Z) : shadow_t :=
  <[i := to_uint16 v]> sh.

Definition get_field (f : bitfield) (sh : shadow_t) : Z :=
  get_bits (bf_off f) (bf_width f) (word sh (reg.index (bf_reg f))).

Definition set_field (f : bitfield) (v : Z) (sh : shadow_t) : shadow_t :=
  <[reg.index (bf_reg f) :=
      set_bits (bf_off f) (bf_width f) v (word sh (reg.index (bf_reg f)))]> sh.

Definition shadow_ok (sh : shadow_t) : Prop :=
  length sh = 16%nat /\ Forall is_uint16 sh.

(** ** Constants of the header *)

Definition BAND_US_EU : Z := 0.
Definition BAND_JPW : Z := 1.
Definition BAND_JP : Z := 2.

Definition DE_75us : Z := 0.
Definition DE_50us : Z := 1.

Definition SPACE_200KHz : Z := 0.
Definition SPACE_100KHz : Z := 1.
Definition SPACE_50KHz : Z := 2.

Definition GPIO1 : Z := 1.
Definition GPIO2 : Z := 2.
Definition GPIO3 : Z := 3.

Definition GPIO_Z : Z := 0.
Definition GPIO_I : Z := 1.
Definition GPIO_Low : Z := 2.
Definition GPIO_High : Z := 3.

Definition SKMODE_WRAP : Z := 0.
Definition SKMODE_STOP : Z := 1.
Definition SKSNR_MAX : Z := 0xF.
Definition SKCNT_MIN : Z := 0xF.

Definition SMA_16dB : Z := 0.
Definition SMRR_Fastest : Z := 0.
Definition BLA_31_49 : Z := 0.

Definition SI4703_DEFAULT_RST : Z := 9.
Definition SI4703_DEFAULT_SDA : Z := 7.
Definition SI4703_DEFAULT_SCL : Z := 8.

Definition I2C_ADDR : Z := 0x10.
Definition SEEK_DOWN : Z := 0.
Definition SEEK_UP : Z := 1.

(** ** The driver object (class [Si4703], private members) *)

Record Si4703 : Type := {
  _rstPin : Z; _sdioPin : Z; _sclkPin : Z; _intPin : Z;
  _band : Z; _space : Z; _de : Z;
  _bandStart : Z; _bandEnd : Z; _bandSpacing : Z;
  _skmode : Z; _seekth : Z; _skcnt : Z; _sksnr : Z; _agcd : Z;
  shadow : shadow_t
}.

Definition with_shadow (sh : shadow_t) (o : Si4703) : Si4703 :=
  {| _rstPin := _rstPin o; _sdioPin := _sdioPin o; _sclkPin := _sclkPin o;
     _intPin := _intPin o; _band := _band o; _space := _space o;
     _de := _de o; _bandStart := _bandStart o; _bandEnd := _bandEnd o;
     _bandSpacing := _bandSpacing o; _skmode := _skmode o;
     _seekth := _seekth o; _skcnt := _skcnt o; _sksnr := _sksnr o;
     _agcd := _agcd o; shadow := sh |}.

Definition with_band (lo hi : Z) (o : Si4703) : Si4703 :=
  {| _rstPin := _rstPin o; _sdioPin := _sdioPin o; _sclkPin := _sclkPin o;
     _intPin := _intPin o; _band := _band o; _space := _space o;
     _de := _de o; _bandStart := lo; _bandEnd := hi;
     _bandSpacing := _bandSpacing o; _skmode := _skmode o;
     _seekth := _seekth o; _skcnt := _skcnt o; _sksnr := _sksnr o;
     _agcd := _agcd o; shadow := shadow o |}.

Definition with_spacing (sp : Z) (o : Si4703) : Si4703 :=
  {| _rstPin := _rstPin o; _sdioPin := _sdioPin o; _sclkPin := _sclkPin o;
     _intPin := _intPin o; _band := _band o; _space := _space o;
     _de := _de o; _bandStart := _bandStart o; _bandEnd := _bandEnd o;
     _bandSpacing := sp; _skmode := _skmode o;
     _seekth := _seekth o; _skcnt := _skcnt o; _sksnr := _sksnr o;
     _agcd := _agcd o; shadow := shadow o |}.

(** The constructor copies its arguments; the band limits, the spacing and
    the shadow are not initialised by it and keep what the object held. *)
Definition Si4703_new (rstPin sdioPin sclkPin intPin band space de
                       skmode seekth skcnt sksnr agcd : Z)
                      (raw : Si4703) : Si4703 :=
  {| _rstPin := rstPin; _sdioPin := sdioPin; _sclkPin := sclkPin;
     _intPin := intPin; _band := band; _space := space; _de := de;
     _bandStart := _bandStart raw; _bandEnd := _bandEnd raw;
     _bandSpacing := _bandSpacing raw; _skmode := skmode;
     _seekth := seekth; _skcnt := skcnt; _sksnr := sksnr; _agcd := agcd;
     shadow := shadow raw |}.

(** The default arguments of the header (ESP32 pins). *)
Definition Si4703_default : Si4703 -> Si4703 :=
  Si4703_new SI4703_DEFAULT_RST SI4703_DEFAULT_SDA SI4703_DEFAULT_SCL 0
             BAND_US_EU SPACE_100KHz DE_75us
             SKMODE_STOP 24 SKCNT_MIN SKSNR_MAX 0.

(** ** Platform services: pins, clock and the two-wire transport *)

Inductive pin_mode : Set := OUTPUT | INPUT_PULLUP.

Inductive event : Type :=
| EvPinMode (pin : Z) (m : pin_mode)
| EvDigitalWrite (pin : Z) (high : bool)
| EvDelay (ms : Z)
| EvWireBegin (sda scl : Z)
| EvRequest (addr quantity : Z) (received : list Z)
| EvTransmit (addr : Z) (sent : list Z) (status : Z).

(** Whatever sits on the other side of the pins and the bus: it answers a
    block read with bytes, a block write with a status code, and may change
    with time and with the level of a pin. *)
Class Device (D : Type) : Type := {
  dev_request : Z -> Z -> D -> list Z * D;
  dev_transmit : Z -> list Z -> D -> Z * D;
  dev_elapse : Z -> D -> D;
  dev_pin : Z -> bool -> D -> D
}.

Definition to_uint8 (z : Z) : Z := Z.land z 0xFF.

(** The [Wire] object: receive buffer, and the transmission being queued. *)
Record TwoWire : Type := {
  rxBuffer : list Z;
  txAddress : Z;
  txBuffer : list Z
}.

Record world (D : Type) : Type := World {
  drv : Si4703;
  wire : TwoWire;
  dev : D;
  trace : list event
}.
Arguments World {D}.
Arguments drv {D}.
Arguments wire {D}.
Arguments dev {D}.
Arguments trace {D}.

(** ** Runs: a result, a poll budget used up, or undefined behaviour *)

Inductive outcome (D A : Type) : Type :=
| Ok (a : A) (w : world D)
| Timeout (w : world D)
| Undefined (w : world D).
Arguments Ok {D A}.
Arguments Timeout {D A}.
Arguments Undefined {D A}.

Definition M (D A : Type) : Type := world D -> outcome D A.

Definition ret {D A} (a : A) : M D A := fun w => Ok a w.

Definition bind {D A B} (c : M D A) (k : A -> M D B) : M D B :=
  fun w =>
    match c w with
    | Ok a w' => k a w'
    | Timeout w' => Timeout w'
    | Undefined w' => Undefined w'
    end.

Declare Scope drv_scope.
Delimit Scope drv_scope with drv.
Notation "x <- c ;; k" := (bind c (fun x => k))
  (at level 100, c at next level, k at level 200, right associativity)
  : drv_scope.
Notation "c ;; k" := (bind c (fun _ => k))
  (at level 100, k at level 200, right associativity) : drv_scope.
Local Open Scope drv_scope.

(** The world at which a run stopped, whatever the reason. *)
Definition final {D A} (o : outcome D A) : world D :=
  match o with Ok _ w | Timeout w | Undefined w => w end.

Definition INT_MIN : Z := -2147483648.
Definition INT_MAX : Z := 2147483647.

Definition in_int (z : Z) : bool := (INT_MIN <=? z) && (z <=? INT_MAX).

(** The value of an [int] expression: undefined outside the range. *)
Definition int_ {D} (z : Z) : M D Z :=
  fun w => if in_int z then Ok z w else Undefined w.

(** [a / b] on [int]: truncates toward zero; undefined for [b = 0]. *)
Definition int_div {D} (a b : Z) : M D Z :=
  fun w => if Z.eqb b 0 then Undefined w else int_ (Z.quot a b) w.

Definition truthy (z : Z) : bool := negb (Z.eqb z 0).

Section Driver.
Context {D : Type} `{Device D}.

Local Abbreviation M := (M D).

(** *** Platform primitives *)

Definition log (e : event) (w : world D) : world D :=
  World (drv w) (wire w) (dev w) (trace w ++ [e]).

(** [void pinMode(uint8_t pin, uint8_t mode)] and
    [void digitalWrite(uint8_t pin, uint8_t val)]: the pin parameter is a
    [uint8_t], so an [int] argument is converted at the call and the pin
    that is driven is the argument modulo 256. *)
Definition pinMode (pin : Z) (m : pin_mode) : M unit :=
  fun w => Ok tt (log (EvPinMode (to_uint8 pin) m) w).

Definition digitalWrite (pin : Z) (high : bool) : M unit :=
  fun w =>
    Ok tt (log (EvDigitalWrite (to_uint8 pin) high)
             (World (drv w) (wire w)
                    (dev_pin (to_uint8 pin) high (dev w)) (trace w))).

Definition delay (ms : Z) : M unit :=
  fun w =>
    Ok tt (log (EvDelay ms)
             (World (drv w) (wire w) (dev_elapse ms (dev w)) (trace w))).

(** [Wire.begin(int sda, int scl)] of the ESP32 core: the pins stay [int]. *)
Definition Wire_begin (sda scl : Z) : M unit :=
  fun w => Ok tt (log (EvWireBegin sda scl) w).

(** [Wire.requestFrom]: one block read; the receive buffer is replaced by
    what arrived, at most [quantity] bytes. *)
Definition Wire_requestFrom (addr quantity : Z) : M unit :=
  fun w =>
    let answer := dev_request addr quantity (dev w) in
    let rx := map to_uint8 (take (Z.to_nat quantity) (fst answer)) in
    Ok tt (log (EvRequest addr quantity rx)
             (World (drv w)
                {| rxBuffer := rx; txAddress := txAddress (wire w);
                   txBuffer := txBuffer (wire w) |}
                (snd answer) (trace w))).

(** [Wire.read]: the next received byte, or -1 when none is left. *)
Definition Wire_read : M Z :=
  fun w =>
    match rxBuffer (wire w) with
    | [] => Ok (-1) w
    | b :: rest =>
        Ok b (World (drv w)
                {| rxBuffer := rest; txAddress := txAddress (wire w);
                   txBuffer := txBuffer (wire w) |}
                (dev w) (trace w))
    end.

Definition Wire_beginTransmission (addr : Z) : M unit :=
  fun w =>
    Ok tt (World (drv w)
             {| rxBuffer := rxBuffer (wire w); txAddress := addr;
                txBuffer := [] |}
             (dev w) (trace w)).

(** [Wire.write]: queues one byte. *)
Definition Wire_write (b : Z) : M unit :=
  fun w =>
    Ok tt (World (drv w)
             {| rxBuffer := rxBuffer (wire w);
                txAddress := txAddress (wire w);
                txBuffer := txBuffer (wire w) ++ [to_uint8 b] |}
             (dev w) (trace w)).

(** [Wire.endTransmission]: sends the queued bytes as one block write and
    returns the status code of the transport. *)
Definition Wire_endTransmission : M Z :=
  fun w =>
    let answer :=
      dev_transmit (txAddress (wire w)) (txBuffer (wire w)) (dev w) in
    let st := to_uint8 (fst answer) in
    Ok st
       (log (EvTransmit (txAddress (wire w)) (txBuffer (wire w)) st)
          (World (drv w)
             {| rxBuffer := rxBuffer (wire w);
                txAddress := txAddress (wire w); txBuffer := [] |}
             (snd answer) (trace w))).

(** *** Access to the members of the driver object *)

Definition this {A} (get : Si4703 -> A) : M A :=
  fun w => Ok (get (drv w)) w.

Definition update (f : Si4703 -> Si4703) : M unit :=
  fun w => Ok tt (World (f (drv w)) (wire w) (dev w) (trace w)).

(** [shadow.word[i]] *)
Definition shadow_word (i : nat) : M Z :=
  this (fun o => word (shadow o) i).

(** [shadow.word[i] = v] *)
Definition shadow_word_set (i : nat) (v : Z) : M unit :=
  update (fun o => with_shadow (set_word (shadow o) i v) o).

(** [shadow.reg.R.bits.F] *)
Definition bits_get (f : bitfield) : M Z :=
  this (fun o => get_field f (shadow o)).

(** [shadow.reg.R.bits.F = v] *)
Definition bits_set (f : bitfield) (v : Z) : M unit :=
  update (fun o => with_shadow (set_field f v (shadow o)) o).

(** *** Control flow *)

(** [for (int i = lo; i < lo + n; i++) body(i)] *)
Fixpoint for_range (lo n : nat) (body : nat -> M unit) : M unit :=
  match n with
  | O => ret tt
  | S n' => body lo ;; for_range (S lo) n' body
  end.

(** [while (cond) body], giving up after [fuel] evaluations of [cond]. *)
Fixpoint while (fuel : nat) (cond : M bool) (body : M unit) : M unit :=
  match fuel with
  | O => fun w => Timeout w
  | S fuel' =>
      c <- cond ;;
      if (c : bool) then body ;; while fuel' cond body else ret tt
  end.

Definition not_ (c : M bool) : M bool := b <- c ;; ret (negb b).

(** *** Si4703.cpp *)

Definition getShadow : M unit :=
  Wire_requestFrom I2C_ADDR 32 ;;
  for_range 0 16 (fun i =>
    hi <- Wire_read ;;
    lo <- Wire_read ;;
    shadow_word_set i (Z.lor (Z.shiftl hi 8) lo)).

Definition putShadow : M Z :=
  Wire_beginTransmission I2C_ADDR ;;
  for_range 8 6 (fun i =>
    wd <- shadow_word i ;;
    Wire_write (Z.shiftr wd 8) ;;
    Wire_write (Z.land wd 0x00FF)) ;;
  Wire_endTransmission.

(** The pin members are [int]; [pinMode] and [digitalWrite] receive them
    as [uint8_t], [Wire.begin] as [int]. *)
Definition bus2Wire : M unit :=
  rst <- this _rstPin ;;
  sdio <- this _sdioPin ;;
  sclk <- this _sclkPin ;;
  pinMode rst OUTPUT ;;
  pinMode sdio OUTPUT ;;
  digitalWrite rst false ;;
  digitalWrite sdio false ;;
  delay 1 ;;
  digitalWrite rst true ;;
  delay 1 ;;
  pinMode sdio INPUT_PULLUP ;;
  Wire_begin sdio sclk.

Definition powerUp : M unit :=
  getShadow ;;
  bits_set bits.XOSCEN 1 ;;
  putShadow ;;
  delay 500 ;;
  getShadow ;;
  bits_set bits.ENABLE 1 ;;
  bits_set bits.DISABLE 0 ;;
  bits_set bits.DMUTE 1 ;;
  putShadow ;;
  delay 110.

Definition powerDown : M unit :=
  getShadow ;;
  bits_set bits.AHIZEN 1 ;;
  bits_set bits.GPIO1 GPIO_Z ;;
  bits_set bits.GPIO2 GPIO_Z ;;
  bits_set bits.GPIO3 GPIO_Z ;;
  bits_set bits.DMUTE 0 ;;
  bits_set bits.ENABLE 1 ;;
  bits_set bits.DISABLE 1 ;;
  putShadow ;;
  delay 2.

Definition setRegion (band space de : Z) : M unit :=
  (if Z.eqb band BAND_US_EU then update (with_band 8750 10800)
   else if Z.eqb band BAND_JPW then update (with_band 7600 10800)
   else if Z.eqb band BAND_JP then update (with_band 7600 9000)
   else ret tt) ;;
  (if Z.eqb space SPACE_100KHz then update (with_spacing 10)
   else if Z.eqb space SPACE_200KHz then update (with_spacing 20)
   else if Z.eqb space SPACE_50KHz then update (with_spacing 5)
   else ret tt).

Definition start : M unit :=
  bus2Wire ;;
  powerUp ;;
  getShadow ;;
  band <- this _band ;;
  space <- this _space ;;
  de <- this _de ;;
  setRegion band space de ;;
  bits_set bits.SPACE space ;;
  bits_set bits.BAND band ;;
  bits_set bits.DE de ;;
  bits_set bits.STCIEN 0 ;;
  bits_set bits.SEEK 0 ;;
  bits_set bits.SEEKUP 1 ;;
  skmode <- this _skmode ;;
  bits_set bits.SKMODE skmode ;;
  seekth <- this _seekth ;;
  bits_set bits.SEEKTH seekth ;;
  skcnt <- this _skcnt ;;
  bits_set bits.SKCNT skcnt ;;
  sksnr <- this _sksnr ;;
  bits_set bits.SKSNR sksnr ;;
  agcd <- this _agcd ;;
  bits_set bits.AGCD agcd ;;
  bits_set bits.RDSIEN 0 ;;
  bits_set bits.RDSM 0 ;;
  bits_set bits.RDS 1 ;;
  bits_set bits.AHIZEN 0 ;;
  bits_set bits.MONO 0 ;;
  bits_set bits.BLNDADJ BLA_31_49 ;;
  bits_set bits.VOLUME 0 ;;
  bits_set bits.VOLEXT 0 ;;
  bits_set bits.DSMUTE 1 ;;
  bits_set bits.SMUTEA SMA_16dB ;;
  bits_set bits.SMUTER SMRR_Fastest ;;
  bits_set bits.GPIO1 GPIO_Z ;;
  bits_set bits.GPIO2 GPIO_Z ;;
  bits_set bits.GPIO3 GPIO_Z ;;
  putShadow ;;
  ret tt.

Definition setMono (en : bool) : M unit :=
  getShadow ;;
  bits_set bits.MONO (Z.b2z en) ;;
  putShadow ;;
  ret tt.

Definition getMono : M bool :=
  getShadow ;;
  v <- bits_get bits.MONO ;;
  ret (truthy v).

Definition setMute (en : bool) : M unit :=
  getShadow ;;
  bits_set bits.DMUTE (Z.b2z en) ;;
  putShadow ;;
  ret tt.

Definition getMute : M bool :=
  getShadow ;;
  v <- bits_get bits.DMUTE ;;
  ret (truthy v).

Definition setVolExt (en : bool) : M unit :=
  getShadow ;;
  bits_set bits.VOLEXT (Z.b2z en) ;;
  putShadow ;;
  ret tt.

Definition getVolExt : M bool :=
  getShadow ;;
  v <- bits_get bits.VOLEXT ;;
  ret (truthy v).

Definition getVolume : M Z :=
  getShadow ;;
  bits_get bits.VOLUME.

Definition setVolume (volume : Z) : M Z :=
  getShadow ;;
  let volume := if volume <? 0 then 0 else volume in
  let volume := if volume >? 15 then 15 else volume in
  bits_set bits.VOLUME volume ;;
  putShadow ;;
  getVolume.

Definition incVolume : M Z :=
  v <- getVolume ;;
  v' <- int_ (v + 1) ;;
  setVolume v'.

Definition decVolume : M Z :=
  v <- getVolume ;;
  v' <- int_ (v - 1) ;;
  setVolume v'.

Definition getChannel : M Z :=
  getShadow ;;
  spacing <- this _bandSpacing ;;
  readchan <- bits_get bits.READCHAN ;;
  bandStart <- this _bandStart ;;
  p <- int_ (spacing * readchan) ;;
  int_ (p + bandStart).

Definition getSTC : M bool :=
  getShadow ;;
  v <- bits_get bits.STC ;;
  ret (truthy v).

Definition setChannel (fuel : nat) (freq : Z) : M Z :=
  bandEnd <- this _bandEnd ;;
  let freq := if freq >? bandEnd then bandEnd else freq in
  bandStart <- this _bandStart ;;
  let freq := if freq <? bandStart then bandStart else freq in
  getShadow ;;
  bandStart <- this _bandStart ;;
  d <- int_ (freq - bandStart) ;;
  spacing <- this _bandSpacing ;;
  q <- int_div d spacing ;;
  bits_set bits.CHAN q ;;
  bits_set bits.TUNE 1 ;;
  putShadow ;;
  stcien <- bits_get bits.STCIEN ;;
  (if Z.eqb stcien 0
   then while fuel (not_ getSTC) (ret tt)
   else ret tt) ;;
  getShadow ;;
  bits_set bits.TUNE 0 ;;
  putShadow ;;
  while fuel getSTC (ret tt) ;;
  getChannel.

Definition incChannel (fuel : nat) : M Z :=
  c <- getChannel ;;
  spacing <- this _bandSpacing ;;
  f <- int_ (c + spacing) ;;
  setChannel fuel f.

Definition decChannel (fuel : nat) : M Z :=
  c <- getChannel ;;
  spacing <- this _bandSpacing ;;
  f <- int_ (c - spacing) ;;
  setChannel fuel f.

Definition seek (fuel : nat) (seekDirection : Z) : M Z :=
  getShadow ;;
  bits_set bits.SEEKUP seekDirection ;;
  bits_set bits.SEEK 1 ;;
  putShadow ;;
  stcien <- bits_get bits.STCIEN ;;
  (if Z.eqb stcien 0
   then while fuel (not_ getSTC) (delay 40)
   else ret tt) ;;
  getShadow ;;
  sfbl <- bits_get bits.SFBL ;;
  let sfbl := truthy sfbl in
  bits_set bits.SEEK 0 ;;
  putShadow ;;
  while fuel getSTC (ret tt) ;;
  if sfbl then ret 0 else getChannel.

Definition seekUp (fuel : nat) : M Z := seek fuel SEEK_UP.

Definition seekDown (fuel : nat) : M Z := seek fuel SEEK_DOWN.

Definition getST : M bool :=
  getShadow ;;
  v <- bits_get bits.ST ;;
  ret (truthy v).

Definition writeGPIO (GPIO val : Z) : M unit :=
  getShadow ;;
  (if Z.eqb GPIO GPIO1 then bits_set bits.GPIO1 val
   else if Z.eqb GPIO GPIO2 then bits_set bits.GPIO2 val
   else if Z.eqb GPIO GPIO3 then bits_set bits.GPIO3 val
   else ret tt) ;;
  putShadow ;;
  ret tt.

Definition getBandStart : M Z := this _bandStart.

Definition getBandEnd : M Z := this _bandEnd.

Definition getBandSpace : M Z := this _bandSpacing.

Definition getRSSI : M Z :=
  getShadow ;;
  bits_get bits.RSSI.

Definition bus3Wire : M unit := ret tt.

Definition readRDS : M unit := ret tt.

Definition getPN : M Z :=
  getShadow ;;
  bits_get bits.PN.

Definition getMFGID : M Z :=
  getShadow ;;
  bits_get bits.MFGID.

Definition getREV : M Z :=
  getShadow ;;
  bits_get bits.REV.

Definition getDEV : M Z :=
  getShadow ;;
  bits_get bits.DEV.

Definition getFIRMWARE : M Z :=
  getShadow ;;
  bits_get bits.FIRMWARE.

End Driver.

(** ** A simulated receiver chip

    Modelled from the spec: the chip on the other side of the bus is
    hardware, not code of the repository. The model keeps the sixteen
    registers by register number, answers a block read with the registers
    in the device read order 0x0A..0x0F, 0x00..0x09 (high byte first),
    takes a block write into the registers from 0x02 upward, and completes
    a tune or seek command by the STC handshake: STC rises some polls
    after TUNE or SEEK is set, and falls some polls after the command bit
    is cleared. A tune latches the written channel into READCHAN; a seek
    asks the surrounding [stations] for its outcome. *)

Record Chip : Type := {
  regs : list Z;
  countdown : nat;
  set_latency : nat;
  clear_latency : nat;
  stations : bool -> Z -> bool * Z
}.

Definition chip_reg (c : Chip) (r : reg.t) : Z :=
  default 0 (regs c !! Z.to_nat (reg.addr r)).

Definition chip_get (f : bitfield) (c : Chip) : Z :=
  get_bits (bf_off f) (bf_width f) (chip_reg c (bf_reg f)).

Definition chip_with_regs (rs : list Z) (n : nat) (c : Chip) : Chip :=
  {| regs := rs; countdown := n; set_latency := set_latency c;
     clear_latency := clear_latency c; stations := stations c |}.

Definition regs_set (f : bitfield) (v : Z) (rs : list Z) : list Z :=
  let i := Z.to_nat (reg.addr (bf_reg f)) in
  <[i := set_bits (bf_off f) (bf_width f) v (default 0 (rs !! i))]> rs.

Definition chip_active (c : Chip) : bool :=
  truthy (chip_get bits.TUNE c) || truthy (chip_get bits.SEEK c).

(** The command in progress finishes: a tune latches CHAN, a seek takes
    its outcome from [stations]. *)
Definition chip_complete (c : Chip) : Chip :=
  if truthy (chip_get bits.TUNE c) then
    chip_with_regs
      (regs_set bits.STC 1
         (regs_set bits.SFBL 0
            (regs_set bits.READCHAN (chip_get bits.CHAN c) (regs c))))
      0 c
  else
    let outcome :=
      stations c (truthy (chip_get bits.SEEKUP c))
                 (chip_get bits.READCHAN c) in
    chip_with_regs
      (regs_set bits.STC 1
         (regs_set bits.SFBL (Z.b2z (fst outcome))
            (regs_set bits.READCHAN (snd outcome) (regs c))))
      0 c.

(** What happens inside the chip between two bus transactions. *)
Definition chip_tick (c : Chip) : Chip :=
  let stc := truthy (chip_get bits.STC c) in
  if chip_active c && negb stc then
    match countdown c with
    | O => chip_complete c
    | S n => chip_with_regs (regs c) n c
    end
  else if negb (chip_active c) && stc then
    match countdown c with
    | O =>
        chip_with_regs
          (regs_set bits.STC 0 (regs_set bits.SFBL 0 (regs c))) 0 c
    | S n => chip_with_regs (regs c) n c
    end
  else c.

(** Register numbers in the order of a block read. *)
Definition read_order : list Z :=
  [0x0A; 0x0B; 0x0C; 0x0D; 0x0E; 0x0F;
   0x00; 0x01; 0x02; 0x03; 0x04; 0x05; 0x06; 0x07; 0x08; 0x09].

Definition word_bytes (v : Z) : list Z := [Z.shiftr v 8; Z.land v 0xFF].

Definition chip_read_bytes (c : Chip) : list Z :=
  flat_map (fun a => word_bytes (default 0 (regs c !! Z.to_nat a)))
           read_order.

Definition chip_request (addr quantity : Z) (c : Chip) : list Z * Chip :=
  let c' := chip_tick c in
  (take (Z.to_nat quantity) (chip_read_bytes c'), c').

(** Stores the words of a block write into consecutive registers. *)
Fixpoint store_words (a : nat) (bytes : list Z) (rs : list Z) : list Z :=
  match bytes with
  | hi :: lo :: rest =>
      store_words (S a) rest (<[a := Z.lor (Z.shiftl hi 8) lo]> rs)
  | _ => rs
  end.

Definition chip_transmit (addr : Z) (bytes : list Z) (c : Chip) : Z * Chip :=
  let c' := chip_with_regs (store_words 2 bytes (regs c)) 0 c in
  (0, chip_with_regs (regs c')
        (if chip_active c' then set_latency c' else clear_latency c') c').

#[export] Instance chip_device : Device Chip := {
  dev_request := chip_request;
  dev_transmit := chip_transmit;
  dev_elapse := fun _ c => c;
  dev_pin := fun _ _ c => c
}.

(** A chip out of reset with all registers zero except the identifiers. *)
Definition chip0 (lat_set lat_clear : nat) (st : bool -> Z -> bool * Z)
  : Chip :=
  {| regs := [0x1242; 0x1253; 0; 0; 0; 0; 0; 0; 0; 0; 0; 0; 0; 0; 0; 0];
     countdown := 0; set_latency := lat_set; clear_latency := lat_clear;
     stations := st |}.

(** A chip whose sixteen registers all differ: register [a] holds
    [0x1100 + a]. *)
Definition marked_chip : Chip :=
  {| regs := [0x1100; 0x1101; 0x1102; 0x1103; 0x1104; 0x1105; 0x1106;
              0x1107; 0x1108; 0x1109; 0x110A; 0x110B; 0x110C; 0x110D;
              0x110E; 0x110F];
     countdown := 0; set_latency := 0; clear_latency := 0;
     stations := fun _ ch => (false, ch) |}.

Definition raw_object : Si4703 :=
  {| _rstPin := 0; _sdioPin := 0; _sclkPin := 0; _intPin := 0;
     _band := 0; _space := 0; _de := 0;
     _bandStart := 0; _bandEnd := 0; _bandSpacing := 0;
     _skmode := 0; _seekth := 0; _skcnt := 0; _sksnr := 0; _agcd := 0;
     shadow := replicate 16 0 |}.

Definition idle_wire : TwoWire :=
  {| rxBuffer := []; txAddress := 0; txBuffer := [] |}.

Definition world0 {D} (o : Si4703) (d : D) : world D :=
  World o idle_wire d [].

(** A station every 50 channels when seeking up, none when seeking down. *)
Definition demo_stations (up : bool) (ch : Z) : bool * Z :=
  if up then (false, (ch / 50 + 1) * 50) else (true, 0).

Definition demo_world : world Chip :=
  world0 (Si4703_default raw_object) (chip0 2 1 demo_stations).

Definition result {D A} (o : outcome D A) : option A :=
  match o with Ok a _ => Some a | _ => None end.

(** The demonstration chip and driver after [start]. *)
Definition started : world Chip := Eval vm_compute in final (start demo_world).

(** A driver constructed with selectors [setRegion] has no case for. *)
Definition odd_world : world Chip :=
  world0 (with_band 1234 5678
            (with_spacing 7
               (Si4703_new 9 7 8 0 3 3 0 1 24 15 15 0 raw_object)))
         (chip0 0 0 demo_stations).

(** A driver constructed with pin numbers outside the range of [uint8_t]. *)
Definition far_pins_world : world Chip :=
  world0 (Si4703_new 300 (-1) 22 0 BAND_US_EU SPACE_100KHz DE_75us
                     SKMODE_STOP 24 SKCNT_MIN SKSNR_MAX 0 raw_object)
         (chip0 2 1 demo_stations).

(** A bus with nothing on it, as the [Wire] transport presents it: a
    block read delivers no byte and a block write is not acknowledged
    (status 2). *)
Definition no_device : Device unit :=
  {| dev_request := fun _ _ d => ([], d);
     dev_transmit := fun _ _ d => (2, d);
     dev_elapse := fun _ d => d;
     dev_pin := fun _ _ d => d |}.

(** The default driver object, its band members set, on that bus. *)
Definition unplugged : world unit := world0 (drv started) tt.

(** ** What the bus carries, read back from a transaction *)

(** Byte [j] of a received block as [Wire.read] hands it out: -1 once the
    block is used up. *)
Definition rx_byte (rx : list Z) (j : nat) : Z := nth j rx (-1).

(** Word [k] of a received block as [getShadow] assembles it. *)
Definition rx_word (rx : list Z) (k : nat) : Z :=
  to_uint16 (Z.lor (Z.shiftl (rx_byte rx (2 * k)) 8) (rx_byte rx (2 * k + 1))).

Definition decode (rx : list Z) : shadow_t := map (rx_word rx) (seq 0 16).

(** The bytes [putShadow] queues for shadow word [i]. *)
Definition tx_pair (sh : shadow_t) (i : nat) : list Z :=
  [to_uint8 (Z.shiftr (word sh i) 8); to_uint8 (Z.land (word sh i) 0x00FF)].

Definition control_bytes (sh : shadow_t) : list Z :=
  flat_map (tx_pair sh) (seq 8 6).

(** Word [k] of a transmitted block, high byte first. *)
Definition tx_word (bytes : list Z) (k : nat) : Z :=
  256 * nth (2 * k) bytes 0 + nth (2 * k + 1) bytes 0.

(** The six registers a block write reaches, in the order of the write. *)
Definition control_regs : list reg.t :=
  [reg.POWERCFG; reg.CHANNEL; reg.SYSCONFIG1; reg.SYSCONFIG2;
   reg.SYSCONFIG3; reg.TEST1].

(** Position of a control register in a block write. *)
Definition tx_slot (r : reg.t) : nat := (reg.index r - 8)%nat.

(** A bit field as a block write carries it. *)
Definition sent_field (f : bitfield) (bytes : list Z) : Z :=
  get_bits (bf_off f) (bf_width f) (tx_word bytes (tx_slot (bf_reg f))).

Definition is_control (r : reg.t) : bool :=
  (8 <=? reg.index r)%nat && (reg.index r <? 14)%nat.

(** Two bit fields that share no bit. *)
Definition apart (f g : bitfield) : Prop :=
  bf_reg f <> bf_reg g \/
  bf_off g + bf_width g <= bf_off f \/ bf_off f + bf_width f <= bf_off g.

Definition field_ok (f : bitfield) : Prop :=
  0 <= bf_off f /\ 0 <= bf_width f /\ bf_off f + bf_width f <= 16.

Definition is_request (e : event) : bool :=
  match e with EvRequest _ _ _ => true | _ => false end.

Definition is_transmit (e : event) : bool :=
  match e with EvTransmit _ _ _ => true | _ => false end.

Section Observations.
Context {D : Type} `{Device D}.

(** The driver object has its sixteen shadow words. *)
Definition sized (w : world D) : Prop := length (shadow (drv w)) = 16%nat.

(** The block the device delivers to the next 32-byte read. *)
Definition next_block (w : world D) : list Z :=
  map to_uint8 (take 32 (fst (dev_request I2C_ADDR 32 (dev w)))).

(** The world after a full-bank refresh. *)
Definition refresh (w : world D) : world D :=
  World (with_shadow (decode (next_block w)) (drv w))
        {| rxBuffer := []; txAddress := txAddress (wire w);
           txBuffer := txBuffer (wire w) |}
        (snd (dev_request I2C_ADDR 32 (dev w)))
        (trace w ++ [EvRequest I2C_ADDR 32 (next_block w)]).

(** The status code the device gives to a write-back of the shadow. *)
Definition write_status (w : world D) : Z :=
  to_uint8 (fst (dev_transmit I2C_ADDR (control_bytes (shadow (drv w)))
                   (dev w))).

(** The world after a write-back of the shadow. *)
Definition flush (w : world D) : world D :=
  World (drv w)
        {| rxBuffer := rxBuffer (wire w); txAddress := I2C_ADDR;
           txBuffer := [] |}
        (snd (dev_transmit I2C_ADDR (control_bytes (shadow (drv w)))
                (dev w)))
        (trace w ++ [EvTransmit I2C_ADDR (control_bytes (shadow (drv w)))
                       (write_status w)]).

(** The world with one bit field of the shadow assigned. *)
Definition assign (f : bitfield) (v : Z) (w : world D) : world D :=
  World (with_shadow (set_field f v (shadow (drv w))) (drv w))
        (wire w) (dev w) (trace w).

End Observations.

(** The volume after the two comparisons of [setVolume]. *)
Definition clamp_volume (v : Z) : Z := Z.max 0 (Z.min 15 v).

(** The frequency after the two comparisons of [setChannel]. *)
Definition clamp_freq (o : Si4703) (freq : Z) : Z :=
  Z.max (_bandStart o) (Z.min (_bandEnd o) freq).

(** Modelled from the spec: the DMUTE bit of the power configuration
    register is the chip's mute control, and its asserted state means the
    audio is unmuted. [unmuted] reads it off a POWERCFG word. *)
Definition unmuted (powercfg : Z) : bool := Z.testbit powercfg 14.

Definition is_byte (b : Z) : Prop := 0 <= b < 256.

(** The bit field a pin number selects in [writeGPIO], if any. *)
Definition gpio_field (GPIO : Z) : option bitfield :=
  if Z.eqb GPIO GPIO1 then Some bits.GPIO1
  else if Z.eqb GPIO GPIO2 then Some bits.GPIO2
  else if Z.eqb GPIO GPIO3 then Some bits.GPIO3
  else None.

(** The selectors [setRegion] has a case for. *)
Definition known_band (band : Z) : bool :=
  Z.eqb band BAND_US_EU || Z.eqb band BAND_JPW || Z.eqb band BAND_JP.

Definition known_space (space : Z) : bool :=
  Z.eqb space SPACE_200KHz || Z.eqb space SPACE_100KHz
  || Z.eqb space SPACE_50KHz.

(** Two driver objects with the same constructor arguments. *)
Definition same_config (o o' : Si4703) : Prop :=
  _rstPin o = _rstPin o' /\ _sdioPin o = _sdioPin o' /\
  _sclkPin o = _sclkPin o' /\ _intPin o = _intPin o' /\
  _band o = _band o' /\ _space o = _space o' /\ _de o = _de o' /\
  _skmode o = _skmode o' /\ _seekth o = _seekth o' /\
  _skcnt o = _skcnt o' /\ _sksnr o = _sksnr o' /\ _agcd o = _agcd o'.

(** The band members hold a row of the table of [setRegion]. *)
Definition region_set (o : Si4703) : bool :=
  ((Z.eqb (_bandStart o) 8750 && Z.eqb (_bandEnd o) 10800)
   || (Z.eqb (_bandStart o) 7600 && Z.eqb (_bandEnd o) 10800)
   || (Z.eqb (_bandStart o) 7600 && Z.eqb (_bandEnd o) 9000))
  && (Z.eqb (_bandSpacing o) 10 || Z.eqb (_bandSpacing o) 20
      || Z.eqb (_bandSpacing o) 5).

(** A block write that carries the SEEK bit cleared. *)
Definition clears_seek (e : event) : bool :=
  match e with
  | EvTransmit _ tx _ => Z.eqb (sent_field bits.SEEK tx) 0
  | _ => false
  end.

(** The seek-fail/band-limit bit of a received block. *)
Definition block_sfbl (bs : list Z) : bool :=
  truthy (get_field bits.SFBL (decode bs)).

(** The read-channel field of a received block. *)
Definition block_readchan (bs : list Z) : Z :=
  get_field bits.READCHAN (decode bs).

Section Echo.
Context {D : Type} `{Device D}.

(** The device echoes the control words: the block it delivers to the next
    read carries, in the slots of registers 0x02..0x07, the words of the
    shadow as it was just written. *)
Definition echoed (w : world D) : bool :=
  forallb (fun i => Z.eqb (rx_word (next_block w) i) (word (shadow (drv w)) i))
          (seq 8 6).

(** The world after [setVolume v] has written the shadow back. *)
Definition volume_written (v : Z) (w : world D) : world D :=
  flush (assign bits.VOLUME (clamp_volume v) (refresh w)).

(** Two driver objects that differ in the shadow at most. *)
Definition members_same (o o' : Si4703) : Prop :=
  same_config o o' /\ _bandStart o = _bandStart o' /\
  _bandEnd o = _bandEnd o' /\ _bandSpacing o = _bandSpacing o'.

(** From [w] to [w'] the driver only read the bus and waited: nothing was
    written to the device and only the shadow changed in the object. *)
Definition quiet (w w' : world D) : Prop :=
  sized w' /\ members_same (drv w) (drv w') /\
  exists evs, trace w' = trace w ++ evs /\
              Forall (fun e => is_transmit e = false) evs.

(** A command that returns from every world, quietly. *)
Definition polls {A} (c : M D A) : Prop :=
  forall w, sized w -> exists a w', c w = Ok a w' /\ quiet w w'.

(** The shadow has its sixteen words, each a [uint16_t]. *)
Definition words_ok (w : world D) : Prop :=
  sized w /\ Forall is_uint16 (shadow (drv w)).

(** The world after [seek] has written its command. *)
Definition seek_commanded (dir : Z) (w : world D) : world D :=
  flush (assign bits.SEEK 1 (assign bits.SEEKUP dir (refresh w))).

(** The wait of [seek] for the completion of the command. *)
Definition seek_wait (fuel : nat) : M D unit :=
  stcien <- bits_get bits.STCIEN ;;
  if Z.eqb stcien 0
  then while fuel (not_ getSTC) (delay 40)
  else ret tt.

(** The world after [seek], done waiting at [w], has sampled the status and
    written the SEEK bit back cleared. *)
Definition seek_released (w : world D) : world D :=
  flush (assign bits.SEEK 0 (refresh w)).

(** The channel [setChannel] computes for a requested frequency. *)
Definition channel_of (o : Si4703) (freq : Z) : Z :=
  (clamp_freq o freq - _bandStart o) / _bandSpacing o.

(** The world after [setChannel] has written its command. *)
Definition tune_commanded (q : Z) (w : world D) : world D :=
  flush (assign bits.TUNE 1 (assign bits.CHAN q (refresh w))).

(** The wait of [setChannel] for the completion of the command. *)
Definition tune_wait (fuel : nat) : M D unit :=
  stcien <- bits_get bits.STCIEN ;;
  if Z.eqb stcien 0
  then while fuel (not_ getSTC) (ret tt)
  else ret tt.

(** The world after [setChannel], done waiting at [w], has written the
    TUNE bit back cleared. *)
Definition tune_released (w : world D) : world D :=
  flush (assign bits.TUNE 0 (refresh w)).

(** A run of [c] from [w] that returns, with the shadow in place and the
    property [J] of the driver object established. *)
Definition lands (J : Si4703 -> Prop) {A} (c : M D A) (w : world D) : Prop :=
  exists a w', c w = Ok a w' /\ sized w' /\ J (drv w').

(** [c] returns from every such world and keeps [J]. *)
Definition keeps (J : Si4703 -> Prop) {A} (c : M D A) : Prop :=
  forall w, sized w -> J (drv w) -> lands J c w.

End Echo.

(** The property [start] keeps: the selectors stay, and so do the band
    members whose selector is unknown. *)
Definition region_kept (o0 o : Si4703) : Prop :=
  same_config o0 o /\
  (known_band (_band o0) = false ->
   _bandStart o = _bandStart o0 /\ _bandEnd o = _bandEnd o0) /\
  (known_space (_space o0) = false -> _bandSpacing o = _bandSpacing o0).


(** ** Views of the simulated chip *)

(** The chip holds sixteen registers, each a 16-bit word. *)
Definition chip_ok (c : Chip) : Prop :=
  length (regs c) = 16%nat /\ Forall is_uint16 (regs c).

Definition regs_get (f : bitfield) (rs : list Z) : Z :=
  get_bits (bf_off f) (bf_width f)
    (default 0 (rs !! Z.to_nat (reg.addr (bf_reg f)))).

Definition chip_stc (c : Chip) : bool := truthy (chip_get bits.STC c).

(** No command is pending or waiting to be acknowledged, and completion is
    polled for (STCIEN clear), as [start] leaves a chip out of reset. *)
Definition chip_idle (c : Chip) : bool :=
  negb (chip_active c) && negb (chip_stc c)
  && Z.eqb (chip_get bits.STCIEN c) 0.

(** The chip with its countdown put to [n]. *)
Definition chip_countdown (n : nat) (c : Chip) : Chip :=
  chip_with_regs (regs c) n c.

(** The chip after STC has dropped. *)
Definition chip_acknowledged (c : Chip) : Chip :=
  chip_with_regs (regs_set bits.STC 0 (regs_set bits.SFBL 0 (regs c))) 0 c.

(** A command is running and STC has not risen yet. *)
Definition chip_busy (c : Chip) : bool := chip_active c && negb (chip_stc c).

(** The command bits are cleared and STC has not dropped yet. *)
Definition chip_releasing (c : Chip) : bool :=
  negb (chip_active c) && chip_stc c.

(** The chip after a write-back of the shadow [sh]. *)
Definition chip_written (sh : shadow_t) (c : Chip) : Chip :=
  snd (chip_transmit I2C_ADDR (control_bytes sh) c).

(** A loop body that leaves the chip alone. *)
Definition calm (body : M Chip unit) : Prop :=
  forall w : world Chip, sized w ->
    exists w', body w = Ok tt w' /\ quiet w w' /\ dev w' = dev w.

Definition chip_okb (c : Chip) : bool :=
  Nat.eqb (length (regs c)) 16
  && forallb (fun v => (0 <=? v) && (v <? 65536)) (regs c).

Definition bytesb (bs : list Z) : bool :=
  forallb (fun b => (0 <=? b) && (b <? 256)) bs.

(** ** Sequences of bit-field assignments *)

Definition bitfield_eqb (f g : bitfield) : bool :=
  reg.eqb (bf_reg f) (bf_reg g) && Z.eqb (bf_off f) (bf_off g)
  && Z.eqb (bf_width f) (bf_width g).

Definition apartb (f g : bitfield) : bool :=
  negb (reg.eqb (bf_reg f) (bf_reg g))
  || (bf_off g + bf_width g <=? bf_off f)
  || (bf_off f + bf_width f <=? bf_off g).

Definition field_okb (f : bitfield) : bool :=
  (0 <=? bf_off f) && (0 <=? bf_width f) && (bf_off f + bf_width f <=? 16).

(** The named members of a [struct bits] declaration. *)
Definition named (ms : list member) : list bitfield :=
  flat_map (fun m => match m with Named f => [f] | Pad _ => [] end) ms.

(** Every bit field the header names in a register the driver uses. *)
Definition named_fields : list bitfield :=
  named DEVICEID_t ++ named CHIPID_t ++ named POWERCFG_t ++ named CHANNEL_t
  ++ named SYSCONFIG1_t ++ named SYSCONFIG2_t ++ named SYSCONFIG3_t
  ++ named TEST1_t ++ named STATUSRSSI_t ++ named READCHAN_t.

(** [shadow.reg.R.bits.F = v] for each [(F, v)] of the list, in order. *)
Fixpoint assigns (l : list (bitfield * Z)) (sh : shadow_t) : shadow_t :=
  match l with
  | [] => sh
  | (f, v) :: l' => assigns l' (set_field f v sh)
  end.

(** The value the list assigns to [g] last, if it assigns to [g]. *)
Fixpoint assigned (g : bitfield) (l : list (bitfield * Z)) : option Z :=
  match l with
  | [] => None
  | (f, v) :: l' =>
      match assigned g l' with
      | Some u => Some u
      | None => if bitfield_eqb f g then Some v else None
      end
  end.

(** Every field the list assigns to is [g] itself or shares no bit with it. *)
Definition clean (g : bitfield) (l : list (bitfield * Z)) : bool :=
  forallb (fun fv => field_okb (fst fv)
                     && (bitfield_eqb (fst fv) g || apartb (fst fv) g)) l.

(** What a write-back carries in [g] after the assignments [l] to a
    shadow in which [g] read [was]. *)
Definition carried (g : bitfield) (l : list (bitfield * Z)) (was : Z) : Z :=
  match assigned g l with
  | Some v => v mod 2 ^ bf_width g
  | None => was
  end.

Section Elapsed.
Context {D : Type} `{Device D}.

(** The world after [delay ms]. *)
Definition elapsed (ms : Z) (w : world D) : world D :=
  World (drv w) (wire w) (dev_elapse ms (dev w)) (trace w ++ [EvDelay ms]).

(** The world with the assignments [l] made to the shadow. *)
Definition assign_all (l : list (bitfield * Z)) (w : world D) : world D :=
  World (with_shadow (assigns l (shadow (drv w))) (drv w))
        (wire w) (dev w) (trace w).

End Elapsed.

Definition namedb (f : bitfield) : bool :=
  existsb (bitfield_eqb f) named_fields.

(** The driver object after [setRegion band space _]. *)
Definition region_members (band space : Z) (o : Si4703) : Si4703 :=
  let o1 :=
    if Z.eqb band BAND_US_EU then with_band 8750 10800 o
    else if Z.eqb band BAND_JPW then with_band 7600 10800 o
    else if Z.eqb band BAND_JP then with_band 7600 9000 o
    else o in
  if Z.eqb space SPACE_100KHz then with_spacing 10 o1
  else if Z.eqb space SPACE_200KHz then with_spacing 20 o1
  else if Z.eqb space SPACE_50KHz then with_spacing 5 o1
  else o1.

(** The assignments of [powerUp], [powerDown] and [start] to the shadow,
    in the order of the source. *)
Definition oscillator_assignments : list (bitfield * Z) :=
  [(bits.XOSCEN, 1)].

Definition enable_assignments : list (bitfield * Z) :=
  [(bits.ENABLE, 1); (bits.DISABLE, 0); (bits.DMUTE, 1)].

Definition powerDown_assignments : list (bitfield * Z) :=
  [(bits.AHIZEN, 1); (bits.GPIO1, GPIO_Z); (bits.GPIO2, GPIO_Z);
   (bits.GPIO3, GPIO_Z); (bits.DMUTE, 0); (bits.ENABLE, 1);
   (bits.DISABLE, 1)].

Definition start_assignments (o : Si4703) : list (bitfield * Z) :=
  [(bits.SPACE, _space o); (bits.BAND, _band o); (bits.DE, _de o);
   (bits.STCIEN, 0);
   (bits.SEEK, 0); (bits.SEEKUP, 1); (bits.SKMODE, _skmode o);
   (bits.SEEKTH, _seekth o); (bits.SKCNT, _skcnt o);
   (bits.SKSNR, _sksnr o); (bits.AGCD, _agcd o);
   (bits.RDSIEN, 0); (bits.RDSM, 0); (bits.RDS, 1);
   (bits.AHIZEN, 0); (bits.MONO, 0); (bits.BLNDADJ, BLA_31_49);
   (bits.VOLUME, 0); (bits.VOLEXT, 0);
   (bits.DSMUTE, 1); (bits.SMUTEA, SMA_16dB); (bits.SMUTER, SMRR_Fastest);
   (bits.GPIO1, GPIO_Z); (bits.GPIO2, GPIO_Z); (bits.GPIO3, GPIO_Z)].

Section Power.
Context {D : Type} `{Device D}.

(** The world after [bus2Wire], which has no loop and no bus transfer. *)
Definition wired (w : world D) : world D := final (bus2Wire w).

(** The world after the first half of [powerUp]: oscillator enabled. *)
Definition oscillating (w : world D) : world D :=
  elapsed 500 (flush (assign_all oscillator_assignments (refresh w))).

(** The world after [powerUp]. *)
Definition powered (w : world D) : world D :=
  elapsed 110
    (flush (assign_all enable_assignments (refresh (oscillating w)))).

(** The world after [setRegion band space _]. *)
Definition regioned (band space : Z) (w : world D) : world D :=
  World (region_members band space (drv w)) (wire w) (dev w) (trace w).

(** The world [start] refreshes the shadow in, and the one it sets the
    band members in, before its assignments. *)
Definition configured (w : world D) : world D :=
  regioned (_band (drv w)) (_space (drv w))
    (refresh (powered (wired w))).

End Power.

Section Stuck.
Context {D : Type} `{Device D}.

(** [Inv] holds of the device whatever the driver does to it over the
    bus or by waiting, and while it holds every block read delivers the
    STC bit (bit 14 of the first word) set. *)
Definition stc_stuck (Inv : D -> Prop) : Prop :=
  (forall d, Inv d -> Inv (snd (dev_request I2C_ADDR 32 d))) /\
  (forall d bytes, Inv d -> Inv (snd (dev_transmit I2C_ADDR bytes d))) /\
  (forall d ms, Inv d -> Inv (dev_elapse ms d)) /\
  (forall d, Inv d ->
     Z.testbit
       (rx_word (map to_uint8 (take 32 (fst (dev_request I2C_ADDR 32 d)))) 0)
       14 = true).

End Stuck.

(** ** The chip between commands *)

(** No command is pending and STC is clear. *)
Definition chip_resting (c : Chip) : bool :=
  negb (chip_active c) && negb (chip_stc c).

(** The parameters of the simulation, which no transaction changes. *)
Definition same_params (c c' : Chip) : Prop :=
  set_latency c' = set_latency c /\ clear_latency c' = clear_latency c /\
  stations c' = stations c.

(** Driver and chip are ready for a tune or seek command: the band members
    hold a row of the table, the chip is idle, and the poll budget covers
    its latencies. *)
Definition ready (fuel : nat) (w : world Chip) : Prop :=
  sized w /\ region_set (drv w) = true /\
  chip_ok (dev w) /\ chip_idle (dev w) = true /\
  (set_latency (dev w) < fuel)%nat /\ (clear_latency (dev w) < fuel)%nat.

(** A run of [c] that returns leaves the parameters of the chip alone. *)
Definition steady {A} (c : M Chip A) : Prop :=
  forall w, sized w -> forall a w', c w = Ok a w' ->
    sized w' /\ same_params (dev w) (dev w').

(** The frequency of the highest channel of the band. *)
Definition top_channel (o : Si4703) : Z :=
  _bandStart o + _bandSpacing o * ((_bandEnd o - _bandStart o) / _bandSpacing o).

(** The frequency the chip is tuned to, as [getChannel] computes it. *)
Definition tuned_to (w : world Chip) : Z :=
  _bandStart (drv w) + _bandSpacing (drv w) * chip_get bits.READCHAN (dev w).

(** ** The public methods of the class, one by one *)

Inductive call : Type :=
| c_powerUp | c_powerDown | c_start
| c_getPN | c_getMFGID | c_getREV | c_getDEV | c_getFIRMWARE
| c_getBandStart | c_getBandEnd | c_getBandSpace
| c_getRSSI
| c_getChannel | c_setChannel (freq : Z) | c_incChannel | c_decChannel
| c_seekUp | c_seekDown
| c_setMono (en : bool) | c_getMono | c_getST
| c_setMute (en : bool) | c_getMute
| c_setVolExt (en : bool) | c_getVolExt
| c_getVolume | c_setVolume (volume : Z) | c_incVolume | c_decVolume
| c_readRDS
| c_writeGPIO (GPIO val : Z).

(** A bus transaction as the driver is meant to make it: a read of the
    whole register bank from the chip's address, or a write of the six
    control registers to it, byte by byte. *)
Definition bus_ok (e : event) : Prop :=
  match e with
  | EvRequest a q rx =>
      a = I2C_ADDR /\ q = 32 /\ (length rx <= 32)%nat /\ Forall is_byte rx
  | EvTransmit a tx _ =>
      a = I2C_ADDR /\ length tx = 12%nat /\ Forall is_byte tx
  | _ => True
  end.

(** Pin set-up, pin writes and the start of the bus. *)
Definition pin_event (e : event) : bool :=
  match e with
  | EvPinMode _ _ | EvDigitalWrite _ _ | EvWireBegin _ _ => true
  | _ => false
  end.

Section Calls.
Context {D : Type} `{Device D}.

(** A call whose result is dropped. *)
Definition void {A} (c : M D A) : M D unit := bind c (fun _ => ret tt).

(** A call of a public method; [fuel] bounds the polls of each busy-wait
    loop. *)
Definition call_run (fuel : nat) (c : call) : M D unit :=
  match c with
  | c_powerUp => powerUp
  | c_powerDown => powerDown
  | c_start => start
  | c_getPN => void getPN
  | c_getMFGID => void getMFGID
  | c_getREV => void getREV
  | c_getDEV => void getDEV
  | c_getFIRMWARE => void getFIRMWARE
  | c_getBandStart => void getBandStart
  | c_getBandEnd => void getBandEnd
  | c_getBandSpace => void getBandSpace
  | c_getRSSI => void getRSSI
  | c_getChannel => void getChannel
  | c_setChannel freq => void (setChannel fuel freq)
  | c_incChannel => void (incChannel fuel)
  | c_decChannel => void (decChannel fuel)
  | c_seekUp => void (seekUp fuel)
  | c_seekDown => void (seekDown fuel)
  | c_setMono en => setMono en
  | c_getMono => void getMono
  | c_getST => void getST
  | c_setMute en => setMute en
  | c_getMute => void getMute
  | c_setVolExt en => setVolExt en
  | c_getVolExt => void getVolExt
  | c_getVolume => void getVolume
  | c_setVolume v => void (setVolume v)
  | c_incVolume => void incVolume
  | c_decVolume => void decVolume
  | c_readRDS => readRDS
  | c_writeGPIO GPIO val => writeGPIO GPIO val
  end.

(** The world in which a call ends, however it ends. *)
Definition call_final (fuel : nat) (c : call) (w : world D) : world D :=
  final (call_run fuel c w).

(** Calls one after the other, as long as they return. *)
Fixpoint session (fuel : nat) (cs : list call) : M D unit :=
  match cs with
  | [] => ret tt
  | c :: cs' => bind (call_run fuel c) (fun _ => session fuel cs')
  end.

(** From [w] to [w'] the driver object changed within [S] and the trace
    grew by events that satisfy [Q]. *)
Definition follows (S : Si4703 -> Si4703 -> Prop) (Q : event -> Prop)
    (w w' : world D) : Prop :=
  S (drv w) (drv w') /\
  exists evs, trace w' = trace w ++ evs /\ Forall Q evs.

(** However a run of [c] ends, it ends with the shadow in place and in a
    world that [R] relates to the one it began in. *)
Definition orderly (R : world D -> world D -> Prop) {A} (c : M D A) : Prop :=
  forall w, sized w -> sized (final (c w)) /\ R w (final (c w)).

End Calls.

Section Release.
Context {D : Type} `{Device D}.

(** A run from [w] of a command that sets the bit [f], waits and clears
    it: either it gives up waiting for completion, having made the
    command write only, or the write that clears [f] comes after a block
    read that showed the STC bit (bit 14 of the first word) set, then one
    more block read. *)
Definition released_after_completion {A} (f : bitfield) (w : world D)
    (o : outcome D A) : Prop :=
  exists tx1 s1 pre,
    sent_field f tx1 = 1 /\
    Forall (fun e => is_transmit e = false) pre /\
    ((exists w', o = Timeout w' /\
        trace w' = trace w ++ [EvRequest I2C_ADDR 32 (next_block w);
                               EvTransmit I2C_ADDR tx1 s1] ++ pre) \/
     (exists bp b2 tx2 s2 rest,
        trace (final o) =
          trace w ++ [EvRequest I2C_ADDR 32 (next_block w);
                      EvTransmit I2C_ADDR tx1 s1] ++ pre
          ++ [EvRequest I2C_ADDR 32 bp; EvRequest I2C_ADDR 32 b2;
              EvTransmit I2C_ADDR tx2 s2] ++ rest /\
        Z.testbit (rx_word bp 0) 14 = true /\
        sent_field f tx2 = 0 /\
        Forall (fun e => is_transmit e = false) rest)).

End Release.

(** The calls made while the radio is in use: every public method but
    [start] and [powerDown]. *)
Definition operates (c : call) : bool :=
  match c with
  | c_start | c_powerDown => false
  | _ => true
  end.

(** * Facts about bit fields *)

Section BitFacts.

Lemma testbit_get_bits off wd w i :
  0 <= off -> 0 <= wd -> 0 <= i ->
  Z.testbit (get_bits off wd w) i = (i <? wd) && Z.testbit w (i + off).
Proof.
  intros Hoff Hwd Hi. unfold get_bits.
  rewrite Z.land_spec, Z.shiftr_spec, Z.testbit_ones_nonneg by lia.
  apply andb_comm.
Qed.

Lemma testbit_set_bits off wd v w i :
  0 <= off -> 0 <= wd -> 0 <= i ->
  Z.testbit (set_bits off wd v w) i =
  if (off <=? i) && (i <? off + wd) then Z.testbit v (i - off)
  else Z.testbit w i.
Proof.
  intros Hoff Hwd Hi. unfold set_bits.
  rewrite Z.lor_spec, Z.ldiff_spec, !Z.shiftl_spec by lia.
  destruct (Z.leb_spec off i) as [Hle|Hlt]; simpl.
  - rewrite Z.land_spec, !Z.testbit_ones_nonneg by lia.
    destruct (Z.ltb_spec (i - off) wd), (Z.ltb_spec i (off + wd));
      try lia; simpl; rewrite ?andb_false_r, ?andb_true_r, ?orb_false_r;
      reflexivity.
  - rewrite !(Z.testbit_neg_r _ (i - off)) by lia.
    simpl. rewrite andb_true_r, orb_false_r. reflexivity.
Qed.

Lemma get_set_bits_same off wd v w :
  0 <= off -> 0 <= wd ->
  get_bits off wd (set_bits off wd v w) = Z.land v (Z.ones wd).
Proof.
  intros Hoff Hwd. apply Z.bits_inj'. intros i Hi.
  rewrite testbit_get_bits, Z.land_spec, Z.testbit_ones_nonneg by lia.
  destruct (Z.ltb_spec i wd) as [Hlt|Hge]; simpl.
  - rewrite testbit_set_bits by lia.
    replace ((off <=? i + off) && (i + off <? off + wd)) with true
      by (symmetry; apply andb_true_intro; split;
          [apply Z.leb_le | apply Z.ltb_lt]; lia).
    replace (i + off - off) with i by lia. now rewrite andb_true_r.
  - now rewrite andb_false_r.
Qed.

Lemma get_set_bits_other off wd v w off' wd' :
  0 <= off -> 0 <= wd -> 0 <= off' -> 0 <= wd' ->
  off' + wd' <= off \/ off + wd <= off' ->
  get_bits off' wd' (set_bits off wd v w) = get_bits off' wd' w.
Proof.
  intros Hoff Hwd Hoff' Hwd' Hdisj. apply Z.bits_inj'. intros i Hi.
  rewrite !testbit_get_bits by lia.
  destruct (Z.ltb_spec i wd') as [Hlt|Hge]; simpl; [|reflexivity].
  rewrite testbit_set_bits by lia.
  replace ((off <=? i + off') && (i + off' <? off + wd)) with false;
    [reflexivity|].
  symmetry. apply andb_false_iff.
  destruct Hdisj; [left; apply Z.leb_gt | right; apply Z.ltb_ge]; lia.
Qed.

Lemma get_bits_mod off wd w :
  0 <= off -> 0 <= wd ->
  get_bits off wd w = (w / 2 ^ off) mod 2 ^ wd.
Proof.
  intros. unfold get_bits.
  now rewrite Z.land_ones, Z.shiftr_div_pow2 by lia.
Qed.

Lemma get_bits_range off wd w :
  0 <= off -> 0 <= wd -> 0 <= get_bits off wd w < 2 ^ wd.
Proof.
  intros. rewrite get_bits_mod by lia.
  apply Z.mod_pos_bound, Z.pow_pos_nonneg; lia.
Qed.

Lemma small_of_high_bits x n :
  0 <= n -> 0 <= x -> (forall i, n <= i -> Z.testbit x i = false) ->
  x < 2 ^ n.
Proof.
  intros Hn Hx Hbits.
  assert (Heq : x = x mod 2 ^ n).
  { apply Z.bits_inj'. intros i Hi.
    destruct (Z.lt_ge_cases i n).
    - now rewrite Z.mod_pow2_bits_low by lia.
    - rewrite Z.mod_pow2_bits_high by lia. now apply Hbits. }
  rewrite Heq. apply Z.mod_pos_bound, Z.pow_pos_nonneg; lia.
Qed.

Lemma high_bits_of_small x n i :
  0 <= x < 2 ^ n -> n <= i -> Z.testbit x i = false.
Proof.
  intros [Hx Hlt] Hi.
  destruct (Z.eq_dec x 0) as [->|Hne]; [apply Z.bits_0|].
  apply Z.bits_above_log2; [lia|].
  assert (Z.log2 x < n); [|lia].
  apply Z.log2_lt_pow2; lia.
Qed.

Lemma set_bits_uint16 off wd v w :
  0 <= off -> 0 <= wd -> off + wd <= 16 ->
  is_uint16 w -> is_uint16 (set_bits off wd v w).
Proof.
  intros Hoff Hwd Hfit [Hw0 Hw1]. split.
  - unfold set_bits. apply Z.lor_nonneg. split.
    + apply Z.ldiff_nonneg. now left.
    + apply Z.shiftl_nonneg, Z.land_nonneg. right.
      rewrite Z.ones_equiv. pose proof (Z.pow_pos_nonneg 2 wd). lia.
  - change 65536 with (2 ^ 16). apply small_of_high_bits; [lia| |].
    + unfold set_bits. apply Z.lor_nonneg. split.
      * apply Z.ldiff_nonneg. now left.
      * apply Z.shiftl_nonneg, Z.land_nonneg. right.
        rewrite Z.ones_equiv. pose proof (Z.pow_pos_nonneg 2 wd). lia.
    + intros i Hi. rewrite testbit_set_bits by lia.
      replace ((off <=? i) && (i <? off + wd)) with false.
      * apply (high_bits_of_small w 16); [split; assumption | lia].
      * symmetry. apply andb_false_iff. right. apply Z.ltb_ge. lia.
Qed.

Lemma to_uint16_range z : is_uint16 (to_uint16 z).
Proof.
  unfold is_uint16, to_uint16. change 0xFFFF with (Z.ones 16).
  rewrite Z.land_ones by lia. apply Z.mod_pos_bound. lia.
Qed.

Lemma to_uint8_range z : 0 <= to_uint8 z < 256.
Proof.
  unfold to_uint8. change 0xFF with (Z.ones 8).
  rewrite Z.land_ones by lia. apply Z.mod_pos_bound. lia.
Qed.

Lemma to_uint8_small z : 0 <= z < 256 -> to_uint8 z = z.
Proof.
  intros. unfold to_uint8. change 0xFF with (Z.ones 8).
  rewrite Z.land_ones by lia. apply Z.mod_small. lia.
Qed.

Lemma to_uint16_small z : is_uint16 z -> to_uint16 z = z.
Proof.
  intros [? ?]. unfold to_uint16. change 0xFFFF with (Z.ones 16).
  rewrite Z.land_ones by lia. apply Z.mod_small. lia.
Qed.

(** Two bytes, high byte first, make the word [256 * hi + lo]. *)
Lemma big_endian_pair hi lo :
  0 <= hi < 256 -> 0 <= lo < 256 ->
  Z.lor (Z.shiftl hi 8) lo = 256 * hi + lo /\
  is_uint16 (Z.lor (Z.shiftl hi 8) lo).
Proof.
  intros Hhi Hlo.
  assert (Heq : Z.lor (Z.shiftl hi 8) lo = 256 * hi + lo).
  { rewrite Z.shiftl_mul_pow2 by lia. change (2 ^ 8) with 256.
    rewrite <- Z.lxor_lor.
    - rewrite <- Z.add_nocarry_lxor; [lia|].
      apply Z.bits_inj'. intros i Hi. rewrite Z.land_spec, Z.bits_0.
      destruct (Z.lt_ge_cases i 8).
      + replace (hi * 256) with (hi * 2 ^ 8) by reflexivity.
        rewrite Z.mul_pow2_bits_low by lia. reflexivity.
      + rewrite (high_bits_of_small lo 8 i) by (simpl; lia).
        apply andb_false_r.
    - apply Z.bits_inj'. intros i Hi. rewrite Z.land_spec, Z.bits_0.
      destruct (Z.lt_ge_cases i 8).
      + replace (hi * 256) with (hi * 2 ^ 8) by reflexivity.
        rewrite Z.mul_pow2_bits_low by lia. reflexivity.
      + rewrite (high_bits_of_small lo 8 i) by (simpl; lia).
        apply andb_false_r. }
  split; [exact Heq|]. rewrite Heq. unfold is_uint16. lia.
Qed.

(** The two bytes [putShadow] writes for a word are its big-endian pair. *)
Lemma word_bytes_split v :
  is_uint16 v ->
  0 <= Z.shiftr v 8 < 256 /\ 0 <= Z.land v 0xFF < 256 /\
  v = 256 * Z.shiftr v 8 + Z.land v 0xFF.
Proof.
  intros [H0 H1]. rewrite Z.shiftr_div_pow2 by lia.
  change 0xFF with (Z.ones 8). rewrite Z.land_ones by lia.
  change (2 ^ 8) with 256.
  pose proof (Z.div_mod v 256). pose proof (Z.mod_pos_bound v 256).
  assert (0 <= v / 256 < 256).
  { split; [apply Z.div_pos; lia | apply Z.div_lt_upper_bound; lia]. }
  lia.
Qed.

End BitFacts.

(** * Facts about the shadow and the two block transfers *)

Section ShadowFacts.

Lemma word_set_field_other f v sh i :
  i <> reg.index (bf_reg f) -> word (set_field f v sh) i = word sh i.
Proof.
  intros Hne. unfold word, set_field.
  now rewrite list_lookup_insert_ne by congruence.
Qed.

Lemma word_set_field_same f v sh :
  (reg.index (bf_reg f) < length sh)%nat ->
  word (set_field f v sh) (reg.index (bf_reg f)) =
  set_bits (bf_off f) (bf_width f) v (word sh (reg.index (bf_reg f))).
Proof.
  intros Hlt. unfold word at 1, set_field.
  now rewrite list_lookup_insert_eq by assumption.
Qed.

Lemma length_set_field f v sh : length (set_field f v sh) = length sh.
Proof. unfold set_field. apply length_insert. Qed.

Lemma reg_index_lt r : (reg.index r < 16)%nat.
Proof. destruct r; simpl; lia. Qed.

Lemma reg_index_inj r r' : reg.index r = reg.index r' -> r = r'.
Proof. destruct r, r'; simpl; intros; congruence. Qed.

Lemma get_set_field_same f v sh :
  field_ok f -> length sh = 16%nat ->
  get_field f (set_field f v sh) = Z.land v (Z.ones (bf_width f)).
Proof.
  intros (Ho & Hw & _) Hlen. unfold get_field.
  rewrite word_set_field_same by (rewrite Hlen; apply reg_index_lt).
  now apply get_set_bits_same.
Qed.

Lemma get_set_field_apart f g v sh :
  field_ok f -> field_ok g -> apart f g -> length sh = 16%nat ->
  get_field g (set_field f v sh) = get_field g sh.
Proof.
  intros (Ho & Hw & _) (Ho' & Hw' & _) Hap Hlen. unfold get_field.
  destruct (decide (reg.index (bf_reg g) = reg.index (bf_reg f))) as [He|Hn].
  - rewrite He.
    rewrite word_set_field_same by (rewrite Hlen; apply reg_index_lt).
    apply get_set_bits_other; try assumption.
    destruct Hap as [Hr|Hr]; [|exact Hr].
    exfalso. apply Hr. symmetry. now apply reg_index_inj.
  - now rewrite word_set_field_other.
Qed.

Lemma decode_length rx : length (decode rx) = 16%nat.
Proof. reflexivity. Qed.

Lemma word_decode rx i : (i < 16)%nat -> word (decode rx) i = rx_word rx i.
Proof.
  intros Hi. unfold word, decode.
  do 16 (destruct i as [|i]; [reflexivity|]). lia.
Qed.

Lemma word_uint16_decode rx i : is_uint16 (word (decode rx) i).
Proof.
  destruct (Nat.lt_ge_cases i 16) as [Hlt|Hge].
  - rewrite word_decode by assumption. apply to_uint16_range.
  - unfold word. rewrite lookup_ge_None_2 by (rewrite decode_length; lia).
    simpl. unfold is_uint16. lia.
Qed.

End ShadowFacts.

Section Transfers.
Context {D : Type} `{Device D}.

Lemma bind_ok {A B} (c : M D A) (k : A -> M D B) w a w' :
  c w = Ok a w' -> bind c k w = k a w'.
Proof. intros Hc. unfold bind. now rewrite Hc. Qed.

Lemma bind_timeout {A B} (c : M D A) (k : A -> M D B) w w' :
  c w = Timeout w' -> bind c k w = Timeout w'.
Proof. intros Hc. unfold bind. now rewrite Hc. Qed.

Lemma bind_assoc {A B C} (c : M D A) (f : A -> M D B) (k : B -> M D C) w :
  bind (bind c f) k w = bind c (fun a => bind (f a) k) w.
Proof. unfold bind. now destruct (c w). Qed.

Lemma Wire_read_drop o rx j ta tb (d : D) tr :
  Wire_read (World o {| rxBuffer := drop j rx; txAddress := ta;
                        txBuffer := tb |} d tr) =
  Ok (rx_byte rx j)
     (World o {| rxBuffer := drop (S j) rx; txAddress := ta;
                 txBuffer := tb |} d tr).
Proof.
  unfold Wire_read, rx_byte. simpl. rewrite nth_lookup.
  destruct (rx !! j) as [x|] eqn:E.
  - rewrite (drop_S _ _ _ E). reflexivity.
  - apply lookup_ge_None in E.
    rewrite !drop_ge by lia. reflexivity.
Qed.

(** The loop of [getShadow]: words [i .. i+n) are taken from the block,
    the words before and after are left as they are. *)
Lemma getShadow_loop rx ta tb (d : D) tr n :
  forall i o pre post,
    shadow o = pre ++ post -> length pre = i -> length post = n ->
    for_range i n (fun i =>
        hi <- Wire_read ;;
        lo <- Wire_read ;;
        shadow_word_set i (Z.lor (Z.shiftl hi 8) lo))%drv
      (World o {| rxBuffer := drop (2 * i) rx; txAddress := ta;
                  txBuffer := tb |} d tr) =
    Ok tt (World (with_shadow (pre ++ map (rx_word rx) (seq i n)) o)
             {| rxBuffer := drop (2 * (i + n)) rx; txAddress := ta;
                txBuffer := tb |} d tr).
Proof.
  induction n as [|n IH]; intros i o pre post Hsh Hpre Hpost.
  - destruct post; [|discriminate].
    replace (i + 0)%nat with i by lia.
    cbn [for_range seq map]. unfold ret. rewrite <- Hsh.
    destruct o; reflexivity.
  - destruct post as [|x post]; [discriminate|].
    cbn [for_range].
    set (o' := with_shadow
                 (set_word (shadow o) i
                    (Z.lor (Z.shiftl (rx_byte rx (2 * i)) 8)
                       (rx_byte rx (S (2 * i))))) o).
    transitivity
      (for_range (S i) n (fun i =>
           hi <- Wire_read ;;
           lo <- Wire_read ;;
           shadow_word_set i (Z.lor (Z.shiftl hi 8) lo))%drv
         (World o' {| rxBuffer := drop (2 * S i) rx; txAddress := ta;
                      txBuffer := tb |} d tr)).
    { erewrite bind_ok; cycle 1.
      { erewrite bind_ok by apply Wire_read_drop.
        erewrite bind_ok by apply Wire_read_drop.
        reflexivity. }
      replace (2 * S i)%nat with (S (S (2 * i))) by lia.
      reflexivity. }
    rewrite (IH (S i) o' (pre ++ [rx_word rx i]) post).
    + replace (S i + n)%nat with (i + S n)%nat by lia.
      cbn [seq map]. rewrite <- app_assoc. reflexivity.
    + subst o'. cbn [shadow with_shadow]. rewrite Hsh. unfold set_word.
      rewrite <- Hpre.
      rewrite (insert_app_r_alt pre (x :: post)) by lia.
      rewrite Nat.sub_diag. simpl. rewrite <- app_assoc.
      unfold rx_word. subst i.
      replace (2 * length pre + 1)%nat with (S (2 * length pre)) by lia.
      reflexivity.
    + rewrite length_app. simpl. lia.
    + simpl in Hpost. lia.
Qed.

Lemma next_block_short w : (length (next_block w) <= 32)%nat.
Proof.
  unfold next_block. rewrite length_map, length_take. lia.
Qed.

(** A refresh is total: it replaces the sixteen words by what was read. *)
Lemma getShadow_run w : sized w -> getShadow w = Ok tt (refresh w).
Proof.
  intros Hsz. unfold getShadow.
  erewrite bind_ok by reflexivity.
  pose proof (getShadow_loop (next_block w) (txAddress (wire w))
                (txBuffer (wire w))
                (snd (dev_request I2C_ADDR 32 (dev w)))
                (trace w ++ [EvRequest I2C_ADDR 32 (next_block w)])
                16 0%nat (drv w) [] (shadow (drv w)) eq_refl eq_refl Hsz)
    as Hloop.
  cbn [drv wire dev trace log rxBuffer txAddress txBuffer].
  change (drop (2 * 0) (next_block w)) with (next_block w) in Hloop.
  unfold next_block in Hloop at 1.
  change (Z.to_nat 32) with 32%nat.
  etransitivity; [exact Hloop|].
  unfold refresh. f_equal. f_equal.
  rewrite drop_ge by (pose proof (next_block_short w); simpl; lia).
  reflexivity.
Qed.

(** A write-back is total: one block write of the six control words. *)
Lemma putShadow_run w : putShadow w = Ok (write_status w) (flush w).
Proof. reflexivity. Qed.

Lemma sized_refresh w : sized (refresh w).
Proof. reflexivity. Qed.

Lemma sized_flush (w : world D) : sized w -> sized (flush w).
Proof. exact id. Qed.

Lemma sized_assign f v (w : world D) : sized w -> sized (assign f v w).
Proof.
  unfold sized, assign. cbn [drv shadow with_shadow].
  now rewrite length_set_field.
Qed.

Lemma bits_set_run f v (w : world D) : bits_set f v w = Ok tt (assign f v w).
Proof. reflexivity. Qed.

End Transfers.

(** * The two block transfers on an arbitrary device *)

Section BlockTransfers.
Context {D : Type} `{Device D}.

Lemma rx_word_full bs k :
  length bs = 32%nat -> Forall is_byte bs -> (k < 16)%nat ->
  rx_word bs k = 256 * nth (2 * k) bs 0 + nth (2 * k + 1) bs 0.
Proof.
  intros Hlen Hall Hk. unfold rx_word, rx_byte.
  assert (Hb : forall j, (j < 32)%nat -> is_byte (nth j bs (-1)) /\
                                          nth j bs (-1) = nth j bs 0).
  { intros j Hj. rewrite !nth_lookup.
    destruct (bs !! j) as [b|] eqn:E.
    - simpl. split; [|reflexivity].
      rewrite Forall_lookup in Hall. exact (Hall _ _ E).
    - apply lookup_ge_None in E. lia. }
  destruct (Hb (2 * k)%nat ltac:(lia)) as [Hhi Ehi].
  destruct (Hb (2 * k + 1)%nat ltac:(lia)) as [Hlo Elo].
  destruct (big_endian_pair _ _ Hhi Hlo) as [Heq Hrange].
  rewrite to_uint16_small by exact Hrange.
  rewrite Heq, Ehi, Elo. reflexivity.
Qed.

Lemma map_to_uint8_bytes bs : Forall is_byte bs -> map to_uint8 bs = bs.
Proof.
  induction 1 as [|b bs Hb _ IH]; [reflexivity|].
  simpl. rewrite IH, to_uint8_small by exact Hb. reflexivity.
Qed.

Lemma next_block_exact (w : world D) bs d' :
  dev_request I2C_ADDR 32 (dev w) = (bs, d') ->
  length bs = 32%nat -> Forall is_byte bs ->
  next_block w = bs.
Proof.
  intros Hreq Hlen Hall. unfold next_block. rewrite Hreq. simpl fst.
  rewrite take_ge by lia. now apply map_to_uint8_bytes.
Qed.

(** In the order of a block read, shadow slot [i] is register
    [(i + 0x0A) mod 16]: slots 0-5 are 0x0A-0x0F, slots 6-15 are
    0x00-0x09. *)
Lemma read_order_slot r :
  nth_error read_order (reg.index r) = Some (reg.addr r) /\
  reg.addr r = (Z.of_nat (reg.index r) + 0x0A) mod 16.
Proof. destruct r; split; reflexivity. Qed.

(** C4. [getShadow] performs one block read of 32 bytes from the chip's
    bus address and, whatever 32 bytes [bs] the bus delivers, returns with
    the sixteen words stored big-endian, high byte first, in the order of
    arrival: the slot of register [r] in the shadow holds word number
    [reg.index r] of the block, which in the chip's read order is register
    [reg.addr r]; so slots 0-5 take registers 0x0A-0x0F and slots 6-15
    take registers 0x00-0x09. *)
Theorem getShadow_read_order (w : world D) (bs : list Z) (d' : D) :
  sized w ->
  dev_request I2C_ADDR 32 (dev w) = (bs, d') ->
  length bs = 32%nat -> Forall is_byte bs ->
  exists w',
    getShadow w = Ok tt w' /\
    trace w' = trace w ++ [EvRequest I2C_ADDR 32 bs] /\
    dev w' = d' /\
    length (shadow (drv w')) = 16%nat /\
    (forall i, (i < 16)%nat ->
       word (shadow (drv w')) i =
       256 * nth (2 * i) bs 0 + nth (2 * i + 1) bs 0) /\
    (forall r,
       nth_error read_order (reg.index r) = Some (reg.addr r) /\
       (reg.addr r = (Z.of_nat (reg.index r) + 0x0A) mod 16) /\
       word (shadow (drv w')) (reg.index r) =
       256 * nth (2 * reg.index r) bs 0 + nth (2 * reg.index r + 1) bs 0).
Proof.
  intros Hsz Hreq Hlen Hall.
  pose proof (next_block_exact w bs d' Hreq Hlen Hall) as Hblock.
  exists (refresh w). split; [now apply getShadow_run|].
  assert (Hword : forall i, (i < 16)%nat ->
            word (shadow (drv (refresh w))) i =
            256 * nth (2 * i) bs 0 + nth (2 * i + 1) bs 0).
  { intros i Hi. unfold refresh. cbn [drv shadow with_shadow].
    rewrite word_decode by exact Hi. rewrite Hblock.
    now apply rx_word_full. }
  split; [unfold refresh; cbn [trace]; now rewrite Hblock|].
  split; [unfold refresh; cbn [dev]; now rewrite Hreq|].
  split; [reflexivity|].
  split; [exact Hword|].
  intros r. destruct (read_order_slot r) as [Hnth Haddr].
  split; [exact Hnth|]. split; [exact Haddr|].
  apply Hword, reg_index_lt.
Qed.

Lemma control_bytes_length sh : length (control_bytes sh) = 12%nat.
Proof. reflexivity. Qed.

Lemma word_uint16 sh i : Forall is_uint16 sh -> is_uint16 (word sh i).
Proof.
  intros Hall. unfold word. destruct (sh !! i) as [v|] eqn:E; simpl.
  - rewrite Forall_lookup in Hall. exact (Hall _ _ E).
  - unfold is_uint16. lia.
Qed.

Lemma control_bytes_word sh k :
  Forall is_uint16 sh -> (k < 6)%nat ->
  nth (2 * k) (control_bytes sh) 0 = Z.shiftr (word sh (8 + k)) 8 /\
  nth (2 * k + 1) (control_bytes sh) 0 = Z.land (word sh (8 + k)) 0xFF /\
  tx_word (control_bytes sh) k = word sh (8 + k).
Proof.
  intros Hall Hk.
  destruct (word_bytes_split _ (word_uint16 sh (8 + k) Hall))
    as (Hhi & Hlo & Hsum).
  assert (Hpair : nth (2 * k) (control_bytes sh) 0 =
                    to_uint8 (Z.shiftr (word sh (8 + k)) 8) /\
                  nth (2 * k + 1) (control_bytes sh) 0 =
                    to_uint8 (Z.land (word sh (8 + k)) 0xFF)).
  { do 6 (destruct k as [|k]; [split; reflexivity|]). lia. }
  destruct Hpair as [E1 E2]. unfold tx_word.
  rewrite E1, E2, !to_uint8_small by assumption.
  repeat split; lia.
Qed.

Lemma tx_pair_word v :
  is_uint16 v ->
  256 * to_uint8 (Z.shiftr v 8) + to_uint8 (Z.land v 0xFF) = v.
Proof.
  intros Hv. destruct (word_bytes_split v Hv) as (Hhi & Hlo & Hsum).
  rewrite !to_uint8_small by assumption. lia.
Qed.

Lemma control_regs_nth k :
  (k < 6)%nat ->
  exists r, nth_error control_regs k = Some r /\
            reg.addr r = 2 + Z.of_nat k /\ reg.index r = (8 + k)%nat.
Proof.
  intros Hk.
  do 6 (destruct k as [|k]; [eexists; repeat split; reflexivity|]). lia.
Qed.

(** C3. [putShadow] makes exactly one block write, to the chip's bus
    address, of exactly 12 bytes: the six shadow words of the control
    registers 0x02..0x07 in ascending register number, each as its high
    byte followed by its low byte. This holds for every shadow, so also
    right after any one field [f] was assigned any value [v]. *)
Theorem putShadow_six_words (w : world D) (f : bitfield) (v : Z) :
  let six_words (w0 : world D) :=
    exists st w' bytes,
      putShadow w0 = Ok st w' /\
      trace w' = trace w0 ++ [EvTransmit I2C_ADDR bytes st] /\
      length bytes = 12%nat /\
      drv w' = drv w0 /\
      forall k, (k < 6)%nat ->
        exists r,
          nth_error control_regs k = Some r /\
          reg.addr r = 2 + Z.of_nat k /\
          nth (2 * k) bytes 0 =
            to_uint8 (Z.shiftr (word (shadow (drv w0)) (reg.index r)) 8) /\
          nth (2 * k + 1) bytes 0 =
            to_uint8 (Z.land (word (shadow (drv w0)) (reg.index r)) 0xFF) /\
          (is_uint16 (word (shadow (drv w0)) (reg.index r)) ->
           tx_word bytes k = word (shadow (drv w0)) (reg.index r)) in
  six_words w /\ six_words (assign f v w).
Proof.
  assert (Hsix : forall w0 : world D,
    exists st w' bytes,
      putShadow w0 = Ok st w' /\
      trace w' = trace w0 ++ [EvTransmit I2C_ADDR bytes st] /\
      length bytes = 12%nat /\
      drv w' = drv w0 /\
      forall k, (k < 6)%nat ->
        exists r,
          nth_error control_regs k = Some r /\
          reg.addr r = 2 + Z.of_nat k /\
          nth (2 * k) bytes 0 =
            to_uint8 (Z.shiftr (word (shadow (drv w0)) (reg.index r)) 8) /\
          nth (2 * k + 1) bytes 0 =
            to_uint8 (Z.land (word (shadow (drv w0)) (reg.index r)) 0xFF) /\
          (is_uint16 (word (shadow (drv w0)) (reg.index r)) ->
           tx_word bytes k = word (shadow (drv w0)) (reg.index r))).
  { intros w0.
    exists (write_status w0), (flush w0), (control_bytes (shadow (drv w0))).
    split; [apply putShadow_run|].
    split; [reflexivity|]. split; [reflexivity|]. split; [reflexivity|].
    intros k Hk. destruct (control_regs_nth k Hk) as (r & Hnth & Haddr & Hidx).
    exists r. rewrite Hidx.
    assert (Hpair :
      nth (2 * k) (control_bytes (shadow (drv w0))) 0 =
        to_uint8 (Z.shiftr (word (shadow (drv w0)) (8 + k)) 8) /\
      nth (2 * k + 1) (control_bytes (shadow (drv w0))) 0 =
        to_uint8 (Z.land (word (shadow (drv w0)) (8 + k)) 0xFF)).
    { do 6 (destruct k as [|k]; [split; reflexivity|]). lia. }
    destruct Hpair as [E1 E2].
    split; [exact Hnth|]. split; [exact Haddr|].
    split; [exact E1|]. split; [exact E2|].
    intros Hv. unfold tx_word. rewrite E1, E2. now apply tx_pair_word. }
  intros six_words. split; apply Hsix.
Qed.

End BlockTransfers.

(** * Read-modify-write accessors on an arbitrary device *)

Section Accessors.
Context {D : Type} `{Device D}.

Lemma decode_uint16 rx : Forall is_uint16 (decode rx).
Proof.
  unfold decode. apply Forall_forall. intros x Hx.
  apply list_elem_of_In, in_map_iff in Hx. destruct Hx as (k & <- & _).
  apply to_uint16_range.
Qed.

Lemma set_field_uint16 f v sh :
  field_ok f -> Forall is_uint16 sh -> Forall is_uint16 (set_field f v sh).
Proof.
  intros (Ho & Hw & Hfit) Hall. unfold set_field.
  apply Forall_insert; [exact Hall|].
  apply set_bits_uint16; try assumption. now apply word_uint16.
Qed.

Lemma is_control_slot r :
  is_control r = true ->
  (tx_slot r < 6)%nat /\ (8 + tx_slot r)%nat = reg.index r.
Proof.
  destruct r; intros Hc; try discriminate Hc;
    (split; [unfold tx_slot; simpl; lia | reflexivity]).
Qed.

(** A control field travels in a write-back as the shadow holds it. *)
Lemma sent_field_control f sh :
  is_control (bf_reg f) = true -> Forall is_uint16 sh ->
  sent_field f (control_bytes sh) = get_field f sh.
Proof.
  intros Hc Hall. destruct (is_control_slot _ Hc) as [Hlt Hidx].
  unfold sent_field, get_field.
  destruct (control_bytes_word sh _ Hall Hlt) as (_ & _ & ->).
  now rewrite Hidx.
Qed.

Lemma sent_word_control sh k :
  Forall is_uint16 sh -> (k < 6)%nat ->
  tx_word (control_bytes sh) k = word sh (8 + k).
Proof. intros Hall Hk. now destruct (control_bytes_word sh k Hall Hk) as (_ & _ & ?). Qed.

Lemma truthy_bit x i :
  0 <= i -> truthy (get_bits i 1 x) = Z.testbit x i.
Proof.
  intros Hi. unfold truthy, get_bits. change (Z.ones 1) with 1.
  assert (E : Z.land (Z.shiftr x i) 1 = Z.b2z (Z.testbit x i)).
  { change 1 with (Z.ones 1) at 1. rewrite Z.land_ones by lia.
    change (2 ^ 1) with 2. rewrite <- Z.bit0_mod, Z.shiftr_spec by lia.
    now rewrite Z.add_0_l. }
  rewrite E. now destruct (Z.testbit x i).
Qed.

Lemma bit_field_b2z (b : bool) : Z.land (Z.b2z b) (Z.ones 1) = Z.b2z b.
Proof. now destruct b. Qed.

(** The write-back after one assignment carries the new value in the
    assigned field and what was read in every other control field. *)
Lemma assigned_then_sent f v (w : world D) :
  field_ok f -> is_control (bf_reg f) = true ->
  let sh := shadow (drv (assign f v (refresh w))) in
  sent_field f (control_bytes sh) = Z.land v (Z.ones (bf_width f)) /\
  forall g, field_ok g -> is_control (bf_reg g) = true -> apart f g ->
    sent_field g (control_bytes sh) = get_field g (decode (next_block w)).
Proof.
  intros Hf Hc sh.
  assert (Hall : Forall is_uint16 sh).
  { apply set_field_uint16; [exact Hf | apply decode_uint16]. }
  split.
  - rewrite sent_field_control by assumption.
    now apply get_set_field_same.
  - intros g Hg Hcg Hap. rewrite sent_field_control by assumption.
    now apply get_set_field_apart.
Qed.

Lemma setMute_run en (w : world D) :
  sized w ->
  setMute en w = Ok tt (flush (assign bits.DMUTE (Z.b2z en) (refresh w))).
Proof.
  intros Hsz. unfold setMute.
  erewrite bind_ok by now apply getShadow_run. reflexivity.
Qed.

Lemma getMute_run (w : world D) :
  sized w ->
  getMute w =
  Ok (truthy (get_field bits.DMUTE (decode (next_block w)))) (refresh w).
Proof.
  intros Hsz. unfold getMute.
  erewrite bind_ok by now apply getShadow_run. reflexivity.
Qed.

Lemma field_ok_DMUTE : field_ok bits.DMUTE.
Proof. unfold field_ok; simpl; lia. Qed.

(** C8. [setMute en] reads the bank, writes [en] itself into the DMUTE
    bit and writes the control words back, every other control field as
    it was read: [setMute true] sends the chip's unmute bit asserted and
    [setMute false] sends it cleared. [getMute] returns the DMUTE bit of
    the power configuration word just read from the device, so [true]
    stands for audibly unmuted. The polarity is passed through unchanged
    in both directions. *)
Theorem setMute_writes_unmute_bit (en : bool) (w : world D) :
  sized w ->
  exists w' tx st,
    setMute en w = Ok tt w' /\
    trace w' = trace w ++ [EvRequest I2C_ADDR 32 (next_block w);
                           EvTransmit I2C_ADDR tx st] /\
    sent_field bits.DMUTE tx = Z.b2z en /\
    unmuted (tx_word tx 0) = en /\
    (forall g, field_ok g -> is_control (bf_reg g) = true ->
       apart bits.DMUTE g ->
       sent_field g tx = get_field g (decode (next_block w))) /\
    getMute w = Ok (unmuted (rx_word (next_block w) 8)) (refresh w).
Proof.
  intros Hsz.
  set (w1 := assign bits.DMUTE (Z.b2z en) (refresh w)).
  exists (flush w1), (control_bytes (shadow (drv w1))), (write_status w1).
  destruct (assigned_then_sent bits.DMUTE (Z.b2z en) w field_ok_DMUTE
              eq_refl) as [Hsame Hother].
  fold w1 in Hsame, Hother.
  split; [now apply setMute_run|].
  split; [unfold flush, w1, assign, refresh; cbn [trace];
          now rewrite <- app_assoc|].
  split; [rewrite Hsame; apply bit_field_b2z|].
  split.
  - unfold unmuted. rewrite <- (truthy_bit _ 14) by lia.
    change (get_bits 14 1 (tx_word (control_bytes (shadow (drv w1))) 0))
      with (sent_field bits.DMUTE (control_bytes (shadow (drv w1)))).
    rewrite Hsame, bit_field_b2z. now destruct en.
  - split; [exact Hother|].
    rewrite getMute_run by exact Hsz. f_equal.
    unfold unmuted. rewrite <- (truthy_bit _ 14) by lia.
    unfold get_field. simpl reg.index. now rewrite word_decode by lia.
Qed.

Lemma writeGPIO_run GPIO val (w : world D) :
  sized w ->
  writeGPIO GPIO val w =
  Ok tt (flush (match gpio_field GPIO with
                | Some f => assign f val (refresh w)
                | None => refresh w
                end)).
Proof.
  intros Hsz. unfold writeGPIO, gpio_field.
  erewrite bind_ok by now apply getShadow_run.
  destruct (Z.eqb GPIO GPIO1); [reflexivity|].
  destruct (Z.eqb GPIO GPIO2); [reflexivity|].
  destruct (Z.eqb GPIO GPIO3); reflexivity.
Qed.

Lemma gpio_field_spec GPIO :
  match gpio_field GPIO with
  | Some f =>
      (GPIO = 1 /\ f = bits.GPIO1 \/ GPIO = 2 /\ f = bits.GPIO2 \/
       GPIO = 3 /\ f = bits.GPIO3) /\
      field_ok f /\ bf_reg f = reg.SYSCONFIG1 /\ bf_width f = 2
  | None => GPIO <> 1 /\ GPIO <> 2 /\ GPIO <> 3
  end.
Proof.
  unfold gpio_field, GPIO1, GPIO2, GPIO3.
  destruct (Z.eqb_spec GPIO 1) as [->|H1].
  { split; [tauto|]. unfold field_ok; simpl; repeat split; lia. }
  destruct (Z.eqb_spec GPIO 2) as [->|H2].
  { split; [tauto|]. unfold field_ok; simpl; repeat split; lia. }
  destruct (Z.eqb_spec GPIO 3) as [->|H3].
  { split; [tauto|]. unfold field_ok; simpl; repeat split; lia. }
  tauto.
Qed.

(** C10. [writeGPIO pin val] always makes one full shadow read followed by
    one write-back of the six control words. For a pin other than GPIO1,
    GPIO2 and GPIO3 no bit field is touched and the six words go back as
    they were read. For pin 1, 2 or 3 the two-bit GPIO field of that pin
    in SYSCONFIG1 carries [val] (its two low bits; [val] itself when it is
    one of the four GPIO values) and every other control field carries the
    value just read. *)
Theorem writeGPIO_frame (GPIO val : Z) (w : world D) :
  sized w ->
  exists w' tx st,
    writeGPIO GPIO val w = Ok tt w' /\
    trace w' = trace w ++ [EvRequest I2C_ADDR 32 (next_block w);
                           EvTransmit I2C_ADDR tx st] /\
    length tx = 12%nat /\
    (GPIO <> GPIO1 -> GPIO <> GPIO2 -> GPIO <> GPIO3 ->
     shadow (drv w') = decode (next_block w) /\
     forall k, (k < 6)%nat ->
       tx_word tx k = rx_word (next_block w) (8 + k)) /\
    (forall f,
       GPIO = GPIO1 /\ f = bits.GPIO1 \/ GPIO = GPIO2 /\ f = bits.GPIO2 \/
       GPIO = GPIO3 /\ f = bits.GPIO3 ->
       bf_reg f = reg.SYSCONFIG1 /\ bf_width f = 2 /\
       sent_field f tx = val mod 4 /\
       (0 <= val < 4 -> sent_field f tx = val) /\
       forall g, field_ok g -> is_control (bf_reg g) = true -> apart f g ->
         sent_field g tx = get_field g (decode (next_block w))).
Proof.
  intros Hsz. rewrite writeGPIO_run by exact Hsz.
  pose proof (gpio_field_spec GPIO) as Hspec.
  destruct (gpio_field GPIO) as [f|].
  - destruct Hspec as (Hpin & Hf & Hreg & Hwd).
    set (w1 := assign f val (refresh w)).
    exists (flush w1), (control_bytes (shadow (drv w1))), (write_status w1).
    assert (Hc : is_control (bf_reg f) = true) by now rewrite Hreg.
    destruct (assigned_then_sent f val w Hf Hc) as [Hsame Hother].
    fold w1 in Hsame, Hother.
    assert (Hmod : sent_field f (control_bytes (shadow (drv w1))) = val mod 4).
    { rewrite Hsame, Hwd, Z.land_ones by lia. reflexivity. }
    split; [reflexivity|].
    split; [unfold flush, w1, assign, refresh; cbn [trace];
            now rewrite <- app_assoc|].
    split; [reflexivity|].
    split.
    { unfold GPIO1, GPIO2, GPIO3. intros. exfalso.
      destruct Hpin as [[? _]|[[? _]|[? _]]]; congruence. }
    intros f' Hf'.
    assert (f' = f) as ->.
    { unfold GPIO1, GPIO2, GPIO3 in Hf'.
      destruct Hpin as [[? ->]|[[? ->]|[? ->]]];
        destruct Hf' as [[? ->]|[[? ->]|[? ->]]];
        first [reflexivity | exfalso; lia]. }
    split; [exact Hreg|]. split; [exact Hwd|]. split; [exact Hmod|].
    split; [|exact Hother].
    intros Hval. rewrite Hmod. apply Z.mod_small. lia.
  - exists (flush (refresh w)),
           (control_bytes (shadow (drv (refresh w)))),
           (write_status (refresh w)).
    split; [reflexivity|].
    split; [unfold flush, refresh; cbn [trace]; now rewrite <- app_assoc|].
    split; [reflexivity|].
    split.
    + intros _ _ _. split; [reflexivity|].
      intros k Hk. unfold refresh. cbn [drv shadow with_shadow].
      rewrite sent_word_control by (apply decode_uint16 || exact Hk).
      apply word_decode. lia.
    + intros f Hf. exfalso. unfold GPIO1, GPIO2, GPIO3 in Hf.
      destruct Hf as [[? _]|[[? _]|[? _]]]; lia.
Qed.

Lemma getVolume_run (w : world D) :
  sized w ->
  getVolume w = Ok (get_field bits.VOLUME (decode (next_block w))) (refresh w).
Proof.
  intros Hsz. unfold getVolume.
  erewrite bind_ok by now apply getShadow_run. reflexivity.
Qed.

Lemma setVolume_run v (w : world D) :
  sized w ->
  setVolume v w =
  Ok (get_field bits.VOLUME (decode (next_block (volume_written v w))))
     (refresh (volume_written v w)).
Proof.
  intros Hsz. unfold setVolume.
  erewrite bind_ok by now apply getShadow_run.
  replace (if (if v <? 0 then 0 else v) >? 15 then 15
           else if v <? 0 then 0 else v) with (clamp_volume v).
  - erewrite bind_ok by apply bits_set_run.
    erewrite bind_ok by apply putShadow_run.
    apply getVolume_run. apply sized_flush, sized_assign, sized_refresh.
  - unfold clamp_volume.
    destruct (Z.ltb_spec v 0);
      [change (0 >? 15) with false | destruct (Z.gtb_spec v 15)];
      cbv iota; lia.
Qed.

Lemma clamp_volume_range v : 0 <= clamp_volume v <= 15.
Proof. unfold clamp_volume. lia. Qed.

Lemma field_ok_VOLUME : field_ok bits.VOLUME.
Proof. unfold field_ok; simpl; lia. Qed.

(** What [setVolume] sends is the clamped volume, on any device. *)
Lemma volume_sent v (w : world D) :
  sent_field bits.VOLUME (control_bytes (shadow (drv (volume_written v w))))
  = clamp_volume v.
Proof.
  destruct (assigned_then_sent bits.VOLUME (clamp_volume v) w
              field_ok_VOLUME eq_refl) as [Hsame _].
  unfold volume_written. cbn [flush drv]. rewrite Hsame.
  change (Z.ones (bf_width bits.VOLUME)) with (Z.ones 4).
  rewrite Z.land_ones by lia. apply Z.mod_small.
  pose proof (clamp_volume_range v). simpl. lia.
Qed.

(** On a device that echoes the control words, the volume read back is
    the volume just written. *)
Lemma volume_echoed v (w : world D) :
  echoed (volume_written v w) = true ->
  get_field bits.VOLUME (decode (next_block (volume_written v w))) =
  clamp_volume v.
Proof.
  intros Hecho. unfold echoed in Hecho.
  rewrite forallb_forall in Hecho.
  assert (Hin : In 11%nat (seq 8 6)) by (simpl; tauto).
  apply Hecho, Z.eqb_eq in Hin.
  rewrite <- (volume_sent v w).
  rewrite sent_field_control; [|reflexivity|].
  - unfold get_field. simpl reg.index.
    rewrite word_decode by lia. now rewrite Hin.
  - unfold volume_written. cbn [flush drv assign shadow with_shadow].
    apply set_field_uint16; [apply field_ok_VOLUME | apply decode_uint16].
Qed.

(** One run of [setVolume] on any device: the read, the write with the
    clamped volume and every other control field as read, and the read
    whose VOLUME field is returned. *)
Lemma setVolume_outcome v (w : world D) :
  sized w ->
  let x := volume_written v w in
  let tx := control_bytes (shadow (drv x)) in
  let b' := next_block x in
  setVolume v w = Ok (get_field bits.VOLUME (decode b')) (refresh x) /\
  trace (refresh x) =
    trace w ++ [EvRequest I2C_ADDR 32 (next_block w);
                EvTransmit I2C_ADDR tx
                  (write_status
                     (assign bits.VOLUME (clamp_volume v) (refresh w)));
                EvRequest I2C_ADDR 32 b'] /\
  sent_field bits.VOLUME tx = clamp_volume v /\
  (forall g, field_ok g -> is_control (bf_reg g) = true ->
     apart bits.VOLUME g ->
     sent_field g tx = get_field g (decode (next_block w))) /\
  shadow (drv (refresh x)) = decode b' /\
  (rx_word b' 11 = tx_word tx 3 ->
   get_field bits.VOLUME (decode b') = clamp_volume v).
Proof.
  intros Hsz x tx b'.
  split; [now apply setVolume_run|].
  split.
  { unfold x, volume_written, flush, assign, refresh. cbn [trace].
    rewrite <- !app_assoc. reflexivity. }
  split; [apply volume_sent|].
  split.
  { destruct (assigned_then_sent bits.VOLUME (clamp_volume v) w
                field_ok_VOLUME eq_refl) as [_ Hother].
    exact Hother. }
  split; [reflexivity|].
  intros Hecho. rewrite <- (volume_sent v w). fold x. fold tx.
  unfold get_field, sent_field. simpl reg.index.
  rewrite word_decode by lia.
  change (tx_slot (bf_reg bits.VOLUME)) with 3%nat.
  now rewrite Hecho.
Qed.

(** C7. [setVolume v] reads the bank, stores the volume [max 0 (min 15 v)]
    in the four-bit VOLUME field, writes the control words back (every
    other control field as read) and returns the VOLUME field of the bank
    it reads after the write; that is the stored value as soon as the
    device delivers the SYSCONFIG2 word as it was written, as a device
    that echoes the control words does. So [setVolume (-5)] stores 0 and
    [setVolume 99] stores 15. [incVolume] and [decVolume] read the bank
    once more before, and do the same with the volume of that first read
    plus or minus one: at 15 [incVolume] stores 15 and at 0 [decVolume]
    stores 0. *)
Theorem volume_clamped (v : Z) (w : world D) :
  let cur := get_field bits.VOLUME (decode (next_block w)) in
  sized w ->
  (exists r w' tx st b',
     setVolume v w = Ok r w' /\
     trace w' = trace w ++ [EvRequest I2C_ADDR 32 (next_block w);
                            EvTransmit I2C_ADDR tx st;
                            EvRequest I2C_ADDR 32 b'] /\
     sent_field bits.VOLUME tx = clamp_volume v /\
     clamp_volume v = Z.max 0 (Z.min 15 v) /\
     (v = -5 -> sent_field bits.VOLUME tx = 0) /\
     (v = 99 -> sent_field bits.VOLUME tx = 15) /\
     (forall g, field_ok g -> is_control (bf_reg g) = true ->
        apart bits.VOLUME g ->
        sent_field g tx = get_field g (decode (next_block w))) /\
     shadow (drv w') = decode b' /\
     r = get_field bits.VOLUME (shadow (drv w')) /\
     (rx_word b' 11 = tx_word tx 3 -> r = clamp_volume v)) /\
  (exists r w' b0 tx st b',
     incVolume w = Ok r w' /\
     trace w' = trace w ++ [EvRequest I2C_ADDR 32 (next_block w);
                            EvRequest I2C_ADDR 32 b0;
                            EvTransmit I2C_ADDR tx st;
                            EvRequest I2C_ADDR 32 b'] /\
     sent_field bits.VOLUME tx = clamp_volume (cur + 1) /\
     (cur = 15 -> sent_field bits.VOLUME tx = 15) /\
     (forall g, field_ok g -> is_control (bf_reg g) = true ->
        apart bits.VOLUME g ->
        sent_field g tx = get_field g (decode b0)) /\
     shadow (drv w') = decode b' /\
     r = get_field bits.VOLUME (shadow (drv w')) /\
     (rx_word b' 11 = tx_word tx 3 ->
      r = clamp_volume (cur + 1) /\ (cur = 15 -> r = 15))) /\
  (exists r w' b0 tx st b',
     decVolume w = Ok r w' /\
     trace w' = trace w ++ [EvRequest I2C_ADDR 32 (next_block w);
                            EvRequest I2C_ADDR 32 b0;
                            EvTransmit I2C_ADDR tx st;
                            EvRequest I2C_ADDR 32 b'] /\
     sent_field bits.VOLUME tx = clamp_volume (cur - 1) /\
     (cur = 0 -> sent_field bits.VOLUME tx = 0) /\
     (forall g, field_ok g -> is_control (bf_reg g) = true ->
        apart bits.VOLUME g ->
        sent_field g tx = get_field g (decode b0)) /\
     shadow (drv w') = decode b' /\
     r = get_field bits.VOLUME (shadow (drv w')) /\
     (rx_word b' 11 = tx_word tx 3 ->
      r = clamp_volume (cur - 1) /\ (cur = 0 -> r = 0))).
Proof.
  intros cur Hsz.
  assert (Hcur : 0 <= cur < 16).
  { apply (get_bits_range 0 4); lia. }
  assert (Hstep : forall u, -1 <= u <= 16 ->
            (v' <- int_ u ;; setVolume v') (refresh w) =
            setVolume u (refresh w)).
  { intros u Hu. unfold bind at 1, int_.
    replace (in_int u) with true; [reflexivity|].
    symmetry. unfold in_int, INT_MIN, INT_MAX.
    apply andb_true_intro; split; apply Z.leb_le; lia. }
  split; [|split].
  - destruct (setVolume_outcome v w Hsz)
      as (Hrun & Htr & Hsent & Hother & Hsh & Hecho).
    eexists _, _, _, _, _.
    split; [exact Hrun|]. split; [exact Htr|]. split; [exact Hsent|].
    split; [reflexivity|].
    split; [intros ->; rewrite Hsent; reflexivity|].
    split; [intros ->; rewrite Hsent; reflexivity|].
    split; [exact Hother|]. split; [exact Hsh|].
    split; [now rewrite Hsh|exact Hecho].
  - destruct (setVolume_outcome (cur + 1) (refresh w) (sized_refresh w))
      as (Hrun & Htr & Hsent & Hother & Hsh & Hecho).
    eexists _, _, _, _, _, _.
    split.
    { unfold incVolume. erewrite bind_ok by now apply getVolume_run.
      fold cur. rewrite Hstep by lia. exact Hrun. }
    split.
    { rewrite Htr. unfold refresh at 1. cbn [trace].
      rewrite <- app_assoc. reflexivity. }
    split; [exact Hsent|].
    split; [intros E; rewrite Hsent, E; reflexivity|].
    split; [exact Hother|]. split; [exact Hsh|].
    split; [now rewrite Hsh|].
    intros He. split; [now apply Hecho|].
    intros E. rewrite (Hecho He), E. reflexivity.
  - destruct (setVolume_outcome (cur - 1) (refresh w) (sized_refresh w))
      as (Hrun & Htr & Hsent & Hother & Hsh & Hecho).
    eexists _, _, _, _, _, _.
    split.
    { unfold decVolume. erewrite bind_ok by now apply getVolume_run.
      fold cur. rewrite Hstep by lia. exact Hrun. }
    split.
    { rewrite Htr. unfold refresh at 1. cbn [trace].
      rewrite <- app_assoc. reflexivity. }
    split; [exact Hsent|].
    split; [intros E; rewrite Hsent, E; reflexivity|].
    split; [exact Hother|]. split; [exact Hsh|].
    split; [now rewrite Hsh|].
    intros He. split; [now apply Hecho|].
    intros E. rewrite (Hecho He), E. reflexivity.
Qed.

End Accessors.

(** * Straight-line runs that keep a property of the driver object *)

Section Keeps.
Context {D : Type} `{Device D}.

(** [J] speaks of the members other than the shadow. *)
Variable J : Si4703 -> Prop.
Hypothesis J_shadow : forall sh o, J o -> J (with_shadow sh o).

Lemma lands_bind {A B} (c : M D A) (k : A -> M D B) (w : world D) :
  sized w -> J (drv w) -> keeps (D:=D) J c ->
  (forall a w1, sized w1 -> J (drv w1) -> lands (D:=D) J (k a) w1) ->
  lands (D:=D) J (bind c k) w.
Proof.
  intros Hsz HJ Hc Hk. destruct (Hc w Hsz HJ) as (a & w1 & Hrun & Hsz1 & HJ1).
  destruct (Hk a w1 Hsz1 HJ1) as (b & w2 & Hrun2 & Hsz2 & HJ2).
  exists b, w2. split; [|split; assumption].
  now rewrite (bind_ok _ _ _ _ _ Hrun).
Qed.

Lemma lands_this {A B} (get : Si4703 -> A) (k : A -> M D B) (w : world D) :
  lands (D:=D) J (k (get (drv w))) w -> lands (D:=D) J (bind (this get) k) w.
Proof. intros Hk. exact Hk. Qed.

Lemma lands_step {A B} (c : M D A) (k : A -> M D B) (w : world D) a w1 :
  c w = Ok a w1 -> lands (D:=D) J (k a) w1 -> lands (D:=D) J (bind c k) w.
Proof.
  intros Hrun (b & w2 & Hrun2 & Hrest). exists b, w2.
  split; [|exact Hrest]. now rewrite (bind_ok _ _ _ _ _ Hrun).
Qed.

Lemma lands_ret {A} (a : A) (w : world D) : sized w -> J (drv w) -> lands (D:=D) J (ret a) w.
Proof. intros. exists a, w. repeat split; assumption. Qed.

Lemma keeps_bind {A B} (c : M D A) (k : A -> M D B) :
  keeps (D:=D) J c -> (forall a, keeps (D:=D) J (k a)) -> keeps (D:=D) J (bind c k).
Proof.
  intros Hc Hk w Hsz HJ.
  apply lands_bind; try assumption; intros a w1 Hsz1 HJ1; now apply Hk.
Qed.

Lemma keeps_ret {A} (a : A) : keeps (D:=D) J (ret a).
Proof. intros w. apply lands_ret. Qed.

Lemma keeps_getShadow : keeps (D:=D) J getShadow.
Proof.
  intros w Hsz HJ. exists tt, (refresh w).
  split; [now apply getShadow_run|]. split; [apply sized_refresh|].
  unfold refresh. cbn [drv]. now apply J_shadow.
Qed.

Lemma keeps_putShadow : keeps (D:=D) J putShadow.
Proof.
  intros w Hsz HJ. exists (write_status w), (flush w).
  split; [apply putShadow_run|]. split; assumption.
Qed.

Lemma keeps_bits_set f v : keeps (D:=D) J (bits_set f v).
Proof.
  intros w Hsz HJ. exists tt, (assign f v w).
  split; [reflexivity|]. split; [now apply sized_assign|].
  unfold assign. cbn [drv]. now apply J_shadow.
Qed.

Lemma keeps_delay ms : keeps (D:=D) J (delay ms).
Proof. intros w Hsz HJ. eexists _, _. split; [reflexivity|]. now split. Qed.

Lemma keeps_pinMode pin m : keeps (D:=D) J (pinMode pin m).
Proof. intros w Hsz HJ. eexists _, _. split; [reflexivity|]. now split. Qed.

Lemma keeps_digitalWrite pin v : keeps (D:=D) J (digitalWrite pin v).
Proof. intros w Hsz HJ. eexists _, _. split; [reflexivity|]. now split. Qed.

Lemma keeps_Wire_begin sda scl : keeps (D:=D) J (Wire_begin sda scl).
Proof. intros w Hsz HJ. eexists _, _. split; [reflexivity|]. now split. Qed.

Lemma keeps_this {A} (get : Si4703 -> A) : keeps (D:=D) J (this get).
Proof. intros w Hsz HJ. eexists _, _. split; [reflexivity|]. now split. Qed.

End Keeps.

Create HintDb keeps discriminated.
#[export] Hint Resolve keeps_bind keeps_ret keeps_getShadow keeps_putShadow
  keeps_bits_set keeps_delay keeps_pinMode keeps_digitalWrite
  keeps_Wire_begin keeps_this : keeps.

Section Region.
Context {D : Type} `{Device D}.

Lemma known_band_dec band :
  known_band band = false ->
  Z.eqb band BAND_US_EU = false /\ Z.eqb band BAND_JPW = false /\
  Z.eqb band BAND_JP = false.
Proof.
  unfold known_band. intros Hk.
  apply orb_false_iff in Hk as [Hk H3].
  apply orb_false_iff in Hk as [H1 H2]. now repeat split.
Qed.

Lemma known_space_dec space :
  known_space space = false ->
  Z.eqb space SPACE_200KHz = false /\ Z.eqb space SPACE_100KHz = false /\
  Z.eqb space SPACE_50KHz = false.
Proof.
  unfold known_space. intros Hk.
  apply orb_false_iff in Hk as [Hk H3].
  apply orb_false_iff in Hk as [H1 H2]. now repeat split.
Qed.

(** [setRegion] is total, touches nothing but the three band members, and
    leaves those of an unknown selector alone. *)
Lemma setRegion_run band space de (w : world D) :
  exists o,
    setRegion band space de w = Ok tt (World o (wire w) (dev w) (trace w)) /\
    same_config (drv w) o /\ shadow o = shadow (drv w) /\
    (known_band band = false ->
     _bandStart o = _bandStart (drv w) /\ _bandEnd o = _bandEnd (drv w)) /\
    (known_space space = false -> _bandSpacing o = _bandSpacing (drv w)).
Proof.
  destruct w as [o wi d tr]. destruct o.
  unfold setRegion, known_band, known_space, same_config.
  cbn [drv wire dev trace].
  destruct (Z.eqb band BAND_US_EU), (Z.eqb band BAND_JPW),
    (Z.eqb band BAND_JP), (Z.eqb space SPACE_100KHz),
    (Z.eqb space SPACE_200KHz), (Z.eqb space SPACE_50KHz);
    (eexists; split; [reflexivity|]); cbn;
    repeat split; intros; try discriminate; reflexivity.
Qed.

Lemma region_kept_shadow o0 sh o :
  region_kept o0 o -> region_kept o0 (with_shadow sh o).
Proof. intros HJ. exact HJ. Qed.

Lemma region_kept_refl o : region_kept o o.
Proof. repeat split. Qed.

Lemma keeps_setRegion o0 de :
  forall w : world D, sized w -> region_kept o0 (drv w) ->
  lands (D:=D) (region_kept o0) (setRegion (_band (drv w)) (_space (drv w)) de) w.
Proof.
  intros w Hsz (Hcfg & Hband & Hspace).
  destruct (setRegion_run (_band (drv w)) (_space (drv w)) de w)
    as (o & Hrun & Hcfg' & Hsh & Hb & Hs).
  exists tt, (World o (wire w) (dev w) (trace w)).
  split; [exact Hrun|].
  split; [unfold sized; cbn [drv]; now rewrite Hsh|].
  cbn [drv].
  assert (Eb : _band (drv w) = _band o0)
    by (symmetry; apply Hcfg).
  assert (Es : _space (drv w) = _space o0)
    by (symmetry; apply Hcfg).
  split; [|split].
  - unfold same_config in *. intuition congruence.
  - intros Hk. rewrite Eb in Hb. destruct (Hb Hk), (Hband Hk). split; congruence.
  - intros Hk. rewrite Es in Hs. rewrite (Hs Hk). now apply Hspace.
Qed.

#[local] Hint Resolve region_kept_shadow : keeps.

Lemma keeps_bus2Wire o0 : keeps (D:=D) (region_kept o0) bus2Wire.
Proof. unfold bus2Wire. auto 30 with keeps. Qed.

Lemma keeps_powerUp o0 : keeps (D:=D) (region_kept o0) powerUp.
Proof. unfold powerUp. auto 30 with keeps. Qed.

Lemma start_lands (w : world D) :
  sized w -> lands (D:=D) (region_kept (drv w)) start w.
Proof.
  intros Hsz. unfold start.
  pose proof (region_kept_refl (drv w)) as HJ. revert Hsz HJ.
  generalize (drv w) at 1 3 as o0. intros o0 Hsz HJ.
  apply lands_bind; [assumption..|apply keeps_bus2Wire|clear w Hsz HJ].
  intros _ w Hsz HJ.
  apply lands_bind; [assumption..|apply keeps_powerUp|clear w Hsz HJ].
  intros _ w Hsz HJ.
  apply lands_bind; [assumption..|apply keeps_getShadow;
                                  apply region_kept_shadow|clear w Hsz HJ].
  intros _ w Hsz HJ.
  do 3 apply lands_this.
  destruct (keeps_setRegion o0 (_de (drv w)) w Hsz HJ)
    as (a & w1 & Hrun & Hsz1 & HJ1).
  cbv beta. apply (lands_step _ _ _ _ _ _ Hrun).
  match goal with
  | |- lands _ ?c _ =>
      assert (Hrest : keeps (D:=D) (region_kept o0) c) by auto 100 with keeps
  end.
  now apply Hrest.
Qed.

Lemma unknown_band band :
  band <> BAND_US_EU -> band <> BAND_JPW -> band <> BAND_JP ->
  known_band band = false.
Proof.
  intros H1 H2 H3. unfold known_band.
  apply Z.eqb_neq in H1, H2, H3. now rewrite H1, H2, H3.
Qed.

Lemma unknown_space space :
  space <> SPACE_200KHz -> space <> SPACE_100KHz -> space <> SPACE_50KHz ->
  known_space space = false.
Proof.
  intros H1 H2 H3. unfold known_space.
  apply Z.eqb_neq in H1, H2, H3. now rewrite H1, H2, H3.
Qed.

(** C9. [setRegion] reports nothing and ignores a selector it has no case
    for: with a band outside BAND_US_EU, BAND_JPW, BAND_JP it leaves the
    band start and end as they were, and with a spacing outside
    SPACE_200KHz, SPACE_100KHz, SPACE_50KHz it leaves the band spacing as
    it was. [start] passes the selectors of the constructor to it and
    touches the three members nowhere else, so after [start] with such a
    selector [getBandStart], [getBandEnd] and [getBandSpace] return what
    the members held before, which the constructor never initialises. *)
Theorem unknown_selector_ignored (band space de : Z) (w : world D) :
  sized w ->
  (exists w1,
     setRegion band space de w = Ok tt w1 /\
     wire w1 = wire w /\ dev w1 = dev w /\ trace w1 = trace w /\
     shadow (drv w1) = shadow (drv w) /\
     (band <> BAND_US_EU -> band <> BAND_JPW -> band <> BAND_JP ->
      _bandStart (drv w1) = _bandStart (drv w) /\
      _bandEnd (drv w1) = _bandEnd (drv w)) /\
     (space <> SPACE_200KHz -> space <> SPACE_100KHz ->
      space <> SPACE_50KHz ->
      _bandSpacing (drv w1) = _bandSpacing (drv w))) /\
  (exists w2,
     start w = Ok tt w2 /\
     (_band (drv w) <> BAND_US_EU -> _band (drv w) <> BAND_JPW ->
      _band (drv w) <> BAND_JP ->
      getBandStart w2 = Ok (_bandStart (drv w)) w2 /\
      getBandEnd w2 = Ok (_bandEnd (drv w)) w2) /\
     (_space (drv w) <> SPACE_200KHz -> _space (drv w) <> SPACE_100KHz ->
      _space (drv w) <> SPACE_50KHz ->
      getBandSpace w2 = Ok (_bandSpacing (drv w)) w2)) /\
  (forall rst sdio sclk int_ b s d skmode seekth skcnt sksnr agcd raw,
     let o := Si4703_new rst sdio sclk int_ b s d skmode seekth skcnt
                sksnr agcd raw in
     _bandStart o = _bandStart raw /\ _bandEnd o = _bandEnd raw /\
     _bandSpacing o = _bandSpacing raw).
Proof.
  intros Hsz. split; [|split].
  - destruct (setRegion_run band space de w)
      as (o & Hrun & _ & Hsh & Hb & Hs).
    eexists. split; [exact Hrun|]. cbn [wire dev trace drv].
    repeat (split; [reflexivity|]). split; [exact Hsh|]. split.
    + intros. now apply Hb, unknown_band.
    + intros. now apply Hs, unknown_space.
  - destruct (start_lands w Hsz) as ([] & w2 & Hrun & _ & _ & Hb & Hs).
    exists w2. split; [exact Hrun|]. split.
    + intros H1 H2 H3. destruct (Hb (unknown_band _ H1 H2 H3)) as [E1 E2].
      unfold getBandStart, getBandEnd, this. now rewrite E1, E2.
    + intros H1 H2 H3. unfold getBandSpace, this.
      now rewrite (Hs (unknown_space _ H1 H2 H3)).
  - intros. repeat split.
Qed.

End Region.

(** * Polling, tuning and seeking on an arbitrary device *)

Section Polling.
Context {D : Type} `{Device D}.

Lemma members_same_refl o : members_same o o.
Proof. repeat split. Qed.

Lemma members_same_trans o1 o2 o3 :
  members_same o1 o2 -> members_same o2 o3 -> members_same o1 o3.
Proof. unfold members_same, same_config. intuition congruence. Qed.

Lemma members_same_shadow sh o : members_same o (with_shadow sh o).
Proof. repeat split. Qed.

Lemma quiet_refl (w : world D) : sized w -> quiet w w.
Proof.
  intros Hsz. split; [exact Hsz|]. split; [apply members_same_refl|].
  exists []. split; [now rewrite app_nil_r | constructor].
Qed.

Lemma quiet_trans (w1 w2 w3 : world D) :
  quiet w1 w2 -> quiet w2 w3 -> quiet w1 w3.
Proof.
  intros (_ & Hm1 & e1 & Ht1 & Hq1) (Hsz & Hm2 & e2 & Ht2 & Hq2).
  split; [exact Hsz|]. split; [eapply members_same_trans; eassumption|].
  exists (e1 ++ e2). split.
  - now rewrite Ht2, Ht1, app_assoc.
  - now apply Forall_app.
Qed.

Lemma quiet_refresh (w : world D) : quiet w (refresh w).
Proof.
  split; [apply sized_refresh|]. split; [apply members_same_shadow|].
  eexists. split; [reflexivity|]. repeat constructor.
Qed.

Lemma getSTC_run (w : world D) :
  sized w ->
  getSTC w = Ok (truthy (get_field bits.STC (decode (next_block w))))
               (refresh w).
Proof.
  intros Hsz. unfold getSTC.
  erewrite bind_ok by now apply getShadow_run. reflexivity.
Qed.

Lemma polls_getSTC : polls (D:=D) getSTC.
Proof.
  intros w Hsz. eexists _, _. split; [now apply getSTC_run|].
  apply quiet_refresh.
Qed.

Lemma polls_not_getSTC : polls (D:=D) (not_ getSTC).
Proof.
  intros w Hsz. unfold not_. eexists _, _.
  split; [erewrite bind_ok by (now apply getSTC_run); reflexivity|].
  apply quiet_refresh.
Qed.

Lemma polls_ret {A} (a : A) : polls (D:=D) (ret a).
Proof. intros w Hsz. exists a, w. split; [reflexivity|now apply quiet_refl]. Qed.

Lemma polls_delay ms : polls (D:=D) (delay ms).
Proof.
  intros w Hsz. eexists _, _. split; [reflexivity|].
  split; [exact Hsz|]. split; [apply members_same_refl|].
  eexists. split; [reflexivity|]. repeat constructor.
Qed.

(** A busy-wait either ends or uses up its polls; either way it has only
    read and waited. *)
Lemma while_polls cond body fuel :
  polls cond -> polls body ->
  forall w : world D, sized w ->
    exists w', quiet w w' /\
      (while fuel cond body w = Ok tt w' \/
       while fuel cond body w = Timeout w').
Proof.
  intros Hcond Hbody. induction fuel as [|fuel IH]; intros w Hsz.
  - exists w. split; [now apply quiet_refl|]. now right.
  - cbn [while].
    destruct (Hcond w Hsz) as (c & w1 & Hc & Hq1).
    rewrite (bind_ok _ _ _ _ _ Hc). destruct c.
    + destruct (Hbody w1 (proj1 Hq1)) as ([] & w2 & Hb & Hq2).
      rewrite (bind_ok _ _ _ _ _ Hb).
      destruct (IH w2 (proj1 Hq2)) as (w3 & Hq3 & Hrun).
      exists w3. split; [|exact Hrun].
      eapply quiet_trans; [exact Hq1|]. eapply quiet_trans; eassumption.
    + exists w1. split; [exact Hq1|]. now left.
Qed.

Lemma while_Ok_quiet cond body fuel (w w' : world D) :
  polls cond -> polls body -> sized w ->
  while fuel cond body w = Ok tt w' -> quiet w w'.
Proof.
  intros Hcond Hbody Hsz Hrun.
  destruct (while_polls cond body fuel Hcond Hbody w Hsz)
    as (w1 & Hq & [Hok|Hto]); congruence.
Qed.

(** More polls do not change a wait that ended. *)
Lemma while_more cond body fuel (w w' : world D) :
  while fuel cond body w = Ok tt w' ->
  forall fuel', (fuel <= fuel')%nat -> while fuel' cond body w = Ok tt w'.
Proof.
  revert w. induction fuel as [|fuel IH]; intros w Hrun fuel' Hle.
  - discriminate.
  - destruct fuel' as [|fuel']; [lia|]. cbn [while] in *.
    unfold bind in *. destruct (cond w) as [c w1|?|?]; try discriminate.
    destruct c; [|exact Hrun].
    destruct (body w1) as [[] w2|?|?]; try discriminate.
    apply IH; [exact Hrun | lia].
Qed.

Lemma seek_wait_polls fuel (w : world D) :
  sized w ->
  exists w', quiet w w' /\
    (seek_wait fuel w = Ok tt w' \/ seek_wait fuel w = Timeout w').
Proof.
  intros Hsz. unfold seek_wait.
  erewrite bind_ok by reflexivity.
  destruct (Z.eqb _ 0).
  - apply while_polls; auto using polls_not_getSTC, polls_delay.
  - exists w. split; [now apply quiet_refl|]. now left.
Qed.

Lemma region_set_range o :
  region_set o = true ->
  7600 <= _bandStart o <= _bandEnd o /\ _bandEnd o <= 10800 /\
  5 <= _bandSpacing o <= 20 /\
  (_bandEnd o - _bandStart o) / _bandSpacing o < 1024.
Proof.
  unfold region_set. intros Hr.
  apply andb_true_iff in Hr as [Hband Hsp].
  assert (Hb : (_bandStart o = 8750 /\ _bandEnd o = 10800) \/
               (_bandStart o = 7600 /\ _bandEnd o = 10800) \/
               (_bandStart o = 7600 /\ _bandEnd o = 9000)).
  { repeat (apply orb_true_iff in Hband as [Hband|Hband]);
      apply andb_true_iff in Hband as [E1 E2];
      apply Z.eqb_eq in E1, E2; tauto. }
  assert (Hs : _bandSpacing o = 10 \/ _bandSpacing o = 20 \/
               _bandSpacing o = 5).
  { repeat (apply orb_true_iff in Hsp as [Hsp|Hsp]);
      apply Z.eqb_eq in Hsp; tauto. }
  destruct Hb as [[-> ->]|[[-> ->]|[-> ->]]];
    destruct Hs as [->|[->| ->]]; repeat split; try lia;
    vm_compute; reflexivity.
Qed.

Lemma region_set_members o o' :
  members_same o o' -> region_set o = true -> region_set o' = true.
Proof.
  intros (_ & E1 & E2 & E3). unfold region_set. now rewrite E1, E2, E3.
Qed.

Lemma in_int_small z : -2147483648 <= z <= 2147483647 -> in_int z = true.
Proof.
  intros Hz. unfold in_int, INT_MIN, INT_MAX.
  apply andb_true_intro. split; apply Z.leb_le; lia.
Qed.

Lemma field_range f sh :
  field_ok f -> 0 <= get_field f sh < 2 ^ bf_width f.
Proof. intros (Ho & Hw & _). now apply get_bits_range. Qed.

Lemma block_readchan_range bs : 0 <= block_readchan bs < 1024.
Proof. apply (get_bits_range 0 10); lia. Qed.

(** [getChannel] on a configured driver: one refresh, and the frequency
    of the channel just read. *)
Lemma getChannel_run (w : world D) :
  sized w -> region_set (drv w) = true ->
  getChannel w =
  Ok (_bandSpacing (drv w) * block_readchan (next_block w)
      + _bandStart (drv w)) (refresh w).
Proof.
  intros Hsz Hreg. destruct (region_set_range _ Hreg) as (Hb & He & Hs & _).
  pose proof (block_readchan_range (next_block w)) as Hrc.
  unfold getChannel.
  erewrite bind_ok by now apply getShadow_run.
  erewrite bind_ok by reflexivity.
  erewrite bind_ok by reflexivity.
  erewrite bind_ok by reflexivity.
  cbn [refresh drv with_shadow shadow _bandSpacing _bandStart].
  fold (block_readchan (next_block w)).
  unfold bind, int_.
  rewrite in_int_small by nia. rewrite in_int_small by nia.
  reflexivity.
Qed.

End Polling.

Section Seeking.
Context {D : Type} `{Device D}.

Lemma words_ok_refresh (w : world D) : words_ok (refresh w).
Proof. split; [apply sized_refresh | apply decode_uint16]. Qed.

Lemma words_ok_assign f v (w : world D) :
  field_ok f -> words_ok w -> words_ok (assign f v w).
Proof.
  intros Hf [Hsz Hall]. split; [now apply sized_assign|].
  unfold assign. cbn [drv shadow with_shadow]. now apply set_field_uint16.
Qed.

(** What a write-back carries in the field assigned last. *)
Lemma sent_after_assign f v (w : world D) :
  field_ok f -> is_control (bf_reg f) = true -> words_ok w ->
  sent_field f (control_bytes (shadow (drv (assign f v w)))) =
  Z.land v (Z.ones (bf_width f)).
Proof.
  intros Hf Hc [Hsz Hall].
  rewrite sent_field_control;
    [|exact Hc|apply (words_ok_assign f v w Hf (conj Hsz Hall))].
  unfold assign. cbn [drv shadow with_shadow].
  now apply get_set_field_same.
Qed.

Lemma bits_get_run f (w : world D) :
  bits_get f w = Ok (get_field f (shadow (drv w))) w.
Proof. reflexivity. Qed.

Lemma field_ok_SEEK : field_ok bits.SEEK.
Proof. unfold field_ok; simpl; lia. Qed.

Lemma field_ok_SEEKUP : field_ok bits.SEEKUP.
Proof. unfold field_ok; simpl; lia. Qed.

Lemma seek_wait_Ok fuel (w w2 : world D) :
  sized w -> seek_wait fuel w = Ok tt w2 -> quiet w w2.
Proof.
  intros Hsz Hrun.
  destruct (seek_wait_polls fuel w Hsz) as (w' & Hq & [Hok|Hto]);
    congruence.
Qed.

(** [seek] up to the end of its first wait. *)
Lemma seek_until_complete fuel dir (w : world D) :
  sized w ->
  seek fuel dir w =
  bind (seek_wait fuel)
    (fun _ =>
       getShadow ;;
       sfbl <- bits_get bits.SFBL ;;
       bits_set bits.SEEK 0 ;;
       putShadow ;;
       while fuel getSTC (ret tt) ;;
       if truthy sfbl then ret 0 else getChannel)%drv
    (seek_commanded dir w).
Proof.
  intros Hsz. unfold seek.
  erewrite bind_ok by now apply getShadow_run.
  erewrite bind_ok by apply bits_set_run.
  erewrite bind_ok by apply bits_set_run.
  erewrite bind_ok by apply putShadow_run.
  fold (seek_commanded dir w).
  unfold seek_wait. now rewrite bind_assoc.
Qed.

(** [seek] from the end of its first wait on. *)
Lemma seek_after_complete fuel (w2 : world D) :
  sized w2 ->
  (getShadow ;;
   sfbl <- bits_get bits.SFBL ;;
   bits_set bits.SEEK 0 ;;
   putShadow ;;
   while fuel getSTC (ret tt) ;;
   if truthy sfbl then ret 0 else getChannel)%drv w2 =
  bind (while fuel getSTC (ret tt))
    (fun _ => if block_sfbl (next_block w2) then ret 0 else getChannel)
    (seek_released w2).
Proof.
  intros Hsz.
  erewrite bind_ok by now apply getShadow_run.
  erewrite bind_ok by apply bits_get_run.
  erewrite bind_ok by apply bits_set_run.
  erewrite bind_ok by apply putShadow_run.
  reflexivity.
Qed.

Lemma seek_run fuel dir (w w2 w5 : world D) :
  sized w ->
  seek_wait fuel (seek_commanded dir w) = Ok tt w2 ->
  while fuel getSTC (ret tt) (seek_released w2) = Ok tt w5 ->
  seek fuel dir w =
  (if block_sfbl (next_block w2) then ret 0 else getChannel) w5.
Proof.
  intros Hsz Hwait Hclear.
  assert (Hsz1 : sized (seek_commanded dir w)).
  { apply sized_flush, sized_assign, sized_assign, sized_refresh. }
  pose proof (seek_wait_Ok _ _ _ Hsz1 Hwait) as (Hsz2 & _).
  rewrite seek_until_complete by exact Hsz.
  rewrite (bind_ok _ _ _ _ _ Hwait).
  rewrite seek_after_complete by exact Hsz2.
  now rewrite (bind_ok _ _ _ _ _ Hclear).
Qed.

Lemma seek_released_quiet_from (w2 w5 : world D) fuel :
  while fuel getSTC (ret tt) (seek_released w2) = Ok tt w5 ->
  quiet (seek_released w2) w5.
Proof.
  apply while_Ok_quiet; auto using polls_getSTC, polls_ret.
  apply sized_flush, sized_assign, sized_refresh.
Qed.

(** C5. Take any device on which the seek completes: the driver's wait
    for STC ends (at [w2]) and, once SEEK is written back cleared, its
    wait for STC to drop ends too (at [w5]). If the status read at
    completion has SFBL set, [seekUp] and [seekDown] return 0, whatever
    the read-channel register holds; if it has SFBL clear, they return
    what [getChannel] returns then, the band spacing times the channel
    read back plus the band start. *)
Theorem seek_returns_zero_on_failure (up : bool) (fuel : nat)
    (w w2 w5 : world D) :
  let dir := if up then SEEK_UP else SEEK_DOWN in
  let op := if up then seekUp fuel else seekDown fuel in
  sized w ->
  seek_wait fuel (seek_commanded dir w) = Ok tt w2 ->
  while fuel getSTC (ret tt) (seek_released w2) = Ok tt w5 ->
  block_sfbl (next_block w2) = Z.testbit (rx_word (next_block w2) 0) 13 /\
  (block_sfbl (next_block w2) = true -> op w = Ok 0 w5) /\
  (block_sfbl (next_block w2) = false ->
     op w = getChannel w5 /\
     (region_set (drv w) = true ->
      op w = Ok (_bandSpacing (drv w) * block_readchan (next_block w5)
                 + _bandStart (drv w)) (refresh w5))).
Proof.
  intros dir op Hsz Hwait Hclear.
  assert (Hop : op w = seek fuel dir w) by (unfold op, dir; now destruct up).
  pose proof (seek_run fuel dir w w2 w5 Hsz Hwait Hclear) as Hrun.
  split; [|split].
  - unfold block_sfbl, get_field. simpl reg.index.
    rewrite word_decode by lia. apply truthy_bit. simpl. lia.
  - intros Hs. rewrite Hop, Hrun, Hs. reflexivity.
  - intros Hs. rewrite Hop, Hrun, Hs. split; [reflexivity|].
    intros Hreg.
    assert (Hsz1 : sized (seek_commanded dir w)).
    { apply sized_flush, sized_assign, sized_assign, sized_refresh. }
    pose proof (seek_wait_Ok _ _ _ Hsz1 Hwait) as (Hsz2 & Hm2 & _).
    pose proof (seek_released_quiet_from _ _ _ Hclear) as (Hsz5 & Hm5 & _).
    assert (Hm : members_same (drv w) (drv w5)).
    { eapply members_same_trans; [|exact Hm5].
      eapply members_same_trans; [|apply members_same_shadow].
      eapply members_same_trans; [|exact Hm2].
      unfold seek_commanded, flush, assign, refresh. cbn [drv].
      repeat split. }
    rewrite getChannel_run;
      [|exact Hsz5|now apply (region_set_members _ _ Hm)].
    destruct Hm as (_ & E1 & _ & E3). now rewrite E1, E3.
Qed.

Lemma getChannel_final (w : world D) :
  sized w -> final (getChannel w) = refresh w.
Proof.
  intros Hsz. unfold getChannel.
  erewrite bind_ok by now apply getShadow_run.
  erewrite bind_ok by reflexivity.
  erewrite bind_ok by apply bits_get_run.
  erewrite bind_ok by reflexivity.
  unfold bind, int_.
  destruct (in_int _); [destruct (in_int _)|]; reflexivity.
Qed.

(** Every run of [seek] either gives up in its first wait, or gets to
    sample the status and write SEEK back cleared, after which it only
    reads. *)
Lemma seek_outcomes fuel dir (w : world D) :
  sized w ->
  (exists w', quiet (seek_commanded dir w) w' /\
              seek fuel dir w = Timeout w') \/
  (exists w2 wf,
     quiet (seek_commanded dir w) w2 /\ quiet (seek_released w2) wf /\
     final (seek fuel dir w) = wf /\
     forall r w', seek fuel dir w = Ok r w' ->
       if block_sfbl (next_block w2) then r = 0
       else exists w5, getChannel w5 = Ok r w').
Proof.
  intros Hsz. rewrite seek_until_complete by exact Hsz.
  assert (Hsz1 : sized (seek_commanded dir w)).
  { apply sized_flush, sized_assign, sized_assign, sized_refresh. }
  destruct (seek_wait_polls fuel _ Hsz1) as (w2 & Hq2 & [Hok|Hto]).
  2:{ left. exists w2. split; [exact Hq2|].
      apply (bind_timeout _ _ _ _ Hto). }
  right. rewrite (bind_ok _ _ _ _ _ Hok).
  rewrite seek_after_complete by apply Hq2.
  assert (Hsz4 : sized (seek_released w2)).
  { apply sized_flush, sized_assign, sized_refresh. }
  destruct (while_polls getSTC (ret tt) fuel polls_getSTC (polls_ret tt)
              _ Hsz4) as (w5 & Hq5 & [Hok5|Hto5]).
  2:{ exists w2, w5. split; [exact Hq2|]. split; [exact Hq5|].
      rewrite (bind_timeout _ _ _ _ Hto5).
      split; [reflexivity|]. intros r w' Hr. discriminate Hr. }
  rewrite (bind_ok _ _ _ _ _ Hok5).
  destruct (block_sfbl (next_block w2)) eqn:Es.
  - exists w2, w5. split; [exact Hq2|]. split; [exact Hq5|].
    split; [reflexivity|]. intros r w' Hr. rewrite Es.
    cbv beta iota delta [ret] in Hr. injection Hr as <- _. reflexivity.
  - exists w2, (refresh w5). split; [exact Hq2|].
    split; [eapply quiet_trans; [exact Hq5|apply quiet_refresh]|].
    split; [apply getChannel_final, Hq5|].
    intros r w' Hr. rewrite Es. now exists w5.
Qed.

Lemma not_transmit_not_clearing evs :
  Forall (fun e => is_transmit e = false) evs ->
  Forall (fun e => clears_seek e = false) evs.
Proof.
  intros Hall. eapply Forall_impl; [exact Hall|].
  intros e He. destruct e; try reflexivity; discriminate.
Qed.

(** C6. In every run of [seek], whether it returns or is still polling
    when the poll budget ends, the block write that carries SEEK cleared
    comes immediately after the full-bank read whose SFBL bit decides the
    return value, and no write before that read clears SEEK: either the
    run has given up without any such write, or its bus traffic is
    [pre], the sampling read, the clearing write, and then reads only. *)
Theorem seek_samples_status_before_clearing (fuel : nat) (dir : Z)
    (w : world D) :
  sized w ->
  exists pre,
    Forall (fun e => clears_seek e = false) pre /\
    ((exists w', seek fuel dir w = Timeout w' /\
                 trace w' = trace w ++ pre) \/
     (exists bs tx st post,
        trace (final (seek fuel dir w)) =
          trace w ++ pre ++ [EvRequest I2C_ADDR 32 bs;
                             EvTransmit I2C_ADDR tx st] ++ post /\
        sent_field bits.SEEK tx = 0 /\
        Forall (fun e => is_transmit e = false) post /\
        forall r w', seek fuel dir w = Ok r w' ->
          if block_sfbl bs then r = 0
          else exists w5, getChannel w5 = Ok r w')).
Proof.
  intros Hsz.
  set (w0 := assign bits.SEEKUP dir (refresh w)).
  assert (Hw0 : words_ok w0).
  { apply words_ok_assign; [apply field_ok_SEEKUP|apply words_ok_refresh]. }
  set (cmd := EvTransmit I2C_ADDR
                (control_bytes (shadow (drv (assign bits.SEEK 1 w0))))
                (write_status (assign bits.SEEK 1 w0))).
  assert (Hcmd : clears_seek cmd = false).
  { unfold cmd, clears_seek.
    rewrite (sent_after_assign bits.SEEK 1 w0 field_ok_SEEK eq_refl Hw0).
    reflexivity. }
  assert (Ht1 : trace (seek_commanded dir w) =
                trace w ++ [EvRequest I2C_ADDR 32 (next_block w); cmd]).
  { unfold seek_commanded, flush, assign, refresh. cbn [trace].
    now rewrite <- app_assoc. }
  destruct (seek_outcomes fuel dir w Hsz)
    as [(w' & Hq & Hto)|(w2 & wf & Hq2 & Hqf & Hfin & Hres)].
  - destruct Hq as (_ & _ & evs & Ht & Hev).
    exists ([EvRequest I2C_ADDR 32 (next_block w); cmd] ++ evs).
    split.
    + apply Forall_app. split; [|now apply not_transmit_not_clearing].
      repeat constructor. exact Hcmd.
    + left. exists w'. split; [exact Hto|].
      now rewrite Ht, Ht1, <- app_assoc.
  - destruct Hq2 as (_ & _ & evs & Ht & Hev).
    destruct Hqf as (_ & _ & post & Htf & Hpost).
    exists ([EvRequest I2C_ADDR 32 (next_block w); cmd] ++ evs).
    split.
    + apply Forall_app. split; [|now apply not_transmit_not_clearing].
      repeat constructor. exact Hcmd.
    + right.
      exists (next_block w2),
             (control_bytes
                (shadow (drv (assign bits.SEEK 0 (refresh w2))))),
             (write_status (assign bits.SEEK 0 (refresh w2))), post.
      split.
      { rewrite Hfin, Htf. unfold seek_released, flush, assign, refresh.
        cbn [trace]. rewrite Ht, Ht1.
        rewrite <- !app_assoc. reflexivity. }
      split.
      { rewrite (sent_after_assign bits.SEEK 0 (refresh w2) field_ok_SEEK
                   eq_refl (words_ok_refresh w2)).
        reflexivity. }
      split; [exact Hpost|exact Hres].
Qed.

End Seeking.

(** * The driver on the simulated chip *)

Section ChipFacts.

#[local] Arguments Z.shiftr : simpl never.
#[local] Arguments Z.shiftl : simpl never.
#[local] Arguments Z.land : simpl never.
#[local] Arguments Z.lor : simpl never.
#[local] Arguments Z.ldiff : simpl never.
#[local] Arguments Z.ones : simpl never.

Lemma recompose_word v :
  is_uint16 v ->
  Z.lor (Z.shiftl (to_uint8 (Z.shiftr v 8)) 8) (to_uint8 (Z.land v 0xFF)) = v.
Proof.
  intros Hv. destruct (word_bytes_split v Hv) as (Hhi & Hlo & Hsum).
  rewrite !to_uint8_small by assumption.
  destruct (big_endian_pair _ _ Hhi Hlo) as [-> _]. lia.
Qed.

Lemma sixteen {A} (l : list A) :
  length l = 16%nat ->
  exists a0 a1 a2 a3 a4 a5 a6 a7 a8 a9 a10 a11 a12 a13 a14 a15,
    l = [a0; a1; a2; a3; a4; a5; a6; a7; a8; a9; a10; a11; a12; a13; a14;
         a15].
Proof.
  intros Hlen.
  do 16 (destruct l as [|? l]; [discriminate|]).
  destruct l; [|discriminate]. repeat eexists.
Qed.

Lemma regs_lookup_uint16 rs i :
  Forall is_uint16 rs -> is_uint16 (default 0 (rs !! i)).
Proof. apply word_uint16. Qed.

Lemma length_regs_set f v rs : length (regs_set f v rs) = length rs.
Proof. unfold regs_set. apply length_insert. Qed.

Lemma regs_set_uint16 f v rs :
  field_ok f -> Forall is_uint16 rs -> Forall is_uint16 (regs_set f v rs).
Proof.
  intros (Ho & Hw & Hfit) Hall. unfold regs_set.
  apply Forall_insert; [exact Hall|].
  apply set_bits_uint16; try assumption. now apply regs_lookup_uint16.
Qed.

Lemma reg_addr_lt r : (Z.to_nat (reg.addr r) < 16)%nat.
Proof. destruct r; simpl; lia. Qed.

Lemma reg_addr_inj r r' :
  Z.to_nat (reg.addr r) = Z.to_nat (reg.addr r') -> r = r'.
Proof. destruct r, r'; simpl; intros; first [reflexivity | lia]. Qed.

Lemma regs_get_set_same f v rs :
  field_ok f -> length rs = 16%nat ->
  regs_get f (regs_set f v rs) = Z.land v (Z.ones (bf_width f)).
Proof.
  intros (Ho & Hw & _) Hlen. unfold regs_get, regs_set.
  rewrite list_lookup_insert_eq by (rewrite Hlen; apply reg_addr_lt).
  simpl default. now apply get_set_bits_same.
Qed.

Lemma regs_get_set_apart f g v rs :
  field_ok f -> field_ok g -> apart f g -> length rs = 16%nat ->
  regs_get g (regs_set f v rs) = regs_get g rs.
Proof.
  intros (Ho & Hw & _) (Ho' & Hw' & _) Hap Hlen. unfold regs_get, regs_set.
  destruct (decide (Z.to_nat (reg.addr (bf_reg f)) =
                    Z.to_nat (reg.addr (bf_reg g)))) as [He|Hn].
  - rewrite <- He.
    rewrite list_lookup_insert_eq by (rewrite Hlen; apply reg_addr_lt).
    simpl default. apply get_set_bits_other; try assumption.
    destruct Hap as [Hr|Hr]; [|exact Hr].
    exfalso. apply Hr. now apply reg_addr_inj.
  - now rewrite list_lookup_insert_ne.
Qed.

Lemma chip_get_regs f c : chip_get f c = regs_get f (regs c).
Proof. reflexivity. Qed.

(** The block the chip sends: word [k] is the register at place [k] of
    the read order. *)
Lemma chip_block_word (c : Chip) k :
  (k < 16)%nat ->
  rx_word (map to_uint8 (take 32 (take 32 (chip_read_bytes c)))) k =
  to_uint16
    (Z.lor
       (Z.shiftl
          (to_uint8
             (Z.shiftr (default 0 (regs c !! Z.to_nat (nth k read_order 0)))
                8)) 8)
       (to_uint8
          (Z.land (default 0 (regs c !! Z.to_nat (nth k read_order 0)))
             0xFF))).
Proof.
  intros Hk. do 16 (destruct k as [|k]; [reflexivity|]). lia.
Qed.

Lemma chip_next_block (w : world Chip) :
  next_block w =
  map to_uint8 (take 32 (take 32 (chip_read_bytes (chip_tick (dev w))))).
Proof. reflexivity. Qed.

Lemma chip_ok_regs c i : chip_ok c -> is_uint16 (default 0 (regs c !! i)).
Proof. intros [_ Hall]. now apply regs_lookup_uint16. Qed.

(** A refresh copies the registers of the chip, as they are after the
    chip has moved on, into their slots of the shadow. *)
Lemma chip_refresh_word (w : world Chip) r :
  chip_ok (chip_tick (dev w)) ->
  word (decode (next_block w)) (reg.index r) =
  chip_reg (chip_tick (dev w)) r.
Proof.
  intros Hok. rewrite word_decode by apply reg_index_lt.
  rewrite chip_next_block, chip_block_word by apply reg_index_lt.
  replace (nth (reg.index r) read_order 0) with (reg.addr r)
    by (destruct r; reflexivity).
  rewrite recompose_word by now apply chip_ok_regs.
  apply to_uint16_small. now apply chip_ok_regs.
Qed.

Lemma chip_refresh_field (w : world Chip) f :
  chip_ok (chip_tick (dev w)) ->
  get_field f (decode (next_block w)) = chip_get f (chip_tick (dev w)).
Proof.
  intros Hok. unfold get_field, chip_get. now rewrite chip_refresh_word.
Qed.

Lemma field_ok_STC : field_ok bits.STC.
Proof. unfold field_ok; simpl; lia. Qed.

Lemma field_ok_SFBL : field_ok bits.SFBL.
Proof. unfold field_ok; simpl; lia. Qed.

Lemma field_ok_READCHAN : field_ok bits.READCHAN.
Proof. unfold field_ok; simpl; lia. Qed.

Lemma field_ok_CHAN : field_ok bits.CHAN.
Proof. unfold field_ok; simpl; lia. Qed.

Lemma field_ok_TUNE : field_ok bits.TUNE.
Proof. unfold field_ok; simpl; lia. Qed.

Lemma field_ok_STCIEN : field_ok bits.STCIEN.
Proof. unfold field_ok; simpl; lia. Qed.

Lemma chip_ok_with_regs rs n c :
  length rs = 16%nat -> Forall is_uint16 rs -> chip_ok (chip_with_regs rs n c).
Proof. intros. split; assumption. Qed.

Lemma chip_ok_status_set c f1 v1 f2 v2 f3 v3 n :
  field_ok f1 -> field_ok f2 -> field_ok f3 -> chip_ok c ->
  chip_ok (chip_with_regs
             (regs_set f1 v1 (regs_set f2 v2 (regs_set f3 v3 (regs c)))) n c).
Proof.
  intros H1 H2 H3 [Hlen Hall]. apply chip_ok_with_regs.
  - now rewrite !length_regs_set.
  - now repeat apply regs_set_uint16.
Qed.

Lemma chip_ok_complete c : chip_ok c -> chip_ok (chip_complete c).
Proof.
  intros Hok. unfold chip_complete.
  destruct (truthy (chip_get bits.TUNE c));
    apply chip_ok_status_set;
    auto using field_ok_STC, field_ok_SFBL, field_ok_READCHAN.
Qed.

Lemma chip_ok_acknowledged c : chip_ok c -> chip_ok (chip_acknowledged c).
Proof.
  intros [Hlen Hall]. apply chip_ok_with_regs.
  - now rewrite !length_regs_set.
  - repeat apply regs_set_uint16;
      auto using field_ok_STC, field_ok_SFBL.
Qed.

Lemma chip_ok_tick c : chip_ok c -> chip_ok (chip_tick c).
Proof.
  intros Hok. unfold chip_tick.
  destruct (chip_active c && negb (truthy (chip_get bits.STC c))).
  - destruct (countdown c); [now apply chip_ok_complete|exact Hok].
  - destruct (negb (chip_active c) && truthy (chip_get bits.STC c));
      [|exact Hok].
    destruct (countdown c); [now apply chip_ok_acknowledged|exact Hok].
Qed.

Lemma store_control sh rs :
  length rs = 16%nat -> Forall is_uint16 sh ->
  store_words 2 (control_bytes sh) rs =
  take 2 rs ++ map (word sh) (seq 8 6) ++ drop 8 rs.
Proof.
  intros Hlen Hall.
  destruct (sixteen rs Hlen)
    as (a0&a1&a2&a3&a4&a5&a6&a7&a8&a9&a10&a11&a12&a13&a14&a15&->).
  unfold control_bytes, tx_pair.
  cbn [flat_map seq app store_words take drop map].
  rewrite !recompose_word by now apply word_uint16.
  reflexivity.
Qed.

Lemma chip_written_reg sh c r :
  chip_ok c -> Forall is_uint16 sh ->
  chip_reg (chip_written sh c) r =
  if is_control r then word sh (reg.index r) else chip_reg c r.
Proof.
  intros [Hlen Hall] Hsh. unfold chip_reg, chip_written, chip_transmit.
  cbn [snd regs chip_with_regs]. rewrite store_control by assumption.
  destruct (sixteen _ Hlen)
    as (a0&a1&a2&a3&a4&a5&a6&a7&a8&a9&a10&a11&a12&a13&a14&a15&->).
  destruct r; reflexivity.
Qed.

Lemma chip_written_ok sh c :
  chip_ok c -> Forall is_uint16 sh -> chip_ok (chip_written sh c).
Proof.
  intros [Hlen Hall] Hsh. unfold chip_written, chip_transmit.
  cbn [snd]. apply chip_ok_with_regs; cbn [regs chip_with_regs];
    rewrite store_control by assumption.
  - rewrite !length_app, length_take, length_map, length_seq, length_drop.
    lia.
  - apply Forall_app. split; [now apply Forall_take|].
    apply Forall_app. split; [|now apply Forall_drop].
    apply Forall_forall. intros x Hx.
    apply list_elem_of_In, in_map_iff in Hx. destruct Hx as (k & <- & _).
    now apply word_uint16.
Qed.

Lemma chip_written_control sh c g :
  chip_ok c -> Forall is_uint16 sh -> is_control (bf_reg g) = true ->
  chip_get g (chip_written sh c) = get_field g sh.
Proof.
  intros Hok Hsh Hc. unfold chip_get, get_field.
  now rewrite chip_written_reg, Hc by assumption.
Qed.

Lemma chip_written_status sh c g :
  chip_ok c -> Forall is_uint16 sh -> is_control (bf_reg g) = false ->
  chip_get g (chip_written sh c) = chip_get g c.
Proof.
  intros Hok Hsh Hc. unfold chip_get.
  now rewrite chip_written_reg, Hc by assumption.
Qed.

Lemma chip_written_countdown sh c :
  countdown (chip_written sh c) =
  if chip_active (chip_written sh c) then set_latency c
  else clear_latency c.
Proof. reflexivity. Qed.

Lemma chip_tick_busy c :
  chip_busy c = true ->
  chip_tick c = match countdown c with
                | O => chip_complete c
                | S n => chip_countdown n c
                end.
Proof.
  unfold chip_busy, chip_stc, chip_tick. intros ->. reflexivity.
Qed.

Lemma chip_tick_releasing c :
  chip_releasing c = true ->
  chip_tick c = match countdown c with
                | O => chip_acknowledged c
                | S n => chip_countdown n c
                end.
Proof.
  unfold chip_releasing, chip_stc, chip_tick. intros Hr.
  rewrite Hr. apply andb_true_iff in Hr as [Ha _].
  apply negb_true_iff in Ha. rewrite Ha. reflexivity.
Qed.

Lemma chip_tick_rest c :
  chip_busy c = false -> chip_releasing c = false -> chip_tick c = c.
Proof.
  unfold chip_busy, chip_releasing, chip_stc, chip_tick.
  intros -> ->. reflexivity.
Qed.

Lemma control_not_status g f :
  is_control (bf_reg g) = true ->
  bf_reg f = reg.STATUSRSSI \/ bf_reg f = reg.READCHAN ->
  apart f g.
Proof.
  intros Hc Hf. left. intros E. rewrite <- E in Hc.
  destruct Hf as [Hf|Hf]; rewrite Hf in Hc; discriminate.
Qed.

(** The three status fields the chip updates, on a register list. *)
Lemma status_set_fields rs stc sfbl rc :
  length rs = 16%nat ->
  let rs' := regs_set bits.STC stc
               (regs_set bits.SFBL sfbl (regs_set bits.READCHAN rc rs)) in
  length rs' = 16%nat /\
  regs_get bits.STC rs' = Z.land stc (Z.ones 1) /\
  regs_get bits.SFBL rs' = Z.land sfbl (Z.ones 1) /\
  regs_get bits.READCHAN rs' = Z.land rc (Z.ones 10) /\
  forall g, field_ok g -> is_control (bf_reg g) = true ->
    regs_get g rs' = regs_get g rs.
Proof.
  intros Hlen rs'.
  assert (L1 : length (regs_set bits.READCHAN rc rs) = 16%nat)
    by now rewrite length_regs_set.
  assert (L2 : length (regs_set bits.SFBL sfbl
                 (regs_set bits.READCHAN rc rs)) = 16%nat)
    by now rewrite length_regs_set.
  assert (A1 : apart bits.STC bits.SFBL) by (right; left; simpl; lia).
  assert (A2 : apart bits.STC bits.READCHAN) by (left; discriminate).
  assert (A3 : apart bits.SFBL bits.READCHAN) by (left; discriminate).
  pose proof field_ok_STC as F1. pose proof field_ok_SFBL as F2.
  pose proof field_ok_READCHAN as F3.
  unfold rs'. split; [now rewrite length_regs_set|].
  split; [now apply regs_get_set_same|].
  split.
  { rewrite (regs_get_set_apart bits.STC bits.SFBL) by assumption.
    now apply regs_get_set_same. }
  split.
  { rewrite (regs_get_set_apart bits.STC bits.READCHAN) by assumption.
    rewrite (regs_get_set_apart bits.SFBL bits.READCHAN) by assumption.
    now apply regs_get_set_same. }
  intros g Hg Hc.
  rewrite (regs_get_set_apart bits.STC g);
    [|assumption..|apply control_not_status; [exact Hc|now left]|exact L2].
  rewrite (regs_get_set_apart bits.SFBL g);
    [|assumption..|apply control_not_status; [exact Hc|now left]|exact L1].
  apply regs_get_set_apart;
    [assumption..|apply control_not_status; [exact Hc|now right]|exact Hlen].
Qed.

Lemma regs_get_range f rs : field_ok f -> 0 <= regs_get f rs < 2 ^ bf_width f.
Proof. intros (Ho & Hw & _). now apply get_bits_range. Qed.

(** Completion raises STC, leaves the control registers alone, and
    latches the channel of a tune or the outcome of a seek. *)
Lemma chip_complete_fields c :
  chip_ok c ->
  chip_stc (chip_complete c) = true /\
  (forall g, field_ok g -> is_control (bf_reg g) = true ->
     chip_get g (chip_complete c) = chip_get g c) /\
  (truthy (chip_get bits.TUNE c) = true ->
     chip_get bits.READCHAN (chip_complete c) = chip_get bits.CHAN c /\
     chip_get bits.SFBL (chip_complete c) = 0) /\
  (truthy (chip_get bits.TUNE c) = false ->
     let outcome := stations c (truthy (chip_get bits.SEEKUP c))
                      (chip_get bits.READCHAN c) in
     chip_get bits.READCHAN (chip_complete c) = snd outcome mod 1024 /\
     truthy (chip_get bits.SFBL (chip_complete c)) = fst outcome).
Proof.
  intros [Hlen Hall]. unfold chip_stc.
  destruct (truthy (chip_get bits.TUNE c)) eqn:Et.
  - destruct (status_set_fields (regs c) 1 0
                (regs_get bits.CHAN (regs c)) Hlen)
      as (_ & Hstc & Hsfbl & Hrc & Hctl).
    assert (Ec : chip_complete c =
                 chip_with_regs
                   (regs_set bits.STC 1
                      (regs_set bits.SFBL 0
                         (regs_set bits.READCHAN (chip_get bits.CHAN c)
                            (regs c)))) 0 c)
      by (unfold chip_complete; now rewrite Et).
    rewrite Ec, !chip_get_regs. cbn [regs chip_with_regs].
    split; [now rewrite Hstc|]. split; [exact Hctl|].
    split; [|discriminate]. intros _. split; [|exact Hsfbl].
    rewrite Hrc, Z.land_ones by lia. apply Z.mod_small.
    apply (regs_get_range bits.CHAN), field_ok_CHAN.
  - set (outcome := stations c (truthy (chip_get bits.SEEKUP c))
                      (chip_get bits.READCHAN c)).
    destruct (status_set_fields (regs c) 1 (Z.b2z (fst outcome))
                (snd outcome) Hlen)
      as (_ & Hstc & Hsfbl & Hrc & Hctl).
    assert (Ec : chip_complete c =
                 chip_with_regs
                   (regs_set bits.STC 1
                      (regs_set bits.SFBL (Z.b2z (fst outcome))
                         (regs_set bits.READCHAN (snd outcome) (regs c))))
                   0 c)
      by (unfold chip_complete; now rewrite Et).
    rewrite Ec, !chip_get_regs. cbn [regs chip_with_regs].
    split; [now rewrite Hstc|]. split; [exact Hctl|].
    split; [discriminate|]. intros _. cbv zeta. split.
    + rewrite Hrc, Z.land_ones by lia. reflexivity.
    + rewrite Hsfbl. now destruct (fst outcome).
Qed.

Lemma status_clear_fields rs :
  length rs = 16%nat ->
  let rs' := regs_set bits.STC 0 (regs_set bits.SFBL 0 rs) in
  regs_get bits.STC rs' = 0 /\
  forall g, field_ok g -> apart bits.STC g -> apart bits.SFBL g ->
    regs_get g rs' = regs_get g rs.
Proof.
  intros Hlen rs'.
  assert (L1 : length (regs_set bits.SFBL 0 rs) = 16%nat)
    by now rewrite length_regs_set.
  pose proof field_ok_STC as F1. pose proof field_ok_SFBL as F2.
  unfold rs'. split; [now rewrite regs_get_set_same|].
  intros g Hg A1 A2.
  rewrite (regs_get_set_apart bits.STC g) by assumption.
  now apply regs_get_set_apart.
Qed.

(** The acknowledgement drops STC and changes nothing else but SFBL. *)
Lemma chip_acknowledged_fields c :
  chip_ok c ->
  chip_stc (chip_acknowledged c) = false /\
  forall g, field_ok g -> apart bits.STC g -> apart bits.SFBL g ->
    chip_get g (chip_acknowledged c) = chip_get g c.
Proof.
  intros [Hlen Hall]. unfold chip_stc, chip_acknowledged.
  destruct (status_clear_fields (regs c) Hlen) as (Hstc & Hoth).
  rewrite !chip_get_regs. cbn [regs chip_with_regs].
  split; [now rewrite Hstc|exact Hoth].
Qed.

End ChipFacts.

(** * Tuning *)

Section Tuning.
Context {D : Type} `{Device D}.

Lemma clamp_freq_code bandStart bandEnd freq :
  (if (if freq >? bandEnd then bandEnd else freq) <? bandStart
   then bandStart
   else if freq >? bandEnd then bandEnd else freq) =
  Z.max bandStart (Z.min bandEnd freq).
Proof.
  destruct (Z.gtb_spec freq bandEnd);
    [destruct (Z.ltb_spec bandEnd bandStart)
    |destruct (Z.ltb_spec freq bandStart)]; lia.
Qed.

Lemma channel_of_range o freq :
  region_set o = true ->
  _bandStart o <= clamp_freq o freq <= _bandEnd o /\
  0 <= channel_of o freq < 1024 /\
  Z.quot (clamp_freq o freq - _bandStart o) (_bandSpacing o) =
    channel_of o freq.
Proof.
  intros Hreg. destruct (region_set_range o Hreg) as (Hb & He & Hs & Hq).
  assert (Hc : _bandStart o <= clamp_freq o freq <= _bandEnd o)
    by (unfold clamp_freq; lia).
  split; [exact Hc|]. unfold channel_of. split.
  - split; [apply Z.div_pos; lia|].
    eapply Z.le_lt_trans; [|exact Hq].
    apply Z.div_le_mono; lia.
  - apply Z.quot_div_nonneg; lia.
Qed.

(** [setChannel] up to the end of its first wait. *)
Lemma setChannel_until_complete fuel freq (w : world D) :
  sized w -> region_set (drv w) = true ->
  setChannel fuel freq w =
  bind (tune_wait fuel)
    (fun _ =>
       getShadow ;;
       bits_set bits.TUNE 0 ;;
       putShadow ;;
       while fuel getSTC (ret tt) ;;
       getChannel)%drv
    (tune_commanded (channel_of (drv w) freq) w).
Proof.
  intros Hsz Hreg.
  destruct (channel_of_range (drv w) freq Hreg) as (Hc & Hq & Hquot).
  destruct (region_set_range _ Hreg) as (Hb & He & Hs & _).
  unfold setChannel.
  erewrite bind_ok by reflexivity.
  erewrite bind_ok by reflexivity.
  rewrite clamp_freq_code. fold (clamp_freq (drv w) freq).
  erewrite bind_ok by now apply getShadow_run.
  erewrite bind_ok by reflexivity.
  cbn [refresh drv with_shadow _bandStart _bandSpacing].
  unfold bind at 1, int_ at 1.
  rewrite in_int_small by lia.
  erewrite bind_ok by reflexivity.
  cbn [refresh drv with_shadow _bandStart _bandSpacing].
  unfold bind at 1, int_div at 1, int_ at 1.
  replace (Z.eqb (_bandSpacing (drv w)) 0) with false
    by (symmetry; apply Z.eqb_neq; lia).
  rewrite Hquot, in_int_small by lia.
  erewrite bind_ok by apply bits_set_run.
  erewrite bind_ok by apply bits_set_run.
  erewrite bind_ok by apply putShadow_run.
  fold (refresh w).
  fold (tune_commanded (channel_of (drv w) freq) w).
  unfold tune_wait. now rewrite bind_assoc.
Qed.

Lemma tune_wait_polls fuel (w : world D) :
  sized w ->
  exists w', quiet w w' /\
    (tune_wait fuel w = Ok tt w' \/ tune_wait fuel w = Timeout w').
Proof.
  intros Hsz. unfold tune_wait.
  erewrite bind_ok by reflexivity.
  destruct (Z.eqb _ 0).
  - apply while_polls; auto using polls_not_getSTC, polls_ret.
  - exists w. split; [now apply quiet_refl|]. now left.
Qed.

Lemma tune_wait_Ok fuel (w w2 : world D) :
  sized w -> tune_wait fuel w = Ok tt w2 -> quiet w w2.
Proof.
  intros Hsz Hrun.
  destruct (tune_wait_polls fuel w Hsz) as (w' & Hq & [Hok|Hto]);
    congruence.
Qed.

(** On any device on which both waits end, [setChannel] returns what
    [getChannel] reads back afterwards. *)
Lemma setChannel_run fuel freq (w w2 w5 : world D) :
  sized w -> region_set (drv w) = true ->
  tune_wait fuel (tune_commanded (channel_of (drv w) freq) w) = Ok tt w2 ->
  while fuel getSTC (ret tt) (tune_released w2) = Ok tt w5 ->
  setChannel fuel freq w = getChannel w5 /\
  quiet (tune_released w2) w5 /\ members_same (drv w) (drv w5).
Proof.
  intros Hsz Hreg Hwait Hclear.
  assert (Hsz1 : sized (tune_commanded (channel_of (drv w) freq) w)).
  { apply sized_flush, sized_assign, sized_assign, sized_refresh. }
  pose proof (tune_wait_Ok _ _ _ Hsz1 Hwait) as (Hsz2 & Hm2 & _).
  assert (Hq5 : quiet (tune_released w2) w5).
  { eapply while_Ok_quiet; [apply polls_getSTC|apply polls_ret| |exact Hclear].
    apply sized_flush, sized_assign, sized_refresh. }
  split; [|split; [exact Hq5|]].
  - rewrite setChannel_until_complete by assumption.
    rewrite (bind_ok _ _ _ _ _ Hwait).
    erewrite bind_ok by now apply getShadow_run.
    erewrite bind_ok by apply bits_set_run.
    erewrite bind_ok by apply putShadow_run.
    fold (tune_released w2).
    now rewrite (bind_ok _ _ _ _ _ Hclear).
  - destruct Hq5 as (_ & Hm5 & _).
    eapply members_same_trans; [|exact Hm5].
    eapply members_same_trans; [|apply members_same_shadow].
    eapply members_same_trans; [|exact Hm2].
    unfold tune_commanded, flush, assign, refresh. cbn [drv].
    repeat split.
Qed.

End Tuning.

(** * Runs of the driver against the simulated chip *)

Section ChipRuns.

Lemma chip_poll (w : world Chip) :
  sized w -> chip_ok (dev w) ->
  getSTC w = Ok (chip_stc (chip_tick (dev w))) (refresh w).
Proof.
  intros Hsz Hok. rewrite getSTC_run by exact Hsz.
  rewrite chip_refresh_field by now apply chip_ok_tick. reflexivity.
Qed.

Lemma chip_poll_not (w : world Chip) :
  sized w -> chip_ok (dev w) ->
  not_ getSTC w = Ok (negb (chip_stc (chip_tick (dev w)))) (refresh w).
Proof.
  intros Hsz Hok. unfold not_.
  erewrite bind_ok by (now apply chip_poll). reflexivity.
Qed.

Lemma calm_ret : calm (ret tt).
Proof.
  intros w Hsz. exists w. split; [reflexivity|].
  split; [now apply quiet_refl|reflexivity].
Qed.

Lemma calm_delay ms : calm (delay ms).
Proof.
  intros w Hsz. eexists. split; [reflexivity|]. split; [|reflexivity].
  split; [exact Hsz|]. split; [apply members_same_refl|].
  eexists. split; [reflexivity|]. repeat constructor.
Qed.

Lemma chip_busy_stc c : chip_busy c = true -> chip_stc c = false.
Proof.
  unfold chip_busy. intros Hb. apply andb_true_iff in Hb as [_ Hs].
  now apply negb_true_iff.
Qed.

Lemma chip_releasing_stc c : chip_releasing c = true -> chip_stc c = true.
Proof.
  unfold chip_releasing. intros Hb. now apply andb_true_iff in Hb as [_ Hs].
Qed.

(** The wait for STC to rise ends after [countdown + 1] polls, with the
    command completed. *)
Lemma await_rise body :
  calm body ->
  forall n (w : world Chip) fuel,
    sized w -> chip_ok (dev w) -> chip_busy (dev w) = true ->
    countdown (dev w) = n -> (n < fuel)%nat ->
    exists w', while fuel (not_ getSTC) body w = Ok tt w' /\
               quiet w w' /\ dev w' = chip_complete (dev w).
Proof.
  intros Hbody. induction n as [|n IH];
    intros w fuel Hsz Hok Hbusy Hcount Hfuel;
    (destruct fuel as [|fuel]; [lia|]); cbn [while];
    erewrite bind_ok by (now apply chip_poll_not);
    rewrite (chip_tick_busy _ Hbusy), Hcount.
  - destruct (chip_complete_fields (dev w) Hok) as (-> & _).
    exists (refresh w). split; [reflexivity|].
    split; [apply quiet_refresh|].
    change (dev (refresh w)) with (chip_tick (dev w)).
    now rewrite (chip_tick_busy _ Hbusy), Hcount.
  - change (chip_stc (chip_countdown n (dev w))) with (chip_stc (dev w)).
    rewrite (chip_busy_stc _ Hbusy). cbn [negb].
    destruct (Hbody (refresh w) (sized_refresh w)) as (w1 & Hb & Hq1 & Hd1).
    rewrite (bind_ok _ _ _ _ _ Hb).
    assert (Hd : dev w1 = chip_countdown n (dev w)).
    { rewrite Hd1. change (dev (refresh w)) with (chip_tick (dev w)).
      now rewrite (chip_tick_busy _ Hbusy), Hcount. }
    destruct (IH w1 fuel) as (w' & Hrun & Hq & Hdev).
    + apply Hq1.
    + rewrite Hd. exact Hok.
    + rewrite Hd. exact Hbusy.
    + now rewrite Hd.
    + lia.
    + exists w'. split; [exact Hrun|]. split.
      * eapply quiet_trans; [apply quiet_refresh|].
        eapply quiet_trans; eassumption.
      * rewrite Hdev, Hd. reflexivity.
Qed.

(** The wait for STC to drop ends after [countdown + 1] polls, with the
    completion acknowledged. *)
Lemma await_fall body :
  calm body ->
  forall n (w : world Chip) fuel,
    sized w -> chip_ok (dev w) -> chip_releasing (dev w) = true ->
    countdown (dev w) = n -> (n < fuel)%nat ->
    exists w', while fuel getSTC body w = Ok tt w' /\
               quiet w w' /\ dev w' = chip_acknowledged (dev w).
Proof.
  intros Hbody. induction n as [|n IH];
    intros w fuel Hsz Hok Hrel Hcount Hfuel;
    (destruct fuel as [|fuel]; [lia|]); cbn [while];
    erewrite bind_ok by (now apply chip_poll);
    rewrite (chip_tick_releasing _ Hrel), Hcount.
  - destruct (chip_acknowledged_fields (dev w) Hok) as (-> & _).
    exists (refresh w). split; [reflexivity|].
    split; [apply quiet_refresh|].
    change (dev (refresh w)) with (chip_tick (dev w)).
    now rewrite (chip_tick_releasing _ Hrel), Hcount.
  - change (chip_stc (chip_countdown n (dev w))) with (chip_stc (dev w)).
    rewrite (chip_releasing_stc _ Hrel).
    destruct (Hbody (refresh w) (sized_refresh w)) as (w1 & Hb & Hq1 & Hd1).
    rewrite (bind_ok _ _ _ _ _ Hb).
    assert (Hd : dev w1 = chip_countdown n (dev w)).
    { rewrite Hd1. change (dev (refresh w)) with (chip_tick (dev w)).
      now rewrite (chip_tick_releasing _ Hrel), Hcount. }
    destruct (IH w1 fuel) as (w' & Hrun & Hq & Hdev).
    + apply Hq1.
    + rewrite Hd. exact Hok.
    + rewrite Hd. exact Hrel.
    + now rewrite Hd.
    + lia.
    + exists w'. split; [exact Hrun|]. split.
      * eapply quiet_trans; [apply quiet_refresh|].
        eapply quiet_trans; eassumption.
      * rewrite Hdev, Hd. reflexivity.
Qed.

(** A refresh from a chip at rest shows the chip as it is. *)
Lemma chip_rest_refresh (w : world Chip) :
  chip_ok (dev w) -> chip_busy (dev w) = false ->
  chip_releasing (dev w) = false ->
  dev (refresh w) = dev w /\
  forall g, get_field g (shadow (drv (refresh w))) = chip_get g (dev w).
Proof.
  intros Hok Hb Hr.
  pose proof (chip_tick_rest _ Hb Hr) as Htick.
  split; [exact Htick|].
  intros g. cbn [refresh drv shadow with_shadow].
  rewrite chip_refresh_field by (rewrite Htick; exact Hok).
  now rewrite Htick.
Qed.

(** The chip after one field is assigned and the shadow written back. *)
Lemma chip_assign_written (w : world Chip) f v :
  words_ok w -> chip_ok (dev w) -> field_ok f ->
  is_control (bf_reg f) = true ->
  let c := dev (flush (assign f v w)) in
  chip_ok c /\
  chip_get f c = Z.land v (Z.ones (bf_width f)) /\
  (forall g, field_ok g -> is_control (bf_reg g) = true -> apart f g ->
     chip_get g c = get_field g (shadow (drv w))) /\
  (forall g, is_control (bf_reg g) = false ->
     chip_get g c = chip_get g (dev w)) /\
  countdown c = (if chip_active c then set_latency (dev w)
                 else clear_latency (dev w)) /\
  set_latency c = set_latency (dev w) /\
  clear_latency c = clear_latency (dev w) /\
  stations c = stations (dev w).
Proof.
  intros Hw Hok Hf Hc c.
  destruct (words_ok_assign f v w Hf Hw) as [Hsz1 Hall1].
  destruct Hw as [Hsz Hall].
  assert (Ec : c = chip_written (shadow (drv (assign f v w))) (dev w))
    by reflexivity.
  split; [rewrite Ec; now apply chip_written_ok|].
  split.
  { rewrite Ec, chip_written_control by assumption.
    unfold assign. cbn [drv shadow with_shadow].
    now apply get_set_field_same. }
  split.
  { intros g Hg Hcg Hap. rewrite Ec, chip_written_control by assumption.
    unfold assign. cbn [drv shadow with_shadow].
    now apply get_set_field_apart. }
  split.
  { intros g Hcg. rewrite Ec. now apply chip_written_status. }
  repeat split.
Qed.

Lemma chip_complete_params c :
  set_latency (chip_complete c) = set_latency c /\
  clear_latency (chip_complete c) = clear_latency c /\
  stations (chip_complete c) = stations c.
Proof.
  unfold chip_complete. destruct (truthy (chip_get bits.TUNE c));
    repeat split.
Qed.

Lemma chip_active_false c :
  chip_active c = false ->
  chip_get bits.TUNE c = 0 /\ chip_get bits.SEEK c = 0.
Proof.
  unfold chip_active, truthy. intros Ha.
  apply orb_false_iff in Ha as [Ht Hs].
  apply negb_false_iff in Ht, Hs. apply Z.eqb_eq in Ht, Hs. now split.
Qed.

Lemma chip_idle_spec c :
  chip_idle c = true <->
  chip_get bits.TUNE c = 0 /\ chip_get bits.SEEK c = 0 /\
  chip_stc c = false /\ chip_get bits.STCIEN c = 0.
Proof.
  unfold chip_idle. split.
  - intros Hi. apply andb_true_iff in Hi as [Hi Hien].
    apply andb_true_iff in Hi as [Ha Hs].
    apply negb_true_iff in Ha, Hs. apply Z.eqb_eq in Hien.
    destruct (chip_active_false _ Ha). tauto.
  - intros (Ht & Hs & Hstc & Hien).
    unfold chip_active. now rewrite Ht, Hs, Hstc, Hien.
Qed.

(** A tune on an idle chip: both waits of [setChannel] end, the chip is
    idle again and its read-channel register holds the channel written. *)
Lemma chip_tune (w : world Chip) (q : Z) (fuel : nat) :
  sized w -> chip_ok (dev w) -> chip_idle (dev w) = true ->
  0 <= q < 1024 ->
  (set_latency (dev w) < fuel)%nat -> (clear_latency (dev w) < fuel)%nat ->
  exists w2 w5,
    tune_wait fuel (tune_commanded q w) = Ok tt w2 /\
    while fuel getSTC (ret tt) (tune_released w2) = Ok tt w5 /\
    chip_ok (dev w5) /\ chip_idle (dev w5) = true /\
    chip_get bits.READCHAN (dev w5) = q /\
    set_latency (dev w5) = set_latency (dev w) /\
    clear_latency (dev w5) = clear_latency (dev w) /\
    stations (dev w5) = stations (dev w).
Proof.
  intros Hsz Hok Hidle Hq Hls Hlc.
  apply chip_idle_spec in Hidle as (Ht0 & Hs0 & Hstc0 & Hien0).
  assert (Hb0 : chip_busy (dev w) = false)
    by (unfold chip_busy, chip_active; now rewrite Ht0, Hs0).
  assert (Hr0 : chip_releasing (dev w) = false)
    by (unfold chip_releasing; now rewrite Hstc0, andb_false_r).
  destruct (chip_rest_refresh w Hok Hb0 Hr0) as [Hd0 Hf0].
  pose proof field_ok_TUNE as FT. pose proof field_ok_CHAN as FC.
  pose proof field_ok_SEEK as FS. pose proof field_ok_STCIEN as FI.
  (* the command is written *)
  set (wa := assign bits.CHAN q (refresh w)).
  assert (Hwa : words_ok wa)
    by (apply words_ok_assign; [exact FC|apply words_ok_refresh]).
  assert (Hoka : chip_ok (dev wa)) by (unfold wa; cbn [assign dev]; now rewrite Hd0).
  destruct (chip_assign_written wa bits.TUNE 1 Hwa Hoka FT eq_refl)
    as (Hok1 & HT1 & Hctl1 & Hst1 & Hcd1 & Hsl1 & Hcl1 & Hsn1).
  set (w1 := flush (assign bits.TUNE 1 wa)) in *.
  assert (Ew1 : tune_commanded q w = w1) by reflexivity.
  assert (Hdeva : dev wa = dev w) by exact Hd0.
  assert (Hsha : forall g, field_ok g -> apart bits.CHAN g ->
            get_field g (shadow (drv wa)) = chip_get g (dev w)).
  { intros g Hg Hap. unfold wa, assign. cbn [drv shadow with_shadow].
    rewrite get_set_field_apart; [apply Hf0|assumption..|reflexivity]. }
  assert (HC1 : chip_get bits.CHAN (dev w1) = q).
  { rewrite Hctl1; [|exact FC|reflexivity|right; left; simpl; lia].
    unfold wa, assign. cbn [drv shadow with_shadow].
    rewrite get_set_field_same; [|exact FC|reflexivity].
    change (Z.ones (bf_width bits.CHAN)) with (Z.ones 10).
    rewrite Z.land_ones by lia. apply Z.mod_small. simpl. lia. }
  assert (HS1 : chip_get bits.SEEK (dev w1) = 0).
  { rewrite Hctl1; [|exact FS|reflexivity|left; discriminate].
    rewrite Hsha; [exact Hs0|exact FS|left; discriminate]. }
  assert (HI1 : chip_get bits.STCIEN (dev w1) = 0).
  { rewrite Hctl1; [|exact FI|reflexivity|left; discriminate].
    rewrite Hsha; [exact Hien0|exact FI|left; discriminate]. }
  assert (Hstc1 : chip_stc (dev w1) = false).
  { unfold chip_stc. rewrite Hst1 by reflexivity. now rewrite Hdeva. }
  assert (Hact1 : chip_active (dev w1) = true)
    by (unfold chip_active; now rewrite HT1).
  assert (Hbusy1 : chip_busy (dev w1) = true)
    by (unfold chip_busy; now rewrite Hact1, Hstc1).
  rewrite Hact1, Hdeva in Hcd1.
  assert (Hsz1 : sized w1)
    by (apply sized_flush, sized_assign, sized_assign, sized_refresh).
  (* the wait for completion *)
  destruct (await_rise (ret tt) calm_ret (set_latency (dev w)) w1 fuel
              Hsz1 Hok1 Hbusy1 Hcd1 Hls) as (w2 & Hrun2 & Hq2 & Hd2).
  destruct (chip_complete_fields (dev w1) Hok1)
    as (Hstc2 & Hctl2 & Htune2 & _).
  destruct (Htune2 ltac:(now rewrite HT1)) as [Hrc2 _].
  rewrite <- Hd2 in Hstc2, Hctl2, Hrc2.
  assert (Hok2 : chip_ok (dev w2)) by (rewrite Hd2; now apply chip_ok_complete).
  assert (Hwait : tune_wait fuel w1 = Ok tt w2).
  { unfold tune_wait. erewrite bind_ok by apply bits_get_run.
    replace (get_field bits.STCIEN (shadow (drv w1))) with 0; [exact Hrun2|].
    change (shadow (drv w1))
      with (set_field bits.TUNE 1 (shadow (drv wa))).
    rewrite get_set_field_apart;
      [|exact FT|exact FI|left; discriminate|apply Hwa].
    rewrite Hsha; [now rewrite Hien0|exact FI|left; discriminate]. }
  exists w2. rewrite Ew1.
  (* the command bit is written back cleared *)
  assert (Hact2 : chip_active (dev w2) = true).
  { unfold chip_active. rewrite (Hctl2 _ FT eq_refl), HT1. reflexivity. }
  assert (Hb2 : chip_busy (dev w2) = false)
    by (unfold chip_busy; now rewrite Hstc2, andb_false_r).
  assert (Hr2 : chip_releasing (dev w2) = false)
    by (unfold chip_releasing; now rewrite Hact2).
  destruct (chip_rest_refresh w2 Hok2 Hb2 Hr2) as [Hd2r Hf2].
  assert (Hw2r : words_ok (refresh w2)) by apply words_ok_refresh.
  assert (Hok2r : chip_ok (dev (refresh w2))) by now rewrite Hd2r.
  destruct (chip_assign_written (refresh w2) bits.TUNE 0 Hw2r Hok2r FT
              eq_refl)
    as (Hok3 & HT3 & Hctl3 & Hst3 & Hcd3 & Hsl3 & Hcl3 & Hsn3).
  set (w3 := flush (assign bits.TUNE 0 (refresh w2))) in *.
  assert (Ew3 : tune_released w2 = w3) by reflexivity.
  rewrite Hd2r in Hst3, Hcd3, Hsl3, Hcl3, Hsn3.
  assert (HS3 : chip_get bits.SEEK (dev w3) = 0).
  { rewrite Hctl3; [|exact FS|reflexivity|left; discriminate].
    now rewrite Hf2, (Hctl2 _ FS eq_refl). }
  assert (HI3 : chip_get bits.STCIEN (dev w3) = 0).
  { rewrite Hctl3; [|exact FI|reflexivity|left; discriminate].
    now rewrite Hf2, (Hctl2 _ FI eq_refl). }
  assert (Hstc3 : chip_stc (dev w3) = true).
  { unfold chip_stc. rewrite Hst3 by reflexivity. exact Hstc2. }
  assert (Hrc3 : chip_get bits.READCHAN (dev w3) = q).
  { rewrite Hst3 by reflexivity. now rewrite Hrc2. }
  assert (Hact3 : chip_active (dev w3) = false)
    by (unfold chip_active; now rewrite HT3, HS3).
  assert (Hrel3 : chip_releasing (dev w3) = true)
    by (unfold chip_releasing; now rewrite Hact3, Hstc3).
  rewrite Hact3 in Hcd3.
  destruct (chip_complete_params (dev w1)) as (Psl & Pcl & Psn).
  rewrite Hd2, Pcl, Hcl1, Hdeva in Hcd3.
  assert (Hsz3 : sized w3)
    by (apply sized_flush, sized_assign, sized_refresh).
  destruct (await_fall (ret tt) calm_ret (clear_latency (dev w)) w3 fuel
              Hsz3 Hok3 Hrel3 Hcd3 Hlc) as (w5 & Hrun5 & Hq5 & Hd5).
  exists w5. rewrite Ew3. split; [exact Hwait|]. split; [exact Hrun5|].
  destruct (chip_acknowledged_fields (dev w3) Hok3) as (Hstc5 & Hoth5).
  rewrite <- Hd5 in Hstc5, Hoth5.
  split; [rewrite Hd5; now apply chip_ok_acknowledged|].
  split.
  { apply chip_idle_spec.
    split; [|split; [|split; [exact Hstc5|]]].
    - rewrite Hoth5; [exact HT3|exact FT|left; discriminate..].
    - rewrite Hoth5; [exact HS3|exact FS|left; discriminate..].
    - rewrite Hoth5; [exact HI3|exact FI|left; discriminate..]. }
  split.
  { rewrite Hoth5;
      [exact Hrc3|apply field_ok_READCHAN|left; discriminate..]. }
  rewrite Hd5. cbn [chip_acknowledged chip_with_regs set_latency
                    clear_latency stations].
  rewrite Hsl3, Hcl3, Hsn3, Hd2, Psl, Pcl, Psn, Hsl1, Hcl1, Hsn1, Hdeva.
  repeat split.
Qed.

(** A seek on an idle chip: both waits of [seek] end, the status read at
    completion carries the outcome the stations give, and the chip is
    idle again with the channel found in its read-channel register. *)
Lemma chip_seek (w : world Chip) (dir : Z) (fuel : nat) :
  let outcome := stations (dev w) (truthy (Z.land dir (Z.ones 1)))
                   (chip_get bits.READCHAN (dev w)) in
  sized w -> chip_ok (dev w) -> chip_idle (dev w) = true ->
  (set_latency (dev w) < fuel)%nat -> (clear_latency (dev w) < fuel)%nat ->
  exists w2 w5,
    seek_wait fuel (seek_commanded dir w) = Ok tt w2 /\
    while fuel getSTC (ret tt) (seek_released w2) = Ok tt w5 /\
    block_sfbl (next_block w2) = fst outcome /\
    chip_ok (dev w5) /\ chip_idle (dev w5) = true /\
    chip_get bits.READCHAN (dev w5) = snd outcome mod 1024.
Proof.
  intros outcome Hsz Hok Hidle Hls Hlc.
  apply chip_idle_spec in Hidle as (Ht0 & Hs0 & Hstc0 & Hien0).
  assert (Hb0 : chip_busy (dev w) = false)
    by (unfold chip_busy, chip_active; now rewrite Ht0, Hs0).
  assert (Hr0 : chip_releasing (dev w) = false)
    by (unfold chip_releasing; now rewrite Hstc0, andb_false_r).
  destruct (chip_rest_refresh w Hok Hb0 Hr0) as [Hd0 Hf0].
  pose proof field_ok_TUNE as FT. pose proof field_ok_SEEKUP as FU.
  pose proof field_ok_SEEK as FS. pose proof field_ok_STCIEN as FI.
  (* the command is written *)
  set (wa := assign bits.SEEKUP dir (refresh w)).
  assert (Hwa : words_ok wa)
    by (apply words_ok_assign; [exact FU|apply words_ok_refresh]).
  assert (Hdeva : dev wa = dev w) by exact Hd0.
  assert (Hoka : chip_ok (dev wa)) by now rewrite Hdeva.
  destruct (chip_assign_written wa bits.SEEK 1 Hwa Hoka FS eq_refl)
    as (Hok1 & HS1 & Hctl1 & Hst1 & Hcd1 & Hsl1 & Hcl1 & Hsn1).
  set (w1 := flush (assign bits.SEEK 1 wa)) in *.
  assert (Ew1 : seek_commanded dir w = w1) by reflexivity.
  assert (Hsha : forall g, field_ok g -> apart bits.SEEKUP g ->
            get_field g (shadow (drv wa)) = chip_get g (dev w)).
  { intros g Hg Hap. unfold wa, assign. cbn [drv shadow with_shadow].
    rewrite get_set_field_apart; [apply Hf0|assumption..|reflexivity]. }
  assert (HU1 : chip_get bits.SEEKUP (dev w1) = Z.land dir (Z.ones 1)).
  { rewrite Hctl1; [|exact FU|reflexivity|right; right; simpl; lia].
    unfold wa, assign. cbn [drv shadow with_shadow].
    now rewrite get_set_field_same; [|exact FU|reflexivity]. }
  assert (HT1 : chip_get bits.TUNE (dev w1) = 0).
  { rewrite Hctl1; [|exact FT|reflexivity|left; discriminate].
    rewrite Hsha; [exact Ht0|exact FT|left; discriminate]. }
  assert (HI1 : chip_get bits.STCIEN (dev w1) = 0).
  { rewrite Hctl1; [|exact FI|reflexivity|left; discriminate].
    rewrite Hsha; [exact Hien0|exact FI|left; discriminate]. }
  assert (Hstc1 : chip_stc (dev w1) = false).
  { unfold chip_stc. rewrite Hst1 by reflexivity. now rewrite Hdeva. }
  assert (Hrc1 : chip_get bits.READCHAN (dev w1) =
                 chip_get bits.READCHAN (dev w)).
  { rewrite Hst1 by reflexivity. now rewrite Hdeva. }
  assert (Hact1 : chip_active (dev w1) = true)
    by (unfold chip_active; rewrite HS1; apply orb_true_r).
  assert (Hbusy1 : chip_busy (dev w1) = true)
    by (unfold chip_busy; now rewrite Hact1, Hstc1).
  rewrite Hact1, Hdeva in Hcd1.
  assert (Hsz1 : sized w1)
    by (apply sized_flush, sized_assign, sized_assign, sized_refresh).
  (* the wait for completion *)
  destruct (await_rise (delay 40) (calm_delay 40) (set_latency (dev w)) w1
              fuel Hsz1 Hok1 Hbusy1 Hcd1 Hls) as (w2 & Hrun2 & Hq2 & Hd2).
  destruct (chip_complete_fields (dev w1) Hok1)
    as (Hstc2 & Hctl2 & _ & Hseek2).
  destruct (Hseek2 ltac:(now rewrite HT1)) as [Hrc2 Hsfbl2].
  rewrite HU1, Hrc1, Hsn1, Hdeva in Hrc2, Hsfbl2.
  fold outcome in Hrc2, Hsfbl2.
  rewrite <- Hd2 in Hstc2, Hctl2, Hrc2, Hsfbl2.
  assert (Hok2 : chip_ok (dev w2)) by (rewrite Hd2; now apply chip_ok_complete).
  assert (Hwait : seek_wait fuel w1 = Ok tt w2).
  { unfold seek_wait. erewrite bind_ok by apply bits_get_run.
    replace (get_field bits.STCIEN (shadow (drv w1))) with 0; [exact Hrun2|].
    change (shadow (drv w1))
      with (set_field bits.SEEK 1 (shadow (drv wa))).
    rewrite get_set_field_apart;
      [|exact FS|exact FI|left; discriminate|apply Hwa].
    rewrite Hsha; [now rewrite Hien0|exact FI|left; discriminate]. }
  exists w2. rewrite Ew1.
  (* the status is sampled and the command bit written back cleared *)
  assert (Hact2 : chip_active (dev w2) = true).
  { unfold chip_active. rewrite (Hctl2 _ FS eq_refl), HS1.
    apply orb_true_r. }
  assert (Hb2 : chip_busy (dev w2) = false)
    by (unfold chip_busy; now rewrite Hstc2, andb_false_r).
  assert (Hr2 : chip_releasing (dev w2) = false)
    by (unfold chip_releasing; now rewrite Hact2).
  destruct (chip_rest_refresh w2 Hok2 Hb2 Hr2) as [Hd2r Hf2].
  assert (Hw2r : words_ok (refresh w2)) by apply words_ok_refresh.
  assert (Hok2r : chip_ok (dev (refresh w2))) by now rewrite Hd2r.
  destruct (chip_assign_written (refresh w2) bits.SEEK 0 Hw2r Hok2r FS
              eq_refl)
    as (Hok3 & HS3 & Hctl3 & Hst3 & Hcd3 & Hsl3 & Hcl3 & Hsn3).
  set (w3 := flush (assign bits.SEEK 0 (refresh w2))) in *.
  assert (Ew3 : seek_released w2 = w3) by reflexivity.
  rewrite Hd2r in Hst3, Hcd3, Hsl3, Hcl3, Hsn3.
  assert (HT3 : chip_get bits.TUNE (dev w3) = 0).
  { rewrite Hctl3; [|exact FT|reflexivity|left; discriminate].
    now rewrite Hf2, (Hctl2 _ FT eq_refl). }
  assert (HI3 : chip_get bits.STCIEN (dev w3) = 0).
  { rewrite Hctl3; [|exact FI|reflexivity|left; discriminate].
    now rewrite Hf2, (Hctl2 _ FI eq_refl). }
  assert (Hstc3 : chip_stc (dev w3) = true).
  { unfold chip_stc. rewrite Hst3 by reflexivity. exact Hstc2. }
  assert (Hrc3 : chip_get bits.READCHAN (dev w3) = snd outcome mod 1024).
  { rewrite Hst3 by reflexivity. exact Hrc2. }
  assert (Hact3 : chip_active (dev w3) = false)
    by (unfold chip_active; now rewrite HT3, HS3).
  assert (Hrel3 : chip_releasing (dev w3) = true)
    by (unfold chip_releasing; now rewrite Hact3, Hstc3).
  rewrite Hact3 in Hcd3.
  destruct (chip_complete_params (dev w1)) as (Psl & Pcl & Psn).
  rewrite Hd2, Pcl, Hcl1, Hdeva in Hcd3.
  assert (Hsz3 : sized w3)
    by (apply sized_flush, sized_assign, sized_refresh).
  destruct (await_fall (ret tt) calm_ret (clear_latency (dev w)) w3 fuel
              Hsz3 Hok3 Hrel3 Hcd3 Hlc) as (w5 & Hrun5 & Hq5 & Hd5).
  exists w5. rewrite Ew3. split; [exact Hwait|]. split; [exact Hrun5|].
  split.
  { unfold block_sfbl.
    change (decode (next_block w2)) with (shadow (drv (refresh w2))).
    now rewrite Hf2. }
  destruct (chip_acknowledged_fields (dev w3) Hok3) as (Hstc5 & Hoth5).
  rewrite <- Hd5 in Hstc5, Hoth5.
  split; [rewrite Hd5; now apply chip_ok_acknowledged|].
  split.
  { apply chip_idle_spec.
    split; [|split; [|split; [exact Hstc5|]]].
    - rewrite Hoth5; [exact HT3|exact FT|left; discriminate..].
    - rewrite Hoth5; [exact HS3|exact FS|left; discriminate..].
    - rewrite Hoth5; [exact HI3|exact FI|left; discriminate..]. }
  rewrite Hoth5;
    [exact Hrc3|apply field_ok_READCHAN|left; discriminate..].
Qed.

Lemma chip_idle_rest c :
  chip_idle c = true -> chip_busy c = false /\ chip_releasing c = false.
Proof.
  intros Hi. apply chip_idle_spec in Hi as (Ht & Hs & Hstc & _).
  unfold chip_busy, chip_releasing, chip_active.
  now rewrite Ht, Hs, Hstc.
Qed.

(** What [getChannel] returns on an idle chip. *)
Lemma chip_getChannel (w : world Chip) :
  sized w -> region_set (drv w) = true -> chip_ok (dev w) ->
  chip_idle (dev w) = true ->
  getChannel w =
  Ok (_bandSpacing (drv w) * chip_get bits.READCHAN (dev w)
      + _bandStart (drv w)) (refresh w) /\
  dev (refresh w) = dev w.
Proof.
  intros Hsz Hreg Hok Hidle.
  destruct (chip_idle_rest _ Hidle) as [Hb Hr].
  destruct (chip_rest_refresh w Hok Hb Hr) as [Hd Hf].
  split; [|exact Hd].
  rewrite getChannel_run by assumption.
  unfold block_readchan.
  change (decode (next_block w)) with (shadow (drv (refresh w))).
  now rewrite Hf.
Qed.

Lemma tune_commanded_sent q (w : world Chip) :
  0 <= q < 1024 ->
  exists tx st,
    trace (tune_commanded q w) =
      trace w ++ [EvRequest I2C_ADDR 32 (next_block w);
                  EvTransmit I2C_ADDR tx st] /\
    sent_field bits.CHAN tx = q /\ sent_field bits.TUNE tx = 1.
Proof.
  intros Hq.
  set (wa := assign bits.CHAN q (refresh w)).
  assert (Hwa : words_ok wa)
    by (apply words_ok_assign; [apply field_ok_CHAN|apply words_ok_refresh]).
  exists (control_bytes (shadow (drv (assign bits.TUNE 1 wa)))),
         (write_status (assign bits.TUNE 1 wa)).
  split.
  { unfold tune_commanded, flush, assign, refresh. cbn [trace].
    now rewrite <- app_assoc. }
  split.
  - rewrite sent_field_control;
      [|reflexivity|apply (words_ok_assign _ _ _ field_ok_TUNE Hwa)].
    unfold wa, assign. cbn [drv shadow with_shadow].
    rewrite get_set_field_apart;
      [|apply field_ok_TUNE|apply field_ok_CHAN
       |right; left; simpl; lia|now rewrite length_set_field].
    rewrite get_set_field_same; [|apply field_ok_CHAN|reflexivity].
    change (Z.ones (bf_width bits.CHAN)) with (Z.ones 10).
    rewrite Z.land_ones by lia. apply Z.mod_small. simpl. lia.
  - now rewrite (sent_after_assign bits.TUNE 1 wa field_ok_TUNE eq_refl Hwa).
Qed.

(** C1. On the simulated chip, idle and with completion polled for as
    [start] leaves it, and with the band set from the table of
    [setRegion]: [setChannel freq] first clamps [freq] into the band,
    sends the channel index [(f - bandStart) / spacing] of the clamped
    frequency [f] (integer division, which truncates) with the TUNE bit,
    and returns [bandStart + spacing * ((f - bandStart) / spacing)]; a
    [getChannel] that follows returns the same. For [freq] already in the
    band, [f] is [freq]. Enough polls for the two latencies of the chip
    are all the run needs. *)
Theorem setChannel_round_trip (fuel : nat) (freq : Z) (w : world Chip) :
  let o := drv w in
  let f := clamp_freq o freq in
  let tuned :=
    _bandStart o + _bandSpacing o * ((f - _bandStart o) / _bandSpacing o) in
  sized w -> region_set o = true ->
  chip_ok (dev w) -> chip_idle (dev w) = true ->
  (set_latency (dev w) < fuel)%nat -> (clear_latency (dev w) < fuel)%nat ->
  f = Z.max (_bandStart o) (Z.min (_bandEnd o) freq) /\
  _bandStart o <= f <= _bandEnd o /\
  (_bandStart o <= freq <= _bandEnd o -> f = freq) /\
  exists w1 w2 tx st rest,
    setChannel fuel freq w = Ok tuned w1 /\
    getChannel w1 = Ok tuned w2 /\
    trace w1 = trace w ++ [EvRequest I2C_ADDR 32 (next_block w);
                           EvTransmit I2C_ADDR tx st] ++ rest /\
    sent_field bits.CHAN tx = (f - _bandStart o) / _bandSpacing o /\
    sent_field bits.TUNE tx = 1 /\
    chip_idle (dev w1) = true.
Proof.
  intros o f tuned Hsz Hreg Hok Hidle Hls Hlc.
  destruct (channel_of_range o freq Hreg) as (Hc & Hq & _).
  split; [reflexivity|]. split; [exact Hc|].
  split; [intros Hin; unfold f, clamp_freq; lia|].
  destruct (chip_tune w (channel_of o freq) fuel Hsz Hok Hidle Hq Hls Hlc)
    as (w2 & w5 & Hwait & Hclear & Hok5 & Hidle5 & Hrc5 & _).
  destruct (setChannel_run fuel freq w w2 w5 Hsz Hreg Hwait Hclear)
    as (Hset & Hq5 & Hm5).
  assert (Hsz5 : sized w5) by apply Hq5.
  assert (Hreg5 : region_set (drv w5) = true)
    by now apply (region_set_members _ _ Hm5).
  destruct (chip_getChannel w5 Hsz5 Hreg5 Hok5 Hidle5) as [Hget5 Hd5].
  assert (Htuned : _bandSpacing (drv w5) * chip_get bits.READCHAN (dev w5)
                   + _bandStart (drv w5) = tuned).
  { destruct Hm5 as (_ & E1 & _ & E3). rewrite <- E1, <- E3, Hrc5.
    unfold tuned, channel_of. fold o. fold f. lia. }
  rewrite Htuned in Hget5.
  destruct (chip_getChannel (refresh w5) (sized_refresh w5) Hreg5)
    as [Hget6 _].
  { now rewrite Hd5. }
  { now rewrite Hd5. }
  rewrite Hd5 in Hget6. cbn [refresh drv with_shadow _bandSpacing
                             _bandStart] in Hget6.
  rewrite Htuned in Hget6.
  destruct (tune_commanded_sent (channel_of o freq) w Hq)
    as (tx & st & Htr & Hchan & Htune).
  assert (Hsz1 : sized (tune_commanded (channel_of o freq) w))
    by (apply sized_flush, sized_assign, sized_assign, sized_refresh).
  destruct (tune_wait_Ok _ _ _ Hsz1 Hwait) as (_ & _ & e1 & Ht2 & _).
  destruct Hq5 as (_ & _ & e2 & Ht5 & _).
  exists (refresh w5), (refresh (refresh w5)), tx, st.
  eexists.
  split; [now rewrite Hset|]. split; [exact Hget6|].
  split.
  { unfold refresh at 1. cbn [trace]. rewrite Ht5.
    unfold tune_released, flush, assign. cbn [trace].
    unfold refresh at 1. cbn [trace]. rewrite Ht2, Htr.
    rewrite <- !app_assoc. reflexivity. }
  split; [exact Hchan|]. split; [exact Htune|].
  now rewrite Hd5.
Qed.

End ChipRuns.

(** * Where the registers sit in the shadow *)

Section Slots.

(** C2, as stated, fails: on a chip whose registers all differ, slot 2 of
    the refreshed shadow does not hold the power configuration register
    (it holds RDSA), and the write-back does not transmit the words of
    slots 2-7. *)
Lemma control_registers_not_in_slots_2_to_7 :
  let w := refresh (world0 raw_object marked_chip) in
  let sh := shadow (drv w) in
  word sh 2 <> chip_reg (dev w) reg.POWERCFG /\
  word sh 2 = chip_reg (dev w) reg.RDSA /\
  ~ (exists st w',
       putShadow w = Ok st w' /\
       trace w' =
         trace w ++ [EvTransmit I2C_ADDR (flat_map (tx_pair sh) (seq 2 6))
                       st]).
Proof.
  intros w sh. split; [|split].
  - vm_compute. discriminate.
  - vm_compute. reflexivity.
  - intros (st & w' & Hrun & Htr).
    rewrite putShadow_run in Hrun. injection Hrun as _ <-.
    unfold flush in Htr. cbn [trace] in Htr.
    apply app_inv_head in Htr. injection Htr as Hbytes _.
    vm_compute in Hbytes. discriminate Hbytes.
Qed.

Lemma reg_slots :
  reg.index reg.STATUSRSSI = 0%nat /\ reg.index reg.READCHAN = 1%nat /\
  map reg.index [reg.RDSA; reg.RDSB; reg.RDSC; reg.RDSD] = [2; 3; 4; 5]%nat /\
  map reg.index [reg.DEVICEID; reg.CHIPID] = [6; 7]%nat /\
  map reg.index control_regs = [8; 9; 10; 11; 12; 13]%nat /\
  map reg.addr control_regs = [2; 3; 4; 5; 6; 7] /\
  map reg.index [reg.TEST2; reg.BOOTCONFIG] = [14; 15]%nat.
Proof. repeat split. Qed.

(** C2, amended. After every full-bank refresh from the chip, each
    register sits in the shadow at the slot of its member of [struct reg]:
    slot 0 is the status/RSSI register and slot 1 the read-channel
    register, slots 2-5 are the RDS registers A-D, slots 6-7 the device
    and chip identifiers, slots 8-13 the six writable control registers
    0x02..0x07 (power configuration, channel, system configuration 1-3,
    test 1), slots 14-15 the registers 0x08 and 0x09. The write-back
    transmits the words of slots 8-13 and changes no other register of
    the chip. *)
Theorem shadow_slots_after_refresh (w : world Chip) :
  sized w -> chip_ok (dev w) ->
  exists w',
    getShadow w = Ok tt w' /\
    (forall r, word (shadow (drv w')) (reg.index r) = chip_reg (dev w') r) /\
    (reg.index reg.STATUSRSSI = 0%nat /\ reg.index reg.READCHAN = 1%nat /\
     map reg.index [reg.RDSA; reg.RDSB; reg.RDSC; reg.RDSD]
       = [2; 3; 4; 5]%nat /\
     map reg.index [reg.DEVICEID; reg.CHIPID] = [6; 7]%nat /\
     map reg.index control_regs = [8; 9; 10; 11; 12; 13]%nat /\
     map reg.addr control_regs = [2; 3; 4; 5; 6; 7] /\
     map reg.index [reg.TEST2; reg.BOOTCONFIG] = [14; 15]%nat) /\
    exists st w'' tx,
      putShadow w' = Ok st w'' /\
      trace w'' = trace w' ++ [EvTransmit I2C_ADDR tx st] /\
      (forall k, (k < 6)%nat ->
         tx_word tx k = word (shadow (drv w')) (8 + k)) /\
      (forall r, chip_reg (dev w'') r =
                 if is_control r then word (shadow (drv w')) (reg.index r)
                 else chip_reg (dev w') r).
Proof.
  intros Hsz Hok. exists (refresh w).
  split; [now apply getShadow_run|].
  assert (Hok' : chip_ok (dev (refresh w))) by now apply chip_ok_tick.
  split.
  { intros r. apply (chip_refresh_word w r). now apply chip_ok_tick. }
  split; [exact reg_slots|].
  exists (write_status (refresh w)), (flush (refresh w)),
         (control_bytes (shadow (drv (refresh w)))).
  split; [apply putShadow_run|]. split; [reflexivity|].
  split.
  - intros k Hk. apply sent_word_control; [apply decode_uint16|exact Hk].
  - intros r.
    apply (chip_written_reg (shadow (drv (refresh w))) (dev (refresh w)) r
             Hok' (decode_uint16 _)).
Qed.

End Slots.

(** * The driver at work on the demonstration chip *)

Section Examples.

Lemma layouts_ok :
  laid_out reg.DEVICEID 0 DEVICEID_t && laid_out reg.CHIPID 0 CHIPID_t
  && laid_out reg.POWERCFG 0 POWERCFG_t && laid_out reg.CHANNEL 0 CHANNEL_t
  && laid_out reg.SYSCONFIG1 0 SYSCONFIG1_t
  && laid_out reg.SYSCONFIG2 0 SYSCONFIG2_t
  && laid_out reg.SYSCONFIG3 0 SYSCONFIG3_t && laid_out reg.TEST1 0 TEST1_t
  && laid_out reg.STATUSRSSI 0 STATUSRSSI_t
  && laid_out reg.READCHAN 0 READCHAN_t = true.
Proof. reflexivity. Qed.

Lemma chip_okb_ok c : chip_okb c = true -> chip_ok c.
Proof.
  unfold chip_okb, chip_ok. intros Hc.
  apply andb_true_iff in Hc as [Hlen Hall].
  split; [now apply Nat.eqb_eq|].
  apply Forall_forall. intros v Hv. rewrite forallb_forall in Hall.
  apply list_elem_of_In in Hv. specialize (Hall v Hv).
  apply andb_true_iff in Hall as [H0 H1].
  apply Z.leb_le in H0. apply Z.ltb_lt in H1. split; assumption.
Defined.

Lemma bytesb_ok bs : bytesb bs = true -> Forall is_byte bs.
Proof.
  unfold bytesb. intros Hall.
  apply Forall_forall. intros v Hv. rewrite forallb_forall in Hall.
  apply list_elem_of_In in Hv. specialize (Hall v Hv).
  apply andb_true_iff in Hall as [H0 H1].
  apply Z.leb_le in H0. apply Z.ltb_lt in H1. split; assumption.
Defined.

(** [start] on a chip out of reset, whatever its latencies and stations:
    the band is set from the table, the chip is idle and polled. *)
Lemma started_ready n m st :
  let w0 := world0 (Si4703_default raw_object) (chip0 n m st) in
  exists w, start w0 = Ok tt w /\ sized w /\ region_set (drv w) = true /\
            chip_okb (dev w) = true /\ chip_idle (dev w) = true /\
            set_latency (dev w) = n /\ clear_latency (dev w) = m /\
            _bandStart (drv w) = 8750 /\ _bandEnd (drv w) = 10800 /\
            _bandSpacing (drv w) = 10.
Proof.
  intros w0. eexists. split; [vm_compute; reflexivity|].
  repeat split; vm_compute; reflexivity.
Qed.

(** The end-to-end scenario of the spec. *)
Example tune_9870 : result (setChannel 5 9870 started) = Some 9870.
Proof. vm_compute. reflexivity. Qed.

Example tune_9871 : result (setChannel 5 9871 started) = Some 9870.
Proof. vm_compute. reflexivity. Qed.

Example tune_below_band : result (setChannel 5 100 started) = Some 8750.
Proof. vm_compute. reflexivity. Qed.

Example tune_above_band : result (setChannel 5 20000 started) = Some 10800.
Proof. vm_compute. reflexivity. Qed.

Example tune_out_of_polls :
  exists w, setChannel 2 9870 started = Timeout w.
Proof. eexists. vm_compute. reflexivity. Qed.

Example seek_up_finds : result (seekUp 5 started) = Some 9250.
Proof. vm_compute. reflexivity. Qed.

Example seek_down_fails : result (seekDown 5 started) = Some 0.
Proof. vm_compute. reflexivity. Qed.

Example band_table_japan :
  exists w, setRegion BAND_JP SPACE_50KHz DE_50us started = Ok tt w /\
            (_bandStart (drv w), _bandEnd (drv w), _bandSpacing (drv w))
            = (7600, 9000, 5).
Proof. eexists. split; vm_compute; reflexivity. Qed.

End Examples.

(** * The theorems at concrete inputs *)

Section Witnesses.

Lemma started_sized : sized started.
Proof. reflexivity. Defined.

Lemma started_chip_ok : chip_ok (dev started).
Proof. apply chip_okb_ok. reflexivity. Defined.

Lemma setChannel_round_trip_witness :
  exists w1,
    setChannel 5 9871 started = Ok 9870 w1 /\
    result (getChannel w1) = Some 9870.
Proof.
  assert (H2 : region_set (drv started) = true) by reflexivity.
  assert (H4 : chip_idle (dev started) = true) by reflexivity.
  assert (H5 : (set_latency (dev started) < 5)%nat) by (vm_compute; lia).
  assert (H6 : (clear_latency (dev started) < 5)%nat) by (vm_compute; lia).
  destruct (setChannel_round_trip 5 9871 started started_sized H2
              started_chip_ok H4 H5 H6)
    as (_ & _ & _ & w1 & w2 & tx & st & rest & Hset & Hget & _).
  exists w1. split; [exact Hset|]. now rewrite Hget.
Defined.

Lemma shadow_slots_after_refresh_witness :
  exists w',
    getShadow started = Ok tt w' /\
    word (shadow (drv w')) 8 = chip_reg (dev w') reg.POWERCFG.
Proof.
  destruct (shadow_slots_after_refresh started started_sized started_chip_ok)
    as (w' & Hrun & Hslot & _).
  exists w'. split; [exact Hrun|]. apply (Hslot reg.POWERCFG).
Defined.

Lemma putShadow_six_words_witness :
  exists st w' bytes,
    putShadow (assign bits.VOLUME 9 started) = Ok st w' /\
    trace w' = trace (assign bits.VOLUME 9 started)
               ++ [EvTransmit I2C_ADDR bytes st] /\
    length bytes = 12%nat.
Proof.
  destruct (putShadow_six_words started bits.VOLUME 9)
    as (_ & st & w' & bytes & Hrun & Htr & Hlen & _).
  exists st, w', bytes. repeat split; assumption.
Defined.

Lemma getShadow_read_order_witness :
  exists w',
    getShadow started = Ok tt w' /\
    word (shadow (drv w')) (reg.index reg.DEVICEID) = 0x1242.
Proof.
  set (bs := fst (dev_request I2C_ADDR 32 (dev started))).
  set (d' := snd (dev_request I2C_ADDR 32 (dev started))).
  assert (H2 : dev_request I2C_ADDR 32 (dev started) = (bs, d'))
    by reflexivity.
  assert (H3 : length bs = 32%nat) by reflexivity.
  assert (H4 : Forall is_byte bs) by (apply bytesb_ok; reflexivity).
  destruct (getShadow_read_order started bs d' started_sized H2 H3 H4)
    as (w' & Hrun & _ & _ & _ & _ & Hreg).
  exists w'. split; [exact Hrun|].
  destruct (Hreg reg.DEVICEID) as (_ & _ & ->). reflexivity.
Defined.

Lemma seek_returns_zero_on_failure_witness :
  result (seekDown 5 started) = Some 0 /\
  result (seekUp 5 started) = Some 9250.
Proof.
  split.
  - set (w2 := final (seek_wait 5 (seek_commanded SEEK_DOWN started))).
    set (w5 := final (while 5 getSTC (ret tt) (seek_released w2))).
    assert (H2 : seek_wait 5 (seek_commanded SEEK_DOWN started) = Ok tt w2)
      by (vm_compute; reflexivity).
    assert (H3 : while 5 getSTC (ret tt) (seek_released w2) = Ok tt w5)
      by (vm_compute; reflexivity).
    destruct (seek_returns_zero_on_failure false 5 started w2 w5
                started_sized H2 H3) as (_ & Hfail & _).
    rewrite Hfail; [reflexivity|]. vm_compute. reflexivity.
  - set (w2 := final (seek_wait 5 (seek_commanded SEEK_UP started))).
    set (w5 := final (while 5 getSTC (ret tt) (seek_released w2))).
    assert (H2 : seek_wait 5 (seek_commanded SEEK_UP started) = Ok tt w2)
      by (vm_compute; reflexivity).
    assert (H3 : while 5 getSTC (ret tt) (seek_released w2) = Ok tt w5)
      by (vm_compute; reflexivity).
    destruct (seek_returns_zero_on_failure true 5 started w2 w5
                started_sized H2 H3) as (_ & _ & Hfound).
    destruct Hfound as [_ Hval]; [vm_compute; reflexivity|].
    rewrite Hval; [|reflexivity]. vm_compute. reflexivity.
Defined.

Lemma seek_samples_status_before_clearing_witness :
  exists pre,
    Forall (fun e => clears_seek e = false) pre /\
    ((exists w', seek 5 SEEK_UP started = Timeout w' /\
                 trace w' = trace started ++ pre) \/
     (exists bs tx st post,
        trace (final (seek 5 SEEK_UP started)) =
          trace started ++ pre ++ [EvRequest I2C_ADDR 32 bs;
                                   EvTransmit I2C_ADDR tx st] ++ post /\
        sent_field bits.SEEK tx = 0)).
Proof.
  destruct (seek_samples_status_before_clearing 5 SEEK_UP started
              started_sized) as (pre & Hpre & [Hto|Hok]).
  - exists pre. split; [exact Hpre|]. now left.
  - destruct Hok as (bs & tx & st & post & Htr & Hclr & _).
    exists pre. split; [exact Hpre|]. right.
    exists bs, tx, st, post. now split.
Defined.

Lemma volume_clamped_witness :
  (exists w', setVolume 99 started = Ok 15 w') /\
  (exists w', decVolume started = Ok 0 w') /\
  (exists w', incVolume (final (setVolume 99 started)) = Ok 15 w').
Proof.
  set (loud := final (setVolume 99 started)).
  assert (Hloud : sized loud) by (vm_compute; reflexivity).
  destruct (volume_clamped 99 started started_sized)
    as ((r & w1 & tx & st & b' & Hrun & Htr & _ & _ & _ & _ & _ & _ & _ &
         Hecho) & _ &
        (r3 & w3 & c0 & tx3 & st3 & b3 & Hrun3 & Htr3 & _ & _ & _ & _ & _ &
         Hecho3)).
  destruct (volume_clamped 0 loud Hloud)
    as (_ & (r2 & w2 & a0 & tx2 & st2 & b2 & Hrun2 & Htr2 & _ & _ & _ & _ &
             _ & Hecho2) & _).
  split; [|split].
  - exists w1. rewrite Hrun. f_equal. rewrite Hecho; [reflexivity|].
    pose proof (f_equal final Hrun) as Hw. cbn [final] in Hw. subst w1.
    assert (E : trace (final (setVolume 99 started)) =
                trace started ++
                skipn (length (trace started))
                      (trace (final (setVolume 99 started))))
      by (vm_compute; reflexivity).
    rewrite E in Htr. apply app_inv_head in Htr. vm_compute in Htr.
    injection Htr as Htx Hst Hb. subst tx b'. vm_compute. reflexivity.
  - exists w3. rewrite Hrun3. f_equal.
    apply Hecho3; [|vm_compute; reflexivity].
    pose proof (f_equal final Hrun3) as Hw. cbn [final] in Hw. subst w3.
    assert (E : trace (final (decVolume started)) =
                trace started ++
                skipn (length (trace started))
                      (trace (final (decVolume started))))
      by (vm_compute; reflexivity).
    rewrite E in Htr3. apply app_inv_head in Htr3. vm_compute in Htr3.
    injection Htr3 as Hc Htx Hst Hb. subst tx3 b3. vm_compute. reflexivity.
  - exists w2. rewrite Hrun2. f_equal.
    apply Hecho2; [|vm_compute; reflexivity].
    pose proof (f_equal final Hrun2) as Hw. cbn [final] in Hw. subst w2.
    assert (E : trace (final (incVolume loud)) =
                trace loud ++
                skipn (length (trace loud)) (trace (final (incVolume loud))))
      by (vm_compute; reflexivity).
    rewrite E in Htr2. apply app_inv_head in Htr2. vm_compute in Htr2.
    injection Htr2 as Hc Htx Hst Hb. subst tx2 b2. vm_compute. reflexivity.
Defined.

Lemma setMute_writes_unmute_bit_witness :
  exists w' tx st,
    setMute false started = Ok tt w' /\
    trace w' = trace started ++ [EvRequest I2C_ADDR 32 (next_block started);
                                 EvTransmit I2C_ADDR tx st] /\
    unmuted (tx_word tx 0) = false.
Proof.
  destruct (setMute_writes_unmute_bit false started started_sized)
    as (w' & tx & st & Hrun & Htr & _ & Hmute & _).
  exists w', tx, st. repeat split; assumption.
Defined.

Lemma unknown_selector_ignored_witness :
  exists w2,
    start odd_world = Ok tt w2 /\
    getBandStart w2 = Ok 1234 w2 /\ getBandEnd w2 = Ok 5678 w2 /\
    getBandSpace w2 = Ok 7 w2.
Proof.
  assert (H1 : sized odd_world) by reflexivity.
  destruct (unknown_selector_ignored 3 3 0 odd_world H1)
    as (_ & (w2 & Hrun & Hband & Hspace) & _).
  assert (N1 : _band (drv odd_world) <> BAND_US_EU) by discriminate.
  assert (N2 : _band (drv odd_world) <> BAND_JPW) by discriminate.
  assert (N3 : _band (drv odd_world) <> BAND_JP) by discriminate.
  assert (S1 : _space (drv odd_world) <> SPACE_200KHz) by discriminate.
  assert (S2 : _space (drv odd_world) <> SPACE_100KHz) by discriminate.
  assert (S3 : _space (drv odd_world) <> SPACE_50KHz) by discriminate.
  destruct (Hband N1 N2 N3) as [Hs He].
  exists w2. split; [exact Hrun|].
  split; [exact Hs|]. split; [exact He|].
  exact (Hspace S1 S2 S3).
Defined.

Lemma writeGPIO_frame_witness :
  exists w' tx st,
    writeGPIO GPIO2 GPIO_High started = Ok tt w' /\
    trace w' = trace started ++ [EvRequest I2C_ADDR 32 (next_block started);
                                 EvTransmit I2C_ADDR tx st] /\
    sent_field bits.GPIO2 tx = GPIO_High.
Proof.
  destruct (writeGPIO_frame GPIO2 GPIO_High started started_sized)
    as (w' & tx & st & Hrun & Htr & _ & _ & Hpin).
  exists w', tx, st. split; [exact Hrun|]. split; [exact Htr|].
  destruct (Hpin bits.GPIO2) as (_ & _ & _ & Hval & _).
  - right. left. split; reflexivity.
  - apply Hval. unfold GPIO_High. lia.
Defined.

End Witnesses.

(** * Bit fields of the header: independence of assignments *)

Section Fields.

Lemma reg_eqb_eq r r' : reg.eqb r r' = true <-> r = r'.
Proof.
  unfold reg.eqb. rewrite Nat.eqb_eq. split.
  - apply reg_index_inj.
  - now intros ->.
Qed.

Lemma bitfield_eqb_eq f g : bitfield_eqb f g = true <-> f = g.
Proof.
  unfold bitfield_eqb. destruct f as [r o wd], g as [r' o' wd'].
  cbn [bf_reg bf_off bf_width]. split.
  - intros Hb. apply andb_true_iff in Hb as [Hb Hw].
    apply andb_true_iff in Hb as [Hr Ho].
    apply reg_eqb_eq in Hr. apply Z.eqb_eq in Ho, Hw. now subst.
  - intros [= -> -> ->].
    rewrite !Z.eqb_refl, andb_true_r, andb_true_r. now apply reg_eqb_eq.
Qed.

Lemma apartb_apart f g : apartb f g = true -> apart f g.
Proof.
  unfold apartb, apart. intros Hb.
  apply orb_true_iff in Hb as [Hb|Hb];
    [apply orb_true_iff in Hb as [Hb|Hb]|].
  - left. intros E. apply negb_true_iff in Hb.
    apply reg_eqb_eq in E. congruence.
  - right. left. now apply Z.leb_le.
  - right. right. now apply Z.leb_le.
Qed.

Lemma field_okb_ok f : field_okb f = true -> field_ok f.
Proof.
  unfold field_okb, field_ok. intros Hb.
  apply andb_true_iff in Hb as [Hb H3].
  apply andb_true_iff in Hb as [H1 H2].
  apply Z.leb_le in H1, H2, H3. now repeat split.
Qed.

Lemma named_fields_ok :
  forallb field_okb named_fields = true.
Proof. reflexivity. Qed.

Lemma named_fields_apart :
  forallb (fun f =>
             forallb (fun g => bitfield_eqb f g || apartb f g) named_fields)
          named_fields = true.
Proof. reflexivity. Qed.

Lemma named_field_ok f : In f named_fields -> field_ok f.
Proof.
  intros Hin. apply field_okb_ok.
  pose proof named_fields_ok as Hall. rewrite forallb_forall in Hall.
  now apply Hall.
Qed.

Lemma named_fields_distinct_apart f g :
  In f named_fields -> In g named_fields -> f <> g -> apart f g.
Proof.
  intros Hf Hg Hne. pose proof named_fields_apart as Hall.
  rewrite forallb_forall in Hall. specialize (Hall f Hf).
  rewrite forallb_forall in Hall. specialize (Hall g Hg).
  apply orb_true_iff in Hall as [He|Ha].
  - apply bitfield_eqb_eq in He. contradiction.
  - now apply apartb_apart.
Qed.

(** X1. The bit fields the header names never overlap and fit their
    16-bit register: assigning [v] to a named field [f] of a shadow makes
    [f] read [v] modulo two to its width, leaves every other named field
    as it was, and keeps the words 16-bit. *)
Theorem named_fields_independent (f g : bitfield) (v : Z) (sh : shadow_t) :
  In f named_fields -> In g named_fields -> length sh = 16%nat ->
  get_field f (set_field f v sh) = v mod 2 ^ bf_width f /\
  0 <= get_field f (set_field f v sh) < 2 ^ bf_width f /\
  (f <> g -> get_field g (set_field f v sh) = get_field g sh) /\
  (Forall is_uint16 sh -> Forall is_uint16 (set_field f v sh)).
Proof.
  intros Hf Hg Hlen.
  pose proof (named_field_ok f Hf) as Fok.
  pose proof (named_field_ok g Hg) as Gok.
  assert (Hsame : get_field f (set_field f v sh) = v mod 2 ^ bf_width f).
  { rewrite get_set_field_same by assumption.
    apply Z.land_ones, Fok. }
  split; [exact Hsame|]. split.
  - rewrite Hsame. apply Z.mod_pos_bound, Z.pow_pos_nonneg; [lia|apply Fok].
  - split.
    + intros Hne. apply get_set_field_apart; try assumption.
      now apply named_fields_distinct_apart.
    + now apply set_field_uint16.
Qed.

Lemma length_assigns l : forall sh, length (assigns l sh) = length sh.
Proof.
  induction l as [|[f v] l IH]; intros sh; [reflexivity|].
  cbn [assigns]. now rewrite IH, length_set_field.
Qed.

Lemma assigns_uint16 l :
  forall sh, forallb (fun fv => field_okb (fst fv)) l = true ->
             Forall is_uint16 sh -> Forall is_uint16 (assigns l sh).
Proof.
  induction l as [|[f v] l IH]; intros sh Hok Hall; [exact Hall|].
  cbn [assigns forallb fst] in *. apply andb_true_iff in Hok as [Hf Hl].
  apply IH; [exact Hl|]. apply set_field_uint16; [|exact Hall].
  now apply field_okb_ok.
Qed.

Lemma clean_fields_ok g l :
  clean g l = true -> forallb (fun fv => field_okb (fst fv)) l = true.
Proof.
  unfold clean. rewrite !forallb_forall. intros Hc fv Hin.
  specialize (Hc fv Hin). now apply andb_true_iff in Hc as [? _].
Qed.

(** A field after a sequence of assignments: the last value assigned to
    it, or what it was. *)
Lemma get_assigns g l :
  forall sh, clean g l = true -> field_okb g = true ->
             length sh = 16%nat ->
             get_field g (assigns l sh) = carried g l (get_field g sh).
Proof.
  unfold carried.
  induction l as [|[f v] l IH]; intros sh Hc Hg Hlen; [reflexivity|].
  cbn [assigns assigned]. unfold clean in Hc. cbn [forallb fst] in Hc.
  apply andb_true_iff in Hc as [Hf Hl].
  apply andb_true_iff in Hf as [Hfok Hfg].
  rewrite IH; [|exact Hl|exact Hg|now rewrite length_set_field].
  destruct (assigned g l) as [u|]; [reflexivity|].
  destruct (bitfield_eqb f g) eqn:E.
  - apply bitfield_eqb_eq in E. subst g.
    rewrite get_set_field_same; [|now apply field_okb_ok|exact Hlen].
    apply Z.land_ones. apply field_okb_ok in Hfok. apply Hfok.
  - cbn [orb] in Hfg. apply get_set_field_apart;
      [now apply field_okb_ok..|now apply apartb_apart|exact Hlen].
Qed.

End Fields.

(** * Power sequencing *)

Section PowerSequence.
Context {D : Type} `{Device D}.

Lemma delay_run ms (w : world D) : delay ms w = Ok tt (elapsed ms w).
Proof. reflexivity. Qed.

Lemma bus2Wire_run (w : world D) : bus2Wire w = Ok tt (wired w).
Proof. reflexivity. Qed.

Lemma words_ok_assign_all l (w : world D) :
  forallb (fun fv => field_okb (fst fv)) l = true ->
  words_ok w -> words_ok (assign_all l w).
Proof.
  intros Hl [Hsz Hall]. split.
  - unfold sized, assign_all. cbn [drv shadow with_shadow].
    now rewrite length_assigns.
  - unfold assign_all. cbn [drv shadow with_shadow].
    now apply assigns_uint16.
Qed.

Lemma namedb_In f : namedb f = true -> In f named_fields.
Proof.
  unfold namedb. intros Hb. apply existsb_exists in Hb as (g & Hin & E).
  apply bitfield_eqb_eq in E. now subst.
Qed.

Lemma clean_named g l :
  In g named_fields ->
  forallb (fun fv => namedb (fst fv)) l = true ->
  clean g l = true.
Proof.
  intros Hg Hl. unfold clean. rewrite forallb_forall in *.
  intros fv Hin. specialize (Hl fv Hin). apply namedb_In in Hl.
  apply andb_true_intro. split.
  - pose proof named_fields_ok as Hall. rewrite forallb_forall in Hall.
    now apply Hall.
  - pose proof named_fields_apart as Hall.
    rewrite forallb_forall in Hall. specialize (Hall _ Hl).
    rewrite forallb_forall in Hall. now apply Hall.
Qed.

Lemma assigned_none g l :
  (forall fv, In fv l -> fst fv <> g) -> assigned g l = None.
Proof.
  induction l as [|[f v] l IH]; intros Hno; [reflexivity|].
  cbn [assigned]. rewrite IH by (intros fv Hin; apply Hno; now right).
  destruct (bitfield_eqb f g) eqn:E; [|reflexivity].
  apply bitfield_eqb_eq in E. exfalso. apply (Hno (f, v)); [now left|exact E].
Qed.

Lemma carried_untouched g l was :
  ~ In g (map fst l) -> carried g l was = was.
Proof.
  intros Hno. unfold carried. rewrite assigned_none; [reflexivity|].
  intros fv Hin E. apply Hno. rewrite <- E. now apply in_map.
Qed.

(** What a write-back carries after a sequence of assignments to named
    fields of a refreshed shadow. *)
Lemma sent_after_assigns g l (w : world D) :
  In g named_fields -> is_control (bf_reg g) = true ->
  forallb (fun fv => namedb (fst fv)) l = true ->
  sent_field g
    (control_bytes (shadow (drv (assign_all l (refresh w))))) =
  carried g l (get_field g (decode (next_block w))).
Proof.
  intros Hg Hc Hl.
  pose proof (clean_named g l Hg Hl) as Hclean.
  assert (Hgok : field_okb g = true).
  { pose proof named_fields_ok as Hall. rewrite forallb_forall in Hall.
    now apply Hall. }
  destruct (words_ok_assign_all l (refresh w)
              (clean_fields_ok g l Hclean) (words_ok_refresh w))
    as [_ Hall].
  rewrite sent_field_control by assumption.
  unfold assign_all, refresh. cbn [drv shadow with_shadow].
  now apply get_assigns.
Qed.

Lemma assign_one f v (w : world D) : assign f v w = assign_all [(f, v)] w.
Proof. reflexivity. Qed.

Lemma assign_all_cons f v l (w : world D) :
  assign_all l (assign f v w) = assign_all ((f, v) :: l) w.
Proof. reflexivity. Qed.

Lemma trace_refresh (w : world D) :
  trace (refresh w) = trace w ++ [EvRequest I2C_ADDR 32 (next_block w)].
Proof. reflexivity. Qed.

Lemma trace_flush (w : world D) :
  trace (flush w) =
  trace w ++ [EvTransmit I2C_ADDR (control_bytes (shadow (drv w)))
                (write_status w)].
Proof. reflexivity. Qed.

Lemma trace_assign_all l (w : world D) : trace (assign_all l w) = trace w.
Proof. reflexivity. Qed.

Lemma trace_assign f v (w : world D) : trace (assign f v w) = trace w.
Proof. reflexivity. Qed.

Lemma trace_elapsed ms (w : world D) :
  trace (elapsed ms w) = trace w ++ [EvDelay ms].
Proof. reflexivity. Qed.

Lemma powerUp_run (w : world D) :
  sized w -> powerUp w = Ok tt (powered w).
Proof.
  intros Hsz. unfold powerUp.
  erewrite bind_ok by now apply getShadow_run.
  erewrite bind_ok by apply bits_set_run.
  erewrite bind_ok by apply putShadow_run.
  erewrite bind_ok by apply delay_run.
  erewrite bind_ok by (apply getShadow_run; apply sized_flush,
                       sized_assign, sized_refresh).
  erewrite bind_ok by apply bits_set_run.
  erewrite bind_ok by apply bits_set_run.
  erewrite bind_ok by apply bits_set_run.
  erewrite bind_ok by apply putShadow_run.
  rewrite delay_run.
  rewrite (assign_one bits.DMUTE), !assign_all_cons.
  rewrite (assign_one bits.XOSCEN).
  reflexivity.
Qed.

(** X2. [powerUp] always returns, after exactly two read-modify-write
    cycles: the first sends XOSCEN set and is followed by a delay of 500
    ms, the second sends ENABLE set, DISABLE cleared and DMUTE set and is
    followed by a delay of 110 ms. Every other named control field goes
    back in each write as it was just read; in particular the first
    write does not enable the chip. *)
Theorem powerUp_sequence (w : world D) :
  sized w ->
  exists w' b1 tx1 s1 b2 tx2 s2,
    powerUp w = Ok tt w' /\
    trace w' = trace w ++
      [EvRequest I2C_ADDR 32 b1; EvTransmit I2C_ADDR tx1 s1; EvDelay 500;
       EvRequest I2C_ADDR 32 b2; EvTransmit I2C_ADDR tx2 s2; EvDelay 110] /\
    sent_field bits.XOSCEN tx1 = 1 /\
    sent_field bits.ENABLE tx2 = 1 /\
    sent_field bits.DISABLE tx2 = 0 /\
    sent_field bits.DMUTE tx2 = 1 /\
    (forall g, In g named_fields -> is_control (bf_reg g) = true ->
       g <> bits.XOSCEN -> sent_field g tx1 = get_field g (decode b1)) /\
    (forall g, In g named_fields -> is_control (bf_reg g) = true ->
       ~ In g [bits.ENABLE; bits.DISABLE; bits.DMUTE] ->
       sent_field g tx2 = get_field g (decode b2)).
Proof.
  intros Hsz.
  set (w1 := assign_all oscillator_assignments (refresh w)).
  set (w2 := assign_all enable_assignments (refresh (oscillating w))).
  exists (powered w), (next_block w), (control_bytes (shadow (drv w1))),
         (write_status w1), (next_block (oscillating w)),
         (control_bytes (shadow (drv w2))), (write_status w2).
  split; [now apply powerUp_run|].
  split.
  { unfold powered, oscillating.
    rewrite !trace_elapsed, !trace_flush, !trace_assign_all, !trace_refresh,
      !trace_elapsed, !trace_flush, !trace_assign_all, !trace_refresh.
    rewrite <- !app_assoc. reflexivity. }
  assert (S1 : forall g, In g named_fields -> is_control (bf_reg g) = true ->
            sent_field g (control_bytes (shadow (drv w1))) =
            carried g oscillator_assignments
              (get_field g (decode (next_block w))))
    by (intros; now apply sent_after_assigns).
  assert (S2 : forall g, In g named_fields -> is_control (bf_reg g) = true ->
            sent_field g (control_bytes (shadow (drv w2))) =
            carried g enable_assignments
              (get_field g (decode (next_block (oscillating w)))))
    by (intros; now apply sent_after_assigns).
  split; [now rewrite S1 by (apply namedb_In || idtac; reflexivity)|].
  split; [now rewrite S2 by (apply namedb_In || idtac; reflexivity)|].
  split; [now rewrite S2 by (apply namedb_In || idtac; reflexivity)|].
  split; [now rewrite S2 by (apply namedb_In || idtac; reflexivity)|].
  split.
  - intros g Hg Hc Hne. rewrite S1 by assumption.
    apply carried_untouched. cbn [map fst oscillator_assignments In].
    intros [E|[]]. now apply Hne.
  - intros g Hg Hc Hne. rewrite S2 by assumption.
    now apply carried_untouched.
Qed.

Lemma sized_elapsed ms (w : world D) : sized w -> sized (elapsed ms w).
Proof. exact id. Qed.

Lemma sized_assign_all l (w : world D) : sized w -> sized (assign_all l w).
Proof.
  unfold sized, assign_all. cbn [drv shadow with_shadow].
  now rewrite length_assigns.
Qed.

Lemma sized_powered (w : world D) : sized (powered w).
Proof.
  unfold powered. apply sized_elapsed, sized_flush, sized_assign_all,
    sized_refresh.
Qed.

Lemma powerDown_run (w : world D) :
  sized w ->
  powerDown w =
  Ok tt (elapsed 2 (flush (assign_all powerDown_assignments (refresh w)))).
Proof.
  intros Hsz. unfold powerDown.
  erewrite bind_ok by now apply getShadow_run.
  do 7 erewrite bind_ok by apply bits_set_run.
  erewrite bind_ok by apply putShadow_run.
  rewrite delay_run.
  rewrite (assign_one bits.DISABLE), !assign_all_cons.
  reflexivity.
Qed.

(** X3. [powerDown] always returns, after one read-modify-write cycle and
    a delay of 2 ms: the write sends AHIZEN set, the three GPIO fields
    high-impedance, DMUTE cleared (muted), and ENABLE and DISABLE both
    set; every other named control field goes back as it was read. *)
Theorem powerDown_sequence (w : world D) :
  sized w ->
  exists w' b tx st,
    powerDown w = Ok tt w' /\
    trace w' = trace w ++
      [EvRequest I2C_ADDR 32 b; EvTransmit I2C_ADDR tx st; EvDelay 2] /\
    sent_field bits.AHIZEN tx = 1 /\
    sent_field bits.GPIO1 tx = GPIO_Z /\
    sent_field bits.GPIO2 tx = GPIO_Z /\
    sent_field bits.GPIO3 tx = GPIO_Z /\
    sent_field bits.DMUTE tx = 0 /\
    sent_field bits.ENABLE tx = 1 /\
    sent_field bits.DISABLE tx = 1 /\
    (forall g, In g named_fields -> is_control (bf_reg g) = true ->
       ~ In g (map fst powerDown_assignments) ->
       sent_field g tx = get_field g (decode b)).
Proof.
  intros Hsz.
  set (w1 := assign_all powerDown_assignments (refresh w)).
  exists (elapsed 2 (flush w1)), (next_block w),
         (control_bytes (shadow (drv w1))), (write_status w1).
  split; [now apply powerDown_run|].
  split.
  { rewrite trace_elapsed, trace_flush. unfold w1.
    rewrite trace_assign_all, trace_refresh.
    rewrite <- !app_assoc. reflexivity. }
  assert (S1 : forall g, In g named_fields -> is_control (bf_reg g) = true ->
            sent_field g (control_bytes (shadow (drv w1))) =
            carried g powerDown_assignments
              (get_field g (decode (next_block w))))
    by (intros; now apply sent_after_assigns).
  do 7 (split; [now rewrite S1 by (apply namedb_In || idtac; reflexivity)|]).
  intros g Hg Hc Hne. rewrite S1 by assumption.
  now apply carried_untouched.
Qed.

Lemma this_run {A} (get : Si4703 -> A) (w : world D) :
  this get w = Ok (get (drv w)) w.
Proof. reflexivity. Qed.

Lemma setRegion_regioned band space de (w : world D) :
  setRegion band space de w = Ok tt (regioned band space w).
Proof.
  destruct w as [o wi d tr].
  unfold setRegion, regioned, region_members. cbn [drv wire dev trace].
  destruct (Z.eqb band BAND_US_EU), (Z.eqb band BAND_JPW),
    (Z.eqb band BAND_JP), (Z.eqb space SPACE_100KHz),
    (Z.eqb space SPACE_200KHz), (Z.eqb space SPACE_50KHz); reflexivity.
Qed.

Lemma region_members_config band space o :
  same_config o (region_members band space o) /\
  shadow (region_members band space o) = shadow o.
Proof.
  unfold region_members, same_config.
  destruct (Z.eqb band BAND_US_EU), (Z.eqb band BAND_JPW),
    (Z.eqb band BAND_JP), (Z.eqb space SPACE_100KHz),
    (Z.eqb space SPACE_200KHz), (Z.eqb space SPACE_50KHz);
    repeat split.
Qed.

Lemma start_assignments_config o o' :
  same_config o o' -> start_assignments o = start_assignments o'.
Proof.
  unfold same_config, start_assignments.
  intros (_ & _ & _ & _ & -> & -> & -> & -> & -> & -> & -> & ->).
  reflexivity.
Qed.

Lemma assigns_snoc l f v sh :
  assigns (l ++ [(f, v)]) sh = set_field f v (assigns l sh).
Proof.
  revert sh. induction l as [|[g u] l IH]; intros sh; [reflexivity|].
  cbn [app assigns]. apply IH.
Qed.

Lemma assign_all_snoc l f v (w : world D) :
  assign f v (assign_all l w) = assign_all (l ++ [(f, v)]) w.
Proof.
  unfold assign, assign_all. cbn [drv shadow with_shadow wire dev trace].
  now rewrite assigns_snoc.
Qed.

Lemma set_after_assigns {B} f v (k : M D B) l (w : world D) :
  bind (bits_set f v) (fun _ => k) (assign_all l w) =
  k (assign_all (l ++ [(f, v)]) w).
Proof.
  erewrite bind_ok by apply bits_set_run. now rewrite assign_all_snoc.
Qed.

Lemma this_after_assigns {A B} (get : Si4703 -> A) (k : A -> M D B) l
  (w : world D) :
  bind (this get) k (assign_all l w) =
  k (get (drv (assign_all l w))) (assign_all l w).
Proof. reflexivity. Qed.

Ltac set_step := rewrite set_after_assigns; cbn [app].

(** The assignments of [start] and its write-back, from any world. *)
Lemma start_tail (x : world D) :
  (bits_set bits.SPACE (_space (drv x)) ;;
   bits_set bits.BAND (_band (drv x)) ;;
   bits_set bits.DE (_de (drv x)) ;;
   bits_set bits.STCIEN 0 ;;
   bits_set bits.SEEK 0 ;;
   bits_set bits.SEEKUP 1 ;;
   skmode <- this _skmode ;;
   bits_set bits.SKMODE skmode ;;
   seekth <- this _seekth ;;
   bits_set bits.SEEKTH seekth ;;
   skcnt <- this _skcnt ;;
   bits_set bits.SKCNT skcnt ;;
   sksnr <- this _sksnr ;;
   bits_set bits.SKSNR sksnr ;;
   agcd <- this _agcd ;;
   bits_set bits.AGCD agcd ;;
   bits_set bits.RDSIEN 0 ;;
   bits_set bits.RDSM 0 ;;
   bits_set bits.RDS 1 ;;
   bits_set bits.AHIZEN 0 ;;
   bits_set bits.MONO 0 ;;
   bits_set bits.BLNDADJ BLA_31_49 ;;
   bits_set bits.VOLUME 0 ;;
   bits_set bits.VOLEXT 0 ;;
   bits_set bits.DSMUTE 1 ;;
   bits_set bits.SMUTEA SMA_16dB ;;
   bits_set bits.SMUTER SMRR_Fastest ;;
   bits_set bits.GPIO1 GPIO_Z ;;
   bits_set bits.GPIO2 GPIO_Z ;;
   bits_set bits.GPIO3 GPIO_Z ;;
   putShadow ;;
   ret tt)%drv x =
  Ok tt (flush (assign_all (start_assignments (drv x)) x)).
Proof.
  erewrite bind_ok by apply bits_set_run. rewrite assign_one.
  do 5 set_step.
  rewrite this_after_assigns; cbv beta. set_step.
  rewrite this_after_assigns; cbv beta. set_step.
  rewrite this_after_assigns; cbv beta. set_step.
  rewrite this_after_assigns; cbv beta. set_step.
  rewrite this_after_assigns; cbv beta. set_step.
  do 14 set_step.
  erewrite bind_ok by apply putShadow_run.
  reflexivity.
Qed.

Lemma start_run (w : world D) :
  sized w ->
  start w =
  Ok tt (flush (assign_all (start_assignments (drv w)) (configured w))).
Proof.
  intros Hsz. unfold start.
  erewrite bind_ok by apply bus2Wire_run.
  erewrite bind_ok by (apply powerUp_run; exact Hsz).
  erewrite bind_ok by (apply getShadow_run; apply sized_powered).
  do 3 erewrite bind_ok by apply this_run.
  erewrite bind_ok by apply setRegion_regioned.
  set (w3 := refresh (powered (wired w))).
  destruct (region_members_config (_band (drv w3)) (_space (drv w3))
              (drv w3)) as [Hcfg _].
  assert (E : regioned (_band (drv w3)) (_space (drv w3)) w3 = configured w)
    by reflexivity.
  rewrite E.
  assert (Hcfg' : same_config (drv w) (drv (configured w))).
  { rewrite <- E. exact Hcfg. }
  replace (_space (drv w3)) with (_space (drv (configured w)))
    by (symmetry; apply Hcfg').
  replace (_band (drv w3)) with (_band (drv (configured w)))
    by (symmetry; apply Hcfg').
  replace (_de (drv w3)) with (_de (drv (configured w)))
    by (symmetry; apply Hcfg').
  rewrite start_tail.
  now rewrite <- (start_assignments_config _ _ Hcfg').
Qed.

Lemma this_world {A} (get : Si4703 -> A) o wi (d : D) tr :
  this get (World o wi d tr) = Ok (get o) (World o wi d tr).
Proof. reflexivity. Qed.

Lemma pinMode_world pin m o wi (d : D) tr :
  pinMode pin m (World o wi d tr) =
  Ok tt (World o wi d (tr ++ [EvPinMode (to_uint8 pin) m])).
Proof. reflexivity. Qed.

Lemma digitalWrite_world pin v o wi (d : D) tr :
  digitalWrite pin v (World o wi d tr) =
  Ok tt (World o wi (dev_pin (to_uint8 pin) v d)
           (tr ++ [EvDigitalWrite (to_uint8 pin) v])).
Proof. reflexivity. Qed.

Lemma delay_world ms o wi (d : D) tr :
  delay ms (World o wi d tr) =
  Ok tt (World o wi (dev_elapse ms d) (tr ++ [EvDelay ms])).
Proof. reflexivity. Qed.

Lemma Wire_begin_world sda scl o wi (d : D) tr :
  Wire_begin sda scl (World o wi d tr) =
  Ok tt (World o wi d (tr ++ [EvWireBegin sda scl])).
Proof. reflexivity. Qed.

(** [bus2Wire] in closed form: the device sees the reset pulse, the
    object and the [Wire] buffers stay as they are. *)
Lemma wired_world o wi (d : D) tr :
  wired (World o wi d tr) =
  World o wi
    (dev_elapse 1
       (dev_pin (to_uint8 (_rstPin o)) true
          (dev_elapse 1
             (dev_pin (to_uint8 (_sdioPin o)) false
                (dev_pin (to_uint8 (_rstPin o)) false d)))))
    (tr ++
     [EvPinMode (to_uint8 (_rstPin o)) OUTPUT;
      EvPinMode (to_uint8 (_sdioPin o)) OUTPUT;
      EvDigitalWrite (to_uint8 (_rstPin o)) false;
      EvDigitalWrite (to_uint8 (_sdioPin o)) false;
      EvDelay 1; EvDigitalWrite (to_uint8 (_rstPin o)) true; EvDelay 1;
      EvPinMode (to_uint8 (_sdioPin o)) INPUT_PULLUP;
      EvWireBegin (_sdioPin o) (_sclkPin o)]).
Proof.
  unfold wired, bus2Wire.
  do 3 erewrite bind_ok by apply this_world.
  do 2 erewrite bind_ok by apply pinMode_world.
  do 2 erewrite bind_ok by apply digitalWrite_world.
  erewrite bind_ok by apply delay_world.
  erewrite bind_ok by apply digitalWrite_world.
  erewrite bind_ok by apply delay_world.
  erewrite bind_ok by apply pinMode_world.
  rewrite Wire_begin_world. cbn [final].
  rewrite <- !app_assoc. reflexivity.
Qed.

Lemma trace_wired (w : world D) :
  trace (wired w) = trace w ++
    [EvPinMode (to_uint8 (_rstPin (drv w))) OUTPUT;
     EvPinMode (to_uint8 (_sdioPin (drv w))) OUTPUT;
     EvDigitalWrite (to_uint8 (_rstPin (drv w))) false;
     EvDigitalWrite (to_uint8 (_sdioPin (drv w))) false; EvDelay 1;
     EvDigitalWrite (to_uint8 (_rstPin (drv w))) true; EvDelay 1;
     EvPinMode (to_uint8 (_sdioPin (drv w))) INPUT_PULLUP;
     EvWireBegin (_sdioPin (drv w)) (_sclkPin (drv w))].
Proof. destruct w as [o wi d tr]. now rewrite wired_world. Qed.

Lemma trace_regioned band space (w : world D) :
  trace (regioned band space w) = trace w.
Proof. reflexivity. Qed.

(** X4. [start] always returns. It drives the reset sequence on the pins
    (the reset and data pins as [pinMode] and [digitalWrite] receive them:
    the [int] members converted to [uint8_t], so taken modulo 256; the
    pins handed to [Wire.begin] unconverted), runs the two cycles of
    [powerUp], and then makes exactly one more read and one more write.
    That last write carries every assignment of
    [start], each value cut to the width of its bit field (the selectors
    and seek parameters are the constructor's arguments), and every named
    control field [start] does not assign (ENABLE, DISABLE, DMUTE, CHAN,
    TUNE and XOSCEN) as it was read just before. *)
Theorem start_configuration (w : world D) :
  sized w ->
  exists w' b1 tx1 s1 b2 tx2 s2 b tx st,
    start w = Ok tt w' /\
    trace w' = trace w ++
      [EvPinMode (to_uint8 (_rstPin (drv w))) OUTPUT;
       EvPinMode (to_uint8 (_sdioPin (drv w))) OUTPUT;
       EvDigitalWrite (to_uint8 (_rstPin (drv w))) false;
       EvDigitalWrite (to_uint8 (_sdioPin (drv w))) false; EvDelay 1;
       EvDigitalWrite (to_uint8 (_rstPin (drv w))) true; EvDelay 1;
       EvPinMode (to_uint8 (_sdioPin (drv w))) INPUT_PULLUP;
       EvWireBegin (_sdioPin (drv w)) (_sclkPin (drv w));
       EvRequest I2C_ADDR 32 b1; EvTransmit I2C_ADDR tx1 s1; EvDelay 500;
       EvRequest I2C_ADDR 32 b2; EvTransmit I2C_ADDR tx2 s2; EvDelay 110;
       EvRequest I2C_ADDR 32 b; EvTransmit I2C_ADDR tx st] /\
    Forall (fun fv => sent_field (fst fv) tx =
                      snd fv mod 2 ^ bf_width (fst fv))
           (start_assignments (drv w)) /\
    (forall g, In g named_fields -> is_control (bf_reg g) = true ->
       ~ In g (map fst (start_assignments (drv w))) ->
       sent_field g tx = get_field g (decode b)) /\
    same_config (drv w) (drv w').
Proof.
  intros Hsz.
  set (l := start_assignments (drv w)).
  set (w0 := wired w).
  set (w1 := assign_all oscillator_assignments (refresh w0)).
  set (w2 := assign_all enable_assignments (refresh (oscillating w0))).
  set (w3 := powered w0).
  set (w4 := assign_all l (regioned (_band (drv w)) (_space (drv w))
                             (refresh w3))).
  assert (Erun : start w = Ok tt (flush w4)) by now apply start_run.
  exists (flush w4), (next_block w0), (control_bytes (shadow (drv w1))),
    (write_status w1), (next_block (oscillating w0)),
    (control_bytes (shadow (drv w2))), (write_status w2), (next_block w3),
    (control_bytes (shadow (drv w4))), (write_status w4).
  split; [exact Erun|].
  split.
  { rewrite trace_flush. unfold w4.
    rewrite trace_assign_all, trace_regioned, trace_refresh.
    unfold w3, powered, oscillating.
    rewrite !trace_elapsed, !trace_flush, !trace_assign_all, !trace_refresh,
      !trace_elapsed, !trace_flush, !trace_assign_all, !trace_refresh.
    unfold w0. rewrite trace_wired.
    rewrite <- !app_assoc. reflexivity. }
  assert (S1 : forall g, In g named_fields -> is_control (bf_reg g) = true ->
            sent_field g (control_bytes (shadow (drv w4))) =
            carried g l (get_field g (decode (next_block w3)))).
  { intros g Hg Hc.
    replace (shadow (drv w4))
      with (shadow (drv (assign_all l (refresh w3)))).
    - now apply sent_after_assigns.
    - unfold w4, assign_all, regioned. cbn [drv shadow with_shadow].
      now rewrite (proj2 (region_members_config _ _ _)). }
  split.
  { unfold l at 1. unfold start_assignments.
    repeat (apply Forall_cons; split;
            [cbn [fst snd];
             rewrite S1 by (apply namedb_In || idtac; reflexivity);
             reflexivity|]).
    constructor. }
  split.
  { intros g Hg Hc Hne. rewrite S1 by assumption.
    now apply carried_untouched. }
  destruct (region_members_config (_band (drv w)) (_space (drv w))
              (drv (refresh w3))) as [Hcfg _].
  exact Hcfg.
Qed.

End PowerSequence.

(** * Getters: one block read, and the bits they return *)

Section Getters.
Context {D : Type} `{Device D}.

Lemma get_bits_div off width x :
  0 <= off -> 0 <= width ->
  get_bits off width x = (x / 2 ^ off) mod 2 ^ width.
Proof.
  intros Ho Hw. unfold get_bits.
  now rewrite Z.shiftr_div_pow2, Z.land_ones by lia.
Qed.

Lemma rx_word_range rx k : 0 <= rx_word rx k < 65536.
Proof.
  unfold rx_word, to_uint16. change 0xFFFF with (Z.ones 16).
  rewrite Z.land_ones by lia. now apply Z.mod_pos_bound.
Qed.

(** A getter that refreshes the shadow and returns one bit field. *)
Lemma field_getter_run f (w : world D) :
  sized w ->
  bind getShadow (fun _ => bits_get f) w =
  Ok (get_bits (bf_off f) (bf_width f)
        (rx_word (next_block w) (reg.index (bf_reg f)))) (refresh w).
Proof.
  intros Hsz. erewrite bind_ok by now apply getShadow_run.
  rewrite bits_get_run. unfold get_field.
  change (shadow (drv (refresh w))) with (decode (next_block w)).
  rewrite word_decode by apply reg_index_lt. reflexivity.
Qed.

(** A getter that refreshes the shadow and returns one bit as a [bool]. *)
Lemma flag_getter_run f (w : world D) :
  sized w -> bf_width f = 1 -> 0 <= bf_off f ->
  bind getShadow (fun _ => bind (bits_get f) (fun v => ret (truthy v))) w =
  Ok (Z.testbit (rx_word (next_block w) (reg.index (bf_reg f))) (bf_off f))
     (refresh w).
Proof.
  intros Hsz Hw Ho. erewrite bind_ok by now apply getShadow_run.
  erewrite bind_ok by apply bits_get_run. unfold ret, get_field.
  change (shadow (drv (refresh w))) with (decode (next_block w)).
  rewrite word_decode by apply reg_index_lt.
  rewrite Hw. now rewrite truthy_bit.
Qed.

Lemma top_bits x off :
  0 <= x < 65536 -> 0 <= off <= 16 ->
  (x / 2 ^ off) mod 2 ^ (16 - off) = x / 2 ^ off.
Proof.
  intros Hx Ho. apply Z.mod_small. split.
  - apply Z.div_pos; [lia|]. apply Z.pow_pos_nonneg; lia.
  - apply Z.div_lt_upper_bound; [apply Z.pow_pos_nonneg; lia|].
    rewrite <- Z.pow_add_r by lia. replace (off + (16 - off)) with 16 by lia.
    change (2 ^ 16) with 65536. lia.
Qed.

(** X5. The five identification getters each make exactly one block read
    and no write, and return the bits of the seventh and eighth word
    received (registers 0x00 and 0x01 in the read order): MFGID the low
    twelve bits and PN the high four of DEVICEID; FIRMWARE the low six
    bits, DEV the next four and REV the high six of CHIPID. The parts
    recombine to the words. *)
Theorem identification_getters (w : world D) :
  sized w ->
  let id := rx_word (next_block w) 6 in
  let chip := rx_word (next_block w) 7 in
  getMFGID w = Ok (id mod 4096) (refresh w) /\
  getPN w = Ok (id / 4096) (refresh w) /\
  getFIRMWARE w = Ok (chip mod 64) (refresh w) /\
  getDEV w = Ok (chip / 64 mod 16) (refresh w) /\
  getREV w = Ok (chip / 1024) (refresh w) /\
  trace (refresh w) = trace w ++ [EvRequest I2C_ADDR 32 (next_block w)] /\
  dev (refresh w) = snd (dev_request I2C_ADDR 32 (dev w)) /\
  4096 * (id / 4096) + id mod 4096 = id /\
  1024 * (chip / 1024) + 64 * (chip / 64 mod 16) + chip mod 64 = chip /\
  0 <= id / 4096 < 16 /\ 0 <= chip / 1024 < 64.
Proof.
  intros Hsz id chip.
  pose proof (rx_word_range (next_block w) 6) as Hid.
  pose proof (rx_word_range (next_block w) 7) as Hchip.
  fold id in Hid. fold chip in Hchip.
  unfold getMFGID, getPN, getFIRMWARE, getDEV, getREV.
  rewrite !field_getter_run by exact Hsz.
  cbn [bits.MFGID bits.PN bits.FIRMWARE bits.DEV bits.REV bf_reg bf_off
       bf_width reg.index].
  fold id chip. rewrite !get_bits_div by lia.
  change (2 ^ 0) with 1. rewrite !Z.div_1_r.
  change (id / 2 ^ 12 mod 2 ^ 4) with (id / 2 ^ 12 mod 2 ^ (16 - 12)).
  change (chip / 2 ^ 10 mod 2 ^ 6) with (chip / 2 ^ 10 mod 2 ^ (16 - 10)).
  rewrite !top_bits by lia.
  change (2 ^ 12) with 4096. change (2 ^ 10) with 1024.
  change (2 ^ 6) with 64. change (2 ^ 4) with 16.
  repeat split; try reflexivity.
  - pose proof (Z.div_mod id 4096). lia.
  - pose proof (Z.div_mod chip 64).
    pose proof (Z.div_mod (chip / 64) 16).
    replace (chip / 1024) with (chip / 64 / 16)
      by (rewrite Z.div_div by lia; reflexivity).
    lia.
  - apply Z.div_pos; lia.
  - apply Z.div_lt_upper_bound; lia.
  - apply Z.div_pos; lia.
  - apply Z.div_lt_upper_bound; lia.
Qed.

(** X6. The status and mode getters each make exactly one block read and
    no write: [getRSSI] returns the low byte of the first word received
    (register 0x0A), [getST] its bit 8 and [getSTC] its bit 14;
    [getMono] returns bit 13 of the ninth word (POWERCFG), [getVolExt]
    bit 8 of the thirteenth (SYSCONFIG3), and [getVolume] the low four
    bits of the twelfth (SYSCONFIG2). *)
Theorem status_getters (w : world D) :
  sized w ->
  let b := next_block w in
  getRSSI w = Ok (rx_word b 0 mod 256) (refresh w) /\
  getST w = Ok (Z.testbit (rx_word b 0) 8) (refresh w) /\
  getSTC w = Ok (Z.testbit (rx_word b 0) 14) (refresh w) /\
  getMono w = Ok (Z.testbit (rx_word b 8) 13) (refresh w) /\
  getVolExt w = Ok (Z.testbit (rx_word b 12) 8) (refresh w) /\
  getVolume w = Ok (rx_word b 11 mod 16) (refresh w) /\
  trace (refresh w) = trace w ++ [EvRequest I2C_ADDR 32 b] /\
  0 <= rx_word b 0 mod 256 < 256 /\ 0 <= rx_word b 11 mod 16 < 16.
Proof.
  intros Hsz b.
  unfold getRSSI, getST, getSTC, getMono, getVolExt, getVolume.
  rewrite !field_getter_run by exact Hsz.
  rewrite !flag_getter_run by (exact Hsz || reflexivity || (cbn; lia)).
  cbn [bits.RSSI bits.ST bits.STC bits.MONO bits.VOLEXT bits.VOLUME bf_reg
       bf_off bf_width reg.index].
  fold b. rewrite !get_bits_div by lia.
  change (2 ^ 0) with 1. rewrite !Z.div_1_r.
  change (2 ^ 8) with 256. change (2 ^ 4) with 16.
  repeat split; try reflexivity; apply Z.mod_pos_bound; lia.
Qed.

(** ** A block read that comes up short *)

Lemma rx_word_missing rx k :
  (length rx <= 2 * k + 1)%nat -> rx_word rx k = 65535.
Proof.
  intros Hlen. unfold rx_word, rx_byte.
  rewrite (nth_overflow rx (-1) (n := (2 * k + 1)%nat)) by lia.
  rewrite Z.lor_m1_r. reflexivity.
Qed.

Lemma get_bits_all_ones off width :
  0 <= off -> 0 <= width -> off + width <= 16 ->
  get_bits off width 65535 = 2 ^ width - 1.
Proof.
  intros Ho Hw Hs. unfold get_bits. change 65535 with (Z.ones 16).
  rewrite Z.shiftr_div_pow2 by lia.
  rewrite Z.ones_div_pow2 by lia.
  rewrite Z.land_ones by lia.
  rewrite Z.ones_equiv, <- Z.sub_1_r.
  replace (16 - off) with (width + (16 - off - width)) by lia.
  rewrite Z.pow_add_r by lia.
  assert (0 < 2 ^ width) by (apply Z.pow_pos_nonneg; lia).
  assert (0 < 2 ^ (16 - off - width)) by (apply Z.pow_pos_nonneg; lia).
  replace (2 ^ width * 2 ^ (16 - off - width) - 1)
    with ((2 ^ width - 1) + (2 ^ (16 - off - width) - 1) * 2 ^ width)
    by ring.
  rewrite Z.mod_add by lia. apply Z.mod_small. lia.
Qed.

(** X7. [getShadow] does not look at how many bytes arrived: when the
    block read delivers too few bytes to fill word [k], that word of the
    shadow becomes 0xFFFF, and every named bit field in it reads all ones.
    With nothing delivered at all, [getVolume] returns 15, [getRSSI] 255
    and [getSTC] true. *)
Theorem getShadow_short_read (w : world D) :
  sized w ->
  exists w',
    getShadow w = Ok tt w' /\
    (forall k, (k < 16)%nat -> (length (next_block w) <= 2 * k + 1)%nat ->
       word (shadow (drv w')) k = 65535) /\
    (forall f, In f named_fields ->
       (length (next_block w) <= 2 * reg.index (bf_reg f) + 1)%nat ->
       get_field f (shadow (drv w')) = 2 ^ bf_width f - 1) /\
    (next_block w = [] ->
       getVolume w = Ok 15 w' /\ getRSSI w = Ok 255 w' /\
       getSTC w = Ok true w').
Proof.
  intros Hsz. exists (refresh w).
  split; [now apply getShadow_run|].
  change (shadow (drv (refresh w))) with (decode (next_block w)).
  split; [|split].
  - intros k Hk Hlen. rewrite word_decode by exact Hk.
    now apply rx_word_missing.
  - intros f Hf Hlen. unfold get_field.
    rewrite word_decode by apply reg_index_lt.
    rewrite rx_word_missing by exact Hlen.
    destruct (named_field_ok f Hf) as (Ho & Hw & Hs).
    now apply get_bits_all_ones.
  - intros Hnil.
    unfold getVolume, getRSSI, getSTC.
    rewrite !field_getter_run by exact Hsz.
    rewrite flag_getter_run by (exact Hsz || reflexivity || (cbn; lia)).
    rewrite Hnil. repeat split.
Qed.

End Getters.

(** * Mono and extended volume range *)

Section Modes.
Context {D : Type} `{Device D}.

(** One flag of a control register, written by a read-modify-write cycle
    and read back from a device that echoes the control words. *)
Lemma flag_written f (en : bool) (w : world D) :
  In f named_fields -> is_control (bf_reg f) = true -> bf_width f = 1 ->
  let w1 := flush (assign f (Z.b2z en) (refresh w)) in
  trace w1 =
    trace w ++ [EvRequest I2C_ADDR 32 (next_block w);
                EvTransmit I2C_ADDR (control_bytes (shadow (drv w1)))
                  (write_status (assign f (Z.b2z en) (refresh w)))] /\
  sent_field f (control_bytes (shadow (drv w1))) = Z.b2z en /\
  (forall g, In g named_fields -> is_control (bf_reg g) = true -> g <> f ->
     sent_field g (control_bytes (shadow (drv w1))) =
     get_field g (decode (next_block w))) /\
  (echoed w1 = true ->
   Z.testbit (rx_word (next_block w1) (reg.index (bf_reg f))) (bf_off f)
   = en).
Proof.
  intros Hf Hc Hw w1.
  pose proof (named_field_ok f Hf) as Fok.
  destruct (assigned_then_sent f (Z.b2z en) w Fok Hc) as [Hsame Hother].
  change (shadow (drv (assign f (Z.b2z en) (refresh w))))
    with (shadow (drv w1)) in Hsame, Hother.
  rewrite Hw, bit_field_b2z in Hsame.
  split.
  { unfold w1. rewrite trace_flush, trace_assign, trace_refresh.
    now rewrite <- app_assoc. }
  split; [exact Hsame|]. split.
  - intros g Hg Hcg Hne. apply Hother; [now apply named_field_ok|exact Hcg|].
    apply named_fields_distinct_apart; [exact Hf|exact Hg|].
    intros E. now apply Hne.
  - intros Hecho. unfold echoed in Hecho. rewrite forallb_forall in Hecho.
    destruct (is_control_slot _ Hc) as [Hslot Hidx].
    assert (Hin : In (reg.index (bf_reg f)) (seq 8 6)).
    { apply in_seq. lia. }
    apply Hecho, Z.eqb_eq in Hin. rewrite Hin.
    rewrite <- (truthy_bit _ (bf_off f)) by apply Fok.
    assert (Hall : Forall is_uint16 (shadow (drv w1))).
    { unfold w1. cbn [flush drv assign shadow with_shadow].
      apply set_field_uint16; [exact Fok|apply decode_uint16]. }
    rewrite sent_field_control in Hsame by assumption.
    unfold get_field in Hsame. rewrite Hw in Hsame. rewrite Hsame.
    now destruct en.
Qed.

Lemma setMono_run en (w : world D) :
  sized w ->
  setMono en w = Ok tt (flush (assign bits.MONO (Z.b2z en) (refresh w))).
Proof.
  intros Hsz. unfold setMono.
  erewrite bind_ok by now apply getShadow_run.
  erewrite bind_ok by apply bits_set_run.
  erewrite bind_ok by apply putShadow_run. reflexivity.
Qed.

Lemma setVolExt_run en (w : world D) :
  sized w ->
  setVolExt en w = Ok tt (flush (assign bits.VOLEXT (Z.b2z en) (refresh w))).
Proof.
  intros Hsz. unfold setVolExt.
  erewrite bind_ok by now apply getShadow_run.
  erewrite bind_ok by apply bits_set_run.
  erewrite bind_ok by apply putShadow_run. reflexivity.
Qed.

Lemma sized_written f v (w : world D) : sized (flush (assign f v (refresh w))).
Proof. apply sized_flush, sized_assign, sized_refresh. Qed.

(** X8. [setMono en] always returns after one read and one write; the
    write carries [en] in the MONO bit (bit 13 of POWERCFG) and every
    other named control field as it was read. On a device that echoes the
    control words, [getMono] then returns [en]. *)
Theorem setMono_round_trip (en : bool) (w : world D) :
  sized w ->
  exists w' tx st,
    setMono en w = Ok tt w' /\
    trace w' = trace w ++ [EvRequest I2C_ADDR 32 (next_block w);
                           EvTransmit I2C_ADDR tx st] /\
    sent_field bits.MONO tx = Z.b2z en /\
    Z.testbit (tx_word tx 0) 13 = en /\
    (forall g, In g named_fields -> is_control (bf_reg g) = true ->
       g <> bits.MONO ->
       sent_field g tx = get_field g (decode (next_block w))) /\
    (echoed w' = true -> getMono w' = Ok en (refresh w')).
Proof.
  intros Hsz.
  set (w1 := flush (assign bits.MONO (Z.b2z en) (refresh w))).
  destruct (flag_written bits.MONO en w (namedb_In bits.MONO eq_refl) eq_refl
              eq_refl) as (Htr & Hsame & Hother & Hecho).
  fold w1 in Htr, Hsame, Hother, Hecho.
  exists w1, (control_bytes (shadow (drv w1))),
    (write_status (assign bits.MONO (Z.b2z en) (refresh w))).
  split; [now apply setMono_run|].
  split; [exact Htr|]. split; [exact Hsame|]. split.
  { rewrite <- (truthy_bit _ 13) by lia.
    change (get_bits 13 1 (tx_word (control_bytes (shadow (drv w1))) 0))
      with (sent_field bits.MONO (control_bytes (shadow (drv w1)))).
    rewrite Hsame. now destruct en. }
  split; [exact Hother|].
  intros He. unfold getMono.
  rewrite flag_getter_run;
    [|apply sized_written|reflexivity|cbn; lia].
  now rewrite (Hecho He).
Qed.

(** X9. [setVolExt en] always returns after one read and one write; the
    write carries [en] in the VOLEXT bit (bit 8 of SYSCONFIG3) and every
    other named control field, the volume among them, as it was read. On
    a device that echoes the control words, [getVolExt] then returns
    [en]. *)
Theorem setVolExt_round_trip (en : bool) (w : world D) :
  sized w ->
  exists w' tx st,
    setVolExt en w = Ok tt w' /\
    trace w' = trace w ++ [EvRequest I2C_ADDR 32 (next_block w);
                           EvTransmit I2C_ADDR tx st] /\
    sent_field bits.VOLEXT tx = Z.b2z en /\
    Z.testbit (tx_word tx 4) 8 = en /\
    sent_field bits.VOLUME tx =
      get_field bits.VOLUME (decode (next_block w)) /\
    (forall g, In g named_fields -> is_control (bf_reg g) = true ->
       g <> bits.VOLEXT ->
       sent_field g tx = get_field g (decode (next_block w))) /\
    (echoed w' = true -> getVolExt w' = Ok en (refresh w')).
Proof.
  intros Hsz.
  set (w1 := flush (assign bits.VOLEXT (Z.b2z en) (refresh w))).
  destruct (flag_written bits.VOLEXT en w (namedb_In bits.VOLEXT eq_refl) eq_refl
              eq_refl) as (Htr & Hsame & Hother & Hecho).
  fold w1 in Htr, Hsame, Hother, Hecho.
  exists w1, (control_bytes (shadow (drv w1))),
    (write_status (assign bits.VOLEXT (Z.b2z en) (refresh w))).
  split; [now apply setVolExt_run|].
  split; [exact Htr|]. split; [exact Hsame|]. split.
  { rewrite <- (truthy_bit _ 8) by lia.
    change (get_bits 8 1 (tx_word (control_bytes (shadow (drv w1))) 4))
      with (sent_field bits.VOLEXT (control_bytes (shadow (drv w1)))).
    rewrite Hsame. now destruct en. }
  split.
  { apply Hother; [now apply namedb_In|reflexivity|discriminate]. }
  split; [exact Hother|].
  intros He. unfold getVolExt.
  rewrite flag_getter_run;
    [|apply sized_written|reflexivity|cbn; lia].
  now rewrite (Hecho He).
Qed.

End Modes.

(** * The busy-wait loops have no way out *)

Section StuckSTC.
Context {D : Type} `{Device D}.
Variable Inv : D -> Prop.
Hypothesis Hstuck : stc_stuck Inv.

Lemma stuck_poll (w : world D) :
  sized w -> Inv (dev w) -> getSTC w = Ok true (refresh w).
Proof.
  intros Hsz Hinv. unfold getSTC.
  rewrite flag_getter_run; [|exact Hsz|reflexivity|cbn; lia].
  destruct Hstuck as (_ & _ & _ & Hbit).
  unfold next_block. cbn [bits.STC bf_reg bf_off reg.index].
  now rewrite Hbit.
Qed.

Lemma inv_refresh (w : world D) : Inv (dev w) -> Inv (dev (refresh w)).
Proof. destruct Hstuck as (Hreq & _). apply Hreq. Qed.

Lemma inv_flush (w : world D) : Inv (dev w) -> Inv (dev (flush w)).
Proof. destruct Hstuck as (_ & Htx & _). apply Htx. Qed.

(** Waiting for STC to drop uses up every poll budget. *)
Lemma while_stuck fuel :
  forall w : world D, sized w -> Inv (dev w) ->
    exists w', while fuel getSTC (ret tt) w = Timeout w'.
Proof.
  induction fuel as [|fuel IH]; intros w Hsz Hinv.
  - now exists w.
  - cbn [while]. erewrite bind_ok by now apply stuck_poll.
    cbv iota. erewrite bind_ok by reflexivity.
    apply IH; [apply sized_refresh|now apply inv_refresh].
Qed.

(** Waiting for STC to rise ends at the first poll, if there is one. *)
Lemma rise_stuck fuel body (w : world D) :
  sized w -> Inv (dev w) ->
  while fuel (not_ getSTC) body w =
  match fuel with O => Timeout w | S _ => Ok tt (refresh w) end.
Proof.
  intros Hsz Hinv. destruct fuel as [|fuel]; [reflexivity|].
  cbn [while]. unfold not_. rewrite bind_assoc.
  erewrite bind_ok by now apply stuck_poll. reflexivity.
Qed.

Lemma tune_wait_stuck fuel (w : world D) :
  sized w -> Inv (dev w) ->
  (exists w', tune_wait fuel w = Timeout w') \/
  (exists w', tune_wait fuel w = Ok tt w' /\ sized w' /\ Inv (dev w')).
Proof.
  intros Hsz Hinv. unfold tune_wait.
  erewrite bind_ok by apply bits_get_run.
  destruct (Z.eqb (get_field bits.STCIEN (shadow (drv w))) 0).
  - rewrite rise_stuck by assumption. destruct fuel as [|fuel].
    + left. now exists w.
    + right. exists (refresh w).
      split; [reflexivity|]. split; [apply sized_refresh|].
      now apply inv_refresh.
  - right. exists w. now repeat split.
Qed.

Lemma seek_wait_stuck fuel (w : world D) :
  sized w -> Inv (dev w) ->
  (exists w', seek_wait fuel w = Timeout w') \/
  (exists w', seek_wait fuel w = Ok tt w' /\ sized w' /\ Inv (dev w')).
Proof.
  intros Hsz Hinv. unfold seek_wait.
  erewrite bind_ok by apply bits_get_run.
  destruct (Z.eqb (get_field bits.STCIEN (shadow (drv w))) 0).
  - rewrite rise_stuck by assumption. destruct fuel as [|fuel].
    + left. now exists w.
    + right. exists (refresh w).
      split; [reflexivity|]. split; [apply sized_refresh|].
      now apply inv_refresh.
  - right. exists w. now repeat split.
Qed.

End StuckSTC.

Section NoWayOut.
Context {D : Type} `{Device D}.

(** X10. Neither [setChannel] nor [seek] has a way out of its wait for
    the STC bit to drop: on a device that keeps delivering STC set,
    whatever is written to it (a bus with no device reads all ones, for
    one), both use up every poll budget. In the source, where the loops
    are unbounded, they never return. *)
Theorem stuck_STC_never_returns (Inv : D -> Prop) (fuel : nat)
    (freq dir : Z) (w : world D) :
  stc_stuck Inv -> sized w -> Inv (dev w) ->
  (region_set (drv w) = true ->
   exists w', setChannel fuel freq w = Timeout w') /\
  (exists w', seek fuel dir w = Timeout w').
Proof.
  intros Hstuck Hsz Hinv. split.
  - intros Hreg. rewrite setChannel_until_complete by assumption.
    set (wc := tune_commanded (channel_of (drv w) freq) w).
    assert (Hszc : sized wc).
    { apply sized_flush, sized_assign, sized_assign, sized_refresh. }
    assert (Hinvc : Inv (dev wc)).
    { unfold wc, tune_commanded. apply (inv_flush Inv Hstuck).
      change (Inv (dev (refresh w))). now apply inv_refresh. }
    destruct (tune_wait_stuck Inv Hstuck fuel wc Hszc Hinvc)
      as [[w' Hto]|(w2 & Hok & Hsz2 & Hinv2)].
    + exists w'. now apply bind_timeout.
    + erewrite bind_ok by exact Hok.
      erewrite bind_ok by now apply getShadow_run.
      erewrite bind_ok by apply bits_set_run.
      erewrite bind_ok by apply putShadow_run.
      destruct (while_stuck Inv Hstuck fuel
                  (flush (assign bits.TUNE 0 (refresh w2)))) as [w' Hto].
      { apply sized_flush, sized_assign, sized_refresh. }
      { apply (inv_flush Inv Hstuck).
        change (Inv (dev (refresh w2))). now apply inv_refresh. }
      exists w'. now apply bind_timeout.
  - rewrite seek_until_complete by assumption.
    set (wc := seek_commanded dir w).
    assert (Hszc : sized wc).
    { apply sized_flush, sized_assign, sized_assign, sized_refresh. }
    assert (Hinvc : Inv (dev wc)).
    { unfold wc, seek_commanded. apply (inv_flush Inv Hstuck).
      change (Inv (dev (refresh w))). now apply inv_refresh. }
    destruct (seek_wait_stuck Inv Hstuck fuel wc Hszc Hinvc)
      as [[w' Hto]|(w2 & Hok & Hsz2 & Hinv2)].
    + exists w'. now apply bind_timeout.
    + erewrite bind_ok by exact Hok.
      rewrite seek_after_complete by exact Hsz2.
      destruct (while_stuck Inv Hstuck fuel (seek_released w2))
        as [w' Hto].
      { apply sized_flush, sized_assign, sized_refresh. }
      { apply (inv_flush Inv Hstuck).
        change (Inv (dev (refresh w2))). now apply inv_refresh. }
      exists w'. now apply bind_timeout.
Qed.

End NoWayOut.

(** * The driver against the simulated chip *)

Section ChipCycles.

Lemma chip_resting_spec c :
  chip_resting c = true <->
  chip_get bits.TUNE c = 0 /\ chip_get bits.SEEK c = 0 /\ chip_stc c = false.
Proof.
  unfold chip_resting, chip_active, truthy. split.
  - intros Hb. apply andb_true_iff in Hb as [Ha Hs].
    apply negb_true_iff in Ha, Hs.
    apply orb_false_iff in Ha as [Ht Hk].
    apply negb_false_iff in Ht, Hk. apply Z.eqb_eq in Ht, Hk. tauto.
  - intros (-> & -> & ->). reflexivity.
Qed.

Lemma chip_resting_rest c :
  chip_resting c = true -> chip_busy c = false /\ chip_releasing c = false.
Proof.
  intros Hr. apply chip_resting_spec in Hr as (Ht & Hs & Hstc).
  unfold chip_busy, chip_releasing, chip_active.
  now rewrite Ht, Hs, Hstc.
Qed.

Lemma same_params_refl c : same_params c c.
Proof. now repeat split. Qed.

Lemma same_params_trans c1 c2 c3 :
  same_params c1 c2 -> same_params c2 c3 -> same_params c1 c3.
Proof.
  intros (A1 & A2 & A3) (B1 & B2 & B3). unfold same_params.
  now rewrite B1, B2, B3.
Qed.

Lemma named_list_ok l :
  forallb (fun fv : bitfield * Z => namedb (fst fv)) l = true ->
  forallb (fun fv : bitfield * Z => field_okb (fst fv)) l = true.
Proof.
  rewrite !forallb_forall. intros Hl fv Hin.
  specialize (Hl fv Hin). apply namedb_In in Hl.
  pose proof named_fields_ok as Hall. rewrite forallb_forall in Hall.
  now apply Hall.
Qed.

(** One read-modify-write cycle against a resting chip: the chip takes
    the assignments, keeps every other named control field and the
    status registers. *)
Lemma chip_cycle (w : world Chip) l :
  chip_ok (dev w) -> chip_resting (dev w) = true ->
  forallb (fun fv => namedb (fst fv)) l = true ->
  let c := dev (flush (assign_all l (refresh w))) in
  chip_ok c /\
  (forall g, In g named_fields -> is_control (bf_reg g) = true ->
     chip_get g c = carried g l (chip_get g (dev w))) /\
  (forall g, is_control (bf_reg g) = false ->
     chip_get g c = chip_get g (dev w)) /\
  same_params (dev w) c.
Proof.
  intros Hok Hrest Hl c.
  destruct (chip_resting_rest _ Hrest) as [Hb Hr].
  destruct (chip_rest_refresh w Hok Hb Hr) as [Hd Hf].
  set (sh := shadow (drv (assign_all l (refresh w)))).
  assert (Ec : c = chip_written sh (dev w)).
  { unfold c, flush. cbn [dev]. unfold assign_all at 2. cbn [dev].
    now rewrite Hd. }
  destruct (words_ok_assign_all l (refresh w) (named_list_ok l Hl)
              (words_ok_refresh w)) as [Hsz Hall].
  fold sh in Hall.
  split; [rewrite Ec; now apply chip_written_ok|].
  split.
  { intros g Hg Hc. rewrite Ec, chip_written_control by assumption.
    unfold sh, assign_all. cbn [drv shadow with_shadow].
    rewrite get_assigns.
    - f_equal. apply Hf.
    - now apply clean_named.
    - pose proof named_fields_ok as Hn. rewrite forallb_forall in Hn.
      now apply Hn.
    - apply sized_refresh. }
  split.
  { intros g Hc. now rewrite Ec, chip_written_status. }
  rewrite Ec. now repeat split.
Qed.

(** The chip still rests after the cycle unless a command bit was set. *)
Lemma chip_cycle_resting (w : world Chip) l :
  chip_ok (dev w) -> chip_resting (dev w) = true ->
  forallb (fun fv => namedb (fst fv)) l = true ->
  carried bits.TUNE l 0 = 0 -> carried bits.SEEK l 0 = 0 ->
  chip_resting (dev (flush (assign_all l (refresh w)))) = true.
Proof.
  intros Hok Hrest Hl Ht Hs.
  destruct (chip_cycle w l Hok Hrest Hl) as (_ & Hctl & Hst & _).
  apply chip_resting_spec in Hrest as (Ht0 & Hs0 & Hstc0).
  apply chip_resting_spec.
  rewrite (Hctl bits.TUNE) by (apply namedb_In || idtac; reflexivity).
  rewrite (Hctl bits.SEEK) by (apply namedb_In || idtac; reflexivity).
  rewrite Ht0, Hs0. split; [exact Ht|]. split; [exact Hs|].
  unfold chip_stc. rewrite Hst by reflexivity. exact Hstc0.
Qed.

(** The rows of the table of [setRegion]. *)
Lemma region_members_table band space o :
  let o' := region_members band space o in
  (band = BAND_US_EU -> _bandStart o' = 8750 /\ _bandEnd o' = 10800) /\
  (band = BAND_JPW -> _bandStart o' = 7600 /\ _bandEnd o' = 10800) /\
  (band = BAND_JP -> _bandStart o' = 7600 /\ _bandEnd o' = 9000) /\
  (space = SPACE_200KHz -> _bandSpacing o' = 20) /\
  (space = SPACE_100KHz -> _bandSpacing o' = 10) /\
  (space = SPACE_50KHz -> _bandSpacing o' = 5) /\
  region_members band space o' = o'.
Proof.
  unfold region_members, BAND_US_EU, BAND_JPW, BAND_JP, SPACE_200KHz,
    SPACE_100KHz, SPACE_50KHz.
  destruct (Z.eqb_spec band 0), (Z.eqb_spec band 1), (Z.eqb_spec band 2),
    (Z.eqb_spec space 1), (Z.eqb_spec space 0), (Z.eqb_spec space 2);
    cbv zeta; repeat split; intros; try reflexivity; lia.
Qed.

Lemma region_members_set band space sh o :
  known_band band = true -> known_space space = true ->
  region_set (with_shadow sh (region_members band space o)) = true.
Proof.
  unfold known_band, known_space, region_members.
  destruct (Z.eqb band BAND_US_EU), (Z.eqb band BAND_JPW),
    (Z.eqb band BAND_JP), (Z.eqb space SPACE_100KHz),
    (Z.eqb space SPACE_200KHz), (Z.eqb space SPACE_50KHz);
    intros Hb Hs; try discriminate Hb; try discriminate Hs; reflexivity.
Qed.

Lemma chip_wired (w : world Chip) :
  dev (wired w) = dev w /\ drv (wired w) = drv w.
Proof. destruct w as [o wi d tr]. now rewrite wired_world. Qed.

Lemma sized_wired (w : world Chip) : sized w -> sized (wired w).
Proof. unfold sized. now rewrite (proj2 (chip_wired w)). Qed.

Lemma chip_elapsed ms (x : world Chip) : dev (elapsed ms x) = dev x.
Proof. reflexivity. Qed.

Lemma sized_regioned band space (x : world Chip) :
  sized x -> sized (regioned band space x).
Proof.
  unfold sized, regioned. cbn [drv].
  now rewrite (proj2 (region_members_config _ _ _)).
Qed.

Lemma dev_flush_regioned l band space (x : world Chip) :
  dev (flush (assign_all l (regioned band space x))) =
  dev (flush (assign_all l x)).
Proof.
  unfold flush, assign_all, regioned. cbn [dev drv shadow with_shadow].
  now rewrite (proj2 (region_members_config _ _ _)).
Qed.

(** What the three assignment lists of [start] do to single fields. *)
Lemma oscillator_carried x :
  carried bits.XOSCEN oscillator_assignments x = 1 /\
  carried bits.TUNE oscillator_assignments x = x /\
  carried bits.SEEK oscillator_assignments x = x.
Proof. now repeat split. Qed.

Lemma enable_carried x :
  carried bits.XOSCEN enable_assignments x = x /\
  carried bits.ENABLE enable_assignments x = 1 /\
  carried bits.DISABLE enable_assignments x = 0 /\
  carried bits.DMUTE enable_assignments x = 1 /\
  carried bits.TUNE enable_assignments x = x /\
  carried bits.SEEK enable_assignments x = x.
Proof. now repeat split. Qed.

Lemma start_carried o x :
  carried bits.XOSCEN (start_assignments o) x = x /\
  carried bits.ENABLE (start_assignments o) x = x /\
  carried bits.DISABLE (start_assignments o) x = x /\
  carried bits.DMUTE (start_assignments o) x = x /\
  carried bits.TUNE (start_assignments o) x = x /\
  carried bits.SEEK (start_assignments o) x = 0 /\
  carried bits.STCIEN (start_assignments o) x = 0 /\
  carried bits.VOLUME (start_assignments o) x = 0.
Proof. now repeat split. Qed.

Lemma start_assignments_named o :
  forallb (fun fv : bitfield * Z => namedb (fst fv)) (start_assignments o)
  = true.
Proof. reflexivity. Qed.

(** The chip after the three cycles of [start], from a resting chip. *)
Lemma chip_after_start (x : world Chip) o (c3 : Chip) :
  chip_ok (dev x) -> chip_resting (dev x) = true ->
  c3 = dev (flush (assign_all (start_assignments o)
                     (refresh (powered x)))) ->
  chip_ok c3 /\ chip_idle c3 = true /\ same_params (dev x) c3 /\
  chip_get bits.XOSCEN c3 = 1 /\ chip_get bits.ENABLE c3 = 1 /\
  chip_get bits.DISABLE c3 = 0 /\ chip_get bits.DMUTE c3 = 1 /\
  chip_get bits.VOLUME c3 = 0 /\
  chip_get bits.READCHAN c3 = chip_get bits.READCHAN (dev x).
Proof.
  intros Hok0 Hrest0 Ec3. unfold powered in Ec3.
  assert (Hn : forall g, namedb g = true -> In g named_fields)
    by apply namedb_In.
  (* the oscillator cycle *)
  destruct (chip_cycle x oscillator_assignments Hok0 Hrest0 eq_refl)
    as (Hok1 & Hctl1 & Hst1 & Hp1).
  pose proof (chip_cycle_resting x oscillator_assignments Hok0 Hrest0
                eq_refl (proj1 (proj2 (oscillator_carried 0)))
                (proj2 (proj2 (oscillator_carried 0)))) as Hrest1.
  assert (E1 : dev (oscillating x) =
               dev (flush (assign_all oscillator_assignments (refresh x))))
    by apply chip_elapsed.
  rewrite <- E1 in Hok1, Hctl1, Hst1, Hp1, Hrest1.
  set (x1 := oscillating x) in *. clearbody x1.
  (* the enable cycle *)
  destruct (chip_cycle x1 enable_assignments Hok1 Hrest1 eq_refl)
    as (Hok2 & Hctl2 & Hst2 & Hp2).
  destruct (enable_carried 0) as (_ & _ & _ & _ & Et2 & Es2).
  pose proof (chip_cycle_resting x1 enable_assignments Hok1 Hrest1
                eq_refl Et2 Es2) as Hrest2.
  assert (E2 : dev (elapsed 110 (flush (assign_all enable_assignments
                                          (refresh x1)))) =
               dev (flush (assign_all enable_assignments (refresh x1))))
    by apply chip_elapsed.
  rewrite <- E2 in Hok2, Hctl2, Hst2, Hp2, Hrest2.
  set (x2 := elapsed 110 (flush (assign_all enable_assignments
                                   (refresh x1)))) in *.
  clearbody x2.
  (* the configuration cycle *)
  pose proof (start_assignments_named o) as Hl.
  destruct (start_carried o 0) as (_ & _ & _ & _ & Et3 & Es3 & _).
  destruct (chip_cycle x2 _ Hok2 Hrest2 Hl) as (Hok3 & Hctl3 & Hst3 & Hp3).
  pose proof (chip_cycle_resting x2 _ Hok2 Hrest2 Hl Et3 Es3) as Hrest3.
  rewrite <- Ec3 in Hok3, Hctl3, Hst3, Hp3, Hrest3.
  clear E1 E2 Ec3.
  split; [exact Hok3|]. split.
  { apply chip_resting_spec in Hrest3 as (Ht & Hs & Hstc).
    apply chip_idle_spec. repeat split; try assumption.
    rewrite (Hctl3 bits.STCIEN) by (apply Hn || idtac; reflexivity).
    apply start_carried. }
  split.
  { exact (same_params_trans _ _ _ (same_params_trans _ _ _ Hp1 Hp2) Hp3). }
  destruct (start_carried o (chip_get bits.XOSCEN (dev x2)))
    as (S1 & _).
  destruct (start_carried o (chip_get bits.ENABLE (dev x2)))
    as (_ & S2 & _).
  destruct (start_carried o (chip_get bits.DISABLE (dev x2)))
    as (_ & _ & S3 & _).
  destruct (start_carried o (chip_get bits.DMUTE (dev x2)))
    as (_ & _ & _ & S4 & _).
  destruct (start_carried o (chip_get bits.VOLUME (dev x2)))
    as (_ & _ & _ & _ & _ & _ & _ & S5).
  rewrite (Hctl3 bits.XOSCEN), (Hctl3 bits.ENABLE), (Hctl3 bits.DISABLE),
    (Hctl3 bits.DMUTE), (Hctl3 bits.VOLUME)
    by (apply Hn || idtac; reflexivity).
  rewrite S1, S2, S3, S4, S5.
  rewrite (Hctl2 bits.XOSCEN), (Hctl2 bits.ENABLE), (Hctl2 bits.DISABLE),
    (Hctl2 bits.DMUTE) by (apply Hn || idtac; reflexivity).
  destruct (enable_carried (chip_get bits.XOSCEN (dev x1))) as (-> & _).
  rewrite (Hctl1 bits.XOSCEN) by (apply Hn || idtac; reflexivity).
  rewrite (Hst3 bits.READCHAN), (Hst2 bits.READCHAN), (Hst1 bits.READCHAN)
    by reflexivity.
  repeat split; try apply enable_carried; apply oscillator_carried.
Qed.

(** X11. [start] makes a chip out of reset ready: from a chip with no
    command pending and STC clear, and a driver constructed with selectors
    of the table, [start] returns with the band members set from the table
    of [setRegion] for the band and spacing selectors the driver was
    constructed with (the limits of the row of the band selector, the
    spacing of the row of the spacing selector), the oscillator and the
    chip enabled, the audio unmuted at volume 0, and the chip idle with
    completion polled for (STCIEN clear), as [setChannel] and [seek] need
    it. *)
Theorem start_makes_ready (w : world Chip) (fuel : nat) :
  sized w -> chip_ok (dev w) -> chip_resting (dev w) = true ->
  known_band (_band (drv w)) = true -> known_space (_space (drv w)) = true ->
  (set_latency (dev w) < fuel)%nat -> (clear_latency (dev w) < fuel)%nat ->
  exists w',
    start w = Ok tt w' /\ ready fuel w' /\
    same_config (drv w) (drv w') /\ same_params (dev w) (dev w') /\
    (_band (drv w) = BAND_US_EU ->
     _bandStart (drv w') = 8750 /\ _bandEnd (drv w') = 10800) /\
    (_band (drv w) = BAND_JPW ->
     _bandStart (drv w') = 7600 /\ _bandEnd (drv w') = 10800) /\
    (_band (drv w) = BAND_JP ->
     _bandStart (drv w') = 7600 /\ _bandEnd (drv w') = 9000) /\
    (_space (drv w) = SPACE_200KHz -> _bandSpacing (drv w') = 20) /\
    (_space (drv w) = SPACE_100KHz -> _bandSpacing (drv w') = 10) /\
    (_space (drv w) = SPACE_50KHz -> _bandSpacing (drv w') = 5) /\
    chip_get bits.XOSCEN (dev w') = 1 /\
    chip_get bits.ENABLE (dev w') = 1 /\
    chip_get bits.DISABLE (dev w') = 0 /\
    chip_get bits.DMUTE (dev w') = 1 /\
    chip_get bits.VOLUME (dev w') = 0 /\
    chip_get bits.READCHAN (dev w') = chip_get bits.READCHAN (dev w).
Proof.
  intros Hsz Hok Hrest Hband Hspace Hls Hlc.
  pose proof (start_run w Hsz) as Erun.
  set (w' := flush (assign_all (start_assignments (drv w)) (configured w)))
    in *.
  destruct (chip_wired w) as [Hd0 Ho0].
  assert (Ed : dev w' =
               dev (flush (assign_all (start_assignments (drv w))
                             (refresh (powered (wired w)))))).
  { apply dev_flush_regioned. }
  destruct (chip_after_start (wired w) (drv w) (dev w')
              ltac:(now rewrite Hd0) ltac:(now rewrite Hd0) Ed)
    as (Hok3 & Hidle3 & Hpar & HX & HE & HD & HM & HV & HR).
  rewrite Hd0 in Hpar, HR.
  assert (Hszw : sized w').
  { apply sized_flush, sized_assign_all, sized_regioned, sized_refresh. }
  assert (Hregw : region_set (drv w') = true)
    by now apply region_members_set.
  assert (Hcfg : same_config (drv w) (drv w')).
  { exact (proj1 (region_members_config (_band (drv w)) (_space (drv w))
                    (drv (refresh (powered (wired w)))))). }
  destruct (region_members_table (_band (drv w)) (_space (drv w))
              (drv (refresh (powered (wired w)))))
    as (T1 & T2 & T3 & T4 & T5 & T6 & _).
  assert (Hrows :
    (_band (drv w) = BAND_US_EU ->
     _bandStart (drv w') = 8750 /\ _bandEnd (drv w') = 10800) /\
    (_band (drv w) = BAND_JPW ->
     _bandStart (drv w') = 7600 /\ _bandEnd (drv w') = 10800) /\
    (_band (drv w) = BAND_JP ->
     _bandStart (drv w') = 7600 /\ _bandEnd (drv w') = 9000) /\
    (_space (drv w) = SPACE_200KHz -> _bandSpacing (drv w') = 20) /\
    (_space (drv w) = SPACE_100KHz -> _bandSpacing (drv w') = 10) /\
    (_space (drv w) = SPACE_50KHz -> _bandSpacing (drv w') = 5)).
  { exact (conj T1 (conj T2 (conj T3 (conj T4 (conj T5 T6))))). }
  clear T1 T2 T3 T4 T5 T6.
  clearbody w'.
  exists w'. split; [exact Erun|]. split.
  { unfold ready. destruct Hpar as (E1 & E2 & _). rewrite E1, E2.
    exact (conj Hszw (conj Hregw (conj Hok3 (conj Hidle3 (conj Hls Hlc))))). }
  split; [exact Hcfg|]. split; [exact Hpar|].
  destruct Hrows as (R1 & R2 & R3 & R4 & R5 & R6).
  do 6 (split; [assumption|]).
  exact (conj HX (conj HE (conj HD (conj HM (conj HV HR))))).
Qed.

End ChipCycles.

(** * Tuning and seeking from a ready state *)

Section ChipOps.

Lemma chip_tick_params c : same_params c (chip_tick c).
Proof.
  unfold chip_tick.
  destruct (chip_active c && negb (truthy (chip_get bits.STC c))).
  { destruct (countdown c); [apply chip_complete_params|].
    now repeat split. }
  destruct (negb (chip_active c) && truthy (chip_get bits.STC c));
    [|apply same_params_refl].
  destruct (countdown c); now repeat split.
Qed.

Lemma Ok_inj {A} (a b : A) (w w' : world Chip) :
  Ok a w = Ok b w' -> a = b /\ w = w'.
Proof. now intros [= -> ->]. Qed.

Lemma steady_ret {A} (a : A) : steady (ret a).
Proof.
  intros w Hsz b w' Hrun. apply Ok_inj in Hrun as [_ <-].
  split; [exact Hsz|apply same_params_refl].
Qed.

Lemma steady_bind {A B} (c : M Chip A) (k : A -> M Chip B) :
  steady c -> (forall a, steady (k a)) -> steady (bind c k).
Proof.
  intros Hc Hk w Hsz b w' Hrun. unfold bind in Hrun.
  destruct (c w) as [a w1|w1|w1] eqn:E; try discriminate Hrun.
  destruct (Hc w Hsz a w1 E) as [Hsz1 Hp1].
  destruct (Hk a w1 Hsz1 b w' Hrun) as [Hsz' Hp'].
  split; [exact Hsz'|]. now apply (same_params_trans _ _ _ Hp1).
Qed.

Lemma steady_getShadow : steady getShadow.
Proof.
  intros w Hsz a w' Hrun. rewrite getShadow_run in Hrun by exact Hsz.
  apply Ok_inj in Hrun as [_ <-]. split; [apply sized_refresh|].
  apply chip_tick_params.
Qed.

Lemma steady_putShadow : steady putShadow.
Proof.
  intros w Hsz a w' Hrun. rewrite putShadow_run in Hrun.
  apply Ok_inj in Hrun as [_ <-]. split; [now apply sized_flush|].
  now repeat split.
Qed.

Lemma steady_this {A} (get : Si4703 -> A) : steady (this get).
Proof.
  intros w Hsz a w' Hrun. apply Ok_inj in Hrun as [_ <-].
  split; [exact Hsz|apply same_params_refl].
Qed.

Lemma steady_bits_get f : steady (bits_get f).
Proof. apply steady_this. Qed.

Lemma steady_bits_set f v : steady (bits_set f v).
Proof.
  intros w Hsz a w' Hrun. rewrite bits_set_run in Hrun.
  apply Ok_inj in Hrun as [_ <-]. split; [now apply sized_assign|].
  apply same_params_refl.
Qed.

Lemma steady_delay ms : steady (delay ms).
Proof.
  intros w Hsz a w' Hrun. rewrite delay_run in Hrun.
  apply Ok_inj in Hrun as [_ <-]. split; [exact Hsz|apply same_params_refl].
Qed.

Lemma steady_int_ z : steady (int_ z).
Proof.
  intros w Hsz a w' Hrun. unfold int_ in Hrun.
  destruct (in_int z); [|discriminate Hrun].
  apply Ok_inj in Hrun as [_ <-]. split; [exact Hsz|apply same_params_refl].
Qed.

Lemma steady_int_div a b : steady (int_div a b).
Proof.
  intros w Hsz r w' Hrun. unfold int_div in Hrun.
  destruct (Z.eqb b 0); [discriminate Hrun|].
  exact (steady_int_ (Z.quot a b) w Hsz r w' Hrun).
Qed.

Lemma steady_while fuel cond body :
  steady cond -> steady body -> steady (while fuel cond body).
Proof.
  intros Hc Hb. induction fuel as [|fuel IH].
  - intros w Hsz a w' Hrun. discriminate Hrun.
  - cbn [while]. apply steady_bind; [exact Hc|].
    intros [|]; [|apply steady_ret].
    apply steady_bind; [exact Hb|]. intros _. exact IH.
Qed.

Lemma steady_not c : steady c -> steady (not_ c).
Proof.
  intros Hc. unfold not_. apply steady_bind; [exact Hc|].
  intros b. apply steady_ret.
Qed.

Lemma steady_getSTC : steady getSTC.
Proof.
  unfold getSTC. apply steady_bind; [apply steady_getShadow|]. intros _.
  apply steady_bind; [apply steady_bits_get|]. intros v. apply steady_ret.
Qed.

Lemma steady_getChannel : steady getChannel.
Proof.
  unfold getChannel.
  apply steady_bind; [apply steady_getShadow|]. intros _.
  apply steady_bind; [apply steady_this|]. intros spacing.
  apply steady_bind; [apply steady_bits_get|]. intros readchan.
  apply steady_bind; [apply steady_this|]. intros bandStart.
  apply steady_bind; [apply steady_int_|]. intros p.
  apply steady_int_.
Qed.

Lemma steady_seek fuel dir : steady (seek fuel dir).
Proof.
  unfold seek.
  apply steady_bind; [apply steady_getShadow|]. intros _.
  apply steady_bind; [apply steady_bits_set|]. intros _.
  apply steady_bind; [apply steady_bits_set|]. intros _.
  apply steady_bind; [apply steady_putShadow|]. intros _.
  apply steady_bind; [apply steady_bits_get|]. intros stcien.
  apply steady_bind.
  { destruct (Z.eqb stcien 0); [|apply steady_ret].
    apply steady_while; [apply steady_not, steady_getSTC|apply steady_delay]. }
  intros _.
  apply steady_bind; [apply steady_getShadow|]. intros _.
  apply steady_bind; [apply steady_bits_get|]. intros sfbl.
  apply steady_bind; [apply steady_bits_set|]. intros _.
  apply steady_bind; [apply steady_putShadow|]. intros _.
  apply steady_bind.
  { apply steady_while; [apply steady_getSTC|apply steady_ret]. }
  intros _. destruct (truthy sfbl); [apply steady_ret|apply steady_getChannel].
Qed.

Lemma ready_refresh fuel (w : world Chip) :
  ready fuel w -> ready fuel (refresh w) /\ dev (refresh w) = dev w.
Proof.
  intros (Hsz & Hreg & Hok & Hidle & Hls & Hlc).
  destruct (chip_idle_rest _ Hidle) as [Hb Hr].
  destruct (chip_rest_refresh w Hok Hb Hr) as [Hd _].
  split; [|exact Hd]. unfold ready. rewrite Hd.
  split; [apply sized_refresh|]. split; [exact Hreg|].
  exact (conj Hok (conj Hidle (conj Hls Hlc))).
Qed.

Lemma ready_readchan fuel (w : world Chip) :
  ready fuel w -> 0 <= chip_get bits.READCHAN (dev w) < 1024.
Proof.
  intros _. rewrite chip_get_regs.
  apply (regs_get_range bits.READCHAN), field_ok_READCHAN.
Qed.

(** [setChannel] from a ready state. *)
Lemma setChannel_ready fuel freq (w : world Chip) :
  ready fuel w ->
  exists w1,
    setChannel fuel freq w =
      Ok (_bandStart (drv w)
          + _bandSpacing (drv w) * channel_of (drv w) freq) w1 /\
    ready fuel w1 /\ members_same (drv w) (drv w1) /\
    same_params (dev w) (dev w1) /\
    chip_get bits.READCHAN (dev w1) = channel_of (drv w) freq.
Proof.
  intros (Hsz & Hreg & Hok & Hidle & Hls & Hlc).
  destruct (channel_of_range (drv w) freq Hreg) as (_ & Hq & _).
  destruct (chip_tune w (channel_of (drv w) freq) fuel Hsz Hok Hidle Hq
              Hls Hlc)
    as (w2 & w5 & Hwait & Hclear & Hok5 & Hidle5 & Hrc5 & Hsl5 & Hcl5
        & Hst5).
  destruct (setChannel_run fuel freq w w2 w5 Hsz Hreg Hwait Hclear)
    as (Hset & Hq5 & Hm5).
  assert (Hsz5 : sized w5) by apply Hq5.
  assert (Hreg5 : region_set (drv w5) = true)
    by now apply (region_set_members _ _ Hm5).
  destruct (chip_getChannel w5 Hsz5 Hreg5 Hok5 Hidle5) as [Hget5 Hd5].
  exists (refresh w5). split.
  { rewrite Hset, Hget5. f_equal.
    destruct Hm5 as (_ & E1 & _ & E3). rewrite <- E1, <- E3, Hrc5. lia. }
  rewrite Hd5. split.
  { unfold ready. rewrite Hd5, Hsl5, Hcl5.
    split; [apply sized_refresh|]. split; [exact Hreg5|].
    exact (conj Hok5 (conj Hidle5 (conj Hls Hlc))). }
  split.
  { apply (members_same_trans _ _ _ Hm5), members_same_shadow. }
  split; [exact (conj Hsl5 (conj Hcl5 Hst5))|exact Hrc5].
Qed.

(** The channel one step up or down from channel [rc], as [setChannel]
    works it out. *)
Lemma channel_step_up o rc :
  region_set o = true -> 0 <= rc < 1024 ->
  let c := _bandStart o + _bandSpacing o * rc in
  let r := _bandStart o
           + _bandSpacing o * channel_of o (c + _bandSpacing o) in
  (c + _bandSpacing o <= _bandEnd o -> r = c + _bandSpacing o) /\
  (_bandEnd o < c + _bandSpacing o -> r = top_channel o) /\
  _bandStart o <= r <= _bandEnd o.
Proof.
  intros Hreg Hrc c r.
  destruct (region_set_range o Hreg) as (Hb & He & Hs & _).
  assert (Hc : _bandStart o <= c) by (unfold c; nia).
  split; [|split].
  - intros Hle. unfold r, channel_of, clamp_freq.
    rewrite Z.min_r, Z.max_r by lia.
    replace (c + _bandSpacing o - _bandStart o)
      with ((rc + 1) * _bandSpacing o) by (unfold c; ring).
    rewrite Z.div_mul by lia. unfold c. ring.
  - intros Hgt. unfold r, channel_of, clamp_freq, top_channel.
    now rewrite Z.min_l, Z.max_r by lia.
  - destruct (channel_of_range o (c + _bandSpacing o) Hreg) as (Hcl & Hq & _).
    unfold r, channel_of in *.
    pose proof (Z.mul_div_le (clamp_freq o (c + _bandSpacing o)
                              - _bandStart o) (_bandSpacing o)).
    nia.
Qed.

Lemma channel_step_down o rc :
  region_set o = true -> 0 <= rc < 1024 ->
  let c := _bandStart o + _bandSpacing o * rc in
  let r := _bandStart o
           + _bandSpacing o * channel_of o (c - _bandSpacing o) in
  (_bandStart o <= c - _bandSpacing o <= _bandEnd o ->
   r = c - _bandSpacing o) /\
  (c - _bandSpacing o < _bandStart o -> r = _bandStart o) /\
  (_bandEnd o < c - _bandSpacing o -> r = top_channel o) /\
  _bandStart o <= r <= _bandEnd o.
Proof.
  intros Hreg Hrc c r.
  destruct (region_set_range o Hreg) as (Hb & He & Hs & _).
  split; [|split; [|split]].
  - intros [Hlo Hhi]. unfold r, channel_of, clamp_freq.
    rewrite Z.min_r, Z.max_r by lia.
    replace (c - _bandSpacing o - _bandStart o)
      with ((rc - 1) * _bandSpacing o) by (unfold c; ring).
    rewrite Z.div_mul by lia. unfold c. ring.
  - intros Hlt. unfold r, channel_of, clamp_freq.
    rewrite Z.min_r, Z.max_l by lia.
    rewrite Z.sub_diag, Z.div_0_l by lia. lia.
  - intros Hgt. unfold r, channel_of, clamp_freq, top_channel.
    now rewrite Z.min_l, Z.max_r by lia.
  - destruct (channel_of_range o (c - _bandSpacing o) Hreg) as (Hcl & Hq & _).
    unfold r, channel_of in *.
    pose proof (Z.mul_div_le (clamp_freq o (c - _bandSpacing o)
                              - _bandStart o) (_bandSpacing o)).
    nia.
Qed.

(** The first half of [incChannel] and [decChannel]: the channel is read
    and the chip is left as it was. *)
Lemma step_prefix fuel (step : Z -> Z -> Z) (w : world Chip) :
  ready fuel w ->
  -100000 <= step (tuned_to w) (_bandSpacing (drv w)) <= 100000 ->
  (c <- getChannel ;;
   spacing <- this _bandSpacing ;;
   f <- int_ (step c spacing) ;;
   setChannel fuel f)%drv w =
  setChannel fuel (step (tuned_to w) (_bandSpacing (drv w))) (refresh w).
Proof.
  intros Hready Hstep.
  destruct Hready as (Hsz & Hreg & Hok & Hidle & Hls & Hlc).
  destruct (chip_getChannel w Hsz Hreg Hok Hidle) as [Hget Hd].
  erewrite bind_ok by exact Hget.
  erewrite bind_ok by apply this_run.
  replace (_bandSpacing (drv w) * chip_get bits.READCHAN (dev w)
           + _bandStart (drv w)) with (tuned_to w)
    by (unfold tuned_to; ring).
  change (_bandSpacing (drv (refresh w))) with (_bandSpacing (drv w)).
  unfold bind at 1, int_ at 1.
  rewrite in_int_small by lia. reflexivity.
Qed.

(** X12. [incChannel] from a ready state always returns and leaves a
    ready state: it tunes one channel spacing above the channel the chip
    is on, and when that would pass the end of the band it tunes to the
    highest channel of the band; it never wraps around to the start. *)
Theorem incChannel_saturates (fuel : nat) (w : world Chip) :
  ready fuel w ->
  let o := drv w in
  exists r w1,
    incChannel fuel w = Ok r w1 /\ ready fuel w1 /\
    members_same o (drv w1) /\ tuned_to w1 = r /\
    (tuned_to w + _bandSpacing o <= _bandEnd o ->
     r = tuned_to w + _bandSpacing o) /\
    (_bandEnd o < tuned_to w + _bandSpacing o -> r = top_channel o) /\
    _bandStart o <= r <= _bandEnd o.
Proof.
  intros Hready o.
  pose proof (ready_readchan fuel w Hready) as Hrc.
  destruct (ready_refresh fuel w Hready) as [Hready' Hd].
  assert (Hreg : region_set o = true) by apply Hready.
  destruct (region_set_range o Hreg) as (Hb & He & Hs & _).
  assert (Hstep : -100000 <= tuned_to w + _bandSpacing (drv w) <= 100000)
    by (unfold tuned_to; fold o; nia).
  unfold incChannel.
  rewrite (step_prefix fuel Z.add w Hready Hstep).
  destruct (setChannel_ready fuel (tuned_to w + _bandSpacing (drv w))
              (refresh w) Hready')
    as (w1 & Hrun & Hready1 & Hm1 & _ & Hrc1).
  change (drv (refresh w)) with (with_shadow (decode (next_block w)) o)
    in Hrun, Hm1, Hrc1.
  cbn [_bandStart _bandSpacing with_shadow] in Hrun.
  change (channel_of (with_shadow (decode (next_block w)) o))
    with (channel_of o) in Hrun, Hrc1.
  fold o in Hrun, Hrc1.
  eexists. exists w1. split; [exact Hrun|]. split; [exact Hready1|].
  assert (Hm : members_same o (drv w1)).
  { apply (members_same_trans _ (with_shadow (decode (next_block w)) o));
      [apply members_same_shadow|exact Hm1]. }
  split; [exact Hm|]. split.
  { unfold tuned_to. destruct Hm as (_ & <- & _ & <-). now rewrite Hrc1. }
  apply (channel_step_up o (chip_get bits.READCHAN (dev w)) Hreg Hrc).
Qed.

(** X13. [decChannel] from a ready state always returns and leaves a
    ready state: it tunes one channel spacing below the channel the chip
    is on, and on the lowest channel of the band it stays there; it never
    wraps around to the end. *)
Theorem decChannel_saturates (fuel : nat) (w : world Chip) :
  ready fuel w ->
  let o := drv w in
  exists r w1,
    decChannel fuel w = Ok r w1 /\ ready fuel w1 /\
    members_same o (drv w1) /\ tuned_to w1 = r /\
    (_bandStart o <= tuned_to w - _bandSpacing o <= _bandEnd o ->
     r = tuned_to w - _bandSpacing o) /\
    (tuned_to w - _bandSpacing o < _bandStart o -> r = _bandStart o) /\
    (_bandEnd o < tuned_to w - _bandSpacing o -> r = top_channel o) /\
    _bandStart o <= r <= _bandEnd o.
Proof.
  intros Hready o.
  pose proof (ready_readchan fuel w Hready) as Hrc.
  destruct (ready_refresh fuel w Hready) as [Hready' Hd].
  assert (Hreg : region_set o = true) by apply Hready.
  destruct (region_set_range o Hreg) as (Hb & He & Hs & _).
  assert (Hstep : -100000 <= tuned_to w - _bandSpacing (drv w) <= 100000)
    by (unfold tuned_to; fold o; nia).
  unfold decChannel.
  rewrite (step_prefix fuel Z.sub w Hready Hstep).
  destruct (setChannel_ready fuel (tuned_to w - _bandSpacing (drv w))
              (refresh w) Hready')
    as (w1 & Hrun & Hready1 & Hm1 & _ & Hrc1).
  change (drv (refresh w)) with (with_shadow (decode (next_block w)) o)
    in Hrun, Hm1, Hrc1.
  cbn [_bandStart _bandSpacing with_shadow] in Hrun.
  change (channel_of (with_shadow (decode (next_block w)) o))
    with (channel_of o) in Hrun, Hrc1.
  fold o in Hrun, Hrc1.
  eexists. exists w1. split; [exact Hrun|]. split; [exact Hready1|].
  assert (Hm : members_same o (drv w1)).
  { apply (members_same_trans _ (with_shadow (decode (next_block w)) o));
      [apply members_same_shadow|exact Hm1]. }
  split; [exact Hm|]. split.
  { unfold tuned_to. destruct Hm as (_ & <- & _ & <-). now rewrite Hrc1. }
  apply (channel_step_down o (chip_get bits.READCHAN (dev w)) Hreg Hrc).
Qed.

(** [seek] from a ready state, in either direction. *)
Lemma seek_ready (fuel : nat) (dir : Z) (w : world Chip) :
  ready fuel w ->
  let outcome := stations (dev w) (truthy (dir mod 2))
                   (chip_get bits.READCHAN (dev w)) in
  exists r w1,
    seek fuel dir w = Ok r w1 /\ ready fuel w1 /\
    members_same (drv w) (drv w1) /\ same_params (dev w) (dev w1) /\
    chip_get bits.READCHAN (dev w1) = snd outcome mod 1024 /\
    (fst outcome = true -> r = 0) /\
    (fst outcome = false -> r = tuned_to w1).
Proof.
  intros Hready outcome.
  destruct Hready as (Hsz & Hreg & Hok & Hidle & Hls & Hlc).
  destruct (chip_seek w dir fuel Hsz Hok Hidle Hls Hlc)
    as (w2 & w5 & Hwait & Hclear & Hsfbl & Hok5 & Hidle5 & Hrc5).
  change (Z.ones 1) with 1 in Hsfbl, Hrc5.
  replace (Z.land dir 1) with (dir mod 2) in Hsfbl, Hrc5
    by (change 1 with (Z.ones 1); now rewrite Z.land_ones by lia).
  fold outcome in Hsfbl, Hrc5.
  pose proof (seek_run fuel dir w w2 w5 Hsz Hwait Hclear) as Hrun.
  assert (Hszc : sized (seek_commanded dir w))
    by (apply sized_flush, sized_assign, sized_assign, sized_refresh).
  destruct (seek_wait_Ok _ _ _ Hszc Hwait) as (Hsz2 & Hm2 & _).
  destruct (seek_released_quiet_from w2 w5 fuel Hclear) as (Hsz5 & Hm5 & _).
  assert (Hm : members_same (drv w) (drv w5)).
  { apply (members_same_trans _ (drv (seek_commanded dir w)));
      [now repeat split|].
    apply (members_same_trans _ _ _ Hm2).
    apply (members_same_trans _ (drv (seek_released w2)));
      [now repeat split|exact Hm5]. }
  assert (Hreg5 : region_set (drv w5) = true)
    by now apply (region_set_members _ _ Hm).
  destruct (chip_getChannel w5 Hsz5 Hreg5 Hok5 Hidle5) as [Hget5 Hd5].
  rewrite Hsfbl in Hrun.
  destruct (fst outcome) eqn:Ef.
  - exists 0, w5.
    destruct (steady_seek fuel dir w Hsz 0 w5 Hrun) as [_ Hp].
    split; [exact Hrun|]. split.
    { unfold ready. destruct Hp as (E1 & E2 & _). rewrite E1, E2.
      exact (conj Hsz5 (conj Hreg5 (conj Hok5 (conj Hidle5
              (conj Hls Hlc))))). }
    split; [exact Hm|]. split; [exact Hp|]. split; [exact Hrc5|].
    split; [reflexivity|discriminate].
  - rewrite Hget5 in Hrun.
    destruct (steady_seek fuel dir w Hsz _ _ Hrun) as [_ Hp].
    eexists. exists (refresh w5). split; [exact Hrun|].
    rewrite Hd5 in Hp |- *. split.
    { unfold ready. rewrite Hd5.
      destruct Hp as (E1 & E2 & _). rewrite E1, E2.
      exact (conj (sized_refresh w5) (conj Hreg5 (conj Hok5 (conj Hidle5
              (conj Hls Hlc))))). }
    split.
    { apply (members_same_trans _ _ _ Hm), members_same_shadow. }
    split; [exact Hp|]. split; [exact Hrc5|].
    split; [discriminate|]. intros _. unfold tuned_to. rewrite Hd5.
    cbn [refresh drv with_shadow _bandStart _bandSpacing]. ring.
Qed.

(** X14. [seekUp] and [seekDown] from a ready state always return and
    leave a ready state, so seeks can follow one another. The chip is
    asked for the next station above the current channel by [seekUp] and
    below it by [seekDown]; the call returns 0 when the chip reports that
    the seek failed, and otherwise the frequency of the channel the chip
    stopped on, which the chip is then tuned to. *)
Theorem seek_on_chip (up : bool) (fuel : nat) (w : world Chip) :
  ready fuel w ->
  let outcome := stations (dev w) up (chip_get bits.READCHAN (dev w)) in
  exists r w1,
    (if up then seekUp fuel else seekDown fuel) w = Ok r w1 /\
    ready fuel w1 /\
    members_same (drv w) (drv w1) /\ same_params (dev w) (dev w1) /\
    chip_get bits.READCHAN (dev w1) = snd outcome mod 1024 /\
    (fst outcome = true -> r = 0) /\
    (fst outcome = false -> r = tuned_to w1).
Proof.
  intros Hready outcome.
  set (dir := if up then SEEK_UP else SEEK_DOWN).
  assert (Eop : (if up then seekUp fuel else seekDown fuel) w
                = seek fuel dir w) by (unfold dir; now destruct up).
  assert (Edir : truthy (dir mod 2) = up) by (unfold dir; now destruct up).
  destruct (seek_ready fuel dir w Hready)
    as (r & w1 & Hrun & Hready1 & Hm & Hp & Hrc & Hfail & Hfound).
  rewrite Edir in Hrc, Hfail, Hfound. fold outcome in Hrc, Hfail, Hfound.
  exists r, w1. rewrite Eop.
  split; [exact Hrun|]. split; [exact Hready1|]. split; [exact Hm|].
  split; [exact Hp|]. split; [exact Hrc|]. split; [exact Hfail|exact Hfound].
Qed.

End ChipOps.

(** * Band table, channel read-out and command writes *)

Section Commands.
Context {D : Type} `{Device D}.

(** X15. [setRegion] touches nothing but the three band members: no bus
    traffic, the shadow and the constructor's arguments as they were. A
    known band selector sets the band limits from the table, a known
    spacing selector the channel spacing; the de-emphasis argument is
    ignored, and calling it again changes nothing. When both selectors
    are known, the number of the highest channel of the band fits the
    ten bits of the CHAN field. *)
Theorem setRegion_table (band space de : Z) (w : world D) :
  exists w',
    setRegion band space de w = Ok tt w' /\
    trace w' = trace w /\ dev w' = dev w /\ wire w' = wire w /\
    shadow (drv w') = shadow (drv w) /\ same_config (drv w) (drv w') /\
    (band = BAND_US_EU ->
     _bandStart (drv w') = 8750 /\ _bandEnd (drv w') = 10800) /\
    (band = BAND_JPW ->
     _bandStart (drv w') = 7600 /\ _bandEnd (drv w') = 10800) /\
    (band = BAND_JP ->
     _bandStart (drv w') = 7600 /\ _bandEnd (drv w') = 9000) /\
    (space = SPACE_200KHz -> _bandSpacing (drv w') = 20) /\
    (space = SPACE_100KHz -> _bandSpacing (drv w') = 10) /\
    (space = SPACE_50KHz -> _bandSpacing (drv w') = 5) /\
    (forall de', setRegion band space de' w = Ok tt w') /\
    setRegion band space de w' = Ok tt w' /\
    (known_band band = true -> known_space space = true ->
     region_set (drv w') = true /\
     0 <= (_bandEnd (drv w') - _bandStart (drv w')) / _bandSpacing (drv w')
       < 1024).
Proof.
  exists (regioned band space w).
  destruct (region_members_config band space (drv w)) as [Hcfg Hsh].
  destruct (region_members_table band space (drv w))
    as (T1 & T2 & T3 & T4 & T5 & T6 & Tidem).
  split; [apply setRegion_regioned|].
  do 3 (split; [reflexivity|]).
  split; [exact Hsh|]. split; [exact Hcfg|].
  do 6 (split; [assumption|]).
  split; [intros de'; apply setRegion_regioned|].
  split.
  { rewrite setRegion_regioned. unfold regioned. cbn [drv wire dev trace].
    now rewrite Tidem. }
  intros Hb Hs.
  assert (Hreg : region_set (drv (regioned band space w)) = true).
  { cbn [regioned drv].
    pose proof (region_members_set band space
                  (shadow (region_members band space (drv w))) (drv w)
                  Hb Hs) as Hr.
    unfold region_set in *. exact Hr. }
  split; [exact Hreg|].
  destruct (region_set_range _ Hreg) as (Hlo & Hhi & Hsp & Hn).
  split; [apply Z.div_pos; lia|exact Hn].
Qed.

(** X16. [getChannel], once the band members hold a row of the table,
    always returns after exactly one block read: the band start plus the
    spacing times the low ten bits of the second word received (register
    0x0B). The result is on the channel grid, at least the band start and
    at most 1023 channels above it; it is not limited to the band end. *)
Theorem getChannel_on_grid (w : world D) :
  sized w -> region_set (drv w) = true ->
  let o := drv w in
  let n := rx_word (next_block w) 1 mod 1024 in
  getChannel w = Ok (_bandStart o + _bandSpacing o * n) (refresh w) /\
  trace (refresh w) = trace w ++ [EvRequest I2C_ADDR 32 (next_block w)] /\
  0 <= n < 1024 /\
  _bandStart o <= _bandStart o + _bandSpacing o * n
    <= _bandStart o + 1023 * _bandSpacing o /\
  (_bandStart o + _bandSpacing o * n - _bandStart o) mod _bandSpacing o = 0.
Proof.
  intros Hsz Hreg o n.
  destruct (region_set_range _ Hreg) as (Hlo & Hhi & Hsp & _). fold o in Hsp.
  assert (Hn : 0 <= n < 1024) by (apply Z.mod_pos_bound; lia).
  assert (En : block_readchan (next_block w) = n).
  { unfold block_readchan, get_field.
    cbn [bits.READCHAN bf_reg bf_off bf_width reg.index].
    rewrite word_decode by lia. rewrite get_bits_div by lia.
    change (2 ^ 0) with 1. now rewrite Z.div_1_r. }
  split.
  { rewrite getChannel_run by assumption. rewrite En. f_equal. fold o. ring. }
  split; [reflexivity|]. split; [exact Hn|]. split; [nia|].
  replace (_bandStart o + _bandSpacing o * n - _bandStart o)
    with (n * _bandSpacing o) by ring.
  apply Z.mod_mul. lia.
Qed.

Lemma command_sent f1 v1 f2 v2 (w : world D) :
  namedb f1 = true -> namedb f2 = true ->
  let w1 := flush (assign f2 v2 (assign f1 v1 (refresh w))) in
  trace w1 =
    trace w ++ [EvRequest I2C_ADDR 32 (next_block w);
                EvTransmit I2C_ADDR (control_bytes (shadow (drv w1)))
                  (write_status (assign f2 v2 (assign f1 v1 (refresh w))))]
  /\
  forall g, In g named_fields -> is_control (bf_reg g) = true ->
    sent_field g (control_bytes (shadow (drv w1))) =
    carried g [(f1, v1); (f2, v2)] (get_field g (decode (next_block w))).
Proof.
  intros H1 H2 w1. split.
  { unfold w1. rewrite trace_flush, !trace_assign, trace_refresh.
    now rewrite <- app_assoc. }
  intros g Hg Hc.
  change (shadow (drv w1))
    with (shadow (drv (assign_all [(f1, v1); (f2, v2)] (refresh w)))).
  apply sent_after_assigns; [exact Hg|exact Hc|].
  cbn [forallb fst]. now rewrite H1, H2.
Qed.

Lemma carried_pair g f1 v1 f2 v2 x :
  g <> f1 -> g <> f2 -> carried g [(f1, v1); (f2, v2)] x = x.
Proof.
  intros N1 N2. apply carried_untouched. cbn [map fst In].
  intros [E|[E|[]]]; congruence.
Qed.

(** X17. Whatever becomes of the seek, the first thing [seekUp] and
    [seekDown] put on the bus is one block read followed by one block
    write with the SEEK bit set and the SEEKUP bit set for [seekUp] and
    cleared for [seekDown]; every other named control field, the seek
    mode and thresholds among them, goes back as it was read. *)
Theorem seek_command_bits (up : bool) (fuel : nat) (w : world D) :
  sized w ->
  let op := if up then seekUp fuel else seekDown fuel in
  exists tx st rest,
    trace (final (op w)) =
      trace w ++ [EvRequest I2C_ADDR 32 (next_block w);
                  EvTransmit I2C_ADDR tx st] ++ rest /\
    sent_field bits.SEEK tx = 1 /\
    sent_field bits.SEEKUP tx = Z.b2z up /\
    (forall g, In g named_fields -> is_control (bf_reg g) = true ->
       g <> bits.SEEK -> g <> bits.SEEKUP ->
       sent_field g tx = get_field g (decode (next_block w))).
Proof.
  intros Hsz op.
  set (dir := if up then SEEK_UP else SEEK_DOWN).
  assert (Eop : op w = seek fuel dir w) by (unfold op, dir; now destruct up).
  rewrite Eop. clear Eop op.
  destruct (command_sent bits.SEEKUP dir bits.SEEK 1 w eq_refl eq_refl)
    as [Htr Hsent].
  change (flush (assign bits.SEEK 1 (assign bits.SEEKUP dir (refresh w))))
    with (seek_commanded dir w) in Htr, Hsent.
  set (wc := seek_commanded dir w) in *.
  assert (Hext : exists rest, trace (final (seek fuel dir w)) =
                              trace wc ++ rest).
  { destruct (seek_outcomes fuel dir w Hsz)
      as [(w' & Hq & Hto)|(w2 & wf & Hq2 & Hqf & Hfin & _)].
    - rewrite Hto. destruct Hq as (_ & _ & evs & Hevs & _).
      exists evs. exact Hevs.
    - rewrite Hfin.
      destruct Hq2 as (_ & _ & e1 & He1 & _).
      destruct Hqf as (_ & _ & e2 & He2 & _).
      exists (e1 ++ [EvRequest I2C_ADDR 32 (next_block w2);
                     EvTransmit I2C_ADDR
                       (control_bytes (shadow (drv (seek_released w2))))
                       (write_status (assign bits.SEEK 0 (refresh w2)))]
                 ++ e2).
      rewrite He2. unfold seek_released.
      rewrite trace_flush, trace_assign, trace_refresh.
      fold wc in He1. rewrite He1.
      rewrite <- !app_assoc. reflexivity. }
  destruct Hext as [rest Hrest].
  exists (control_bytes (shadow (drv wc))),
    (write_status (assign bits.SEEK 1 (assign bits.SEEKUP dir (refresh w)))),
    rest.
  split; [rewrite Hrest, Htr; now rewrite <- app_assoc|].
  split.
  { rewrite Hsent by (apply namedb_In || idtac; reflexivity). reflexivity. }
  split.
  { rewrite Hsent by (apply namedb_In || idtac; reflexivity).
    unfold dir. now destruct up. }
  intros g Hg Hc N1 N2. rewrite Hsent by assumption.
  now apply carried_pair.
Qed.

(** ** With the completion interrupt enabled *)

Lemma stcien_after_command f1 v1 f2 v2 (w : world D) :
  namedb f1 = true -> namedb f2 = true ->
  f1 <> bits.STCIEN -> f2 <> bits.STCIEN ->
  get_field bits.STCIEN
    (shadow (drv (flush (assign f2 v2 (assign f1 v1 (refresh w)))))) =
  get_field bits.STCIEN (decode (next_block w)).
Proof.
  intros H1 H2 N1 N2.
  change (shadow (drv (flush (assign f2 v2 (assign f1 v1 (refresh w))))))
    with (assigns [(f1, v1); (f2, v2)] (decode (next_block w))).
  rewrite get_assigns.
  - apply carried_pair; congruence.
  - apply clean_named; [now apply namedb_In|].
    cbn [forallb fst]. now rewrite H1, H2.
  - reflexivity.
  - apply (sized_refresh w).
Qed.

Lemma release_sent f (w : world D) :
  namedb f = true -> is_control (bf_reg f) = true ->
  let w1 := flush (assign f 0 (refresh w)) in
  trace w1 =
    trace w ++ [EvRequest I2C_ADDR 32 (next_block w);
                EvTransmit I2C_ADDR (control_bytes (shadow (drv w1)))
                  (write_status (assign f 0 (refresh w)))] /\
  sent_field f (control_bytes (shadow (drv w1))) = 0.
Proof.
  intros Hf Hc w1. split.
  { unfold w1. rewrite trace_flush, trace_assign, trace_refresh.
    now rewrite <- app_assoc. }
  change (shadow (drv w1))
    with (shadow (drv (assign_all [(f, 0)] (refresh w)))).
  rewrite sent_after_assigns;
    [|now apply namedb_In|exact Hc|cbn [forallb fst]; now rewrite Hf].
  unfold carried. cbn [assigned].
  assert (E : bitfield_eqb f f = true) by now apply bitfield_eqb_eq.
  rewrite E. apply Z.mod_0_l.
  apply Z.pow_nonzero; [lia|].
  apply (named_field_ok f). now apply namedb_In.
Qed.

(** The wait for STC to drop and what follows it, seen in the trace. *)
Lemma release_tail {A} fuel (k : M D A) (w : world D) :
  sized w ->
  (forall w5, sized w5 ->
     exists evs, trace (final (k w5)) = trace w5 ++ evs /\
                 Forall (fun e => is_transmit e = false) evs) ->
  exists rest,
    trace (final (bind (while fuel getSTC (ret tt)) (fun _ => k) w)) =
      trace w ++ rest /\
    Forall (fun e => is_transmit e = false) rest.
Proof.
  intros Hsz Hk.
  destruct (while_polls getSTC (ret tt) fuel polls_getSTC (polls_ret tt)
              w Hsz) as (w5 & Hq5 & [Hok|Hto]).
  - rewrite (bind_ok _ _ _ _ _ Hok).
    destruct Hq5 as (Hsz5 & _ & e1 & He1 & Hf1).
    destruct (Hk w5 Hsz5) as (e2 & He2 & Hf2).
    exists (e1 ++ e2). split.
    + now rewrite He2, He1, <- app_assoc.
    + apply Forall_app. now split.
  - rewrite (bind_timeout _ _ _ _ Hto).
    destruct Hq5 as (_ & _ & e1 & He1 & Hf1).
    exists e1. now split.
Qed.

Lemma getChannel_tail (w5 : world D) :
  sized w5 ->
  exists evs, trace (final (getChannel w5)) = trace w5 ++ evs /\
              Forall (fun e => is_transmit e = false) evs.
Proof.
  intros Hsz5. rewrite getChannel_final by exact Hsz5.
  eexists. split; [apply trace_refresh|]. now repeat constructor.
Qed.

(** X18. With the STCIEN bit set in the configuration just read, neither
    [setChannel] nor [seek] waits for the command to complete: the write
    that clears TUNE or SEEK follows the command write after a single
    block read, and [seek] takes its failure flag from that read. Only
    the wait for STC to drop is left. *)
Theorem completion_not_awaited (fuel : nat) (freq dir : Z) (w : world D) :
  sized w -> get_field bits.STCIEN (decode (next_block w)) <> 0 ->
  (region_set (drv w) = true ->
   exists tx1 s1 b2 tx2 s2 rest,
     trace (final (setChannel fuel freq w)) =
       trace w ++ [EvRequest I2C_ADDR 32 (next_block w);
                   EvTransmit I2C_ADDR tx1 s1;
                   EvRequest I2C_ADDR 32 b2;
                   EvTransmit I2C_ADDR tx2 s2] ++ rest /\
     sent_field bits.TUNE tx1 = 1 /\ sent_field bits.TUNE tx2 = 0 /\
     Forall (fun e => is_transmit e = false) rest) /\
  (exists tx1 s1 b2 tx2 s2 rest,
     trace (final (seek fuel dir w)) =
       trace w ++ [EvRequest I2C_ADDR 32 (next_block w);
                   EvTransmit I2C_ADDR tx1 s1;
                   EvRequest I2C_ADDR 32 b2;
                   EvTransmit I2C_ADDR tx2 s2] ++ rest /\
     sent_field bits.SEEK tx1 = 1 /\ sent_field bits.SEEK tx2 = 0 /\
     Forall (fun e => is_transmit e = false) rest /\
     (forall r w', seek fuel dir w = Ok r w' ->
        block_sfbl b2 = true -> r = 0)).
Proof.
  intros Hsz Hien. split.
  - intros Hreg. rewrite setChannel_until_complete by assumption.
    set (q := channel_of (drv w) freq).
    destruct (command_sent bits.CHAN q bits.TUNE 1 w eq_refl eq_refl)
      as [Htr1 Hsent1].
    pose proof (stcien_after_command bits.CHAN q bits.TUNE 1 w eq_refl
                  eq_refl ltac:(discriminate) ltac:(discriminate)) as Hst.
    change (flush (assign bits.TUNE 1 (assign bits.CHAN q (refresh w))))
      with (tune_commanded q w) in Htr1, Hsent1, Hst.
    set (wc := tune_commanded q w) in *.
    assert (Hszc : sized wc)
      by (apply sized_flush, sized_assign, sized_assign, sized_refresh).
    assert (Hwait : tune_wait fuel wc = Ok tt wc).
    { unfold tune_wait. erewrite bind_ok by apply bits_get_run.
      rewrite Hst. now destruct (Z.eqb_spec
        (get_field bits.STCIEN (decode (next_block w))) 0). }
    erewrite bind_ok by exact Hwait.
    erewrite bind_ok by now apply getShadow_run.
    erewrite bind_ok by apply bits_set_run.
    erewrite bind_ok by apply putShadow_run.
    destruct (release_sent bits.TUNE wc eq_refl eq_refl) as [Htr2 Hsent2].
    set (wr := flush (assign bits.TUNE 0 (refresh wc))) in *.
    assert (Hszr : sized wr)
      by (apply sized_flush, sized_assign, sized_refresh).
    destruct (release_tail fuel getChannel wr Hszr getChannel_tail)
      as (rest & Hrest & Hquiet).
    exists (control_bytes (shadow (drv wc))),
      (write_status (assign bits.TUNE 1 (assign bits.CHAN q (refresh w)))),
      (next_block wc), (control_bytes (shadow (drv wr))),
      (write_status (assign bits.TUNE 0 (refresh wc))), rest.
    split.
    { rewrite Hrest, Htr2, Htr1. now rewrite <- !app_assoc. }
    split.
    { rewrite Hsent1 by (apply namedb_In || idtac; reflexivity).
      reflexivity. }
    split; [exact Hsent2|exact Hquiet].
  - rewrite seek_until_complete by assumption.
    destruct (command_sent bits.SEEKUP dir bits.SEEK 1 w eq_refl eq_refl)
      as [Htr1 Hsent1].
    pose proof (stcien_after_command bits.SEEKUP dir bits.SEEK 1 w eq_refl
                  eq_refl ltac:(discriminate) ltac:(discriminate)) as Hst.
    change (flush (assign bits.SEEK 1 (assign bits.SEEKUP dir (refresh w))))
      with (seek_commanded dir w) in Htr1, Hsent1, Hst.
    set (wc := seek_commanded dir w) in *.
    assert (Hszc : sized wc)
      by (apply sized_flush, sized_assign, sized_assign, sized_refresh).
    assert (Hwait : seek_wait fuel wc = Ok tt wc).
    { unfold seek_wait. erewrite bind_ok by apply bits_get_run.
      rewrite Hst. now destruct (Z.eqb_spec
        (get_field bits.STCIEN (decode (next_block w))) 0). }
    erewrite bind_ok by exact Hwait.
    rewrite seek_after_complete by exact Hszc.
    destruct (release_sent bits.SEEK wc eq_refl eq_refl) as [Htr2 Hsent2].
    change (flush (assign bits.SEEK 0 (refresh wc)))
      with (seek_released wc) in Htr2, Hsent2.
    set (wr := seek_released wc) in *.
    assert (Hszr : sized wr)
      by (apply sized_flush, sized_assign, sized_refresh).
    assert (Hk : forall w5 : world D, sized w5 ->
              exists evs,
                trace (final ((if block_sfbl (next_block wc)
                               then ret 0 else getChannel) w5)) =
                trace w5 ++ evs /\
                Forall (fun e => is_transmit e = false) evs).
    { intros w5 Hsz5. destruct (block_sfbl (next_block wc)).
      - exists []. split; [now rewrite app_nil_r|constructor].
      - now apply getChannel_tail. }
    destruct (release_tail fuel _ wr Hszr Hk) as (rest & Hrest & Hquiet).
    exists (control_bytes (shadow (drv wc))),
      (write_status (assign bits.SEEK 1
                       (assign bits.SEEKUP dir (refresh w)))),
      (next_block wc), (control_bytes (shadow (drv wr))),
      (write_status (assign bits.SEEK 0 (refresh wc))), rest.
    split.
    { rewrite Hrest, Htr2, Htr1. now rewrite <- !app_assoc. }
    split.
    { rewrite Hsent1 by (apply namedb_In || idtac; reflexivity).
      reflexivity. }
    split; [exact Hsent2|]. split; [exact Hquiet|].
    intros r w' Hrun Hs. rewrite Hs in Hrun.
    unfold bind in Hrun.
    destruct (while fuel getSTC (ret tt) wr) as [u w5|w5|w5];
      try discriminate Hrun.
    now injection Hrun as <- _.
Qed.

End Commands.

(** * Every public method: what it leaves alone *)

Section Orderly.
Context {D : Type} `{Device D}.
Variable S : Si4703 -> Si4703 -> Prop.
Variable Q : event -> Prop.
Hypothesis S_refl : forall o, S o o.
Hypothesis S_trans : forall o1 o2 o3, S o1 o2 -> S o2 o3 -> S o1 o3.
Hypothesis S_shadow : forall sh o, S o (with_shadow sh o).
Hypothesis Q_request :
  forall w : world D, Q (EvRequest I2C_ADDR 32 (next_block w)).
Hypothesis Q_transmit :
  forall w : world D,
    Q (EvTransmit I2C_ADDR (control_bytes (shadow (drv w))) (write_status w)).
Hypothesis Q_delay : forall ms, Q (EvDelay ms).

Local Abbreviation R := (follows (D:=D) S Q).

Lemma follows_refl (w : world D) : R w w.
Proof.
  split; [apply S_refl|]. exists []. split; [now rewrite app_nil_r|].
  constructor.
Qed.

Lemma follows_trans (w1 w2 w3 : world D) : R w1 w2 -> R w2 w3 -> R w1 w3.
Proof.
  intros (S1 & e1 & T1 & Q1) (S2 & e2 & T2 & Q2).
  split; [now apply (S_trans _ _ _ S1)|].
  exists (e1 ++ e2). split.
  - now rewrite T2, T1, <- app_assoc.
  - apply Forall_app. now split.
Qed.

Lemma follows_one (w w' : world D) e :
  S (drv w) (drv w') -> trace w' = trace w ++ [e] -> Q e -> R w w'.
Proof.
  intros HS HT HQ. split; [exact HS|]. exists [e].
  split; [exact HT|]. now repeat constructor.
Qed.

Lemma final_bind {A B} (c : M D A) (k : A -> M D B) (w : world D) :
  final (bind c k w) =
  match c w with
  | Ok a w1 => final (k a w1)
  | Timeout w1 | Undefined w1 => w1
  end.
Proof. unfold bind. now destruct (c w). Qed.

Lemma orderly_bind {A B} (c : M D A) (k : A -> M D B) :
  orderly R c -> (forall a, orderly R (k a)) -> orderly R (bind c k).
Proof.
  intros Hc Hk w Hsz. destruct (Hc w Hsz) as [Hsz1 HR1].
  rewrite final_bind.
  destruct (c w) as [a w1|w1|w1]; cbn [final] in Hsz1, HR1;
    [|now split..].
  destruct (Hk a w1 Hsz1) as [Hsz2 HR2].
  split; [exact Hsz2|]. now apply (follows_trans _ _ _ HR1).
Qed.

Lemma orderly_ret {A} (a : A) : orderly R (ret a).
Proof. intros w Hsz. split; [exact Hsz|apply follows_refl]. Qed.

Lemma orderly_this {A} (get : Si4703 -> A) : orderly R (this get).
Proof. intros w Hsz. split; [exact Hsz|apply follows_refl]. Qed.

Lemma orderly_bits_get f : orderly R (bits_get f).
Proof. apply orderly_this. Qed.

Lemma orderly_bits_set f v : orderly R (bits_set f v).
Proof.
  intros w Hsz. rewrite bits_set_run. cbn [final].
  split; [now apply sized_assign|].
  split; [apply S_shadow|]. exists []. split; [|constructor].
  now rewrite app_nil_r.
Qed.

Lemma orderly_getShadow : orderly R getShadow.
Proof.
  intros w Hsz. rewrite getShadow_run by exact Hsz. cbn [final].
  split; [apply sized_refresh|].
  apply (follows_one _ _ (EvRequest I2C_ADDR 32 (next_block w)));
    [apply S_shadow|reflexivity|apply Q_request].
Qed.

Lemma orderly_putShadow : orderly R putShadow.
Proof.
  intros w Hsz. rewrite putShadow_run. cbn [final].
  split; [now apply sized_flush|].
  apply (follows_one _ _ (EvTransmit I2C_ADDR
                            (control_bytes (shadow (drv w)))
                            (write_status w)));
    [apply S_refl|reflexivity|apply Q_transmit].
Qed.

Lemma orderly_delay ms : orderly R (delay ms).
Proof.
  intros w Hsz. rewrite delay_run. cbn [final].
  split; [exact Hsz|].
  apply (follows_one _ _ (EvDelay ms));
    [apply S_refl|reflexivity|apply Q_delay].
Qed.

Lemma orderly_int_ z : orderly R (int_ z).
Proof.
  intros w Hsz. unfold int_. destruct (in_int z); cbn [final];
    (split; [exact Hsz|apply follows_refl]).
Qed.

Lemma orderly_int_div a b : orderly R (int_div a b).
Proof.
  intros w Hsz. unfold int_div. destruct (Z.eqb b 0).
  - cbn [final]. split; [exact Hsz|apply follows_refl].
  - now apply orderly_int_.
Qed.

Lemma orderly_while fuel cond body :
  orderly R cond -> orderly R body -> orderly R (while fuel cond body).
Proof.
  intros Hc Hb. induction fuel as [|fuel IH].
  - intros w Hsz. cbn [while final]. split; [exact Hsz|apply follows_refl].
  - cbn [while]. apply orderly_bind; [exact Hc|].
    intros [|]; [|apply orderly_ret].
    apply orderly_bind; [exact Hb|]. intros _. exact IH.
Qed.

Lemma orderly_not c : orderly R c -> orderly R (not_ c).
Proof.
  intros Hc. apply orderly_bind; [exact Hc|]. intros b. apply orderly_ret.
Qed.

Ltac orderly_step :=
  lazymatch goal with
  | |- orderly _ getShadow => apply orderly_getShadow
  | |- orderly _ putShadow => apply orderly_putShadow
  | |- orderly _ (ret _) => apply orderly_ret
  | |- orderly _ (this _) => apply orderly_this
  | |- orderly _ (bits_get _) => apply orderly_bits_get
  | |- orderly _ (bits_set _ _) => apply orderly_bits_set
  | |- orderly _ (delay _) => apply orderly_delay
  | |- orderly _ (int_ _) => apply orderly_int_
  | |- orderly _ (int_div _ _) => apply orderly_int_div
  | |- orderly _ (while _ _ _) => apply orderly_while
  | |- orderly _ (not_ _) => apply orderly_not
  | |- orderly _ (if ?b then _ else _) => destruct b
  | |- orderly _ (bind _ _) => apply orderly_bind; [|intros ?]
  | |- orderly _ (let _ := _ in _) => cbv zeta
  end.

Lemma orderly_field_getter f : orderly R (bind getShadow (fun _ => bits_get f)).
Proof. repeat orderly_step. Qed.

Lemma orderly_flag_getter f :
  orderly R (bind getShadow
               (fun _ => bind (bits_get f) (fun v => ret (truthy v)))).
Proof. repeat orderly_step. Qed.

Lemma orderly_flag_setter f (en : bool) :
  orderly R (bind getShadow
               (fun _ => bind (bits_set f (Z.b2z en))
                           (fun _ => bind putShadow (fun _ => ret tt)))).
Proof. repeat orderly_step. Qed.

Lemma orderly_getSTC : orderly R getSTC.
Proof. apply orderly_flag_getter. Qed.

Lemma orderly_getChannel : orderly R getChannel.
Proof. unfold getChannel. repeat orderly_step. Qed.

Lemma orderly_getVolume : orderly R getVolume.
Proof. apply orderly_field_getter. Qed.

Lemma orderly_setVolume v : orderly R (setVolume v).
Proof.
  unfold setVolume.
  repeat lazymatch goal with
         | |- orderly _ getVolume => apply orderly_getVolume
         | _ => orderly_step
         end.
Qed.

Lemma orderly_setChannel fuel freq : orderly R (setChannel fuel freq).
Proof.
  unfold setChannel.
  repeat lazymatch goal with
         | |- orderly _ getSTC => apply orderly_getSTC
         | |- orderly _ getChannel => apply orderly_getChannel
         | _ => orderly_step
         end.
Qed.

Lemma orderly_seek fuel dir : orderly R (seek fuel dir).
Proof.
  unfold seek.
  repeat lazymatch goal with
         | |- orderly _ getSTC => apply orderly_getSTC
         | |- orderly _ getChannel => apply orderly_getChannel
         | _ => orderly_step
         end.
Qed.

Lemma orderly_powerUp : orderly R powerUp.
Proof. unfold powerUp. repeat orderly_step. Qed.

Lemma orderly_powerDown : orderly R powerDown.
Proof. unfold powerDown. repeat orderly_step. Qed.

Lemma orderly_writeGPIO GPIO val : orderly R (writeGPIO GPIO val).
Proof. unfold writeGPIO. repeat orderly_step. Qed.

Lemma orderly_void {A} (c : M D A) : orderly R c -> orderly R (void c).
Proof.
  intros Hc. apply orderly_bind; [exact Hc|]. intros a. apply orderly_ret.
Qed.

Lemma orderly_incChannel fuel : orderly R (incChannel fuel).
Proof.
  unfold incChannel.
  repeat lazymatch goal with
         | |- orderly _ getChannel => apply orderly_getChannel
         | |- orderly _ (setChannel _ _) => apply orderly_setChannel
         | _ => orderly_step
         end.
Qed.

Lemma orderly_decChannel fuel : orderly R (decChannel fuel).
Proof.
  unfold decChannel.
  repeat lazymatch goal with
         | |- orderly _ getChannel => apply orderly_getChannel
         | |- orderly _ (setChannel _ _) => apply orderly_setChannel
         | _ => orderly_step
         end.
Qed.

Lemma orderly_incVolume : orderly R incVolume.
Proof.
  unfold incVolume.
  repeat lazymatch goal with
         | |- orderly _ getVolume => apply orderly_getVolume
         | |- orderly _ (setVolume _) => apply orderly_setVolume
         | _ => orderly_step
         end.
Qed.

Lemma orderly_decVolume : orderly R decVolume.
Proof.
  unfold decVolume.
  repeat lazymatch goal with
         | |- orderly _ getVolume => apply orderly_getVolume
         | |- orderly _ (setVolume _) => apply orderly_setVolume
         | _ => orderly_step
         end.
Qed.

(** Every public method but [start]. *)
Lemma orderly_calls fuel c : c <> c_start -> orderly R (call_run fuel c).
Proof.
  intros Hc. destruct c; cbn [call_run]; try contradiction;
    try apply orderly_void.
  - apply orderly_powerUp.
  - apply orderly_powerDown.
  - apply (orderly_field_getter bits.PN).
  - apply (orderly_field_getter bits.MFGID).
  - apply (orderly_field_getter bits.REV).
  - apply (orderly_field_getter bits.DEV).
  - apply (orderly_field_getter bits.FIRMWARE).
  - apply (orderly_this _bandStart).
  - apply (orderly_this _bandEnd).
  - apply (orderly_this _bandSpacing).
  - apply (orderly_field_getter bits.RSSI).
  - apply orderly_getChannel.
  - apply orderly_setChannel.
  - apply orderly_incChannel.
  - apply orderly_decChannel.
  - apply orderly_seek.
  - apply orderly_seek.
  - apply (orderly_flag_setter bits.MONO).
  - apply (orderly_flag_getter bits.MONO).
  - apply (orderly_flag_getter bits.ST).
  - apply (orderly_flag_setter bits.DMUTE).
  - apply (orderly_flag_getter bits.DMUTE).
  - apply (orderly_flag_setter bits.VOLEXT).
  - apply (orderly_flag_getter bits.VOLEXT).
  - apply orderly_getVolume.
  - apply orderly_setVolume.
  - apply orderly_incVolume.
  - apply orderly_decVolume.
  - apply (orderly_ret tt).
  - apply orderly_writeGPIO.
Qed.

Lemma follows_flush (x : world D) : R x (flush x).
Proof.
  apply (follows_one x (flush x)
           (EvTransmit I2C_ADDR (control_bytes (shadow (drv x)))
              (write_status x)));
    [apply S_refl|apply trace_flush|apply Q_transmit].
Qed.

Lemma follows_refresh (x : world D) : R x (refresh x).
Proof.
  apply (follows_one x (refresh x) (EvRequest I2C_ADDR 32 (next_block x)));
    [apply S_shadow|apply trace_refresh|apply Q_request].
Qed.

Lemma follows_assign_all l (x : world D) : R x (assign_all l x).
Proof.
  split; [apply S_shadow|]. exists []. split; [|constructor].
  rewrite app_nil_r. apply trace_assign_all.
Qed.

Lemma follows_elapsed ms (x : world D) : R x (elapsed ms x).
Proof.
  apply (follows_one x (elapsed ms x) (EvDelay ms));
    [apply S_refl|apply trace_elapsed|apply Q_delay].
Qed.

Lemma follows_powered (x : world D) : R x (powered x).
Proof.
  unfold powered, oscillating.
  repeat first [exact (follows_refl x)
               |eapply follows_trans; [|apply follows_elapsed]
               |eapply follows_trans; [|apply follows_flush]
               |eapply follows_trans; [|apply follows_assign_all]
               |eapply follows_trans; [|apply follows_refresh]].
Qed.

Lemma follows_regioned band space (x : world D) :
  (forall o, S o (region_members band space o)) ->
  R x (regioned band space x).
Proof.
  intros HS. split; [apply HS|]. exists []. split; [|constructor].
  rewrite app_nil_r. apply trace_regioned.
Qed.

Lemma follows_wired (x : world D) :
  (forall e, pin_event e = true -> Q e) -> R x (wired x).
Proof.
  intros Q_pin. destruct x as [o wi d tr]. rewrite wired_world.
  split; [apply S_refl|]. eexists. split; [reflexivity|].
  repeat (apply Forall_cons; split;
          [first [apply Q_delay|now apply Q_pin]|]).
  constructor.
Qed.

(** [start], when [S] lets the band members change and [Q] admits the
    pin events. *)
Lemma orderly_start (w : world D) :
  (forall band space o, S o (region_members band space o)) ->
  (forall e, pin_event e = true -> Q e) ->
  sized w -> sized (final (start w)) /\ R w (final (start w)).
Proof.
  intros S_region Q_pin Hsz.
  rewrite start_run by exact Hsz. cbn [final].
  split.
  { apply sized_flush, sized_assign_all. unfold sized, configured, regioned.
    cbn [drv]. rewrite (proj2 (region_members_config _ _ _)).
    apply sized_refresh. }
  unfold configured.
  eapply follows_trans; [|apply follows_flush].
  eapply follows_trans; [|apply follows_assign_all].
  eapply follows_trans; [|apply follows_regioned, S_region].
  eapply follows_trans; [|apply follows_refresh].
  eapply follows_trans; [|apply follows_powered].
  now apply follows_wired.
Qed.

End Orderly.

Section Discipline.
Context {D : Type} `{Device D}.

Lemma call_is_start c : c = c_start \/ c <> c_start.
Proof. destruct c; (now left) || (right; discriminate). Qed.

Lemma same_config_refl o : same_config o o.
Proof. now repeat split. Qed.

Lemma same_config_trans o1 o2 o3 :
  same_config o1 o2 -> same_config o2 o3 -> same_config o1 o3.
Proof.
  unfold same_config.
  intros (A1 & A2 & A3 & A4 & A5 & A6 & A7 & A8 & A9 & A10 & A11 & A12)
         (B1 & B2 & B3 & B4 & B5 & B6 & B7 & B8 & B9 & B10 & B11 & B12).
  repeat split; congruence.
Qed.

Lemma same_config_shadow sh o : same_config o (with_shadow sh o).
Proof. now repeat split. Qed.

Lemma next_block_bytes (w : world D) : Forall is_byte (next_block w).
Proof.
  unfold next_block. apply Forall_map, Forall_forall.
  intros x _. apply to_uint8_range.
Qed.

Lemma control_bytes_bytes sh : Forall is_byte (control_bytes sh).
Proof.
  unfold control_bytes, tx_pair. cbn [seq flat_map app].
  repeat (apply Forall_cons; split; [apply to_uint8_range|]).
  constructor.
Qed.

(** X19. However a call of a public method ends (by returning, by
    running out of polls or in undefined arithmetic), all it has put on
    the bus are reads of 32 bytes from address 0x10 and writes of exactly
    twelve bytes to address 0x10; the shadow keeps its sixteen words and
    the constructor's arguments stay in the object. *)
Theorem bus_discipline (fuel : nat) (c : call) (w : world D) :
  sized w ->
  let w' := call_final fuel c w in
  sized w' /\ same_config (drv w) (drv w') /\
  exists evs, trace w' = trace w ++ evs /\ Forall bus_ok evs.
Proof.
  intros Hsz w'.
  assert (Hreq : forall x : world D, bus_ok (EvRequest I2C_ADDR 32
                                             (next_block x))).
  { intros x. cbn [bus_ok]. repeat split.
    - apply next_block_short.
    - apply next_block_bytes. }
  assert (Htx : forall x : world D,
            bus_ok (EvTransmit I2C_ADDR (control_bytes (shadow (drv x)))
                      (write_status x))).
  { intros x. cbn [bus_ok]. repeat split. apply control_bytes_bytes. }
  assert (Hd : forall ms, bus_ok (EvDelay ms)) by (intros; exact I).
  assert (HR : sized w' /\ follows same_config bus_ok w w').
  { unfold w', call_final. destruct (call_is_start c) as [->|Hc].
    - apply (orderly_start same_config bus_ok same_config_refl
               same_config_trans same_config_shadow Hreq Htx Hd);
        [|now intros [] |exact Hsz].
      intros band space o. apply region_members_config.
    - now apply (orderly_calls same_config bus_ok same_config_refl
                   same_config_trans same_config_shadow Hreq Htx Hd). }
  destruct HR as (Hsz' & HS & evs & HT & HQ).
  split; [exact Hsz'|]. split; [exact HS|]. now exists evs.
Qed.

(** X20. Only [start] touches the pins and the band members: a call of
    any other public method, however it ends, records no pin set-up, pin
    write or bus start, and leaves the band start, band end and channel
    spacing of the object, as well as the constructor's arguments, as
    they were. *)
Theorem only_start_configures (fuel : nat) (c : call) (w : world D) :
  sized w -> c <> c_start ->
  let w' := call_final fuel c w in
  members_same (drv w) (drv w') /\
  exists evs, trace w' = trace w ++ evs /\
              Forall (fun e => pin_event e = false) evs.
Proof.
  intros Hsz Hc w'.
  destruct (orderly_calls members_same (fun e => pin_event e = false)
              members_same_refl members_same_trans members_same_shadow
              ltac:(reflexivity) ltac:(reflexivity) ltac:(reflexivity)
              fuel c Hc w Hsz) as (_ & HS & evs & HT & HQ).
  split; [exact HS|]. now exists evs.
Qed.

End Discipline.

(** * The command bit is cleared only after completion was seen *)

Section ReleaseOrder.
Context {D : Type} `{Device D}.

Lemma Ok_world {A} (a b : A) (w w' : world D) :
  Ok a w = Ok b w' -> w = w'.
Proof. now intros [= _ ->]. Qed.

Lemma getSTC_bit (w : world D) :
  sized w ->
  getSTC w = Ok (Z.testbit (rx_word (next_block w) 0) 14) (refresh w).
Proof.
  intros Hsz. unfold getSTC.
  rewrite flag_getter_run; [reflexivity|exact Hsz|reflexivity|cbn; lia].
Qed.

(** A wait for STC to rise that ends has just read STC set. *)
Lemma await_observed body fuel :
  polls (D:=D) body ->
  forall w w' : world D, sized w ->
    while fuel (not_ getSTC) body w = Ok tt w' ->
    exists pre bp,
      trace w' = trace w ++ pre ++ [EvRequest I2C_ADDR 32 bp] /\
      Forall (fun e => is_transmit e = false) pre /\
      Z.testbit (rx_word bp 0) 14 = true /\ sized w'.
Proof.
  intros Hbody. induction fuel as [|fuel IH]; intros w w' Hsz Hrun.
  - discriminate Hrun.
  - cbn [while] in Hrun. unfold not_ in Hrun. rewrite bind_assoc in Hrun.
    erewrite bind_ok in Hrun by now apply getSTC_bit.
    unfold bind at 1, ret at 1 in Hrun.
    destruct (Z.testbit (rx_word (next_block w) 0) 14) eqn:Estc;
      cbn [negb] in Hrun.
    + apply Ok_world in Hrun. subst w'.
      exists [], (next_block w). split; [apply trace_refresh|].
      split; [constructor|]. split; [exact Estc|apply sized_refresh].
    + destruct (Hbody (refresh w) (sized_refresh w))
        as (a & wb & Hb & Hszb & _ & evs & Hevs & Hq).
      erewrite bind_ok in Hrun by exact Hb.
      destruct (IH wb w' Hszb Hrun) as (pre & bp & Htr & Hpre & Hbit & Hsz').
      exists ([EvRequest I2C_ADDR 32 (next_block w)] ++ evs ++ pre), bp.
      split.
      { rewrite Htr, Hevs, trace_refresh. now rewrite <- !app_assoc. }
      split; [|now split].
      apply Forall_app. split; [now repeat constructor|].
      apply Forall_app. now split.
Qed.

Lemma release_order {A} f1 v1 f fuel body (k : M D A) (w : world D) :
  let wc := flush (assign f 1 (assign f1 v1 (refresh w))) in
  namedb f1 = true -> namedb f = true -> is_control (bf_reg f) = true ->
  bf_width f = 1 ->
  polls (D:=D) body ->
  (forall w5 : world D, sized w5 ->
     exists evs, trace (final (k w5)) = trace w5 ++ evs /\
                 Forall (fun e => is_transmit e = false) evs) ->
  released_after_completion f w
    (bind (while fuel (not_ getSTC) body)
       (fun _ => getShadow ;; bits_set f 0 ;; putShadow ;;
                 while fuel getSTC (ret tt) ;; k)%drv wc).
Proof.
  intros wc H1 Hf Hc Hw1 Hbody Hk.
  destruct (command_sent f1 v1 f 1 w H1 Hf) as [Htr1 Hsent1].
  fold wc in Htr1, Hsent1.
  assert (Hszc : sized wc)
    by (apply sized_flush, sized_assign, sized_assign, sized_refresh).
  assert (Hset : sent_field f (control_bytes (shadow (drv wc))) = 1).
  { rewrite Hsent1 by (try apply namedb_In; assumption).
    unfold carried. cbn [assigned].
    assert (E : bitfield_eqb f f = true) by now apply bitfield_eqb_eq.
    rewrite E, Hw1. reflexivity. }
  exists (control_bytes (shadow (drv wc))),
    (write_status (assign f 1 (assign f1 v1 (refresh w)))).
  destruct (while_polls (not_ getSTC) body fuel polls_not_getSTC Hbody
              wc Hszc) as (w2 & Hq2 & [Hok|Hto]).
  - destruct (await_observed body fuel Hbody wc w2 Hszc Hok)
      as (pre & bp & Htr2 & Hpre & Hbit & Hsz2).
    exists pre. split; [exact Hset|]. split; [exact Hpre|]. right.
    erewrite bind_ok by exact Hok.
    erewrite bind_ok by now apply getShadow_run.
    erewrite bind_ok by apply bits_set_run.
    erewrite bind_ok by apply putShadow_run.
    destruct (release_sent f w2 Hf Hc) as [Htr3 Hsent3].
    set (wr := flush (assign f 0 (refresh w2))) in *.
    assert (Hszr : sized wr)
      by (apply sized_flush, sized_assign, sized_refresh).
    destruct (release_tail fuel k wr Hszr Hk) as (rest & Hrest & Hquiet).
    exists bp, (next_block w2), (control_bytes (shadow (drv wr))),
      (write_status (assign f 0 (refresh w2))), rest.
    split.
    { rewrite Hrest, Htr3, Htr2, Htr1. now rewrite <- !app_assoc. }
    split; [exact Hbit|]. split; [exact Hsent3|exact Hquiet].
  - destruct Hq2 as (_ & _ & evs & Hevs & Hq).
    exists evs. split; [exact Hset|]. split; [exact Hq|]. left.
    exists w2. split; [now apply bind_timeout|].
    rewrite Hevs, Htr1. now rewrite <- !app_assoc.
Qed.

(** X21. With STCIEN clear in the configuration just read, [setChannel]
    and [seek] clear their command bit only after completion was seen:
    in every run, either the first wait uses up its polls, and the only
    write made is the one that set TUNE or SEEK, or the write that clears
    the bit follows a block read that delivered the STC bit set (the last
    poll) and one more block read; no other write lies in between. *)
Theorem release_after_completion (fuel : nat) (freq dir : Z) (w : world D) :
  sized w -> get_field bits.STCIEN (decode (next_block w)) = 0 ->
  (region_set (drv w) = true ->
   released_after_completion bits.TUNE w (setChannel fuel freq w)) /\
  released_after_completion bits.SEEK w (seek fuel dir w).
Proof.
  intros Hsz Hien. split.
  - intros Hreg. rewrite setChannel_until_complete by assumption.
    set (q := channel_of (drv w) freq).
    pose proof (stcien_after_command bits.CHAN q bits.TUNE 1 w eq_refl
                  eq_refl ltac:(discriminate) ltac:(discriminate)) as Hst.
    pose proof (release_order bits.CHAN q bits.TUNE fuel (ret tt) getChannel
                  w eq_refl eq_refl eq_refl eq_refl
                  (polls_ret tt) getChannel_tail) as Hrel.
    cbv zeta in Hrel.
    change (flush (assign bits.TUNE 1 (assign bits.CHAN q (refresh w))))
      with (tune_commanded q w) in Hst, Hrel.
    set (wc := tune_commanded q w) in *.
    assert (Ewait : forall K : unit -> M D Z,
              bind (tune_wait fuel) K wc =
              bind (while fuel (not_ getSTC) (ret tt)) K wc).
    { intros K. unfold tune_wait. rewrite bind_assoc.
      erewrite bind_ok by apply bits_get_run.
      now rewrite Hst, Hien. }
    rewrite Ewait. exact Hrel.
  - rewrite seek_until_complete by assumption.
    pose proof (stcien_after_command bits.SEEKUP dir bits.SEEK 1 w eq_refl
                  eq_refl ltac:(discriminate) ltac:(discriminate)) as Hst.
    change (flush (assign bits.SEEK 1 (assign bits.SEEKUP dir (refresh w))))
      with (seek_commanded dir w) in Hst.
    set (wc := seek_commanded dir w) in *.
    assert (Hszc : sized wc)
      by (apply sized_flush, sized_assign, sized_assign, sized_refresh).
    assert (Ewait : forall K : unit -> M D Z,
              bind (seek_wait fuel) K wc =
              bind (while fuel (not_ getSTC) (delay 40)) K wc).
    { intros K. unfold seek_wait. rewrite bind_assoc.
      erewrite bind_ok by apply bits_get_run.
      now rewrite Hst, Hien. }
    rewrite Ewait.
    (* the status is sampled between the refresh and the release *)
    destruct (while_polls (not_ getSTC) (delay 40) fuel polls_not_getSTC
                (polls_delay 40) wc Hszc) as (w2 & Hq2 & [Hok|Hto]).
    + assert (Hk : forall w5 : world D, sized w5 ->
                exists evs,
                  trace (final ((if block_sfbl (next_block w2)
                                 then ret 0 else getChannel) w5)) =
                  trace w5 ++ evs /\
                  Forall (fun e => is_transmit e = false) evs).
      { intros w5 Hsz5. destruct (block_sfbl (next_block w2)).
        - exists []. split; [now rewrite app_nil_r|constructor].
        - now apply getChannel_tail. }
      pose proof (release_order bits.SEEKUP dir bits.SEEK fuel (delay 40)
                    (if block_sfbl (next_block w2) then ret 0
                     else getChannel)
                    w eq_refl eq_refl eq_refl eq_refl
                    (polls_delay 40) Hk) as Hrel.
      cbv zeta in Hrel.
      change (flush (assign bits.SEEK 1
                       (assign bits.SEEKUP dir (refresh w))))
        with wc in Hrel.
      erewrite bind_ok in Hrel by exact Hok.
      erewrite bind_ok by exact Hok.
      rewrite seek_after_complete by apply Hq2.
      erewrite bind_ok in Hrel by (apply getShadow_run, Hq2).
      erewrite bind_ok in Hrel by apply bits_set_run.
      erewrite bind_ok in Hrel by apply putShadow_run.
      exact Hrel.
    + pose proof (release_order bits.SEEKUP dir bits.SEEK fuel (delay 40)
                    getChannel w eq_refl eq_refl eq_refl
                    eq_refl (polls_delay 40) getChannel_tail)
        as Hrel.
      cbv zeta in Hrel.
      change (flush (assign bits.SEEK 1
                       (assign bits.SEEKUP dir (refresh w))))
        with wc in Hrel.
      erewrite bind_timeout in Hrel by exact Hto.
      erewrite bind_timeout by exact Hto.
      exact Hrel.
Qed.

End ReleaseOrder.

(** * Sessions: calls one after the other *)

Section Sessions.

Lemma ready_sized fuel (w : world Chip) : ready fuel w -> sized w.
Proof. now intros (Hsz & _). Qed.

(** A read-modify-write cycle that leaves the command bits and STCIEN
    alone keeps a ready state. *)
Lemma ready_cycle fuel l (w : world Chip) :
  ready fuel w ->
  forallb (fun fv => namedb (fst fv)) l = true ->
  carried bits.TUNE l 0 = 0 -> carried bits.SEEK l 0 = 0 ->
  carried bits.STCIEN l 0 = 0 ->
  ready fuel (flush (assign_all l (refresh w))).
Proof.
  intros (Hsz & Hreg & Hok & Hidle & Hls & Hlc) Hl Ht Hs Hi.
  apply chip_idle_spec in Hidle as (Ht0 & Hs0 & Hstc0 & Hien0).
  assert (Hrest : chip_resting (dev w) = true)
    by (apply chip_resting_spec; now repeat split).
  destruct (chip_cycle w l Hok Hrest Hl) as (Hok1 & Hctl & _ & Hp1 & Hp2 & _).
  pose proof (chip_cycle_resting w l Hok Hrest Hl Ht Hs) as Hrest1.
  set (w1 := flush (assign_all l (refresh w))) in *.
  unfold ready. rewrite Hp1, Hp2.
  split; [apply sized_flush, sized_assign_all, sized_refresh|].
  split; [exact Hreg|]. split; [exact Hok1|]. split; [|now split].
  apply chip_resting_spec in Hrest1 as (Ht1 & Hs1 & Hstc1).
  apply chip_idle_spec. split; [exact Ht1|]. split; [exact Hs1|].
  split; [exact Hstc1|].
  rewrite (Hctl bits.STCIEN) by (apply namedb_In || idtac; reflexivity).
  now rewrite Hien0.
Qed.

Lemma ready_assigned fuel f v (w : world Chip) :
  ready fuel w -> namedb f = true ->
  carried bits.TUNE [(f, v)] 0 = 0 -> carried bits.SEEK [(f, v)] 0 = 0 ->
  carried bits.STCIEN [(f, v)] 0 = 0 ->
  ready fuel (flush (assign f v (refresh w))).
Proof.
  intros Hr Hf Ht Hs Hi.
  apply (ready_cycle fuel [(f, v)] w Hr); [|assumption..].
  cbn [forallb fst]. now rewrite Hf.
Qed.

Lemma ready_elapsed fuel ms (w : world Chip) :
  ready fuel w -> ready fuel (elapsed ms w).
Proof. exact id. Qed.

Lemma void_ok {A} (c : M Chip A) (w w' : world Chip) a :
  c w = Ok a w' -> void c w = Ok tt w'.
Proof. intros Hc. unfold void. now rewrite (bind_ok _ _ _ _ _ Hc). Qed.

Lemma field_getter_ready fuel f (w : world Chip) :
  ready fuel w ->
  exists w', void (bind getShadow (fun _ => bits_get f)) w = Ok tt w' /\
             ready fuel w'.
Proof.
  intros Hr. exists (refresh w). split; [|now apply ready_refresh].
  eapply void_ok. apply field_getter_run. now apply (ready_sized fuel).
Qed.

Lemma flag_getter_ready fuel f (w : world Chip) :
  ready fuel w -> bf_width f = 1 -> 0 <= bf_off f ->
  exists w',
    void (bind getShadow
            (fun _ => bind (bits_get f) (fun v => ret (truthy v)))) w
    = Ok tt w' /\ ready fuel w'.
Proof.
  intros Hr Hw Ho. exists (refresh w). split; [|now apply ready_refresh].
  eapply void_ok. apply flag_getter_run; [|assumption..].
  now apply (ready_sized fuel).
Qed.

Lemma member_getter_ready fuel (get : Si4703 -> Z) (w : world Chip) :
  ready fuel w -> exists w', void (this get) w = Ok tt w' /\ ready fuel w'.
Proof. intros Hr. now exists w. Qed.

Lemma setVolume_ready fuel v (w : world Chip) :
  ready fuel w ->
  exists r w', setVolume v w = Ok r w' /\ ready fuel w'.
Proof.
  intros Hr. rewrite setVolume_run by now apply (ready_sized fuel).
  eexists. eexists. split; [reflexivity|].
  apply ready_refresh. unfold volume_written.
  now apply ready_assigned.
Qed.

Lemma stepVolume_ready fuel (step : Z) (w : world Chip) :
  -1 <= step <= 1 -> ready fuel w ->
  exists r w',
    (v <- getVolume ;; v' <- int_ (v + step) ;; setVolume v')%drv w
    = Ok r w' /\ ready fuel w'.
Proof.
  intros Hstep Hr.
  erewrite bind_ok by (apply getVolume_run; now apply (ready_sized fuel)).
  pose proof (field_range bits.VOLUME (decode (next_block w))
                field_ok_VOLUME) as Hv.
  change (2 ^ bf_width bits.VOLUME) with 16 in Hv.
  unfold bind at 1, int_ at 1. rewrite in_int_small by lia.
  apply setVolume_ready. now apply ready_refresh.
Qed.

Lemma powerUp_ready fuel (w : world Chip) :
  ready fuel w -> exists w', powerUp w = Ok tt w' /\ ready fuel w'.
Proof.
  intros Hr. exists (powered w).
  split; [apply powerUp_run; now apply (ready_sized fuel)|].
  unfold powered, oscillating.
  apply ready_elapsed, ready_cycle; try reflexivity.
  now apply ready_elapsed, ready_cycle.
Qed.

Lemma writeGPIO_ready fuel GPIO val (w : world Chip) :
  ready fuel w -> exists w', writeGPIO GPIO val w = Ok tt w' /\ ready fuel w'.
Proof.
  intros Hr. rewrite writeGPIO_run by now apply (ready_sized fuel).
  eexists. split; [reflexivity|]. unfold gpio_field.
  destruct (Z.eqb GPIO GPIO1); [now apply ready_assigned|].
  destruct (Z.eqb GPIO GPIO2); [now apply ready_assigned|].
  destruct (Z.eqb GPIO GPIO3); [now apply ready_assigned|].
  now apply (ready_cycle fuel [] w).
Qed.

Lemma stepChannel_ready fuel (step : Z -> Z -> Z) (w : world Chip) :
  (forall c s, -50000 <= c <= 50000 -> 0 <= s <= 20 ->
               -100000 <= step c s <= 100000) ->
  ready fuel w ->
  exists r w',
    (c <- getChannel ;;
     spacing <- this _bandSpacing ;;
     f <- int_ (step c spacing) ;;
     setChannel fuel f)%drv w = Ok r w' /\ ready fuel w'.
Proof.
  intros Hstep Hr.
  pose proof (ready_readchan fuel w Hr) as Hrc.
  assert (Hreg : region_set (drv w) = true) by apply Hr.
  destruct (region_set_range _ Hreg) as (Hb & He & Hs & _).
  rewrite (step_prefix fuel step w Hr)
    by (apply Hstep; unfold tuned_to; nia).
  destruct (setChannel_ready fuel
              (step (tuned_to w) (_bandSpacing (drv w))) (refresh w)
              (proj1 (ready_refresh fuel w Hr)))
    as (w1 & Hrun & Hr1 & _).
  eexists. exists w1. split; [exact Hrun|exact Hr1].
Qed.

(** Every call made while the radio is in use returns from a ready state
    and leaves one. *)
Lemma call_ready fuel c (w : world Chip) :
  operates c = true -> ready fuel w ->
  exists w', call_run fuel c w = Ok tt w' /\ ready fuel w'.
Proof.
  intros Hc Hr. pose proof (ready_sized fuel w Hr) as Hsz.
  destruct c; cbn [call_run]; try discriminate Hc.
  - now apply powerUp_ready.
  - now apply (field_getter_ready fuel bits.PN).
  - now apply (field_getter_ready fuel bits.MFGID).
  - now apply (field_getter_ready fuel bits.REV).
  - now apply (field_getter_ready fuel bits.DEV).
  - now apply (field_getter_ready fuel bits.FIRMWARE).
  - now apply (member_getter_ready fuel _bandStart).
  - now apply (member_getter_ready fuel _bandEnd).
  - now apply (member_getter_ready fuel _bandSpacing).
  - now apply (field_getter_ready fuel bits.RSSI).
  - exists (refresh w). split; [|now apply ready_refresh].
    eapply void_ok. apply getChannel_run; [exact Hsz|apply Hr].
  - destruct (setChannel_ready fuel freq w Hr) as (w1 & Hrun & Hr1 & _).
    exists w1. split; [exact (void_ok _ _ _ _ Hrun)|exact Hr1].
  - destruct (stepChannel_ready fuel Z.add w) as (r & w1 & Hrun & Hr1);
      [intros; lia|exact Hr|].
    exists w1. split; [exact (void_ok _ _ _ _ Hrun)|exact Hr1].
  - destruct (stepChannel_ready fuel Z.sub w) as (r & w1 & Hrun & Hr1);
      [intros; lia|exact Hr|].
    exists w1. split; [exact (void_ok _ _ _ _ Hrun)|exact Hr1].
  - destruct (seek_ready fuel SEEK_UP w Hr) as (r & w1 & Hrun & Hr1 & _).
    exists w1. split; [exact (void_ok _ _ _ _ Hrun)|exact Hr1].
  - destruct (seek_ready fuel SEEK_DOWN w Hr) as (r & w1 & Hrun & Hr1 & _).
    exists w1. split; [exact (void_ok _ _ _ _ Hrun)|exact Hr1].
  - rewrite setMono_run by exact Hsz. eexists. split; [reflexivity|].
    now apply ready_assigned.
  - now apply (flag_getter_ready fuel bits.MONO).
  - now apply (flag_getter_ready fuel bits.ST).
  - rewrite setMute_run by exact Hsz. eexists. split; [reflexivity|].
    now apply ready_assigned.
  - now apply (flag_getter_ready fuel bits.DMUTE).
  - rewrite setVolExt_run by exact Hsz. eexists. split; [reflexivity|].
    now apply ready_assigned.
  - now apply (flag_getter_ready fuel bits.VOLEXT).
  - now apply (field_getter_ready fuel bits.VOLUME).
  - destruct (setVolume_ready fuel volume w Hr) as (r & w1 & Hrun & Hr1).
    exists w1. split; [exact (void_ok _ _ _ _ Hrun)|exact Hr1].
  - destruct (stepVolume_ready fuel 1 w ltac:(lia) Hr)
      as (r & w1 & Hrun & Hr1).
    exists w1. split; [exact (void_ok _ _ _ _ Hrun)|exact Hr1].
  - destruct (stepVolume_ready fuel (-1) w ltac:(lia) Hr)
      as (r & w1 & Hrun & Hr1).
    exists w1. split; [exact (void_ok _ _ _ _ Hrun)|exact Hr1].
  - now exists w.
  - now apply writeGPIO_ready.
Qed.

(** X22. Once the radio is ready, it stays in use: from a ready state,
    every sequence of calls of public methods other than [start] and
    [powerDown] returns, provided the poll budget exceeds the latencies
    of the chip, and leaves driver and chip ready for the next call. No
    call leaves a command bit set or the STC flag pending for the one
    that follows. *)
Theorem sessions_return (fuel : nat) (cs : list call) (w : world Chip) :
  ready fuel w -> forallb operates cs = true ->
  exists w', session fuel cs w = Ok tt w' /\ ready fuel w'.
Proof.
  revert w. induction cs as [|c cs IH]; intros w Hr Hcs.
  - exists w. now split.
  - cbn [forallb] in Hcs. apply andb_true_iff in Hcs as [Hc Hcs].
    destruct (call_ready fuel c w Hc Hr) as (w1 & Hrun & Hr1).
    destruct (IH w1 Hr1 Hcs) as (w' & Hrest & Hr').
    exists w'. split; [|exact Hr'].
    cbn [session]. now rewrite (bind_ok _ _ _ _ _ Hrun).
Qed.

End Sessions.

(** * Settings written to the chip read back *)

Section ReadBack.

Lemma chip_reads fuel f (w : world Chip) :
  ready fuel w -> get_field f (decode (next_block w)) = chip_get f (dev w).
Proof.
  intros (_ & _ & Hok & Hidle & _).
  destruct (chip_idle_rest _ Hidle) as [Hb Hr].
  exact (proj2 (chip_rest_refresh w Hok Hb Hr) f).
Qed.

Lemma chip_takes fuel f v (w : world Chip) :
  ready fuel w -> namedb f = true -> is_control (bf_reg f) = true ->
  chip_get f (dev (flush (assign f v (refresh w)))) = v mod 2 ^ bf_width f.
Proof.
  intros (_ & _ & Hok & Hidle & _) Hf Hc.
  apply chip_idle_spec in Hidle as (Ht0 & Hs0 & Hstc0 & _).
  assert (Hrest : chip_resting (dev w) = true)
    by (apply chip_resting_spec; now repeat split).
  assert (Hl : forallb (fun fv : bitfield * Z => namedb (fst fv)) [(f, v)]
               = true) by (cbn [forallb fst]; now rewrite Hf).
  destruct (chip_cycle w [(f, v)] Hok Hrest Hl) as (_ & Hctl & _).
  change (flush (assign f v (refresh w)))
    with (flush (assign_all [(f, v)] (refresh w))).
  rewrite (Hctl f (namedb_In f Hf) Hc).
  unfold carried. cbn [assigned].
  assert (E : bitfield_eqb f f = true) by now apply bitfield_eqb_eq.
  now rewrite E.
Qed.

Lemma flag_reads fuel f (w : world Chip) :
  ready fuel w ->
  bind getShadow (fun _ => bind (bits_get f) (fun v => ret (truthy v))) w =
  Ok (truthy (chip_get f (dev w))) (refresh w).
Proof.
  intros Hr. erewrite bind_ok by (apply getShadow_run, Hr).
  erewrite bind_ok by apply bits_get_run. unfold ret.
  change (shadow (drv (refresh w))) with (decode (next_block w)).
  now rewrite (chip_reads fuel).
Qed.

(** A flag written by a read-modify-write cycle and read back. *)
Lemma flag_read_back fuel f (en : bool) (w : world Chip) :
  ready fuel w -> namedb f = true -> is_control (bf_reg f) = true ->
  bf_width f = 1 ->
  carried bits.TUNE [(f, Z.b2z en)] 0 = 0 ->
  carried bits.SEEK [(f, Z.b2z en)] 0 = 0 ->
  carried bits.STCIEN [(f, Z.b2z en)] 0 = 0 ->
  let w1 := flush (assign f (Z.b2z en) (refresh w)) in
  ready fuel w1 /\
  bind getShadow (fun _ => bind (bits_get f) (fun v => ret (truthy v))) w1 =
  Ok en (refresh w1).
Proof.
  intros Hr Hf Hc Hw Ht Hs Hi w1.
  assert (Hr1 : ready fuel w1) by now apply ready_assigned.
  split; [exact Hr1|].
  rewrite (flag_reads fuel f w1 Hr1). unfold w1.
  rewrite (chip_takes fuel f (Z.b2z en) w Hr Hf Hc), Hw.
  now destruct en.
Qed.

Lemma volume_read_back fuel v (w : world Chip) :
  ready fuel w ->
  exists w1,
    setVolume v w = Ok (clamp_volume v) w1 /\ ready fuel w1 /\
    getVolume w1 = Ok (clamp_volume v) (refresh w1).
Proof.
  intros Hr. pose proof (clamp_volume_range v) as Hv.
  assert (Hr0 : ready fuel (volume_written v w))
    by (unfold volume_written; now apply ready_assigned).
  assert (Hvol : chip_get bits.VOLUME (dev (volume_written v w))
                 = clamp_volume v).
  { unfold volume_written.
    rewrite (chip_takes fuel bits.VOLUME _ w Hr eq_refl eq_refl).
    apply Z.mod_small. change (2 ^ bf_width bits.VOLUME) with 16. lia. }
  destruct (ready_refresh fuel _ Hr0) as [Hr1 Hd1].
  exists (refresh (volume_written v w)).
  split.
  { rewrite setVolume_run by apply Hr.
    now rewrite (chip_reads fuel _ _ Hr0), Hvol. }
  split; [exact Hr1|].
  rewrite getVolume_run by apply Hr1.
  now rewrite (chip_reads fuel _ _ Hr1), Hd1, Hvol.
Qed.

(** X23. On the simulated chip, what is set is what is got. From a ready
    state [setVolume v] returns the volume clamped to 0..15 and
    [getVolume] returns it again; [setMono], [setMute] and [setVolExt]
    followed by their getters return the flag just written; [incVolume]
    returns the chip's volume plus one but at most 15, [decVolume] the
    volume minus one but at least 0. Each leaves a ready state. *)
Theorem settings_read_back (fuel : nat) (w : world Chip) :
  ready fuel w ->
  let cur := chip_get bits.VOLUME (dev w) in
  (forall v, exists w1,
     setVolume v w = Ok (clamp_volume v) w1 /\ ready fuel w1 /\
     getVolume w1 = Ok (clamp_volume v) (refresh w1)) /\
  (forall en, exists w1,
     setMono en w = Ok tt w1 /\ ready fuel w1 /\
     getMono w1 = Ok en (refresh w1)) /\
  (forall en, exists w1,
     setMute en w = Ok tt w1 /\ ready fuel w1 /\
     getMute w1 = Ok en (refresh w1)) /\
  (forall en, exists w1,
     setVolExt en w = Ok tt w1 /\ ready fuel w1 /\
     getVolExt w1 = Ok en (refresh w1)) /\
  (exists w1, incVolume w = Ok (Z.min 15 (cur + 1)) w1 /\ ready fuel w1) /\
  (exists w1, decVolume w = Ok (Z.max 0 (cur - 1)) w1 /\ ready fuel w1) /\
  0 <= cur <= 15.
Proof.
  intros Hr cur. pose proof (ready_sized fuel w Hr) as Hsz.
  assert (Hcur : 0 <= cur <= 15).
  { unfold cur. rewrite chip_get_regs.
    pose proof (regs_get_range bits.VOLUME (regs (dev w)) field_ok_VOLUME)
      as Hv.
    change (2 ^ bf_width bits.VOLUME) with 16 in Hv. lia. }
  split; [intros v; now apply volume_read_back|].
  split.
  { intros en. eexists. split; [now apply setMono_run|].
    now apply (flag_read_back fuel bits.MONO). }
  split.
  { intros en. eexists. split; [now apply setMute_run|].
    now apply (flag_read_back fuel bits.DMUTE). }
  split.
  { intros en. eexists. split; [now apply setVolExt_run|].
    now apply (flag_read_back fuel bits.VOLEXT). }
  destruct (ready_refresh fuel w Hr) as [Hr' Hd'].
  assert (Estep : forall step : Z -> Z, -1 <= step cur <= 16 ->
            (v <- getVolume ;; v' <- int_ (step v) ;; setVolume v')%drv w
            = setVolume (step cur) (refresh w)).
  { intros step Hstep.
    erewrite bind_ok by now apply getVolume_run.
    rewrite (chip_reads fuel _ _ Hr). fold cur.
    unfold bind at 1, int_ at 1. now rewrite in_int_small by lia. }
  split; [|split; [|exact Hcur]].
  - destruct (volume_read_back fuel (cur + 1) (refresh w) Hr')
      as (w1 & Hrun & Hr1 & _).
    exists w1. split; [|exact Hr1].
    pose proof (Estep (fun v => v + 1) ltac:(lia)) as E. cbv beta in E.
    unfold incVolume. rewrite E, Hrun.
    f_equal. unfold clamp_volume. lia.
  - destruct (volume_read_back fuel (cur - 1) (refresh w) Hr')
      as (w1 & Hrun & Hr1 & _).
    exists w1. split; [|exact Hr1].
    pose proof (Estep (fun v => v - 1) ltac:(lia)) as E. cbv beta in E.
    unfold decVolume. rewrite E, Hrun.
    f_equal. unfold clamp_volume. lia.
Qed.

End ReadBack.

(** * The further properties at concrete inputs *)

Section MoreWitnesses.

Lemma named_fields_independent_witness :
  get_field bits.VOLUME (set_field bits.VOLUME 21 (shadow (drv started))) = 5
  /\ get_field bits.SPACE (set_field bits.VOLUME 21 (shadow (drv started)))
     = get_field bits.SPACE (shadow (drv started)).
Proof.
  assert (Hf : In bits.VOLUME named_fields)
    by (vm_compute; repeat first [left; reflexivity | right]).
  assert (Hg : In bits.SPACE named_fields)
    by (vm_compute; repeat first [left; reflexivity | right]).
  destruct (named_fields_independent bits.VOLUME bits.SPACE 21
              (shadow (drv started)) Hf Hg started_sized)
    as (H1 & _ & H3 & _).
  split; [exact H1|]. apply H3. discriminate.
Defined.

Lemma powerUp_sequence_witness :
  exists w' tx1 tx2,
    powerUp started = Ok tt w' /\
    sent_field bits.XOSCEN tx1 = 1 /\ sent_field bits.ENABLE tx2 = 1.
Proof.
  destruct (powerUp_sequence started started_sized)
    as (w' & b1 & tx1 & s1 & b2 & tx2 & s2 & Hrun & _ & Hx & He & _).
  exists w', tx1, tx2. repeat split; assumption.
Defined.

Lemma powerDown_sequence_witness :
  exists w' tx,
    powerDown started = Ok tt w' /\
    sent_field bits.DISABLE tx = 1 /\ sent_field bits.DMUTE tx = 0.
Proof.
  destruct (powerDown_sequence started started_sized)
    as (w' & b & tx & st & Hrun & _ & _ & _ & _ & _ & Hm & _ & Hd & _).
  exists w', tx. repeat split; assumption.
Defined.

Lemma start_configuration_witness :
  exists w' rest,
    start far_pins_world = Ok tt w' /\
    trace w' =
      [EvPinMode 44 OUTPUT; EvPinMode 255 OUTPUT;
       EvDigitalWrite 44 false; EvDigitalWrite 255 false; EvDelay 1;
       EvDigitalWrite 44 true; EvDelay 1; EvPinMode 255 INPUT_PULLUP;
       EvWireBegin (-1) 22] ++ rest /\
    length rest = 8%nat /\
    same_config (drv far_pins_world) (drv w').
Proof.
  assert (Hsz : sized far_pins_world) by reflexivity.
  destruct (start_configuration far_pins_world Hsz)
    as (w' & b1 & tx1 & s1 & b2 & tx2 & s2 & b & tx & st & Hrun & Htr & _ & _
        & Hcfg).
  exists w', [EvRequest I2C_ADDR 32 b1; EvTransmit I2C_ADDR tx1 s1;
              EvDelay 500; EvRequest I2C_ADDR 32 b2;
              EvTransmit I2C_ADDR tx2 s2; EvDelay 110;
              EvRequest I2C_ADDR 32 b; EvTransmit I2C_ADDR tx st].
  split; [exact Hrun|]. split; [rewrite Htr; reflexivity|].
  split; [reflexivity|exact Hcfg].
Defined.

Lemma identification_getters_witness :
  exists w', getPN started = Ok 1 w' /\ getMFGID started = Ok 0x242 w'.
Proof.
  destruct (identification_getters started started_sized)
    as (Hm & Hp & _).
  exists (refresh started). split; [exact Hp|exact Hm].
Defined.

Lemma status_getters_witness :
  exists w', getRSSI started = Ok 0 w' /\ getST started = Ok false w'.
Proof.
  destruct (status_getters started started_sized) as (Hr & Hs & _).
  exists (refresh started). split; [exact Hr|exact Hs].
Defined.

Lemma unplugged_sized : @sized unit unplugged.
Proof. reflexivity. Defined.

Lemma getShadow_short_read_witness :
  exists w',
    @getShadow unit no_device unplugged = Ok tt w' /\
    @getVolume unit no_device unplugged = Ok 15 w' /\
    word (shadow (drv w')) 0 = 65535.
Proof.
  destruct (@getShadow_short_read unit no_device unplugged unplugged_sized)
    as (w' & Hrun & Hword & _ & Hnil).
  exists w'. split; [exact Hrun|]. split.
  - apply Hnil. reflexivity.
  - apply Hword; [lia|]. simpl. lia.
Defined.

Lemma setMono_round_trip_witness :
  exists w' tx,
    setMono true started = Ok tt w' /\ sent_field bits.MONO tx = 1.
Proof.
  destruct (setMono_round_trip true started started_sized)
    as (w' & tx & st & Hrun & _ & Hsent & _).
  exists w', tx. split; [exact Hrun|exact Hsent].
Defined.

Lemma setVolExt_round_trip_witness :
  exists w' tx,
    setVolExt true started = Ok tt w' /\ sent_field bits.VOLEXT tx = 1.
Proof.
  destruct (setVolExt_round_trip true started started_sized)
    as (w' & tx & st & Hrun & _ & Hsent & _).
  exists w', tx. split; [exact Hrun|exact Hsent].
Defined.

Lemma no_device_stuck : @stc_stuck unit no_device (fun _ => True).
Proof. unfold stc_stuck. repeat split. Defined.

Lemma stuck_STC_never_returns_witness :
  (exists w', @setChannel unit no_device 7 9870 unplugged = Timeout w') /\
  (exists w', @seek unit no_device 7 SEEK_UP unplugged = Timeout w').
Proof.
  destruct (@stuck_STC_never_returns unit no_device (fun _ => True)
              7 9870 SEEK_UP unplugged no_device_stuck unplugged_sized I)
    as [Htune Hseek].
  split; [apply Htune; reflexivity|exact Hseek].
Defined.

Lemma demo_world_sized : sized demo_world.
Proof. reflexivity. Defined.

Lemma start_makes_ready_witness :
  exists w',
    start demo_world = Ok tt w' /\ ready 5 w' /\
    _bandStart (drv w') = 8750 /\ _bandEnd (drv w') = 10800 /\
    _bandSpacing (drv w') = 10.
Proof.
  assert (Hok : chip_ok (dev demo_world))
    by (apply chip_okb_ok; reflexivity).
  assert (Hrest : chip_resting (dev demo_world) = true) by reflexivity.
  assert (Hb : known_band (_band (drv demo_world)) = true) by reflexivity.
  assert (Hs : known_space (_space (drv demo_world)) = true)
    by reflexivity.
  assert (H5 : (set_latency (dev demo_world) < 5)%nat)
    by (vm_compute; lia).
  assert (H6 : (clear_latency (dev demo_world) < 5)%nat)
    by (vm_compute; lia).
  destruct (start_makes_ready demo_world 5 demo_world_sized Hok Hrest Hb Hs
              H5 H6)
    as (w' & Hrun & Hready & _ & _ & Hus & _ & _ & _ & H100 & _).
  destruct (Hus eq_refl) as [Hlo Hhi].
  exists w'. split; [exact Hrun|]. split; [exact Hready|].
  split; [exact Hlo|]. split; [exact Hhi|exact (H100 eq_refl)].
Defined.

Lemma started_is_ready : ready 5 started.
Proof.
  unfold ready. split; [exact started_sized|].
  split; [reflexivity|]. split; [exact started_chip_ok|].
  split; [reflexivity|]. split; vm_compute; lia.
Defined.

Lemma incChannel_saturates_witness :
  exists r w1, incChannel 5 started = Ok r w1 /\ r = 8760.
Proof.
  destruct (incChannel_saturates 5 started started_is_ready)
    as (r & w1 & Hrun & _ & _ & _ & Hup & _).
  exists r, w1. split; [exact Hrun|].
  apply Hup. apply Z.leb_le. reflexivity.
Defined.

Lemma decChannel_saturates_witness :
  exists r w1, decChannel 5 started = Ok r w1 /\ r = 8750.
Proof.
  destruct (decChannel_saturates 5 started started_is_ready)
    as (r & w1 & Hrun & _ & _ & _ & _ & Hlow & _).
  exists r, w1. split; [exact Hrun|].
  apply Hlow. apply Z.ltb_lt. reflexivity.
Defined.

Lemma seek_on_chip_witness :
  exists r w1, seekUp 5 started = Ok r w1 /\ ready 5 w1.
Proof.
  destruct (seek_on_chip true 5 started started_is_ready)
    as (r & w1 & Hrun & Hready & _).
  exists r, w1. split; [exact Hrun|exact Hready].
Defined.

Lemma getChannel_on_grid_witness :
  exists w', getChannel started = Ok 8750 w'.
Proof.
  assert (Hreg : region_set (drv started) = true) by reflexivity.
  destruct (getChannel_on_grid started started_sized Hreg) as (Hrun & _).
  exists (refresh started). exact Hrun.
Defined.

Lemma seek_command_bits_witness :
  exists tx st rest,
    trace (final (seekDown 5 started)) =
      trace started ++ [EvRequest I2C_ADDR 32 (next_block started);
                        EvTransmit I2C_ADDR tx st] ++ rest /\
    sent_field bits.SEEKUP tx = 0.
Proof.
  destruct (seek_command_bits false 5 started started_sized)
    as (tx & st & rest & Htr & _ & Hup & _).
  exists tx, st, rest. split; [exact Htr|exact Hup].
Defined.

Lemma completion_not_awaited_witness :
  exists tx1 s1 b2 tx2 s2 rest,
    trace (final (@seek unit no_device 3 SEEK_UP unplugged)) =
      trace unplugged ++
        [EvRequest I2C_ADDR 32 (@next_block unit no_device unplugged);
         EvTransmit I2C_ADDR tx1 s1; EvRequest I2C_ADDR 32 b2;
         EvTransmit I2C_ADDR tx2 s2] ++ rest /\
    sent_field bits.SEEK tx2 = 0.
Proof.
  assert (Hien : get_field bits.STCIEN
                   (decode (@next_block unit no_device unplugged)) <> 0)
    by (vm_compute; discriminate).
  destruct (@completion_not_awaited unit no_device 3 9870 SEEK_UP unplugged
              unplugged_sized Hien)
    as (_ & tx1 & s1 & b2 & tx2 & s2 & rest & Htr & _ & Hclr & _).
  exists tx1, s1, b2, tx2, s2, rest. split; [exact Htr|exact Hclr].
Defined.

Lemma bus_discipline_witness :
  exists evs,
    trace (call_final 5 (c_setChannel 9870) started) = trace started ++ evs /\
    Forall bus_ok evs.
Proof.
  destruct (bus_discipline 5 (c_setChannel 9870) started started_sized)
    as (_ & _ & evs & Htr & Hok).
  exists evs. split; [exact Htr|exact Hok].
Defined.

Lemma only_start_configures_witness :
  members_same (drv started) (drv (call_final 5 c_seekUp started)).
Proof.
  assert (Hc : c_seekUp <> c_start) by discriminate.
  destruct (only_start_configures 5 c_seekUp started started_sized Hc)
    as (Hm & _).
  exact Hm.
Defined.

Lemma release_after_completion_witness :
  released_after_completion bits.SEEK started (seek 5 SEEK_UP started).
Proof.
  assert (Hien : get_field bits.STCIEN (decode (next_block started)) = 0)
    by reflexivity.
  destruct (release_after_completion 5 9870 SEEK_UP started started_sized
              Hien) as [_ Hseek].
  exact Hseek.
Defined.

Lemma sessions_return_witness :
  exists w',
    session 5 [c_setVolume 9; c_seekUp; c_incChannel; c_getRSSI] started
    = Ok tt w' /\ ready 5 w'.
Proof.
  apply (sessions_return 5 [c_setVolume 9; c_seekUp; c_incChannel; c_getRSSI]
           started started_is_ready).
  reflexivity.
Defined.

Lemma settings_read_back_witness :
  exists w1, setVolume 99 started = Ok 15 w1 /\ ready 5 w1.
Proof.
  destruct (settings_read_back 5 started started_is_ready) as (Hvol & _).
  destruct (Hvol 99) as (w1 & Hrun & Hr1 & _).
  exists w1. split; [exact Hrun|exact Hr1].
Defined.

End MoreWitnesses.
